(** * A shallow embedding of the crypto matching engine

    The development follows the Python sources:
    - [engine/order_types.py]      : [Order], [Trade] and the enumerations;
    - [engine/data_structures.py]  : [PriceLevel], [OrderBookSide];
    - [engine/order_book.py]       : [OrderBook];
    - [engine/matching_engine.py]  : [MatchingEngine];
    - [engine/persistence.py]      : [PersistenceManager], [StateRecoveryManager].

    Modelling conventions.
    - A [decimal.Decimal] is a coefficient and an exponent, and arithmetic
      rounds to the 28 significant digits of Python's default context
      (ROUND_HALF_EVEN).  Only finite values are modelled, and the exponent
      range of the context (Emin, Emax) is not.
    - Python objects that are shared between containers (the resting
      [Order]s, which are held both by the index [OrderBook.orders] and by
      the FIFO list of their price level) live in one store keyed by
      [order_id]; price levels hold the keys.
    - A [dict] is an insertion-ordered association list.
    - [heapq] is used by the code only through [heap[0]], [heappush] and
      [heappop]; the heap is modelled by a sorted list, for which these
      three operations return the same values.
    - [asyncio.Queue.put_nowait] raises [QueueFull] on a full queue; raised
      exceptions are explicit results.  A queue holds the state its items
      had when they were put.
    - The latency samples of [PerformanceMonitor] depend on the wall clock
      and are left out.
    - A binary64 float, as the REAL columns of the store hold it, is a
      mantissa and a binary exponent, or an infinity; the table [orders] is
      a dictionary keyed by [order_id], and a timestamp is a naive
      [datetime]. *)

From Stdlib Require Import ZArith List String Ascii Bool Lia.
Import ListNotations.
Local Open Scope Z_scope.

(* ================================================================= *)
(** * Decimal arithmetic *)

Module Dec.

(** A finite decimal [coef * 10 ^ exp]. *)
Record Decimal : Type := mkDecimal { coef : Z; exp : Z }.

(** Precision of the default context. *)
Definition prec : Z := 28.

Fixpoint ndigits_aux (fuel : nat) (n : Z) : Z :=
  match fuel with
  | O => 1
  | S f => if n <? 10 then 1 else 1 + ndigits_aux f (n / 10)
  end.

(** Number of decimal digits of the coefficient (1 for zero). *)
Definition ndigits (n : Z) : Z :=
  ndigits_aux (Z.to_nat (Z.log2 (Z.abs n))) (Z.abs n).

(** [c / 10^k] rounded to the nearest integer, ties to even ([0 <= c], [0 < k]). *)
Definition round_half_even (c k : Z) : Z :=
  let p := 10 ^ k in
  let q := c / p in
  let r := c mod p in
  let half := 5 * 10 ^ (k - 1) in
  if (half <? r) || ((r =? half) && Z.odd q) then q + 1 else q.

(** [Decimal._fix]: round the result of an operation to the context precision. *)
Definition fix_ctx (d : Decimal) : Decimal :=
  let n := ndigits (coef d) in
  if n <=? prec then d
  else
    let k := n - prec in
    let c := round_half_even (Z.abs (coef d)) k in
    let s := Z.sgn (coef d) in
    if c =? 10 ^ prec
    then mkDecimal (s * 10 ^ (prec - 1)) (exp d + k + 1)
    else mkDecimal (s * c) (exp d + k).

(** Coefficients of two decimals brought to their common (smaller) exponent. *)
Definition align (a b : Decimal) : Z * Z :=
  let m := Z.min (exp a) (exp b) in
  (coef a * 10 ^ (exp a - m), coef b * 10 ^ (exp b - m)).

Definition copy_negate (a : Decimal) : Decimal := mkDecimal (- coef a) (exp a).

(** [a + b] *)
Definition add (a b : Decimal) : Decimal :=
  let (x, y) := align a b in
  fix_ctx (mkDecimal (x + y) (Z.min (exp a) (exp b))).

(** [a - b], which Python computes as [a + b.copy_negate()]. *)
Definition sub (a b : Decimal) : Decimal := add a (copy_negate b).

(** [a * b] *)
Definition mul (a b : Decimal) : Decimal :=
  fix_ctx (mkDecimal (coef a * coef b) (exp a + exp b)).

(** Unary minus [-a]; it applies the context as every operation does. *)
Definition neg (a : Decimal) : Decimal := fix_ctx (copy_negate a).

(** Comparisons are numeric and exact. *)
Definition compare (a b : Decimal) : comparison :=
  let (x, y) := align a b in x ?= y.

Definition eqb (a b : Decimal) : bool :=
  match compare a b with Eq => true | _ => false end.
Definition ltb (a b : Decimal) : bool :=
  match compare a b with Lt => true | _ => false end.
Definition leb (a b : Decimal) : bool :=
  match compare a b with Gt => false | _ => true end.

Definition zero : Decimal := mkDecimal 0 0.

(** Python's [min(a, b)]: the first argument unless the second is smaller. *)
Definition min (a b : Decimal) : Decimal := if ltb b a then b else a.

(** Python's [sum(xs)]: a left fold of [+] that starts from the integer 0. *)
Definition sum (xs : list Decimal) : Decimal := fold_left add xs zero.

(** ** The grid view used in proofs

    [units s d] reads [d] as an integer number of [10^-s] quanta; it is
    meaningful when [- s <= exp d].  On a grid whose values stay below
    [10^28] quanta no operation rounds. *)
Definition units (s : Z) (d : Decimal) : Z := coef d * 10 ^ (exp d + s).

Definition bound : Z := 10 ^ prec.

Definition Ongrid (s : Z) (d : Decimal) : Prop :=
  - s <= exp d /\ Z.abs (units s d) < bound.

(** The coefficient itself has at most 28 digits. *)
Definition Fits (d : Decimal) : Prop := Z.abs (coef d) < bound.

End Dec.

Abbreviation Decimal := Dec.Decimal.

(* ================================================================= *)
(** * Python containers and control *)

(** An insertion-ordered [dict]: keys are compared with [keq] (for
    [Decimal] keys this is numeric equality, as Python hashes them). *)
Module Dict.
Section WithKey.
Context {K V : Type} (keq : K -> K -> bool).

Fixpoint get (k : K) (d : list (K * V)) : option V :=
  match d with
  | [] => None
  | (k', v) :: d' => if keq k' k then Some v else get k d'
  end.

(** [d[k] = v]: an existing key keeps its place (and its key object). *)
Fixpoint set (k : K) (v : V) (d : list (K * V)) : list (K * V) :=
  match d with
  | [] => [(k, v)]
  | (k', v') :: d' =>
      if keq k' k then (k', v) :: d' else (k', v') :: set k v d'
  end.

(** [d.pop(k, None)] / [del d[k]] *)
Definition del (k : K) (d : list (K * V)) : list (K * V) :=
  filter (fun kv => negb (keq (fst kv) k)) d.

Definition mem (k : K) (d : list (K * V)) : bool :=
  match get k d with Some _ => true | None => false end.
End WithKey.

Definition keys {K V : Type} (d : list (K * V)) : list K := map fst d.
End Dict.

(** Exceptions the modelled code can raise. *)
Inductive exn : Type := QueueFull | TypeError | AttributeError.

(** The result of a call: a value, a raised exception, or a loop of the
    model that ran out of its bound (see [MatchingEngine.loop_bound]). *)
Inductive outcome (A : Type) : Type :=
| Ok (a : A)
| Raise (e : exn)
| Unfinished.
Arguments Ok {A} a.
Arguments Raise {A} e.
Arguments Unfinished {A}.

(** [sorted(keys)] and [sorted(keys, reverse=True)] on decimals. *)
Fixpoint insert_sorted (le : Decimal -> Decimal -> bool) (x : Decimal)
  (l : list Decimal) : list Decimal :=
  match l with
  | [] => [x]
  | y :: l' => if le x y then x :: l else y :: insert_sorted le x l'
  end.

(** The order of [sorted]: ascending, or descending under [reverse]. *)
Definition sort_le (reverse : bool) (a b : Decimal) : bool :=
  if reverse then Dec.leb b a else Dec.leb a b.

Definition sorted (reverse : bool) (l : list Decimal) : list Decimal :=
  fold_right (insert_sorted (sort_le reverse)) [] l.

(** [heapq.heappush] on the sorted-list model of the heap. *)
Fixpoint heappush (heap : list Decimal) (x : Decimal) : list Decimal :=
  match heap with
  | [] => [x]
  | y :: h' => if Dec.ltb x y then x :: heap else y :: heappush h' x
  end.

(** A [set] of decimals. *)
Definition set_mem (x : Decimal) (s : list Decimal) : bool :=
  existsb (Dec.eqb x) s.
Definition set_add (x : Decimal) (s : list Decimal) : list Decimal :=
  if set_mem x s then s else s ++ [x].
Definition set_discard (x : Decimal) (s : list Decimal) : list Decimal :=
  filter (fun y => negb (Dec.eqb y x)) s.

(* ================================================================= *)
(** * engine/order_types.py *)

Inductive OrderSide : Type := BUY | SELL.

Inductive OrderType : Type :=
| MARKET | LIMIT | IOC | FOK | STOP_LOSS | STOP_LIMIT | TAKE_PROFIT.

Inductive OrderStatus : Type :=
| PENDING | PARTIALLY_FILLED | FILLED | CANCELLED | REJECTED.

(** A naive [datetime.datetime]. *)
Record datetime : Type := mkDatetime {
  year : Z; month : Z; day : Z;
  hour : Z; minute : Z; second : Z; microsecond : Z }.

Module Order.
Record t : Type := mk {
  order_id : string;
  symbol : string;
  side : OrderSide;
  order_type : OrderType;
  price : option Decimal;
  stop_price : option Decimal;
  quantity : Decimal;
  filled_quantity : Decimal;
  status : OrderStatus;
  timestamp : datetime;
  user_id : option string }.

Definition remaining_quantity (o : t) : Decimal :=
  Dec.sub (quantity o) (filled_quantity o).

(** Attribute assignments. *)
Definition set_filled_quantity (q : Decimal) (o : t) : t :=
  mk (order_id o) (symbol o) (side o) (order_type o) (price o) (stop_price o)
     (quantity o) q (status o) (timestamp o) (user_id o).

Definition set_status (s : OrderStatus) (o : t) : t :=
  mk (order_id o) (symbol o) (side o) (order_type o) (price o) (stop_price o)
     (quantity o) (filled_quantity o) s (timestamp o) (user_id o).
End Order.
Abbreviation Order := Order.t.

(** [Trade.trade_id] (a fresh uuid4) and [Trade.timestamp] (the wall clock)
    come from the environment and are read by no operation of the engine;
    the record keeps the fields the engine computes. *)
Module Trade.
Record t : Type := mk {
  symbol : string;
  price : Decimal;
  quantity : Decimal;
  aggressor_side : OrderSide;
  maker_order_id : string;
  taker_order_id : string;
  maker_fee : Decimal;
  taker_fee : Decimal }.
End Trade.
Abbreviation Trade := Trade.t.

(** The [Order] objects of a book, by [order_id]. *)
Definition Store : Type := list (string * Order).

(* ================================================================= *)
(** * engine/data_structures.py *)

(** [ids.pop(i)] for the first [i] whose element is [id]. *)
Fixpoint remove_first (id : string) (ids : list string) : option (list string) :=
  match ids with
  | [] => None
  | x :: r =>
      if String.eqb x id then Some r
      else match remove_first id r with
           | Some r' => Some (x :: r')
           | None => None
           end
  end.

Module PriceLevel.
(** A single price level: the FIFO queue holds the keys of the resting
    orders in the store. *)
Record t : Type := mk {
  price : Decimal;
  orders : list string;
  total_quantity : Decimal }.

Definition init (p : Decimal) : t := mk p [] Dec.zero.

(** The objects of the FIFO list.  A level only ever holds orders that the
    book has indexed, so every key is found. *)
Definition objects (store : Store) (l : t) : list Order :=
  flat_map (fun id => match Dict.get String.eqb id store with
                      | Some o => [o]
                      | None => []
                      end) (orders l).

(** [if self.total_quantity < 0: self.total_quantity = Decimal("0")] *)
Definition clamp (q : Decimal) : Decimal :=
  if Dec.ltb q Dec.zero then Dec.zero else q.

Definition add_order (order : Order) (l : t) : t :=
  mk (price l) (orders l ++ [Order.order_id order])
     (Dec.add (total_quantity l) (Order.remaining_quantity order)).

Definition remove_order (store : Store) (order_id : string) (l : t) : bool * t :=
  match remove_first order_id (orders l) with
  | None => (false, l)
  | Some ids' =>
      let tq := match Dict.get String.eqb order_id store with
                | Some o => Dec.sub (total_quantity l) (Order.remaining_quantity o)
                | None => total_quantity l
                end in
      (true, mk (price l) ids' (clamp tq))
  end.

Definition update_quantity (store : Store) (order_id : string)
  (filled_quantity : Decimal) (l : t) : t :=
  let fq := filled_quantity in
  if Dec.leb fq Dec.zero then l
  else match remove_first order_id (orders l) with
       | None => l
       | Some ids' =>
           let tq := clamp (Dec.sub (total_quantity l) fq) in
           let gone := match Dict.get String.eqb order_id store with
                       | Some o => Dec.leb (Order.remaining_quantity o) Dec.zero
                       | None => false
                       end in
           mk (price l) (if gone then ids' else orders l) tq
       end.

(** [empty] answers and, on the slow path, reconciles [total_quantity]. *)
Definition empty (store : Store) (l : t) : bool * t :=
  if Dec.leb (total_quantity l) Dec.zero then (true, l)
  else
    let agg := Dec.sum (map Order.remaining_quantity (objects store l)) in
    let l' := if negb (Dec.eqb agg (total_quantity l))
              then mk (price l) (orders l) agg else l in
    (Dec.leb (total_quantity l') Dec.zero, l').
End PriceLevel.
Abbreviation PriceLevel := PriceLevel.t.

Module OrderBookSide.
Record t : Type := mk {
  is_bid : bool;
  price_levels : list (Decimal * PriceLevel);
  price_heap : list Decimal;
  _price_set : list Decimal }.

Definition init (is_bid : bool) : t := mk is_bid [] [] [].

Definition _heap_key (is_bid : bool) (price : Decimal) : Decimal :=
  if is_bid then Dec.neg price else price.

Definition _heap_to_price (is_bid : bool) (key : Decimal) : Decimal :=
  if is_bid then Dec.neg key else key.

(** The loop of [_clean_heap]; every turn but the last pops the head. *)
Fixpoint _clean_heap_loop (store : Store) (is_bid : bool)
  (levels : list (Decimal * PriceLevel)) (pset heap : list Decimal)
  : list (Decimal * PriceLevel) * list Decimal * list Decimal :=
  match heap with
  | [] => (levels, [], pset)
  | top_key :: rest =>
      let price := _heap_to_price is_bid top_key in
      match Dict.get Dec.eqb price levels with
      | Some lvl =>
          let (e, lvl') := PriceLevel.empty store lvl in
          let levels' := Dict.set Dec.eqb price lvl' levels in
          if e
          then _clean_heap_loop store is_bid levels' (set_discard price pset) rest
          else (levels', heap, pset)
      | None =>
          _clean_heap_loop store is_bid levels (set_discard price pset) rest
      end
  end.

Definition _clean_heap (store : Store) (s : t) : t :=
  match _clean_heap_loop store (is_bid s) (price_levels s) (_price_set s)
          (price_heap s) with
  | (levels, heap, pset) => mk (is_bid s) levels heap pset
  end.

(** [[p for p, lvl in self.price_levels.items() if lvl.empty()]] together
    with the reconciled levels. *)
Fixpoint empty_levels (store : Store) (levels : list (Decimal * PriceLevel))
  : list Decimal * list (Decimal * PriceLevel) :=
  match levels with
  | [] => ([], [])
  | (p, lvl) :: rest =>
      let (e, lvl') := PriceLevel.empty store lvl in
      let (drop, rest') := empty_levels store rest in
      (if e then p :: drop else drop, (p, lvl') :: rest')
  end.

Definition prune_empty_levels (store : Store) (s : t) : t :=
  let (to_drop, levels) := empty_levels store (price_levels s) in
  let levels' := fold_left (fun d p => Dict.del Dec.eqb p d) to_drop levels in
  let pset' := fold_left (fun ps p => set_discard p ps) to_drop (_price_set s) in
  _clean_heap store (mk (is_bid s) levels' (price_heap s) pset').

Definition get_best_price (store : Store) (s : t) : option Decimal * t :=
  let s' := _clean_heap store s in
  match price_heap s' with
  | [] => (None, s')
  | top_key :: _ => (Some (_heap_to_price (is_bid s') top_key), s')
  end.

(** [Decimal(order.price)] raises [TypeError] on [None]. *)
Definition add_order (order : Order) (s : t) : outcome unit * t :=
  match Order.price order with
  | None => (Raise TypeError, s)
  | Some price =>
      match Dict.get Dec.eqb price (price_levels s) with
      | Some lvl =>
          (Ok tt, mk (is_bid s)
                     (Dict.set Dec.eqb price (PriceLevel.add_order order lvl)
                        (price_levels s))
                     (price_heap s) (_price_set s))
      | None =>
          let lvl := PriceLevel.init price in
          let levels := Dict.set Dec.eqb price (PriceLevel.add_order order lvl)
                          (price_levels s) in
          if set_mem price (_price_set s)
          then (Ok tt, mk (is_bid s) levels (price_heap s) (_price_set s))
          else (Ok tt, mk (is_bid s) levels
                          (heappush (price_heap s) (_heap_key (is_bid s) price))
                          (set_add price (_price_set s)))
      end
  end.

Definition remove_order (store : Store) (order_id : string)
  (price : option Decimal) (s : t) : outcome bool * t :=
  match price with
  | None => (Raise TypeError, s)
  | Some price =>
      match Dict.get Dec.eqb price (price_levels s) with
      | None => (Ok false, s)
      | Some lvl =>
          let (removed, lvl1) := PriceLevel.remove_order store order_id lvl in
          if removed then
            (* the removed order is gone from the list that [empty] sums *)
            let (e, lvl2) := PriceLevel.empty store lvl1 in
            if e then
              (Ok true,
               _clean_heap store
                 (mk (is_bid s) (Dict.del Dec.eqb price (price_levels s))
                     (price_heap s) (set_discard price (_price_set s))))
            else
              (Ok true, mk (is_bid s) (Dict.set Dec.eqb price lvl2 (price_levels s))
                           (price_heap s) (_price_set s))
          else (Ok false, s)
      end
  end.
End OrderBookSide.
Abbreviation OrderBookSide := OrderBookSide.t.

(* ================================================================= *)
(** * engine/order_book.py *)

Module OrderBook.
Record t : Type := mk {
  symbol : string;
  bid_side : OrderBookSide;
  ask_side : OrderBookSide;
  orders : Store }.

Definition init (symbol : string) : t :=
  mk symbol (OrderBookSide.init true) (OrderBookSide.init false) [].

(** [self.bid_side if side == OrderSide.BUY else self.ask_side] *)
Definition side_of (sd : OrderSide) (b : t) : OrderBookSide :=
  match sd with BUY => bid_side b | SELL => ask_side b end.

Definition with_side (sd : OrderSide) (s : OrderBookSide) (b : t) : t :=
  match sd with
  | BUY => mk (symbol b) s (ask_side b) (orders b)
  | SELL => mk (symbol b) (bid_side b) s (orders b)
  end.

Definition with_orders (st : Store) (b : t) : t :=
  mk (symbol b) (bid_side b) (ask_side b) st.

(** [skip_existing] only selects the log line. *)
Definition add_order (order : Order) (skip_existing : bool) (b : t)
  : outcome bool * t :=
  if Dict.mem String.eqb (Order.order_id order) (orders b) then (Ok false, b)
  else
    let b1 := with_orders (Dict.set String.eqb (Order.order_id order) order (orders b)) b in
    let (r, s) := OrderBookSide.add_order order (side_of (Order.side order) b1) in
    let b2 := with_side (Order.side order) s b1 in
    match r with
    | Ok _ => (Ok true, b2)
    | Raise e => (Raise e, b2)
    | Unfinished => (Unfinished, b2)
    end.

Definition cancel_order (order_id : string) (b : t) : outcome (option Order) * t :=
  match Dict.get String.eqb order_id (orders b) with
  | None => (Ok None, b)
  | Some order =>
      let (r, s) := OrderBookSide.remove_order (orders b) order_id
                      (Order.price order) (side_of (Order.side order) b) in
      let b1 := with_side (Order.side order) s b in
      match r with
      | Ok _ =>
          (Ok (Some (Order.set_status CANCELLED order)),
           with_orders (Dict.del String.eqb order_id (orders b1)) b1)
      | Raise e => (Raise e, b1)
      | Unfinished => (Unfinished, b1)
      end
  end.

Definition remove_filled (order_id : string) (b : t) : outcome bool * t :=
  match Dict.get String.eqb order_id (orders b) with
  | None => (Ok false, b)
  | Some order =>
      let (r, s) := OrderBookSide.remove_order (orders b) order_id
                      (Order.price order) (side_of (Order.side order) b) in
      let b1 := with_side (Order.side order) s b in
      match r with
      | Ok _ => (Ok true, with_orders (Dict.del String.eqb order_id (orders b1)) b1)
      | Raise e => (Raise e, b1)
      | Unfinished => (Unfinished, b1)
      end
  end.

(** [(price, agg_qty)] of the best non-empty level of side [sd]. *)
Definition _best_from_side (sd : OrderSide) (b : t)
  : option (Decimal * Decimal) * t :=
  let (best_price, s1) := OrderBookSide.get_best_price (orders b) (side_of sd b) in
  match best_price with
  | None => (None, with_side sd s1 b)
  | Some bp =>
      match Dict.get Dec.eqb bp (OrderBookSide.price_levels s1) with
      | None => (None, with_side sd s1 b)
      | Some lvl =>
          let (e, lvl') := PriceLevel.empty (orders b) lvl in
          let s2 := OrderBookSide.mk (OrderBookSide.is_bid s1)
                      (Dict.set Dec.eqb bp lvl' (OrderBookSide.price_levels s1))
                      (OrderBookSide.price_heap s1) (OrderBookSide._price_set s1) in
          if e then (None, with_side sd s2 b)
          else (Some (bp, PriceLevel.total_quantity lvl'), with_side sd s2 b)
      end
  end.

Definition get_best_bid (b : t) := _best_from_side BUY b.
Definition get_best_ask (b : t) := _best_from_side SELL b.
End OrderBook.
Abbreviation OrderBook := OrderBook.t.

(* ================================================================= *)
(** * engine/matching_engine.py *)

Definition opposite (sd : OrderSide) : OrderSide :=
  match sd with BUY => SELL | SELL => BUY end.

(** [str(order.order_type)], as the f-string of the rejection prints it. *)
Definition OrderType_str (ty : OrderType) : string :=
  match ty with
  | MARKET => "OrderType.MARKET"%string
  | LIMIT => "OrderType.LIMIT"%string
  | IOC => "OrderType.IOC"%string
  | FOK => "OrderType.FOK"%string
  | STOP_LOSS => "OrderType.STOP_LOSS"%string
  | STOP_LIMIT => "OrderType.STOP_LIMIT"%string
  | TAKE_PROFIT => "OrderType.TAKE_PROFIT"%string
  end.

(** [deque(maxlen=n).append]: a full ring drops its oldest element. *)
Definition deque_append {A : Type} (maxlen : Z) (l : list A) (x : A) : list A :=
  let l' := l ++ [x] in
  if maxlen <? Z.of_nat (List.length l') then tl l' else l'.

(** [asyncio.Queue(maxsize=n).put_nowait] *)
Definition put_nowait {A : Type} (maxsize : Z) (q : list A) (x : A)
  : outcome (list A) :=
  if maxsize <=? Z.of_nat (List.length q) then Raise QueueFull else Ok (q ++ [x]).

Module MatchingEngine.
Record t : Type := mk {
  symbol : string;
  order_book : OrderBook;
  trades : list Trade;
  maker_fee : Decimal;
  taker_fee : Decimal;
  _order_queue : list Order;
  _trade_queue : list Trade;
  _pending_trades : list Trade;
  _bbo_dirty : bool }.

Definition maxlen : Z := 10000.
Definition maxsize : Z := 10000.

(** [MatchingEngine(symbol)] with the default fee rates 0.001 and 0.002. *)
Definition init (symbol : string) : t :=
  mk symbol (OrderBook.init symbol) []
     (Dec.mkDecimal 1 (-3)) (Dec.mkDecimal 2 (-3)) [] [] [] false.

Definition with_book (b : OrderBook) (e : t) : t :=
  mk (symbol e) b (trades e) (maker_fee e) (taker_fee e)
     (_order_queue e) (_trade_queue e) (_pending_trades e) (_bbo_dirty e).

Definition with_trades (ts : list Trade) (e : t) : t :=
  mk (symbol e) (order_book e) ts (maker_fee e) (taker_fee e)
     (_order_queue e) (_trade_queue e) (_pending_trades e) (_bbo_dirty e).

Definition with_order_queue (q : list Order) (e : t) : t :=
  mk (symbol e) (order_book e) (trades e) (maker_fee e) (taker_fee e)
     q (_trade_queue e) (_pending_trades e) (_bbo_dirty e).

Definition with_trade_queue (q p : list Trade) (e : t) : t :=
  mk (symbol e) (order_book e) (trades e) (maker_fee e) (taker_fee e)
     (_order_queue e) q p (_bbo_dirty e).

Definition with_bbo_dirty (d : bool) (e : t) : t :=
  mk (symbol e) (order_book e) (trades e) (maker_fee e) (taker_fee e)
     (_order_queue e) (_trade_queue e) (_pending_trades e) d.

Definition _validate_order (order : Order) : bool * string :=
  if Dec.leb (Order.quantity order) Dec.zero then (false, "Invalid quantity"%string)
  else
    match Order.order_type order, Order.price order with
    | LIMIT, None => (false, "Price required for limit orders"%string)
    | _, Some p =>
        if Dec.leb p Dec.zero then (false, "Invalid price"%string) else (true, "Valid"%string)
    | _, None => (true, "Valid"%string)
    end.

Definition _create_trade_fast (price quantity : Decimal)
  (maker_order taker_order : Order) (e : t) : Trade * t :=
  let trade :=
    Trade.mk (symbol e) price quantity (Order.side taker_order)
      (Order.order_id maker_order) (Order.order_id taker_order)
      (Dec.mul (Dec.mul quantity price) (maker_fee e))
      (Dec.mul (Dec.mul quantity price) (taker_fee e)) in
  (trade, with_trades (deque_append maxlen (trades e) trade) e).

(** The local variables of a matching call, with the engine. *)
Record frame : Type := mkFrame {
  engine : t;
  order : Order;
  remaining : Decimal;
  matched : list Trade }.

(** [self._order_queue.put_nowait(resting_order)] inside the matching loop. *)
Definition enqueue_maker (enqueue : bool) (resting : Order) (fr : frame)
  : outcome unit * frame :=
  if enqueue then
    match put_nowait maxsize (_order_queue (engine fr)) resting with
    | Ok q => (Ok tt, mkFrame (with_order_queue q (engine fr)) (order fr)
                              (remaining fr) (matched fr))
    | Raise e => (Raise e, fr)
    | Unfinished => (Unfinished, fr)
    end
  else (Ok tt, fr).

(** [level.update_quantity(...)] on the level fetched at [best_price]; a
    level that left the dictionary meanwhile is no longer part of the book. *)
Definition update_level (sd : OrderSide) (best_price : Decimal) (id : string)
  (fill_qty : Decimal) (b : OrderBook) : OrderBook :=
  let s := OrderBook.side_of sd b in
  match Dict.get Dec.eqb best_price (OrderBookSide.price_levels s) with
  | None => b
  | Some lvl =>
      OrderBook.with_side sd
        (OrderBookSide.mk (OrderBookSide.is_bid s)
           (Dict.set Dec.eqb best_price
              (PriceLevel.update_quantity (OrderBook.orders b) id fill_qty lvl)
              (OrderBookSide.price_levels s))
           (OrderBookSide.price_heap s) (OrderBookSide._price_set s)) b
  end.

(** [for resting_order in list(level.orders): ...], the body shared by the
    three matching loops; [sd] is the side the makers rest on and
    [enqueue] tells whether the loop queues the maker for persistence. *)
Fixpoint _fill_level (enqueue : bool) (sd : OrderSide) (best_price : Decimal)
  (snapshot : list string) (fr : frame) : outcome unit * frame :=
  match snapshot with
  | [] => (Ok tt, fr)
  | id :: rest =>
      if Dec.leb (remaining fr) Dec.zero then (Ok tt, fr)
      else
        match Dict.get String.eqb id (OrderBook.orders (order_book (engine fr))) with
        | None => _fill_level enqueue sd best_price rest fr
        | Some resting =>
            let fill_qty := Dec.min (remaining fr) (Order.remaining_quantity resting) in
            let (trade, e1) :=
              _create_trade_fast best_price fill_qty resting (order fr) (engine fr) in
            let trades' := matched fr ++ [trade] in
            let remaining' := Dec.sub (remaining fr) fill_qty in
            let order' :=
              Order.set_filled_quantity
                (Dec.add (Order.filled_quantity (order fr)) fill_qty) (order fr) in
            let resting1 :=
              Order.set_filled_quantity
                (Dec.add (Order.filled_quantity resting) fill_qty) resting in
            let full := Dec.eqb (Order.remaining_quantity resting1) Dec.zero in
            let resting2 :=
              Order.set_status (if full then FILLED else PARTIALLY_FILLED) resting1 in
            let b1 := OrderBook.with_orders
                        (Dict.set String.eqb id resting2
                           (OrderBook.orders (order_book e1))) (order_book e1) in
            let (r, b2) :=
              if full then OrderBook.remove_filled (Order.order_id resting2) b1
              else (Ok true, update_level sd best_price
                               (Order.order_id resting2) fill_qty b1) in
            let fr2 := mkFrame (with_book b2 e1) order' remaining' trades' in
            match r with
            | Ok _ =>
                let (r', fr3) := enqueue_maker enqueue resting2 fr2 in
                match r' with
                | Ok _ => _fill_level enqueue sd best_price rest fr3
                | Raise e => (Raise e, fr3)
                | Unfinished => (Unfinished, fr3)
                end
            | Raise e => (Raise e, fr2)
            | Unfinished => (Unfinished, fr2)
            end
        end
  end.

Definition with_engine_side (sd : OrderSide) (s : OrderBookSide) (fr : frame) : frame :=
  mkFrame (with_book (OrderBook.with_side sd s (order_book (engine fr))) (engine fr))
          (order fr) (remaining fr) (matched fr).

(** The bound of the model's [while] loops.  A turn that does not leave the
    loop consumes a whole price level, hence removes an indexed order. *)
Definition loop_bound (e : t) : nat :=
  S (List.length (OrderBook.orders (order_book e))).

(** [best_price > order.price] for a buyer, [best_price < order.price] for
    a seller. *)
Definition worse (taker : OrderSide) (best_price limit : Decimal) : bool :=
  match taker with
  | BUY => Dec.ltb limit best_price
  | SELL => Dec.ltb best_price limit
  end.

(** [while remaining > 0 and side.price_levels: ...] of the MARKET path
    ([limit = None]) and of the LIMIT path ([limit = Some order.price]). *)
Fixpoint _sweep_loop (fuel : nat) (sd : OrderSide) (limit : option Decimal)
  (fr : frame) : outcome unit * frame :=
  match fuel with
  | O => (Unfinished, fr)
  | S fuel' =>
      let b := order_book (engine fr) in
      let s := OrderBook.side_of sd b in
      if Dec.ltb Dec.zero (remaining fr)
         && negb (Nat.eqb (List.length (OrderBookSide.price_levels s)) 0)
      then
        let (best, s1) := OrderBookSide.get_best_price (OrderBook.orders b) s in
        let fr1 := with_engine_side sd s1 fr in
        match best with
        | None => (Ok tt, fr1)
        | Some best_price =>
            if match limit with
               | Some p => worse (opposite sd) best_price p
               | None => false
               end
            then (Ok tt, fr1)
            else
              match Dict.get Dec.eqb best_price (OrderBookSide.price_levels s1) with
              | None => (Ok tt, fr1)
              | Some level =>
                  let (r, fr2) :=
                    _fill_level true sd best_price (PriceLevel.orders level) fr1 in
                  match r with
                  | Ok _ => _sweep_loop fuel' sd limit fr2
                  | Raise e => (Raise e, fr2)
                  | Unfinished => (Unfinished, fr2)
                  end
              end
        end
      else (Ok tt, fr)
  end.

(** [if level.empty(): side.prune_empty_levels()] after the walk of the
    price-constrained loop.  A level that was dropped from the dictionary
    during the walk was dropped because [empty()] held, and it still does. *)
Definition prune_if_empty (sd : OrderSide) (best_price : Decimal) (fr : frame) : frame :=
  let b := order_book (engine fr) in
  let s := OrderBook.side_of sd b in
  match Dict.get Dec.eqb best_price (OrderBookSide.price_levels s) with
  | None => with_engine_side sd (OrderBookSide.prune_empty_levels (OrderBook.orders b) s) fr
  | Some lvl =>
      let (e, lvl') := PriceLevel.empty (OrderBook.orders b) lvl in
      let s1 := OrderBookSide.mk (OrderBookSide.is_bid s)
                  (Dict.set Dec.eqb best_price lvl' (OrderBookSide.price_levels s))
                  (OrderBookSide.price_heap s) (OrderBookSide._price_set s) in
      with_engine_side sd
        (if e then OrderBookSide.prune_empty_levels (OrderBook.orders b) s1 else s1) fr
  end.

(** [while remaining > 0: ...] of [_match_limit_constrained_sync]. *)
Fixpoint _constrained_loop (fuel : nat) (sd : OrderSide) (limit : Decimal)
  (fr : frame) : outcome unit * frame :=
  match fuel with
  | O => (Unfinished, fr)
  | S fuel' =>
      let b := order_book (engine fr) in
      let s := OrderBook.side_of sd b in
      if Dec.ltb Dec.zero (remaining fr) then
        let (best, s1) := OrderBookSide.get_best_price (OrderBook.orders b) s in
        let fr1 := with_engine_side sd s1 fr in
        match best with
        | None => (Ok tt, fr1)
        | Some best_price =>
            if worse (opposite sd) best_price limit then (Ok tt, fr1)
            else
              match Dict.get Dec.eqb best_price (OrderBookSide.price_levels s1) with
              | None => (Raise AttributeError, fr1)
              | Some level =>
                  let (r, fr2) :=
                    _fill_level false sd best_price (PriceLevel.orders level) fr1 in
                  match r with
                  | Ok _ =>
                      _constrained_loop fuel' sd limit (prune_if_empty sd best_price fr2)
                  | Raise e => (Raise e, fr2)
                  | Unfinished => (Unfinished, fr2)
                  end
              end
        end
      else (Ok tt, fr)
  end.

(** The result of a matching call: the returned trades (or what was
    raised), the submitted order as the call left it, and the engine. *)
Definition finish (r : outcome unit) (fr : frame) (st : OrderStatus)
  : outcome (list Trade) * Order * t :=
  match r with
  | Ok _ => (Ok (matched fr), Order.set_status st (order fr), engine fr)
  | Raise e => (Raise e, order fr, engine fr)
  | Unfinished => (Unfinished, order fr, engine fr)
  end.

Definition _match_market_order_sync (order0 : Order) (e : t)
  : outcome (list Trade) * Order * t :=
  let fr0 := mkFrame e order0 (Order.quantity order0) [] in
  let (r, fr) := _sweep_loop (loop_bound e) (opposite (Order.side order0)) None fr0 in
  let o := order fr in
  finish r fr
    (if Dec.eqb (Order.filled_quantity o) (Order.quantity o) then FILLED
     else if Dec.ltb Dec.zero (Order.filled_quantity o) then PARTIALLY_FILLED
     else PENDING).

(** The end of [_match_limit_order_sync]: a positive remainder rests on
    the book, otherwise the order is filled. *)
Definition rest_or_fill (r : outcome unit) (fr : frame)
  : outcome (list Trade) * Order * t :=
  match r with
  | Ok _ =>
      if Dec.ltb Dec.zero (remaining fr) then
        let o := Order.set_status
                   (match matched fr with [] => PENDING | _ => PARTIALLY_FILLED end)
                   (order fr) in
        let (ra, b2) := OrderBook.add_order o false (order_book (engine fr)) in
        match ra with
        | Ok _ => (Ok (matched fr), o, with_bbo_dirty true (with_book b2 (engine fr)))
        | Raise x => (Raise x, o, with_book b2 (engine fr))
        | Unfinished => (Unfinished, o, with_book b2 (engine fr))
        end
      else (Ok (matched fr), Order.set_status FILLED (order fr), engine fr)
  | Raise x => (Raise x, order fr, engine fr)
  | Unfinished => (Unfinished, order fr, engine fr)
  end.

(** Whether the order crosses the best opposite price:
    [best_ask and order.price >= best_ask[0]] for a buyer. *)
Definition crosses (order0 : Order) (best : option (Decimal * Decimal))
  : outcome bool :=
  match best, Order.price order0 with
  | None, _ => Ok false
  | Some (bp, _), Some p => Ok (negb (worse (Order.side order0) bp p))
  | Some _, None => Raise TypeError
  end.

Definition _match_limit_order_sync (order0 : Order) (e : t)
  : outcome (list Trade) * Order * t :=
  let sd := opposite (Order.side order0) in
  let (best, b1) := OrderBook._best_from_side sd (order_book e) in
  let fr0 := mkFrame (with_book b1 e) order0 (Order.quantity order0) [] in
  let '(r, fr) :=
    match crosses order0 best with
    | Ok true =>
        match Order.price order0 with
        | Some p => _sweep_loop (loop_bound (engine fr0)) sd (Some p) fr0
        | None => (Raise TypeError, fr0)
        end
    | Ok false => (Ok tt, fr0)
    | Raise x => (Raise x, fr0)
    | Unfinished => (Unfinished, fr0)
    end in
  rest_or_fill r fr.

Definition _match_limit_constrained_sync (order0 : Order) (e : t)
  : outcome (list Trade) * Order * t :=
  let fr0 := mkFrame e order0 (Order.quantity order0) [] in
  let (r, fr) :=
    match Order.price order0 with
    | Some p => _constrained_loop (loop_bound e) (opposite (Order.side order0)) p fr0
    | None => (Raise TypeError, fr0)
    end in
  finish r fr (Order.status (order fr)).

Definition _match_ioc_order_sync (order0 : Order) (e : t)
  : outcome (list Trade) * Order * t :=
  let '(r, o, e1) :=
    match Order.price order0 with
    | None => _match_market_order_sync order0 e
    | Some _ => _match_limit_constrained_sync order0 e
    end in
  match r with
  | Ok trades =>
      (Ok trades,
       Order.set_status
         (if Dec.eqb (Order.remaining_quantity o) Dec.zero then FILLED
          else match trades with [] => CANCELLED | _ => PARTIALLY_FILLED end) o,
       e1)
  | _ => (r, o, e1)
  end.

(** The scan of [_check_can_fill_completely] over the sorted prices. *)
Fixpoint _can_fill_scan (order0 : Order) (levels : list (Decimal * PriceLevel))
  (prices : list Decimal) (total : Decimal) : bool :=
  match prices with
  | [] => false
  | price :: rest =>
      let stop :=
        match Order.price order0, Order.order_type order0 with
        | Some _, MARKET => false
        | Some p, _ => worse (Order.side order0) price p
        | None, _ => false
        end in
      if stop then false
      else
        match Dict.get Dec.eqb price levels with
        | None => false
        | Some lvl =>
            let total' := Dec.add total (PriceLevel.total_quantity lvl) in
            if Dec.leb (Order.quantity order0) total' then true
            else _can_fill_scan order0 levels rest total'
        end
  end.

Definition _check_can_fill_completely (order0 : Order) (e : t) : bool :=
  let s := OrderBook.side_of (opposite (Order.side order0)) (order_book e) in
  let levels := OrderBookSide.price_levels s in
  _can_fill_scan order0 levels
    (sorted (match Order.side order0 with BUY => false | SELL => true end)
       (Dict.keys levels)) Dec.zero.

Definition _match_fok_order_sync (order0 : Order) (e : t)
  : outcome (list Trade) * Order * t :=
  if negb (_check_can_fill_completely order0 e)
  then (Ok [], Order.set_status CANCELLED order0, e)
  else
    let '(r, o, e1) :=
      match Order.price order0 with
      | Some _ => _match_limit_constrained_sync order0 e
      | None => _match_market_order_sync order0 e
      end in
    match r with
    | Ok trades =>
        if Dec.ltb Dec.zero (Order.remaining_quantity o)
        then (Ok [], Order.set_status CANCELLED o, e1)
        else (Ok trades, Order.set_status FILLED o, e1)
    | _ => (r, o, e1)
    end.

(** The body of [try: ... except asyncio.QueueFull] after the lock: the first
    full queue ends the block. *)
Fixpoint queue_trades (ts : list Trade) (e : t) : t :=
  match ts with
  | [] => e
  | trade :: rest =>
      match put_nowait maxsize (_trade_queue e) trade with
      | Ok q => queue_trades rest (with_trade_queue q (_pending_trades e ++ [trade]) e)
      | _ => e
      end
  end.

Definition post_process (o : Order) (ts : list Trade) (e : t) : t :=
  match put_nowait maxsize (_order_queue e) o with
  | Ok q => queue_trades ts (with_order_queue q e)
  | _ => e
  end.

(** [submit_order]: the returned triple (or the exception raised), the
    submitted order after the call, and the engine after the call. *)
Definition submit_order (order0 : Order) (e : t)
  : outcome (bool * string * list Trade) * Order * t :=
  let (ok, msg) := _validate_order order0 in
  if negb ok then (Ok (false, msg, []), order0, e)
  else
    let matching :=
      match Order.order_type order0 with
      | MARKET => Some (_match_market_order_sync order0 e)
      | LIMIT => Some (_match_limit_order_sync order0 e)
      | IOC => Some (_match_ioc_order_sync order0 e)
      | FOK => Some (_match_fok_order_sync order0 e)
      | _ => None
      end in
    match matching with
    | None =>
        (Ok (false,
             ("Unsupported order type: " ++ OrderType_str (Order.order_type order0))%string,
             []), order0, e)
    | Some (Ok ts, o, e1) =>
        let e2 := match ts with [] => e1 | _ => with_bbo_dirty true e1 end in
        (Ok (true, "Order processed successfully"%string, ts), o, post_process o ts e2)
    | Some (Raise x, o, e1) => (Raise x, o, e1)
    | Some (Unfinished, o, e1) => (Unfinished, o, e1)
    end.

Definition cancel_order (order_id : string) (e : t)
  : outcome (bool * option Order) * t :=
  let (r, b) := OrderBook.cancel_order order_id (order_book e) in
  match r with
  | Ok (Some o) =>
      let o' := Order.set_status CANCELLED o in
      let e1 := with_bbo_dirty true (with_book b e) in
      match put_nowait maxsize (_order_queue e1) o' with
      | Ok q => (Ok (true, Some o'), with_order_queue q e1)
      | Raise x => (Raise x, e1)
      | Unfinished => (Unfinished, e1)
      end
  | Ok None => (Ok (false, None), with_book b e)
  | Raise x => (Raise x, with_book b e)
  | Unfinished => (Unfinished, with_book b e)
  end.
End MatchingEngine.
Abbreviation MatchingEngine := MatchingEngine.t.

(* ================================================================= *)
(** * Binary floating point

    [_serialize_order] stores the decimal fields with [float(...)] in REAL
    columns, and the replay reads them back with [Decimal(str(...))].  The
    three conversions are those of CPython: [float] of a decimal is the
    nearest binary64 (ties to even), [str] of a float is the shortest
    digit string that reads back as the same float, written in fixed
    notation when the decimal point falls within [-4 < decpt <= 16] and in
    exponent notation otherwise, and [Decimal] of that string keeps its
    digits. *)

Module Float.

(** A binary64: [mant * 2 ^ expo] with [2^52 <= |mant| < 2^53] (or
    [|mant| < 2^52] at [expo = -1074]; zero is [Fin 0 0]), or an infinity. *)
Inductive float : Type :=
| Fin (mant expo : Z)
| Inf (negative : bool).

Definition eqb (a b : float) : bool :=
  match a, b with
  | Fin m x, Fin m' x' => (m =? m') && (x =? x')
  | Inf s, Inf s' => Bool.eqb s s'
  | _, _ => false
  end.

(** [n * 10^p / (d * 10^q)] written as one fraction. *)
Definition scale (base : Z) (num den k : Z) : Z * Z :=
  if k <? 0 then (num * base ^ (- k), den) else (num, den * base ^ k).

(** The nearest binary64 to [num / den] ([0 < num], [0 < den]). *)
Definition of_fraction (num den : Z) : float :=
  let x0 := Z.log2 num - Z.log2 den - 52 in
  let (n0, d0) := scale 2 num den x0 in
  let x1 := if n0 / d0 <? 2 ^ 52 then x0 - 1 else x0 in
  let x := Z.max x1 (-1074) in
  let (n, d) := scale 2 num den x in
  let q := n / d in
  let r := n mod d in
  let q' := if (d <? 2 * r) || ((2 * r =? d) && Z.odd q) then q + 1 else q in
  if q' =? 0 then Fin 0 0
  else
    let (m, x') := if q' =? 2 ^ 53 then (2 ^ 52, x + 1) else (q', x) in
    if 971 <? x' then Inf false else Fin m x'.

Definition negate (f : float) : float :=
  match f with
  | Fin m x => Fin (- m) x
  | Inf s => Inf (negb s)
  end.

(** [float(d)] *)
Definition of_decimal (d : Decimal) : float :=
  let c := Dec.coef d in
  if c =? 0 then Fin 0 0
  else
    let f := of_fraction (Z.abs c * 10 ^ Z.max (Dec.exp d) 0) (10 ^ Z.max (- Dec.exp d) 0) in
    if c <? 0 then negate f else f.

(** [floor (log10 (a / b))] for [0 < a], [0 < b]. *)
Definition floor_log10 (a b : Z) : Z :=
  let k0 := Dec.ndigits a - Dec.ndigits b in
  let (n, d) := scale 10 a b k0 in
  if d <=? n then k0 else k0 - 1.

(** The nearest [n]-digit decimal to [a / b] that reads back as [f], if
    one of the two neighbours does. *)
Definition digits_at (f : float) (a b k n : Z) : option (Z * Z) :=
  let p := k - (n - 1) in
  let (nn, dd) := scale 10 a b p in
  let lo := nn / dd in
  let r := nn mod dd in
  let hi := lo + 1 in
  let ok_lo := eqb (of_decimal (Dec.mkDecimal lo p)) f in
  let ok_hi := eqb (of_decimal (Dec.mkDecimal hi p)) f in
  if ok_lo && ok_hi then
    if 2 * r <? dd then Some (lo, p)
    else if dd <? 2 * r then Some (hi, p)
    else Some (if Z.even lo then lo else hi, p)
  else if ok_lo then Some (lo, p)
  else if ok_hi then Some (hi, p)
  else None.

Fixpoint shortest (fuel : nat) (f : float) (a b k n : Z) : Z * Z :=
  match fuel with
  | O => let (nn, dd) := scale 10 a b (k - (n - 1)) in (nn / dd, k - (n - 1))
  | S fuel' =>
      match digits_at f a b k n with
      | Some r => r
      | None => shortest fuel' f a b k (n + 1)
      end
  end.

Fixpoint strip_zeros (fuel : nat) (c p : Z) : Z * Z :=
  match fuel with
  | O => (c, p)
  | S fuel' =>
      if (c mod 10 =? 0) && negb (c =? 0) then strip_zeros fuel' (c / 10) (p + 1)
      else (c, p)
  end.

(** The digits and the exponent of [repr(f)] for a finite [f > 0]. *)
Definition repr_digits (m x : Z) : Z * Z :=
  let (a, b) := scale 2 m 1 (- x) in
  let (c, p) := shortest 17 (Fin m x) a b (floor_log10 a b) 1 in
  strip_zeros 17 c p.

(** [Decimal(str(f))]; an infinity reads as a special value, which the
    model of [Decimal] does not hold. *)
Definition to_decimal (f : float) : option Decimal :=
  match f with
  | Inf _ => None
  | Fin m x =>
      if m =? 0 then Some (Dec.mkDecimal 0 (-1))
      else
        let (c, p) := repr_digits (Z.abs m) x in
        let decpt := Dec.ndigits c + p in
        let sign := Z.sgn m in
        if (-4 <? decpt) && (decpt <=? 16) && (0 <=? p)
        then Some (Dec.mkDecimal (sign * c * 10 ^ (p + 1)) (-1))
        else Some (Dec.mkDecimal (sign * c) p)
  end.

(** Truth value of a float: [0.0] is false. *)
Definition truthy (f : float) : bool :=
  match f with
  | Fin m _ => negb (m =? 0)
  | Inf _ => true
  end.
End Float.
Abbreviation float := Float.float.

(* ================================================================= *)
(** * engine/persistence.py *)

(** The [.value] of the enumerations and the constructors from a value
    ([None] stands for the [ValueError] of an unknown value). *)
Definition OrderSide_value (sd : OrderSide) : string :=
  match sd with BUY => "buy" | SELL => "sell" end.

Definition OrderSide_of (v : string) : option OrderSide :=
  if String.eqb v "buy" then Some BUY
  else if String.eqb v "sell" then Some SELL
  else None.

Definition OrderType_value (ty : OrderType) : string :=
  match ty with
  | MARKET => "market"
  | LIMIT => "limit"
  | IOC => "ioc"
  | FOK => "fok"
  | STOP_LOSS => "stop_loss"
  | STOP_LIMIT => "stop_limit"
  | TAKE_PROFIT => "take_profit"
  end.

Definition OrderType_of (v : string) : option OrderType :=
  if String.eqb v "market" then Some MARKET
  else if String.eqb v "limit" then Some LIMIT
  else if String.eqb v "ioc" then Some IOC
  else if String.eqb v "fok" then Some FOK
  else if String.eqb v "stop_loss" then Some STOP_LOSS
  else if String.eqb v "stop_limit" then Some STOP_LIMIT
  else if String.eqb v "take_profit" then Some TAKE_PROFIT
  else None.

Definition OrderStatus_value (st : OrderStatus) : string :=
  match st with
  | PENDING => "pending"
  | PARTIALLY_FILLED => "partially_filled"
  | FILLED => "filled"
  | CANCELLED => "cancelled"
  | REJECTED => "rejected"
  end.

Definition OrderStatus_of (v : string) : option OrderStatus :=
  if String.eqb v "pending" then Some PENDING
  else if String.eqb v "partially_filled" then Some PARTIALLY_FILLED
  else if String.eqb v "filled" then Some FILLED
  else if String.eqb v "cancelled" then Some CANCELLED
  else if String.eqb v "rejected" then Some REJECTED
  else None.

(** ** [datetime.isoformat] and [datetime.fromisoformat] *)

Definition digit (n : Z) : ascii := ascii_of_nat (48 + Z.to_nat n).

Definition digit_value (c : ascii) : option Z :=
  let n := Z.of_nat (nat_of_ascii c) in
  if (48 <=? n) && (n <=? 57) then Some (n - 48) else None.

Definition pad2 (n : Z) : string :=
  String (digit (n / 10)) (String (digit (n mod 10)) EmptyString).

Definition pad4 (n : Z) : string := (pad2 (n / 100) ++ pad2 (n mod 100))%string.

Definition pad6 (n : Z) : string :=
  (pad2 (n / 10000) ++ pad2 ((n / 100) mod 100) ++ pad2 (n mod 100))%string.

(** [YYYY-MM-DDTHH:MM:SS], followed by [.ffffff] when the microsecond is
    not zero. *)
Definition isoformat (t : datetime) : string :=
  (pad4 (year t) ++ "-" ++ pad2 (month t) ++ "-" ++ pad2 (day t) ++ "T"
   ++ pad2 (hour t) ++ ":" ++ pad2 (minute t) ++ ":" ++ pad2 (second t)
   ++ (if (microsecond t =? 0)%Z then "" else "." ++ pad6 (microsecond t)))%string.

Definition read2 (a b : ascii) : option Z :=
  match digit_value a, digit_value b with
  | Some x, Some y => Some (10 * x + y)
  | _, _ => None
  end.

(** The strings that [isoformat] writes; another string is a [ValueError]
    ([None]).  The separator of date and time is any character. *)
Definition fromisoformat (s : string) : option datetime :=
  match s with
  | String y1 (String y2 (String y3 (String y4 (String "-"
      (String m1 (String m2 (String "-" (String d1 (String d2 (String _
        (String h1 (String h2 (String ":" (String n1 (String n2 (String ":"
          (String s1 (String s2 rest)))))))))))))))))) =>
      match read2 y1 y2, read2 y3 y4, read2 m1 m2, read2 d1 d2,
            read2 h1 h2, read2 n1 n2, read2 s1 s2 with
      | Some ya, Some yb, Some mo, Some da, Some ho, Some mi, Some se =>
          match rest with
          | EmptyString => Some (mkDatetime (100 * ya + yb) mo da ho mi se 0)
          | String "." (String f1 (String f2 (String f3 (String f4
              (String f5 (String f6 EmptyString)))))) =>
              match read2 f1 f2, read2 f3 f4, read2 f5 f6 with
              | Some fa, Some fb, Some fc =>
                  Some (mkDatetime (100 * ya + yb) mo da ho mi se
                          (10000 * fa + 100 * fb + fc))
              | _, _, _ => None
              end
          | _ => None
          end
      | _, _, _, _, _, _, _ => None
      end
  | _ => None
  end.

Module Persistence.

(** A row of the table [orders]; the three REAL columns hold floats and
    [price] and [user_id] may be NULL. *)
Record row : Type := mkRow {
  r_order_id : string;
  r_symbol : string;
  r_side : string;
  r_order_type : string;
  r_price : option float;
  r_quantity : float;
  r_filled_quantity : float;
  r_status : string;
  r_timestamp : string;
  r_user_id : option string }.

Definition _serialize_order (order : Order) : row :=
  mkRow (Order.order_id order) (Order.symbol order)
    (OrderSide_value (Order.side order))
    (OrderType_value (Order.order_type order))
    (match Order.price order with
     | Some p => Some (Float.of_decimal p)
     | None => None
     end)
    (Float.of_decimal (Order.quantity order))
    (Float.of_decimal (Order.filled_quantity order))
    (OrderStatus_value (Order.status order))
    (isoformat (Order.timestamp order))
    (Order.user_id order).

(** [INSERT OR REPLACE INTO orders]: the table is keyed by [order_id]. *)
Definition save_orders_batch (orders : list Order) (table : list (string * row))
  : list (string * row) :=
  fold_left (fun t o => Dict.set String.eqb (Order.order_id o) (_serialize_order o) t)
    orders table.

(** The [WHERE] clause of the replay query. *)
Definition selected (symbol : string) (snap_ts : option string) (r : row) : bool :=
  String.eqb (r_symbol r) symbol
  && (String.eqb (r_status r) "pending" || String.eqb (r_status r) "partially_filled")
  && String.eqb (r_order_type r) "limit"
  && match r_price r with Some _ => true | None => false end
  && match snap_ts with
     | Some ts => String.ltb ts (r_timestamp r)
     | None => true
     end.

(** [ORDER BY timestamp ASC] *)
Fixpoint insert_row (r : row) (rs : list row) : list row :=
  match rs with
  | [] => [r]
  | r' :: rs' =>
      if String.ltb (r_timestamp r) (r_timestamp r') then r :: rs
      else r' :: insert_row r rs'
  end.

Definition query (symbol : string) (snap_ts : option string)
  (table : list (string * row)) : list row :=
  fold_right insert_row [] (filter (selected symbol snap_ts) (map snd table)).

(** [Order(order_id=..., ...)] from a row; [None] when an exception is
    raised (and caught by the loop) or a special value would appear. *)
Definition rebuild (r : row) : option Order :=
  match OrderSide_of (r_side r), OrderType_of (r_order_type r),
        OrderStatus_of (r_status r), fromisoformat (r_timestamp r),
        Float.to_decimal (r_quantity r), Float.to_decimal (r_filled_quantity r) with
  | Some sd, Some ty, Some st, Some ts, Some q, Some fq =>
      let price :=
        match r_price r with
        | Some f => if Float.truthy f then Some (Float.to_decimal f) else None
        | None => None
        end in
      match price with
      | Some None => None
      | Some (Some p) =>
          Some (Order.mk (r_order_id r) (r_symbol r) sd ty (Some p) None q fq st ts
                  (r_user_id r))
      | None =>
          Some (Order.mk (r_order_id r) (r_symbol r) sd ty None None q fq st ts
                  (r_user_id r))
      end
  | _, _, _, _, _, _ => None
  end.

(** One turn of the loop of [_replay_orders]: the book and whether an
    order was restored. *)
Definition replay_row (r : row) (b : OrderBook) : OrderBook * bool :=
  if Dict.mem String.eqb (r_order_id r) (OrderBook.orders b) then (b, false)
  else
    match rebuild r with
    | None => (b, false)
    | Some order =>
        match Order.price order with
        | None => (b, false)
        | Some _ =>
            if Dec.leb (Order.remaining_quantity order) Dec.zero then (b, false)
            else
              match OrderBook.add_order order false b with
              | (Ok true, b') => (b', true)
              | (_, b') => (b', false)
              end
        end
    end.

Definition _replay_orders (symbol : string) (snap_ts : option string)
  (table : list (string * row)) (b : OrderBook) : OrderBook * Z :=
  fold_left (fun (acc : OrderBook * Z) r =>
               let (b', restored) := replay_row r (fst acc) in
               (b', if restored then snd acc + 1 else snd acc))
    (query symbol snap_ts table) (b, 0).
End Persistence.


(* ================================================================= *)
(** * Specifications and invariants *)

(** A scale that puts the three decimals [a], [b], [c] on one grid. *)
Definition common_scale (a b c : Decimal) : Z :=
  Z.max (- Dec.exp a) (Z.max (- Dec.exp b) (- Dec.exp c)).


(** ** The standing conditions on a book

    Quantities are read on a grid of [10^-s] quanta ([0 <= s]) on which the
    whole resting volume stays below [10^28] quanta, so that no addition or
    subtraction of the matching path rounds. *)

Definition gridb (s : Z) (d : Decimal) : bool :=
  (- s <=? Dec.exp d) && (Z.abs (Dec.units s d) <? Dec.bound).

Definition fitsb (d : Decimal) : bool := Z.abs (Dec.coef d) <? Dec.bound.

Definition side_eqb (a b : OrderSide) : bool :=
  match a, b with BUY, BUY | SELL, SELL => true | _, _ => false end.

(** Unfilled quanta of an order. *)
Definition rem_units (s : Z) (o : Order) : Z :=
  Dec.units s (Order.quantity o) - Dec.units s (Order.filled_quantity o).

(** A resting order [o], found under [id], of the level keyed [k] of side [sd]. *)
Definition resting_ok (s : Z) (sd : OrderSide) (k : Decimal) (id : string)
  (o : Order) : bool :=
  String.eqb (Order.order_id o) id
  && side_eqb (Order.side o) sd
  && match Order.price o with Some p => Dec.eqb p k | None => false end
  && gridb s (Order.quantity o)
  && gridb s (Order.filled_quantity o)
  && (0 <=? Dec.units s (Order.filled_quantity o))
  && (Dec.units s (Order.filled_quantity o) <? Dec.units s (Order.quantity o)).

Definition id_ok (s : Z) (store : Store) (sd : OrderSide) (k : Decimal)
  (id : string) : bool :=
  match Dict.get String.eqb id store with
  | Some o => resting_ok s sd k id o
  | None => false
  end.

Fixpoint nodup_ids (l : list string) : bool :=
  match l with
  | [] => true
  | x :: r => negb (existsb (String.eqb x) r) && nodup_ids r
  end.

Fixpoint nodup_keys (l : list Decimal) : bool :=
  match l with
  | [] => true
  | k :: r => negb (existsb (Dec.eqb k) r) && nodup_keys r
  end.

(** Sum of the unfilled quanta, and of the ordered quanta, of the orders
    held under [ids]. *)
Definition ids_units (s : Z) (store : Store) (ids : list string) : Z :=
  fold_right (fun id acc =>
    match Dict.get String.eqb id store with
    | Some o => rem_units s o + acc
    | None => acc
    end) 0 ids.

Definition ids_volume (s : Z) (store : Store) (ids : list string) : Z :=
  fold_right (fun id acc =>
    match Dict.get String.eqb id store with
    | Some o => Dec.units s (Order.quantity o) + acc
    | None => acc
    end) 0 ids.

(** The aggregate of a level equals the sum of the remainders of its
    orders (claim C8), every order of the level is a well-formed resting
    order, and the level is not empty. *)
Definition level_ok (s : Z) (store : Store) (sd : OrderSide)
  (kl : Decimal * PriceLevel) : bool :=
  let (k, l) := kl in
  match PriceLevel.orders l with [] => false | _ => true end
  && nodup_ids (PriceLevel.orders l)
  && forallb (id_ok s store sd k) (PriceLevel.orders l)
  && gridb s (PriceLevel.total_quantity l)
  && (Dec.units s (PriceLevel.total_quantity l)
      =? ids_units s store (PriceLevel.orders l))
  && fitsb k.

Fixpoint sortedb (l : list Decimal) : bool :=
  match l with
  | [] => true
  | x :: r => forallb (Dec.leb x) r && sortedb r
  end.

(** [p] has an entry in the heap. *)
Definition in_heap (is_bid : bool) (heap : list Decimal) (p : Decimal) : bool :=
  existsb (fun h => Dec.eqb (OrderBookSide._heap_to_price is_bid h) p) heap.

Definition side_ok (s : Z) (store : Store) (sd : OrderSide)
  (side : OrderBookSide) : bool :=
  Bool.eqb (OrderBookSide.is_bid side) (side_eqb sd BUY)
  && nodup_keys (Dict.keys (OrderBookSide.price_levels side))
  && forallb (level_ok s store sd) (OrderBookSide.price_levels side)
  && forallb (fun kl => in_heap (OrderBookSide.is_bid side)
                          (OrderBookSide.price_heap side) (fst kl))
       (OrderBookSide.price_levels side)
  && sortedb (OrderBookSide.price_heap side)
  && forallb fitsb (OrderBookSide.price_heap side)
  && forallb (in_heap (OrderBookSide.is_bid side) (OrderBookSide.price_heap side))
       (OrderBookSide._price_set side).

Definition side_volume (s : Z) (store : Store) (side : OrderBookSide) : Z :=
  fold_right (fun kl acc => ids_volume s store (PriceLevel.orders (snd kl)) + acc)
    0 (OrderBookSide.price_levels side).

Definition book_volume (s : Z) (b : OrderBook) : Z :=
  side_volume s (OrderBook.orders b) (OrderBook.bid_side b)
  + side_volume s (OrderBook.orders b) (OrderBook.ask_side b).

Definition book_ok (s : Z) (b : OrderBook) : bool :=
  (0 <=? s)
  && side_ok s (OrderBook.orders b) BUY (OrderBook.bid_side b)
  && side_ok s (OrderBook.orders b) SELL (OrderBook.ask_side b).

(** A freshly constructed order, as the transport layer submits it:
    nothing filled yet, the quantity on the grid, the price (if any)
    within the context precision. *)
Definition taker_ok (s : Z) (o : Order) : bool :=
  gridb s (Order.quantity o)
  && (- s <=? Dec.exp (Order.filled_quantity o))
  && (Dec.units s (Order.filled_quantity o) =? 0)
  && match Order.price o with Some p => fitsb p | None => true end.

(** ** The matching rule in the words of the specification

    The makers of a side in price-time priority: levels best price first
    (ascending asks, descending bids), FIFO within a level. *)
Definition levels_best_first (reverse : bool) (levels : list (Decimal * PriceLevel))
  : list (Decimal * PriceLevel) :=
  flat_map (fun k => match Dict.get Dec.eqb k levels with
                     | Some l => [(k, l)]
                     | None => []
                     end)
    (sorted reverse (Dict.keys levels)).

Definition queue_of (store : Store) (ls : list (Decimal * PriceLevel))
  : list (Decimal * Order) :=
  flat_map (fun kl => map (fun o => (fst kl, o)) (PriceLevel.objects store (snd kl))) ls.

Definition best_first (sd : OrderSide) (b : OrderBook)
  : list (Decimal * PriceLevel) :=
  levels_best_first (side_eqb sd BUY)
    (OrderBookSide.price_levels (OrderBook.side_of sd b)).

Definition side_queue (sd : OrderSide) (b : OrderBook) : list (Decimal * Order) :=
  queue_of (OrderBook.orders b) (best_first sd b).

(** One fill: the level price, the quantity, the maker as it was. *)
Definition fill : Type := (Decimal * Decimal * Order)%type.

(** Walk the makers in priority order; each gives
    [min(taker_remaining, maker_remaining)]; stop when the taker is filled,
    when the makers are exhausted, or at the first price beyond the limit. *)
Fixpoint sweep (taker : OrderSide) (limit : option Decimal) (rem : Decimal)
  (q : list (Decimal * Order)) : list fill :=
  match q with
  | [] => []
  | (p, m) :: q' =>
      if Dec.leb rem Dec.zero then []
      else if match limit with
              | Some l => MatchingEngine.worse taker p l
              | None => false
              end then []
      else
        let f := Dec.min rem (Order.remaining_quantity m) in
        (p, f, m) :: sweep taker limit (Dec.sub rem f) q'
  end.

(** The makers left after the walk: filled makers are gone, a partially
    filled maker stays at the head with its fill recorded. *)
Fixpoint residual (taker : OrderSide) (limit : option Decimal) (rem : Decimal)
  (q : list (Decimal * Order)) : list (Decimal * Order) :=
  match q with
  | [] => []
  | (p, m) :: q' =>
      if Dec.leb rem Dec.zero then q
      else if match limit with
              | Some l => MatchingEngine.worse taker p l
              | None => false
              end then q
      else
        let f := Dec.min rem (Order.remaining_quantity m) in
        let m1 := Order.set_filled_quantity
                    (Dec.add (Order.filled_quantity m) f) m in
        if Dec.eqb (Order.remaining_quantity m1) Dec.zero
        then residual taker limit (Dec.sub rem f) q'
        else (p, Order.set_status PARTIALLY_FILLED m1) :: q'
  end.

(** A trade reports a fill of the taker [o], with its two fees. *)
Definition reports (e : MatchingEngine) (o : Order) (t : Trade) (f : fill) : Prop :=
  let '(p, q, m) := f in
  Dec.eqb (Trade.price t) p = true
  /\ Trade.quantity t = q
  /\ Trade.maker_order_id t = Order.order_id m
  /\ Trade.taker_order_id t = Order.order_id o
  /\ Trade.aggressor_side t = Order.side o
  /\ Trade.symbol t = MatchingEngine.symbol e
  /\ Trade.maker_fee t
     = Dec.mul (Dec.mul (Trade.quantity t) (Trade.price t)) (MatchingEngine.maker_fee e)
  /\ Trade.taker_fee t
     = Dec.mul (Dec.mul (Trade.quantity t) (Trade.price t)) (MatchingEngine.taker_fee e).

(** Quanta filled by a list of fills. *)
Definition filled_units (s : Z) (fs : list fill) : Z :=
  fold_right (fun f acc => Dec.units s (snd (fst f)) + acc) 0 fs.

(** The part of [side_ok] that does not read the store: the keys are
    distinct, every level and every member of [_price_set] has an entry in
    the heap, and the heap is sorted. *)
Definition heap_ok (is_bid : bool) (levels : list (Decimal * PriceLevel))
  (heap pset : list Decimal) : Prop :=
  nodup_keys (Dict.keys levels) = true
  /\ (forall kl, In kl levels -> in_heap is_bid heap (fst kl) = true)
  /\ sortedb heap = true
  /\ (forall h, In h heap -> Dec.Fits h)
  /\ (forall p, In p pset -> in_heap is_bid heap p = true).

(** No key of [levels] is better than [kd]. *)
Definition best_key (reverse : bool) (levels : list (Decimal * PriceLevel))
  (kd : Decimal) : Prop :=
  forall k, In k (Dict.keys levels) -> sort_le reverse kd k = true.

(** The objects found under a list of ids. *)
Definition ids_objects (store : Store) (ids : list string) : list Order :=
  flat_map (fun id => match Dict.get String.eqb id store with
                      | Some o => [o]
                      | None => []
                      end) ids.

(** The makers queued behind the head [id :: rest] of the best level [kd]. *)
Definition queue_behind (store : Store) (reverse : bool) (kd : Decimal)
  (rest : list string) (levels : list (Decimal * PriceLevel))
  : list (Decimal * Order) :=
  map (fun o => (kd, o)) (ids_objects store rest)
  ++ queue_of store (levels_best_first reverse (Dict.del Dec.eqb kd levels)).

(** The taker in the middle of a matching call: what is filled and what
    remains add up to the quantity. *)
Definition frame_ok (s : Z) (fr : MatchingEngine.frame) : Prop :=
  let o := MatchingEngine.order fr in
  Dec.Ongrid s (Order.quantity o)
  /\ - s <= Dec.exp (Order.filled_quantity o)
  /\ - s <= Dec.exp (MatchingEngine.remaining fr)
  /\ 0 <= Dec.units s (MatchingEngine.remaining fr)
  /\ 0 <= Dec.units s (Order.filled_quantity o)
  /\ Dec.units s (Order.filled_quantity o) + Dec.units s (MatchingEngine.remaining fr)
     = Dec.units s (Order.quantity o).

(** The fields of the engine that a matching call leaves alone. *)
Definition same_engine (e e' : MatchingEngine) : Prop :=
  MatchingEngine.symbol e' = MatchingEngine.symbol e
  /\ MatchingEngine.maker_fee e' = MatchingEngine.maker_fee e
  /\ MatchingEngine.taker_fee e' = MatchingEngine.taker_fee e
  /\ MatchingEngine._trade_queue e' = MatchingEngine._trade_queue e
  /\ MatchingEngine._pending_trades e' = MatchingEngine._pending_trades e
  /\ MatchingEngine._bbo_dirty e' = MatchingEngine._bbo_dirty e.

(** Progress of a matching call from [fr] to [fr']: the trades made in
    between report the first fills [fs] of the walk, and what is left to
    do from [fr'] is the rest of the walk. *)
Definition extends (s : Z) (sd : OrderSide) (limit : option Decimal)
  (fr fr' : MatchingEngine.frame) : Prop :=
  let b := MatchingEngine.order_book (MatchingEngine.engine fr) in
  let b' := MatchingEngine.order_book (MatchingEngine.engine fr') in
  exists (fs : list fill) (ts : list Trade),
    MatchingEngine.matched fr' = MatchingEngine.matched fr ++ ts
    /\ Forall2 (reports (MatchingEngine.engine fr) (MatchingEngine.order fr)) ts fs
    /\ sweep (opposite sd) limit (MatchingEngine.remaining fr) (side_queue sd b)
       = fs ++ sweep (opposite sd) limit (MatchingEngine.remaining fr') (side_queue sd b')
    /\ residual (opposite sd) limit (MatchingEngine.remaining fr) (side_queue sd b)
       = residual (opposite sd) limit (MatchingEngine.remaining fr') (side_queue sd b')
    /\ OrderBook.side_of (opposite sd) b' = OrderBook.side_of (opposite sd) b
    /\ Dec.units s (Order.filled_quantity (MatchingEngine.order fr'))
       = Dec.units s (Order.filled_quantity (MatchingEngine.order fr))
         + filled_units s fs
    /\ MatchingEngine.order fr'
       = Order.set_filled_quantity
           (Order.filled_quantity (MatchingEngine.order fr')) (MatchingEngine.order fr)
    /\ same_engine (MatchingEngine.engine fr) (MatchingEngine.engine fr')
    /\ (forall id o', Dict.get String.eqb id (OrderBook.orders b') = Some o' ->
          exists o, Dict.get String.eqb id (OrderBook.orders b) = Some o)
    /\ (List.length (OrderBook.orders b') <= List.length (OrderBook.orders b))%nat.

(** Queued orders plus indexed orders: a full fill moves one order from
    the index to the queue. *)
Definition load (fr : MatchingEngine.frame) : Z :=
  Z.of_nat (List.length (MatchingEngine._order_queue (MatchingEngine.engine fr)))
  + Z.of_nat (List.length
                (OrderBook.orders (MatchingEngine.order_book (MatchingEngine.engine fr)))).

(** The limit of the call admits the level keyed [kd]. *)
Definition admits (taker : OrderSide) (limit : option Decimal) (kd : Decimal) : Prop :=
  match limit with
  | Some p => MatchingEngine.worse taker kd p = false
  | None => True
  end.

(** Every maker of the queue [q] is a well-formed resting order of side
    [sd]. *)
Definition queue_ok (s : Z) (sd : OrderSide) (q : list (Decimal * Order)) : Prop :=
  forall k m, In (k, m) q -> resting_ok s sd k (Order.order_id m) m = true.

(** Quanta on offer to a taker at prices within its limit: the remainders
    of the makers up to the first price beyond the limit. *)
Fixpoint avail (s : Z) (taker : OrderSide) (limit : option Decimal)
  (q : list (Decimal * Order)) : Z :=
  match q with
  | [] => 0
  | (p, m) :: q' =>
      if match limit with
         | Some l => MatchingEngine.worse taker p l
         | None => false
         end then 0
      else rem_units s m + avail s taker limit q'
  end.

(** The same, read off the aggregates of the levels: the sum of
    [total_quantity] over the qualifying levels in best-first order. *)
Fixpoint level_avail (s : Z) (taker : OrderSide) (limit : option Decimal)
  (ls : list (Decimal * PriceLevel)) : Z :=
  match ls with
  | [] => 0
  | (k, l) :: ls' =>
      if match limit with
         | Some p => MatchingEngine.worse taker k p
         | None => false
         end then 0
      else Dec.units s (PriceLevel.total_quantity l) + level_avail s taker limit ls'
  end.

(** Sum of the aggregates of a list of levels. *)
Definition levels_units (s : Z) (ls : list (Decimal * PriceLevel)) : Z :=
  fold_right (fun kl acc => Dec.units s (PriceLevel.total_quantity (snd kl)) + acc) 0 ls.

(** The maker and the price of a fill. *)
Definition fill_maker (f : fill) : Decimal * Order := (fst (fst f), snd f).

(** The persistence queue has room for every resting order: a call queues
    each maker it touches, at most the indexed orders. *)
Definition room (e : MatchingEngine) : bool :=
  Z.of_nat (List.length (MatchingEngine._order_queue e))
  + Z.of_nat (List.length (OrderBook.orders (MatchingEngine.order_book e)))
  <? MatchingEngine.maxsize.

(** What a matching walk of the taker [o] with limit [limit] leaves: the
    trades [ts] report the walk over the opposite queue in order, the
    opposite queue is the residual of the walk, the taker's own side and
    the index gain nothing, and the taker [o1] carries the filled sum. *)
Definition walked (s : Z) (limit : option Decimal) (o : Order) (e : MatchingEngine)
  (ts : list Trade) (o1 : Order) (e1 : MatchingEngine) : Prop :=
  let sd := opposite (Order.side o) in
  let b := MatchingEngine.order_book e in
  let b1 := MatchingEngine.order_book e1 in
  let q := side_queue sd b in
  let fs := sweep (Order.side o) limit (Order.quantity o) q in
  Forall2 (reports e o) ts fs
  /\ side_queue sd b1 = residual (Order.side o) limit (Order.quantity o) q
  /\ OrderBook.side_of (Order.side o) b1 = OrderBook.side_of (Order.side o) b
  /\ (forall id m, Dict.get String.eqb id (OrderBook.orders b1) = Some m ->
        exists m0, Dict.get String.eqb id (OrderBook.orders b) = Some m0)
  /\ book_ok s b1 = true
  /\ Dec.units s (Order.filled_quantity o1) = filled_units s fs
  /\ Dec.units s (Order.filled_quantity o1)
     = Z.min (Dec.units s (Order.quantity o)) (avail s (Order.side o) limit q)
  /\ - s <= Dec.exp (Order.filled_quantity o1)
  /\ (ts = [] <-> Dec.units s (Order.filled_quantity o1) = 0)
  /\ o1 = Order.set_filled_quantity (Order.filled_quantity o1) o
  /\ same_engine e e1.

(** The status of a MARKET order after its walk. *)
Definition market_status (s : Z) (o1 : Order) : OrderStatus :=
  if Dec.units s (Order.filled_quantity o1) =? Dec.units s (Order.quantity o1) then FILLED
  else if 0 <? Dec.units s (Order.filled_quantity o1) then PARTIALLY_FILLED
  else PENDING.

(** The status of an IOC order after its walk. *)
Definition ioc_status (s : Z) (o1 : Order) (ts : list Trade) : OrderStatus :=
  if Dec.units s (Order.filled_quantity o1) =? Dec.units s (Order.quantity o1) then FILLED
  else match ts with [] => CANCELLED | _ => PARTIALLY_FILLED end.

(** An FOK order is attainable when the aggregates of the qualifying
    levels, best first, reach its quantity. *)
Definition attainable (s : Z) (o : Order) (b : OrderBook) : bool :=
  Dec.units s (Order.quantity o)
  <=? level_avail s (Order.side o) (Order.price o) (best_first (opposite (Order.side o)) b).

(** The depth of the side opposite to [o] stays within the context
    precision, so that the pre-check adds without rounding. *)
Definition depth_ok (s : Z) (o : Order) (b : OrderBook) : bool :=
  levels_units s (best_first (opposite (Order.side o)) b) <? Dec.bound.

(** The status of a LIMIT order after its walk. *)
Definition limit_status (s : Z) (o1 : Order) (ts : list Trade) : OrderStatus :=
  if Dec.units s (Order.filled_quantity o1) =? Dec.units s (Order.quantity o1) then FILLED
  else match ts with [] => PENDING | _ => PARTIALLY_FILLED end.

(** The level at the price of [o] on its own side has room for [o]. *)
Definition rest_room (s : Z) (o : Order) (b : OrderBook) : bool :=
  match Order.price o with
  | None => true
  | Some p =>
      match Dict.get Dec.eqb p
              (OrderBookSide.price_levels (OrderBook.side_of (Order.side o) b)) with
      | Some l =>
          Dec.units s (PriceLevel.total_quantity l) + Dec.units s (Order.quantity o)
          <? Dec.bound
      | None => true
      end
  end.

(** The order [o] came to rest in [b2], at the back of the level at its
    price [p] on its own side of [b]; nothing else moved. *)
Definition rested (s : Z) (o : Order) (p : Decimal) (b b2 : OrderBook) : Prop :=
  let own := fun x => OrderBookSide.price_levels (OrderBook.side_of (Order.side o) x) in
  book_ok s b2 = true
  /\ Dict.get String.eqb (Order.order_id o) (OrderBook.orders b2) = Some o
  /\ (forall id', id' <> Order.order_id o ->
        Dict.get String.eqb id' (OrderBook.orders b2)
        = Dict.get String.eqb id' (OrderBook.orders b))
  /\ OrderBook.side_of (opposite (Order.side o)) b2
     = OrderBook.side_of (opposite (Order.side o)) b
  /\ (exists l2,
        Dict.get Dec.eqb p (own b2) = Some l2
        /\ PriceLevel.orders l2
           = match Dict.get Dec.eqb p (own b) with
             | Some l => PriceLevel.orders l
             | None => []
             end ++ [Order.order_id o])
  /\ (forall k, Dec.eqb p k = false ->
        Dict.get Dec.eqb k (own b2) = Dict.get Dec.eqb k (own b)).

(** ** Submissions *)

(** [submit_order] returned [(True, "Order processed successfully", ts)],
    leaving the order as [o'] and the engine as [e']. *)
Definition accepted (o : Order) (e : MatchingEngine) (ts : list Trade) (o' : Order)
  (e' : MatchingEngine) : Prop :=
  MatchingEngine.submit_order o e
  = (Ok (true, "Order processed successfully"%string, ts), o', e').

(** The conditions under which a submission is followed here: a fresh
    order on the grid that passes validation, room in the persistence
    queue, and, by type, room in the level where a LIMIT order would rest
    (whose identifier is new) or a FOK depth within the precision. *)
Definition admissible (s : Z) (o : Order) (e : MatchingEngine) : bool :=
  taker_ok s o && fst (MatchingEngine._validate_order o) && room e
  && match Order.order_type o with
     | MARKET | IOC => true
     | LIMIT =>
         rest_room s o (MatchingEngine.order_book e)
         && negb (Dict.mem String.eqb (Order.order_id o)
                    (OrderBook.orders (MatchingEngine.order_book e)))
     | FOK => depth_ok s o (MatchingEngine.order_book e)
     | _ => false
     end.

(** Claim C5, the outcome of a MARKET submission. *)
Definition market_outcome (s : Z) (o : Order) (e : MatchingEngine) : Prop :=
  exists ts o1 e1 e',
    accepted o e ts (Order.set_status (market_status s o1) o1) e'
    /\ MatchingEngine.order_book e' = MatchingEngine.order_book e1
    /\ walked s None o e ts o1 e1
    /\ (Dec.units s (Order.filled_quantity o1) = Dec.units s (Order.quantity o)
        \/ side_queue (opposite (Order.side o)) (MatchingEngine.order_book e1) = []).

(** Claim C6, the outcome of a LIMIT submission at price [p]. *)
Definition limit_outcome (s : Z) (o : Order) (e : MatchingEngine) : Prop :=
  exists p ts o1 e1 e',
    Order.price o = Some p
    /\ accepted o e ts (Order.set_status (limit_status s o1 ts) o1) e'
    /\ walked s (Some p) o e ts o1 e1
    /\ Forall (fun f => MatchingEngine.worse (Order.side o) (fst (fst f)) p = false)
         (sweep (Order.side o) (Some p) (Order.quantity o)
            (side_queue (opposite (Order.side o)) (MatchingEngine.order_book e)))
    /\ if Dec.units s (Order.filled_quantity o1) <? Dec.units s (Order.quantity o)
       then rested s (Order.set_status (limit_status s o1 ts) o1) p
              (MatchingEngine.order_book e1) (MatchingEngine.order_book e')
       else MatchingEngine.order_book e' = MatchingEngine.order_book e1.

(** Claim C7, the outcome of an IOC submission. *)
Definition ioc_outcome (s : Z) (o : Order) (e : MatchingEngine) : Prop :=
  exists ts o1 e1 e',
    accepted o e ts (Order.set_status (ioc_status s o1 ts) o1) e'
    /\ MatchingEngine.order_book e' = MatchingEngine.order_book e1
    /\ walked s (Order.price o) o e ts o1 e1.

(** Claim C2, the outcome of a FOK submission. *)
Definition fok_outcome (s : Z) (o : Order) (e : MatchingEngine) : Prop :=
  if attainable s o (MatchingEngine.order_book e)
  then exists ts o1 e1 e',
         accepted o e ts (Order.set_status FILLED o1) e'
         /\ MatchingEngine.order_book e' = MatchingEngine.order_book e1
         /\ walked s (Order.price o) o e ts o1 e1
         /\ Dec.units s (Order.filled_quantity o1) = Dec.units s (Order.quantity o)
  else exists e',
         accepted o e [] (Order.set_status CANCELLED o) e'
         /\ MatchingEngine.order_book e' = MatchingEngine.order_book e.

(** Claim C4: the trades of a submission report, one for one and in
    order, the first makers of the opposite queue. *)
Definition priority_outcome (o : Order) (e : MatchingEngine) : Prop :=
  exists ts o' e' fs rest,
    accepted o e ts o' e'
    /\ Forall2 (reports e o) ts fs
    /\ side_queue (opposite (Order.side o)) (MatchingEngine.order_book e)
       = map fill_maker fs ++ rest
    /\ map Trade.maker_order_id ts
       = firstn (List.length ts)
           (map (fun km => Order.order_id (snd km))
              (side_queue (opposite (Order.side o)) (MatchingEngine.order_book e))).

(** ** Worked states *)

Definition stamp : datetime := mkDatetime 2024 1 1 0 0 0 0.

Definition new_order (id : string) (sd : OrderSide) (ty : OrderType)
  (price : option Decimal) (quantity : Decimal) : Order :=
  Order.mk id "BTC-USDT"%string sd ty price None quantity Dec.zero PENDING stamp None.

(** The engine after the submission of [o]. *)
Definition after (o : Order) (e : MatchingEngine) : MatchingEngine :=
  snd (MatchingEngine.submit_order o e).

Definition engine0 : MatchingEngine := MatchingEngine.init "BTC-USDT"%string.

(** Scenario S1: asks 50000 x 1.0 and 50100 x 0.5, no bids. *)
Definition engine_S1 : MatchingEngine :=
  after (new_order "a2"%string SELL LIMIT (Some (Dec.mkDecimal 50100 0)) (Dec.mkDecimal 5 (-1)))
    (after (new_order "a1"%string SELL LIMIT (Some (Dec.mkDecimal 50000 0))
              (Dec.mkDecimal 10 (-1))) engine0).

(** Two asks at one price, A before B. *)
Definition engine_AB : MatchingEngine :=
  after (new_order "B"%string SELL LIMIT (Some (Dec.mkDecimal 50000 0)) (Dec.mkDecimal 10 (-1)))
    (after (new_order "A"%string SELL LIMIT (Some (Dec.mkDecimal 50000 0))
              (Dec.mkDecimal 10 (-1))) engine0).

(** Scenario S3: one ask 50000 x 0.5. *)
Definition engine_S3 : MatchingEngine :=
  after (new_order "a1"%string SELL LIMIT (Some (Dec.mkDecimal 50000 0))
           (Dec.mkDecimal 5 (-1))) engine0.

(** The trades that the submission of [o] returns. *)
Definition returned_trades (o : Order) (e : MatchingEngine) : list Trade :=
  match fst (fst (MatchingEngine.submit_order o e)) with
  | Ok r => snd r
  | _ => []
  end.

(** What an admissible submission comes to: it is accepted, and either a
    walk took place, after which the order may have come to rest, or (a
    FOK order that is not attainable) nothing happened to the book. *)
Definition submitted (s : Z) (o : Order) (e : MatchingEngine) (ts : list Trade)
  (o' : Order) (e' : MatchingEngine) : Prop :=
  accepted o e ts o' e'
  /\ ((exists limit o1 e1,
         walked s limit o e ts o1 e1
         /\ o' = Order.set_status (Order.status o') o1
         /\ (MatchingEngine.order_book e' = MatchingEngine.order_book e1
             \/ exists p, rested s o' p (MatchingEngine.order_book e1)
                            (MatchingEngine.order_book e')))
      \/ (ts = [] /\ MatchingEngine.order_book e' = MatchingEngine.order_book e
          /\ o' = Order.set_status CANCELLED o)).

(** ** Validation *)

(** The three rejections of the specification: [quantity <= 0], a LIMIT
    order without a price, a price that is not positive. *)
Definition invalid (o : Order) : bool :=
  Dec.leb (Order.quantity o) Dec.zero
  || match Order.order_type o, Order.price o with
     | LIMIT, None => true
     | _, _ => false
     end
  || match Order.price o with
     | Some p => Dec.leb p Dec.zero
     | None => false
     end.

(** The order types that [submit_order] dispatches. *)
Definition supported (ty : OrderType) : bool :=
  match ty with
  | MARKET | LIMIT | IOC | FOK => true
  | _ => false
  end.

(** ** Fees *)

(** The product of two decimals with every digit kept. *)
Definition exact_mul (a b : Decimal) : Decimal :=
  Dec.mkDecimal (Dec.coef a * Dec.coef b) (Dec.exp a + Dec.exp b).

(** The fees of a trade are [quantity * price * rate] as the context
    computes it, which is the product with every digit kept whenever the
    products have at most 28 digits. *)
Definition fees_ok (e : MatchingEngine) (t : Trade) : Prop :=
  let gross := exact_mul (Trade.quantity t) (Trade.price t) in
  Trade.maker_fee t
  = Dec.mul (Dec.mul (Trade.quantity t) (Trade.price t)) (MatchingEngine.maker_fee e)
  /\ Trade.taker_fee t
     = Dec.mul (Dec.mul (Trade.quantity t) (Trade.price t)) (MatchingEngine.taker_fee e)
  /\ (Dec.Fits gross ->
      (Dec.Fits (exact_mul gross (MatchingEngine.maker_fee e)) ->
       Trade.maker_fee t = exact_mul gross (MatchingEngine.maker_fee e))
      /\ (Dec.Fits (exact_mul gross (MatchingEngine.taker_fee e)) ->
          Trade.taker_fee t = exact_mul gross (MatchingEngine.taker_fee e))).

(** The numeric reading of the fees of a list of trades against expected
    values. *)
Definition fees_are (maker taker : Decimal) (ts : list Trade) : list (bool * bool) :=
  map (fun t => (Dec.eqb (Trade.maker_fee t) maker, Dec.eqb (Trade.taker_fee t) taker)) ts.

(** What is lost when the fee of [t] is rounded: false when the maker fee
    differs from the product with every digit kept. *)
Definition maker_fee_exact (e : MatchingEngine) (t : Trade) : bool :=
  Dec.eqb (Trade.maker_fee t)
    (exact_mul (exact_mul (Trade.quantity t) (Trade.price t)) (MatchingEngine.maker_fee e)).

(** ** More worked states *)

(** One ask 50000 x 1.0 (scenario S6). *)
Definition engine_S6 : MatchingEngine :=
  after (new_order "a1"%string SELL LIMIT (Some (Dec.mkDecimal 50000 0))
           (Dec.mkDecimal 10 (-1))) engine0.

(** One ask of 1.234567890123456789 at 50000.12345678. *)
Definition engine_fine : MatchingEngine :=
  after (new_order "a1"%string SELL LIMIT (Some (Dec.mkDecimal 5000012345678 (-8)))
           (Dec.mkDecimal 1234567890123456789 (-18))) engine0.

(** A well-formed order of a type that [submit_order] does not dispatch. *)
Definition stop_order : Order :=
  new_order "s1"%string BUY STOP_LOSS None (Dec.mkDecimal 1 0).

(** An order with quantity zero. *)
Definition zero_order : Order :=
  new_order "z1"%string BUY MARKET None (Dec.mkDecimal 0 0).

(** ** Quiescent states *)

(** Claim C8 in the arithmetic of the code: the aggregate of every level
    of the book equals the sum of the remainders of its orders, and is
    not negative. *)
Definition aggregates_ok (b : OrderBook) : Prop :=
  forall sd k l,
    In (k, l) (OrderBookSide.price_levels (OrderBook.side_of sd b)) ->
    Dec.eqb (PriceLevel.total_quantity l)
      (Dec.sum (map Order.remaining_quantity (PriceLevel.objects (OrderBook.orders b) l)))
    = true
    /\ Dec.leb Dec.zero (PriceLevel.total_quantity l) = true.

(** The states of an engine between operations: the new engine, and the
    state that an admissible submission or a cancellation leaves. *)
Inductive reachable (s : Z) : MatchingEngine -> Prop :=
| reach_init (symbol : string) : reachable s (MatchingEngine.init symbol)
| reach_submit (e : MatchingEngine) (o : Order) :
    reachable s e -> admissible s o e = true -> reachable s (after o e)
| reach_cancel (e : MatchingEngine) (id : string) :
    reachable s e -> reachable s (snd (MatchingEngine.cancel_order id e)).

(** ** Persistence *)

(** The order that a save of [order] followed by a replay into the book
    [b] brings back, if any. *)
Definition reloaded (order : Order) (b : OrderBook) : option Order :=
  let table := Persistence.save_orders_batch [order] [] in
  let (b', _) := Persistence._replay_orders (Order.symbol order) None table b in
  if Dict.mem String.eqb (Order.order_id order) (OrderBook.orders b) then None
  else Dict.get String.eqb (Order.order_id order) (OrderBook.orders b').

(** What the REAL column gives back for the decimal [d]. *)
Definition through_real (d : Decimal) : option Decimal :=
  Float.to_decimal (Float.of_decimal d).

(** The decimal [d] survives the REAL column: it is read back with the
    same numeric value. *)
Definition survives (d : Decimal) : bool :=
  match through_real d with
  | Some d' => Dec.eqb d' d
  | None => false
  end.

(** The datetimes that [datetime] constructs. *)
Definition valid_datetime (t : datetime) : bool :=
  (1 <=? year t) && (year t <=? 9999)
  && (1 <=? month t) && (month t <=? 12)
  && (1 <=? day t) && (day t <=? 31)
  && (0 <=? hour t) && (hour t <=? 23)
  && (0 <=? minute t) && (minute t <=? 59)
  && (0 <=? second t) && (second t <=? 59)
  && (0 <=? microsecond t) && (microsecond t <=? 999999).

(** The orders that the replay brings back: resting LIMIT orders, whose
    stored price is not [0.0] and whose remainder, computed from the
    stored values, is positive. *)
Definition restorable (o : Order) : bool :=
  match Order.order_type o with LIMIT => true | _ => false end
  && match Order.status o with PENDING | PARTIALLY_FILLED => true | _ => false end
  && valid_datetime (Order.timestamp o)
  && match Order.price o with
     | Some p =>
         Float.truthy (Float.of_decimal p)
         && match through_real p with Some _ => true | None => false end
     | None => false
     end
  && match through_real (Order.quantity o), through_real (Order.filled_quantity o) with
     | Some q, Some f => negb (Dec.leb (Dec.sub q f) Dec.zero)
     | _, _ => false
     end.

(** The reloaded order [o'] carries the fields of [o], each decimal field
    as the REAL column gives it back. *)
Definition same_order (o o' : Order) : Prop :=
  Order.order_id o' = Order.order_id o
  /\ Order.symbol o' = Order.symbol o
  /\ Order.side o' = Order.side o
  /\ Order.order_type o' = Order.order_type o
  /\ Order.status o' = Order.status o
  /\ Order.timestamp o' = Order.timestamp o
  /\ Order.user_id o' = Order.user_id o
  /\ match Order.price o with
     | Some p => through_real p = Order.price o'
     | None => False
     end
  /\ through_real (Order.quantity o) = Some (Order.quantity o')
  /\ through_real (Order.filled_quantity o) = Some (Order.filled_quantity o').

(** The decimal fields of [o'] have the numeric values of those of [o]. *)
Definition same_decimals (o o' : Order) : bool :=
  match Order.price o, Order.price o' with
  | Some p, Some p' => Dec.eqb p' p
  | None, None => true
  | _, _ => false
  end
  && Dec.eqb (Order.quantity o') (Order.quantity o)
  && Dec.eqb (Order.filled_quantity o') (Order.filled_quantity o).

(** Scenario S2: a LIMIT BUY of 2.0 at 49000. *)
Definition order_S2 : Order :=
  new_order "b1"%string BUY LIMIT (Some (Dec.mkDecimal 49000 0)) (Dec.mkDecimal 20 (-1)).

(** A LIMIT BUY of 0.1234567890123456789 at 49000. *)
Definition order_fine : Order :=
  new_order "b2"%string BUY LIMIT (Some (Dec.mkDecimal 49000 0))
    (Dec.mkDecimal 1234567890123456789 (-19)).

(** A filled MARKET order. *)
Definition order_done : Order :=
  Order.set_status FILLED
    (new_order "m1"%string BUY MARKET None (Dec.mkDecimal 20 (-1))).

(** The state of scenario S1 with a full persistence queue. *)
Definition engine_full : MatchingEngine :=
  MatchingEngine.with_order_queue (repeat order_S2 (Z.to_nat MatchingEngine.maxsize))
    engine_S1.

(* ================================================================= *)
(** * Further specifications *)

(** The limit of the walk of an order: a MARKET order has none, another
    order is limited by its price when it has one. *)
Definition limit_of (o : Order) : option Decimal :=
  match Order.order_type o with MARKET => None | _ => Order.price o end.

(** A LIMIT order that the walk left with a remainder comes to rest. *)
Definition rests (s : Z) (o o1 : Order) : bool :=
  match Order.order_type o with
  | LIMIT => Dec.units s (Order.filled_quantity o1) <? Dec.units s (Order.quantity o)
  | _ => false
  end.

(** What an admissible submission comes to, with the limit of the walk
    and the call of [add_order] that brings a remainder to rest. *)
Definition settled (s : Z) (o : Order) (e : MatchingEngine) (ts : list Trade)
  (o' : Order) (e' : MatchingEngine) : Prop :=
  accepted o e ts o' e'
  /\ ((exists o1 e1,
         walked s (limit_of o) o e ts o1 e1
         /\ o' = Order.set_status (Order.status o') o1
         /\ if rests s o o1
            then exists p,
                   Order.price o = Some p
                   /\ Order.status o'
                      = match ts with [] => PENDING | _ => PARTIALLY_FILLED end
                   /\ OrderBook.add_order o' false (MatchingEngine.order_book e1)
                      = (Ok true, MatchingEngine.order_book e')
                   /\ rested s o' p (MatchingEngine.order_book e1)
                        (MatchingEngine.order_book e')
            else MatchingEngine.order_book e' = MatchingEngine.order_book e1)
      \/ (Order.order_type o = FOK
          /\ attainable s o (MatchingEngine.order_book e) = false
          /\ ts = [] /\ MatchingEngine.order_book e' = MatchingEngine.order_book e
          /\ o' = Order.set_status CANCELLED o)).

(** The displayed quantity of a side: the sum of the aggregates of its
    price levels, in quanta. *)
Definition side_depth (s : Z) (sd : OrderSide) (b : OrderBook) : Z :=
  levels_units s (OrderBookSide.price_levels (OrderBook.side_of sd b)).

(** The quanta traded by a list of trades. *)
Definition traded_units (s : Z) (ts : list Trade) : Z :=
  fold_right (fun t acc => Dec.units s (Trade.quantity t) + acc) 0 ts.

(** The sum of [g] over a list of keys. *)
Definition sum_over (g : Decimal -> Z) (ks : list Decimal) : Z :=
  fold_right (fun k acc => g k + acc) 0 ks.

(** The book is not crossed: every bid price is below every ask price. *)
Definition uncrossed (b : OrderBook) : bool :=
  forallb (fun kb =>
             forallb (fun ka => Dec.ltb kb ka)
               (Dict.keys (OrderBookSide.price_levels (OrderBook.ask_side b))))
    (Dict.keys (OrderBookSide.price_levels (OrderBook.bid_side b))).

(** The entries that the level at key [k] contributes to the queue. *)
Definition entries (st : Store) (levels : list (Decimal * PriceLevel)) (k : Decimal)
  : list (Decimal * Order) :=
  match Dict.get Dec.eqb k levels with
  | Some l => map (fun o => (k, o)) (PriceLevel.objects st l)
  | None => []
  end.

(** The prices of a queue never get better along the queue. *)
Definition best_first_order (rev : bool) (q : list (Decimal * Order)) : Prop :=
  ForallOrdPairs (fun a b => sort_le rev (fst a) (fst b) = true) q.

(** The entries of a queue other than those of the order [id]. *)
Definition without (id : string) (q : list (Decimal * Order)) : list (Decimal * Order) :=
  filter (fun km => negb (String.eqb (Order.order_id (snd km)) id)) q.

(** A third ask at the price of A and B. *)
Definition order_C : Order :=
  new_order "C"%string SELL LIMIT (Some (Dec.mkDecimal 50000 0)) (Dec.mkDecimal 10 (-1)).

(** The trade history and the two persistence queues are within their
    capacities. *)
Definition bounded (e : MatchingEngine) : bool :=
  (Z.of_nat (List.length (MatchingEngine.trades e)) <=? MatchingEngine.maxlen)
  && (Z.of_nat (List.length (MatchingEngine._order_queue e)) <=? MatchingEngine.maxsize)
  && (Z.of_nat (List.length (MatchingEngine._trade_queue e)) <=? MatchingEngine.maxsize).

(** The order of two datetimes in time: the comparison of their fields,
    the most significant first. *)
Definition lex (c d : comparison) : comparison :=
  match c with Eq => d | _ => c end.

Definition chronological (a b : datetime) : comparison :=
  lex (year a ?= year b)
    (lex (month a ?= month b)
       (lex (day a ?= day b)
          (lex (hour a ?= hour b)
             (lex (minute a ?= minute b)
                (lex (second a ?= second b) (microsecond a ?= microsecond b)))))).


(* ================================================================= *)
(** * Facts about decimal arithmetic *)

Lemma pow10_pos (k : Z) : 0 <= k -> 0 < 10 ^ k.
Proof. intros; apply Z.pow_pos_nonneg; lia. Qed.

Lemma pow10_split (a b : Z) : 0 <= a -> 0 <= b -> 10 ^ (a + b) = 10 ^ a * 10 ^ b.
Proof. intros; apply Z.pow_add_r; lia. Qed.

Lemma ndigits_aux_le (f : nat) : forall n k,
  1 <= k -> 0 <= n < 10 ^ k -> Dec.ndigits_aux f n <= k.
Proof.
  induction f as [|f IH]; intros n k Hk Hn; cbn [Dec.ndigits_aux]; [lia|].
  destruct (n <? 10) eqn:E; [lia|].
  apply Z.ltb_ge in E.
  assert (2 <= k).
  { destruct (Z.eq_dec k 1) as [->|]; [|lia]. change (10 ^ 1) with 10 in Hn. lia. }
  assert (Dec.ndigits_aux f (n / 10) <= k - 1); [|lia].
  apply IH; [lia|]. split; [apply Z.div_pos; lia|].
  apply Z.div_lt_upper_bound; [lia|].
  replace k with (1 + (k - 1)) in Hn by lia.
  rewrite pow10_split in Hn by lia. change (10 ^ 1) with 10 in Hn. lia.
Qed.

Lemma fix_ctx_id (d : Decimal) : Dec.Fits d -> Dec.fix_ctx d = d.
Proof.
  unfold Dec.Fits, Dec.bound, Dec.fix_ctx. intros H.
  assert (Dec.ndigits (Dec.coef d) <= Dec.prec) as L.
  { unfold Dec.ndigits. apply ndigits_aux_le; unfold Dec.prec in *; lia. }
  apply Z.leb_le in L. now rewrite L.
Qed.

Lemma units_mk (s c e : Z) : Dec.units s (Dec.mkDecimal c e) = c * 10 ^ (e + s).
Proof. reflexivity. Qed.

Lemma coef_le_units (s : Z) (d : Decimal) :
  - s <= Dec.exp d -> Z.abs (Dec.coef d) <= Z.abs (Dec.units s d).
Proof.
  intros H. unfold Dec.units. rewrite Z.abs_mul.
  assert (0 < 10 ^ (Dec.exp d + s)) by (apply pow10_pos; lia).
  rewrite (Z.abs_eq (10 ^ _)) by lia. nia.
Qed.

Lemma ongrid_fits (s : Z) (d : Decimal) : Dec.Ongrid s d -> Dec.Fits d.
Proof.
  intros [H1 H2]. unfold Dec.Fits. pose proof (coef_le_units s d H1). lia.
Qed.

Lemma align_units (s : Z) (a b : Decimal) :
  - s <= Dec.exp a -> - s <= Dec.exp b ->
  let m := Z.min (Dec.exp a) (Dec.exp b) in
  Dec.units s a = fst (Dec.align a b) * 10 ^ (m + s) /\
  Dec.units s b = snd (Dec.align a b) * 10 ^ (m + s).
Proof.
  intros Ha Hb m. unfold Dec.align, Dec.units. fold m. simpl.
  split; rewrite <- Z.mul_assoc, <- pow10_split by lia; do 2 f_equal; lia.
Qed.

Lemma mul_compare_pos (n m p : Z) : 0 < p -> (n * p ?= m * p) = (n ?= m).
Proof.
  intros Hp. destruct (Z.compare_spec n m) as [E|L|G].
  - subst. apply Z.compare_refl.
  - apply Z.compare_lt_iff. nia.
  - apply Z.compare_gt_iff. nia.
Qed.

Lemma compare_units (s : Z) (a b : Decimal) :
  - s <= Dec.exp a -> - s <= Dec.exp b ->
  Dec.compare a b = (Dec.units s a ?= Dec.units s b).
Proof.
  intros Ha Hb. destruct (align_units s a b Ha Hb) as [E1 E2].
  unfold Dec.compare. destruct (Dec.align a b) as [x y]. simpl in *.
  rewrite E1, E2. symmetry. apply mul_compare_pos. apply pow10_pos; lia.
Qed.

Lemma eqb_units (s : Z) (a b : Decimal) :
  - s <= Dec.exp a -> - s <= Dec.exp b ->
  Dec.eqb a b = (Dec.units s a =? Dec.units s b).
Proof.
  intros Ha Hb. unfold Dec.eqb. rewrite (compare_units s) by assumption.
  now rewrite Z.eqb_compare.
Qed.

Lemma ltb_units (s : Z) (a b : Decimal) :
  - s <= Dec.exp a -> - s <= Dec.exp b ->
  Dec.ltb a b = (Dec.units s a <? Dec.units s b).
Proof.
  intros Ha Hb. unfold Dec.ltb. rewrite (compare_units s) by assumption.
  unfold Z.ltb. now destruct (Dec.units s a ?= Dec.units s b).
Qed.

Lemma leb_units (s : Z) (a b : Decimal) :
  - s <= Dec.exp a -> - s <= Dec.exp b ->
  Dec.leb a b = (Dec.units s a <=? Dec.units s b).
Proof.
  intros Ha Hb. unfold Dec.leb. rewrite (compare_units s) by assumption.
  unfold Z.leb. now destruct (Dec.units s a ?= Dec.units s b).
Qed.

Lemma units_zero (s : Z) : Dec.units s Dec.zero = 0.
Proof. reflexivity. Qed.

Lemma add_units (s : Z) (a b : Decimal) :
  - s <= Dec.exp a -> - s <= Dec.exp b ->
  Z.abs (Dec.units s a + Dec.units s b) < Dec.bound ->
  Dec.units s (Dec.add a b) = Dec.units s a + Dec.units s b /\
  - s <= Dec.exp (Dec.add a b).
Proof.
  intros Ha Hb Hs. destruct (align_units s a b Ha Hb) as [E1 E2].
  unfold Dec.add. destruct (Dec.align a b) as [x y]. simpl in *.
  set (m := Z.min (Dec.exp a) (Dec.exp b)) in *.
  assert (Dec.units s (Dec.mkDecimal (x + y) m) = Dec.units s a + Dec.units s b) as E.
  { rewrite units_mk, E1, E2. ring. }
  rewrite fix_ctx_id.
  - split; [exact E|simpl; lia].
  - unfold Dec.Fits.
    pose proof (coef_le_units s (Dec.mkDecimal (x + y) m)) as L. simpl in L.
    rewrite <- E in Hs. simpl in Hs. specialize (L ltac:(lia)).
    fold (Dec.units s (Dec.mkDecimal (x + y) m)) in L. simpl. lia.
Qed.

Lemma units_copy_negate (s : Z) (a : Decimal) :
  Dec.units s (Dec.copy_negate a) = - Dec.units s a.
Proof. unfold Dec.units, Dec.copy_negate. simpl. ring. Qed.

Lemma sub_units (s : Z) (a b : Decimal) :
  - s <= Dec.exp a -> - s <= Dec.exp b ->
  Z.abs (Dec.units s a - Dec.units s b) < Dec.bound ->
  Dec.units s (Dec.sub a b) = Dec.units s a - Dec.units s b /\
  - s <= Dec.exp (Dec.sub a b).
Proof.
  intros Ha Hb Hs. unfold Dec.sub.
  destruct (add_units s a (Dec.copy_negate b)) as [E L]; try assumption.
  - rewrite units_copy_negate. now replace (Dec.units s a + - Dec.units s b)
      with (Dec.units s a - Dec.units s b) by ring.
  - rewrite E, units_copy_negate. split; [ring|exact L].
Qed.

Lemma min_units (s : Z) (a b : Decimal) :
  - s <= Dec.exp a -> - s <= Dec.exp b ->
  Dec.units s (Dec.min a b) = Z.min (Dec.units s a) (Dec.units s b) /\
  - s <= Dec.exp (Dec.min a b).
Proof.
  intros Ha Hb. unfold Dec.min. rewrite (ltb_units s) by assumption.
  destruct (Dec.units s b <? Dec.units s a) eqn:E.
  - apply Z.ltb_lt in E. split; [lia|assumption].
  - apply Z.ltb_ge in E. split; [lia|assumption].
Qed.

Lemma neg_fits (a : Decimal) : Dec.Fits a -> Dec.neg a = Dec.copy_negate a.
Proof.
  intros H. unfold Dec.neg. apply fix_ctx_id.
  unfold Dec.Fits in *. simpl. lia.
Qed.

Lemma neg_involutive (a : Decimal) : Dec.Fits a -> Dec.neg (Dec.neg a) = a.
Proof.
  intros H. rewrite (neg_fits a H). rewrite neg_fits.
  - destruct a as [c e]. unfold Dec.copy_negate. simpl. f_equal. lia.
  - unfold Dec.Fits in *. simpl. lia.
Qed.

Lemma neg_is_fits (a : Decimal) : Dec.Fits a -> Dec.Fits (Dec.neg a).
Proof.
  intros H. rewrite (neg_fits a H). unfold Dec.Fits in *. simpl. lia.
Qed.

Lemma exists_scale (a b c : Decimal) :
  exists s, 0 <= s /\ - s <= Dec.exp a /\ - s <= Dec.exp b /\ - s <= Dec.exp c.
Proof. exists (Z.max 0 (common_scale a b c)). unfold common_scale. lia. Qed.

Lemma compare_via (a b : Decimal) :
  exists x y, Dec.compare a b = (x ?= y) /\ Dec.compare b a = (y ?= x)
              /\ Dec.compare a a = Eq.
Proof.
  destruct (exists_scale a b b) as (s & _ & Ha & Hb & _).
  exists (Dec.units s a), (Dec.units s b).
  rewrite !(compare_units s) by assumption. repeat split. apply Z.compare_refl.
Qed.

Lemma eqb_refl (a : Decimal) : Dec.eqb a a = true.
Proof.
  destruct (compare_via a a) as (x & y & _ & _ & E). unfold Dec.eqb. now rewrite E.
Qed.

Lemma leb_refl (a : Decimal) : Dec.leb a a = true.
Proof.
  destruct (compare_via a a) as (x & y & _ & _ & E). unfold Dec.leb. now rewrite E.
Qed.

Lemma eqb_sym (a b : Decimal) : Dec.eqb a b = Dec.eqb b a.
Proof.
  destruct (exists_scale a b b) as (s & _ & Ha & Hb & _).
  rewrite !(eqb_units s) by assumption. apply Z.eqb_sym.
Qed.

Lemma eqb_trans (a b c : Decimal) :
  Dec.eqb a b = true -> Dec.eqb b c = true -> Dec.eqb a c = true.
Proof.
  destruct (exists_scale a b c) as (s & _ & Ha & Hb & Hc).
  rewrite !(eqb_units s) by assumption. rewrite !Z.eqb_eq. lia.
Qed.

Lemma eqb_compare_l (a a' b : Decimal) :
  Dec.eqb a a' = true -> Dec.compare a b = Dec.compare a' b.
Proof.
  destruct (exists_scale a a' b) as (s & _ & Ha & Ha' & Hb).
  rewrite (eqb_units s), !(compare_units s) by assumption.
  rewrite Z.eqb_eq. now intros ->.
Qed.

Lemma eqb_compare_r (a b b' : Decimal) :
  Dec.eqb b b' = true -> Dec.compare a b = Dec.compare a b'.
Proof.
  destruct (exists_scale a b b') as (s & _ & Ha & Hb & Hb').
  rewrite (eqb_units s), !(compare_units s) by assumption.
  rewrite Z.eqb_eq. now intros ->.
Qed.

Lemma eqb_eqb_l (a a' b : Decimal) :
  Dec.eqb a a' = true -> Dec.eqb a b = Dec.eqb a' b.
Proof. intros H. unfold Dec.eqb. now rewrite (eqb_compare_l a a' b H). Qed.

Lemma eqb_eqb_r (a b b' : Decimal) :
  Dec.eqb b b' = true -> Dec.eqb a b = Dec.eqb a b'.
Proof. intros H. unfold Dec.eqb. now rewrite (eqb_compare_r a b b' H). Qed.

Lemma eqb_leb_l (a a' b : Decimal) :
  Dec.eqb a a' = true -> Dec.leb a b = Dec.leb a' b.
Proof. intros H. unfold Dec.leb. now rewrite (eqb_compare_l a a' b H). Qed.

Lemma eqb_leb_r (a b b' : Decimal) :
  Dec.eqb b b' = true -> Dec.leb a b = Dec.leb a b'.
Proof. intros H. unfold Dec.leb. now rewrite (eqb_compare_r a b b' H). Qed.

Lemma eqb_ltb_l (a a' b : Decimal) :
  Dec.eqb a a' = true -> Dec.ltb a b = Dec.ltb a' b.
Proof. intros H. unfold Dec.ltb. now rewrite (eqb_compare_l a a' b H). Qed.

Lemma eqb_ltb_r (a b b' : Decimal) :
  Dec.eqb b b' = true -> Dec.ltb a b = Dec.ltb a b'.
Proof. intros H. unfold Dec.ltb. now rewrite (eqb_compare_r a b b' H). Qed.

Lemma ltb_negb_leb (a b : Decimal) : Dec.ltb a b = negb (Dec.leb b a).
Proof.
  destruct (exists_scale a b b) as (s & _ & Ha & Hb & _).
  rewrite (ltb_units s), (leb_units s) by assumption.
  destruct (Z.ltb_spec (Dec.units s a) (Dec.units s b));
    destruct (Z.leb_spec (Dec.units s b) (Dec.units s a)); simpl; lia.
Qed.

Lemma leb_trans (a b c : Decimal) :
  Dec.leb a b = true -> Dec.leb b c = true -> Dec.leb a c = true.
Proof.
  destruct (exists_scale a b c) as (s & _ & Ha & Hb & Hc).
  rewrite !(leb_units s) by assumption. rewrite !Z.leb_le. lia.
Qed.

Lemma leb_total (a b : Decimal) : Dec.leb a b = false -> Dec.leb b a = true.
Proof.
  destruct (exists_scale a b b) as (s & _ & Ha & Hb & _).
  rewrite !(leb_units s) by assumption. rewrite Z.leb_le, Z.leb_gt. lia.
Qed.

Lemma leb_antisym (a b : Decimal) :
  Dec.leb a b = true -> Dec.leb b a = true -> Dec.eqb a b = true.
Proof.
  destruct (exists_scale a b b) as (s & _ & Ha & Hb & _).
  rewrite !(leb_units s), (eqb_units s) by assumption.
  rewrite !Z.leb_le, Z.eqb_eq. lia.
Qed.

Lemma eqb_leb (a b : Decimal) : Dec.eqb a b = true -> Dec.leb a b = true.
Proof.
  destruct (exists_scale a b b) as (s & _ & Ha & Hb & _).
  rewrite (leb_units s), (eqb_units s) by assumption.
  rewrite !Z.leb_le, Z.eqb_eq. lia.
Qed.

Lemma leb_copy_negate (a b : Decimal) :
  Dec.leb (Dec.copy_negate a) (Dec.copy_negate b) = Dec.leb b a.
Proof.
  destruct (exists_scale a b b) as (s & _ & Ha & Hb & _).
  rewrite !(leb_units s), !units_copy_negate by (simpl; assumption).
  destruct (Z.leb_spec (- Dec.units s a) (- Dec.units s b));
    destruct (Z.leb_spec (Dec.units s b) (Dec.units s a)); lia.
Qed.

Lemma eqb_copy_negate (a b : Decimal) :
  Dec.eqb (Dec.copy_negate a) (Dec.copy_negate b) = Dec.eqb a b.
Proof.
  destruct (exists_scale a b b) as (s & _ & Ha & Hb & _).
  rewrite !(eqb_units s), !units_copy_negate by (simpl; assumption).
  destruct (Z.eqb_spec (- Dec.units s a) (- Dec.units s b));
    destruct (Z.eqb_spec (Dec.units s a) (Dec.units s b)); lia.
Qed.


(* ================================================================= *)
(** * Facts about dictionaries and sorting *)

Section DictFacts.
Context {K V : Type} (keq : K -> K -> bool).
Hypothesis keq_refl : forall a, keq a a = true.
Hypothesis keq_sym : forall a b, keq a b = keq b a.
Hypothesis keq_trans : forall a b c, keq a b = true -> keq b c = true -> keq a c = true.

Lemma keq_false_r (a b c : K) : keq a b = true -> keq b c = false -> keq a c = false.
Proof.
  intros H1 H2. destruct (keq a c) eqn:E; [|reflexivity].
  rewrite keq_sym in H1. rewrite (keq_trans b a c H1 E) in H2. discriminate.
Qed.

Lemma dict_get_equiv (k k2 : K) (d : list (K * V)) :
  keq k k2 = true -> Dict.get keq k d = Dict.get keq k2 d.
Proof.
  intros H. induction d as [|[k' v] d IH]; simpl; [reflexivity|].
  destruct (keq k' k) eqn:E1.
  - now rewrite (keq_trans k' k k2 E1 H).
  - rewrite keq_sym in H.
    assert (keq k' k2 = false) as ->; [|exact IH].
    destruct (keq k' k2) eqn:E2; [|reflexivity].
    rewrite (keq_trans k' k2 k E2 H) in E1. discriminate.
Qed.

Lemma dict_get_set_same (k : K) (v : V) (d : list (K * V)) :
  Dict.get keq k (Dict.set keq k v d) = Some v.
Proof.
  induction d as [|[k' v'] d IH]; simpl.
  - now rewrite keq_refl.
  - destruct (keq k' k) eqn:E; simpl; now rewrite E.
Qed.

Lemma dict_get_set_other (k k2 : K) (v : V) (d : list (K * V)) :
  keq k k2 = false ->
  Dict.get keq k2 (Dict.set keq k v d) = Dict.get keq k2 d.
Proof.
  intros H. induction d as [|[k' v'] d IH]; simpl.
  - now rewrite H.
  - destruct (keq k' k) eqn:E; simpl.
    + now rewrite (keq_false_r k' k k2 E H).
    + destruct (keq k' k2); [reflexivity|exact IH].
Qed.

Lemma dict_get_del_same (k : K) (d : list (K * V)) :
  Dict.get keq k (Dict.del keq k d) = None.
Proof.
  unfold Dict.del. induction d as [|[k' v'] d IH]; simpl; [reflexivity|].
  destruct (keq k' k) eqn:E; simpl; [exact IH|]. now rewrite E.
Qed.

Lemma dict_get_del_other (k k2 : K) (d : list (K * V)) :
  keq k k2 = false ->
  Dict.get keq k2 (Dict.del keq k d) = Dict.get keq k2 d.
Proof.
  intros H. unfold Dict.del. induction d as [|[k' v'] d IH]; simpl; [reflexivity|].
  destruct (keq k' k) eqn:E; simpl.
  - now rewrite (keq_false_r k' k k2 E H).
  - destruct (keq k' k2); [reflexivity|exact IH].
Qed.

Lemma dict_set_same_value (k : K) (v : V) (d : list (K * V)) :
  Dict.get keq k d = Some v -> Dict.set keq k v d = d.
Proof.
  induction d as [|[k' v'] d IH]; simpl; [discriminate|].
  destruct (keq k' k) eqn:E.
  - now intros [= ->].
  - intros H. now rewrite IH.
Qed.

Lemma dict_keys_set_existing (k : K) (v v0 : V) (d : list (K * V)) :
  Dict.get keq k d = Some v0 -> Dict.keys (Dict.set keq k v d) = Dict.keys d.
Proof.
  unfold Dict.keys. induction d as [|[k' v'] d IH]; simpl; [discriminate|].
  destruct (keq k' k) eqn:E; simpl; [reflexivity|].
  intros H. now rewrite IH.
Qed.

Lemma dict_keys_set_new (k : K) (v : V) (d : list (K * V)) :
  Dict.get keq k d = None -> Dict.keys (Dict.set keq k v d) = Dict.keys d ++ [k].
Proof.
  unfold Dict.keys. induction d as [|[k' v'] d IH]; simpl; [reflexivity|].
  destruct (keq k' k) eqn:E; simpl; [discriminate|].
  intros H. now rewrite IH.
Qed.

Lemma dict_keys_del (k : K) (d : list (K * V)) :
  Dict.keys (Dict.del keq k d) = filter (fun k' => negb (keq k' k)) (Dict.keys d).
Proof.
  unfold Dict.keys, Dict.del. induction d as [|[k' v'] d IH]; simpl; [reflexivity|].
  destruct (keq k' k); simpl; now rewrite IH.
Qed.

Lemma dict_del_set (k : K) (v : V) (d : list (K * V)) :
  Dict.del keq k (Dict.set keq k v d) = Dict.del keq k d.
Proof.
  unfold Dict.del. induction d as [|[k' v'] d IH]; simpl.
  - now rewrite keq_refl.
  - destruct (keq k' k) eqn:E; simpl; rewrite E; simpl; [reflexivity|now rewrite IH].
Qed.

Lemma dict_get_in (k : K) (v : V) (d : list (K * V)) :
  Dict.get keq k d = Some v -> exists k', In (k', v) d /\ keq k' k = true.
Proof.
  induction d as [|[k' v'] d IH]; simpl; [discriminate|].
  destruct (keq k' k) eqn:E.
  - intros [= ->]. exists k'. auto.
  - intros H. destruct (IH H) as (k1 & H1 & H2). exists k1. auto.
Qed.

Lemma dict_get_none (k : K) (d : list (K * V)) :
  Dict.get keq k d = None -> forall k' v, In (k', v) d -> keq k' k = false.
Proof.
  induction d as [|[k1 v1] d IH]; simpl; [intros _ ? ? []|].
  destruct (keq k1 k) eqn:E; [discriminate|].
  intros H k' v [[= <- <-]|Hin]; [exact E|]. now apply (IH H k' v).
Qed.

Lemma dict_length_del (k : K) (v : V) (d : list (K * V)) :
  Dict.get keq k d = Some v ->
  (List.length (Dict.del keq k d) < List.length d)%nat.
Proof.
  unfold Dict.del. induction d as [|[k' v'] d IH]; simpl; [discriminate|].
  destruct (keq k' k) eqn:E; simpl.
  - intros _. pose proof (filter_length_le (fun kv => negb (keq (fst kv) k)) d). lia.
  - intros H. specialize (IH H). lia.
Qed.

Lemma dict_length_set (k : K) (v v0 : V) (d : list (K * V)) :
  Dict.get keq k d = Some v0 ->
  List.length (Dict.set keq k v d) = List.length d.
Proof.
  induction d as [|[k' v'] d IH]; simpl; [discriminate|].
  destruct (keq k' k) eqn:E; simpl; [reflexivity|].
  intros H. now rewrite IH.
Qed.

End DictFacts.

(** ** String-keyed dictionaries (the order store) *)

Lemma str_eqb_trans (a b c : string) :
  String.eqb a b = true -> String.eqb b c = true -> String.eqb a c = true.
Proof. rewrite !String.eqb_eq. congruence. Qed.

Lemma sget_set_same (id : string) (v : Order) (d : Store) :
  Dict.get String.eqb id (Dict.set String.eqb id v d) = Some v.
Proof. apply dict_get_set_same. apply String.eqb_refl. Qed.

Lemma sget_set_other (id id2 : string) (v : Order) (d : Store) :
  id <> id2 ->
  Dict.get String.eqb id2 (Dict.set String.eqb id v d) = Dict.get String.eqb id2 d.
Proof.
  intros H. apply dict_get_set_other.
  - apply String.eqb_sym.
  - apply str_eqb_trans.
  - now apply String.eqb_neq.
Qed.

Lemma sget_del_same (id : string) (d : Store) :
  Dict.get String.eqb id (Dict.del String.eqb id d) = None.
Proof. apply dict_get_del_same. Qed.

Lemma sget_del_other (id id2 : string) (d : Store) :
  id <> id2 ->
  Dict.get String.eqb id2 (Dict.del String.eqb id d) = Dict.get String.eqb id2 d.
Proof.
  intros H. apply dict_get_del_other.
  - apply String.eqb_sym.
  - apply str_eqb_trans.
  - now apply String.eqb_neq.
Qed.

Lemma sdel_set (id : string) (v : Order) (d : Store) :
  Dict.del String.eqb id (Dict.set String.eqb id v d) = Dict.del String.eqb id d.
Proof. apply dict_del_set. apply String.eqb_refl. Qed.

(** ** Decimal-keyed dictionaries (the price levels) *)

Section LevelDict.
Context {V : Type}.
Implicit Types (d : list (Decimal * V)) (k : Decimal) (v : V).

Lemma dget_equiv k k2 d :
  Dec.eqb k k2 = true -> Dict.get Dec.eqb k d = Dict.get Dec.eqb k2 d.
Proof. apply dict_get_equiv; [apply eqb_sym|apply eqb_trans]. Qed.

Lemma dget_set_same k v d : Dict.get Dec.eqb k (Dict.set Dec.eqb k v d) = Some v.
Proof. apply dict_get_set_same, eqb_refl. Qed.

Lemma dget_set_other k k2 v d :
  Dec.eqb k k2 = false ->
  Dict.get Dec.eqb k2 (Dict.set Dec.eqb k v d) = Dict.get Dec.eqb k2 d.
Proof. apply dict_get_set_other; [apply eqb_sym|apply eqb_trans]. Qed.

Lemma dget_del_same k d : Dict.get Dec.eqb k (Dict.del Dec.eqb k d) = None.
Proof. apply dict_get_del_same. Qed.

Lemma dget_del_other k k2 d :
  Dec.eqb k k2 = false ->
  Dict.get Dec.eqb k2 (Dict.del Dec.eqb k d) = Dict.get Dec.eqb k2 d.
Proof. apply dict_get_del_other; [apply eqb_sym|apply eqb_trans]. Qed.

Lemma ddel_set k v d :
  Dict.del Dec.eqb k (Dict.set Dec.eqb k v d) = Dict.del Dec.eqb k d.
Proof. apply dict_del_set, eqb_refl. Qed.

Lemma nodup_keys_notin (x : Decimal) (l : list Decimal) :
  existsb (Dec.eqb x) l = false -> forall y, In y l -> Dec.eqb x y = false.
Proof.
  intros H y Hy. destruct (Dec.eqb x y) eqn:E; [|reflexivity].
  assert (existsb (Dec.eqb x) l = true) by (apply existsb_exists; eauto). congruence.
Qed.

(** With distinct keys, an entry of the list is what its key finds. *)
Lemma dget_in k v d :
  nodup_keys (Dict.keys d) = true -> In (k, v) d -> Dict.get Dec.eqb k d = Some v.
Proof.
  induction d as [|[k1 v1] d IH]; simpl; [intros _ []|].
  intros Hn [[= -> ->]|Hin]; apply andb_prop in Hn as [H1 H2].
  - now rewrite eqb_refl.
  - apply negb_true_iff in H1.
    rewrite (nodup_keys_notin k1 _ H1 k).
    + now apply IH.
    + apply in_map_iff. exists (k, v). auto.
Qed.

Lemma dget_some_in k v d :
  Dict.get Dec.eqb k d = Some v -> exists k', In (k', v) d /\ Dec.eqb k' k = true.
Proof. apply dict_get_in. Qed.

End LevelDict.

(** ** Sorting *)

Section SortFacts.
Variable le : Decimal -> Decimal -> bool.

Lemma in_insert_sorted (x y : Decimal) (l : list Decimal) :
  In y (insert_sorted le x l) <-> y = x \/ In y l.
Proof.
  induction l as [|z l IH]; simpl.
  - intuition.
  - destruct (le x z); simpl; [intuition|]. rewrite IH. intuition.
Qed.

Lemma in_sort (y : Decimal) (l : list Decimal) :
  In y (fold_right (insert_sorted le) [] l) <-> In y l.
Proof.
  induction l as [|z l IH]; simpl; [reflexivity|].
  rewrite in_insert_sorted, IH. intuition.
Qed.

Lemma insert_sorted_head (x : Decimal) (l : list Decimal) :
  (forall y, In y l -> le x y = true) -> insert_sorted le x l = x :: l.
Proof.
  destruct l as [|z l]; simpl; [reflexivity|].
  intros H. now rewrite (H z (or_introl eq_refl)).
Qed.

(** The head of the sorted list is the strictly best key. *)
Lemma sort_head_min (kd : Decimal) (l : list Decimal) :
  nodup_keys l = true ->
  In kd l ->
  (forall y, In y l -> le kd y = true) ->
  (forall y, In y l -> Dec.eqb y kd = false -> le y kd = false) ->
  fold_right (insert_sorted le) [] l
  = kd :: fold_right (insert_sorted le) []
            (filter (fun y => negb (Dec.eqb y kd)) l).
Proof.
  induction l as [|x l IH]; simpl; [intros _ []|].
  intros Hn Hin Hle Hlt. apply andb_prop in Hn as [H1 H2].
  apply negb_true_iff in H1.
  destruct (Dec.eqb x kd) eqn:E; simpl.
  - assert (x = kd) as ->.
    { destruct Hin as [|Hin]; [assumption|].
      rewrite (nodup_keys_notin x l H1 kd Hin) in E. discriminate. }
    assert (filter (fun y => negb (Dec.eqb y kd)) l = l) as ->.
    { clear IH Hle Hlt Hin H2. induction l as [|z l IHl]; simpl; [reflexivity|].
      simpl in H1. apply orb_false_elim in H1 as [Hz Hl].
      rewrite eqb_sym in Hz. rewrite Hz. simpl. now rewrite IHl. }
    apply insert_sorted_head. intros y Hy. apply Hle. right. now apply (proj1 (in_sort y l)).
  - assert (In kd l) as Hin'.
    { destruct Hin as [->|]; [|assumption]. rewrite eqb_refl in E. discriminate. }
    rewrite IH; auto. simpl. now rewrite (Hlt x (or_introl eq_refl) E).
Qed.
End SortFacts.

Lemma flat_map_ext_in {A B : Type} (f g : A -> list B) (l : list A) :
  (forall x, In x l -> f x = g x) -> flat_map f l = flat_map g l.
Proof.
  induction l as [|a l IH]; simpl; intros H; [reflexivity|].
  rewrite (H a (or_introl eq_refl)), IH; auto.
Qed.

Lemma forallb_ext_in {A : Type} (f g : A -> bool) (l : list A) :
  (forall x, In x l -> f x = g x) -> forallb f l = forallb g l.
Proof.
  induction l as [|a l IH]; simpl; intros H; [reflexivity|].
  rewrite (H a (or_introl eq_refl)), IH; auto.
Qed.

Lemma sort_le_refl (rev : bool) (a : Decimal) : sort_le rev a a = true.
Proof. destruct rev; apply leb_refl. Qed.

Lemma sort_le_antisym (rev : bool) (a b : Decimal) :
  sort_le rev a b = true -> sort_le rev b a = true -> Dec.eqb a b = true.
Proof.
  destruct rev; simpl; intros H1 H2.
  - now apply leb_antisym.
  - now apply leb_antisym.
Qed.

(** [kd] is the best key of [levels]: it is in the dictionary and no key is
    better. *)
Lemma levels_best_first_head (rev : bool) (kd : Decimal) (l : PriceLevel)
  (levels : list (Decimal * PriceLevel)) :
  nodup_keys (Dict.keys levels) = true ->
  In (kd, l) levels ->
  (forall k, In k (Dict.keys levels) -> sort_le rev kd k = true) ->
  levels_best_first rev levels
  = (kd, l) :: levels_best_first rev (Dict.del Dec.eqb kd levels).
Proof.
  intros Hn Hin Hbest. unfold levels_best_first, sorted.
  assert (In kd (Dict.keys levels)) as Hk.
  { apply in_map_iff. exists (kd, l). auto. }
  rewrite (sort_head_min (sort_le rev) kd (Dict.keys levels) Hn Hk Hbest).
  - simpl. rewrite (dget_in kd l levels Hn Hin). simpl. f_equal.
    rewrite dict_keys_del. apply flat_map_ext_in. intros k Hin'.
    apply (proj1 (in_sort _ _ _)) in Hin'. apply filter_In in Hin' as [_ Hne]. apply negb_true_iff in Hne.
    rewrite dget_del_other; [reflexivity|]. now rewrite eqb_sym.
  - intros y Hy Hne. destruct (sort_le rev y kd) eqn:E; [|reflexivity].
    rewrite (sort_le_antisym rev y kd E (Hbest y Hy)) in Hne. discriminate.
Qed.


(* ================================================================= *)
(** * Reading the standing conditions *)

Lemma gridb_spec (s : Z) (d : Decimal) : gridb s d = true <-> Dec.Ongrid s d.
Proof.
  unfold gridb, Dec.Ongrid. rewrite andb_true_iff, Z.leb_le, Z.ltb_lt. reflexivity.
Qed.

Lemma fitsb_spec (d : Decimal) : fitsb d = true <-> Dec.Fits d.
Proof. unfold fitsb, Dec.Fits. apply Z.ltb_lt. Qed.

Lemma side_eqb_spec (a b : OrderSide) : side_eqb a b = true <-> a = b.
Proof. destruct a, b; simpl; split; congruence. Qed.

Lemma resting_ok_spec (s : Z) (sd : OrderSide) (k : Decimal) (id : string) (o : Order) :
  resting_ok s sd k id o = true <->
  Order.order_id o = id /\ Order.side o = sd
  /\ (exists p, Order.price o = Some p /\ Dec.eqb p k = true)
  /\ Dec.Ongrid s (Order.quantity o) /\ Dec.Ongrid s (Order.filled_quantity o)
  /\ 0 <= Dec.units s (Order.filled_quantity o) < Dec.units s (Order.quantity o).
Proof.
  unfold resting_ok. rewrite !andb_true_iff, String.eqb_eq, side_eqb_spec,
    !gridb_spec, Z.leb_le, Z.ltb_lt.
  split.
  - intros ((((((H1 & H2) & H3) & H4) & H5) & H6) & H7).
    destruct (Order.price o) as [p|]; [|discriminate].
    exact (conj H1 (conj H2 (conj (ex_intro _ p (conj eq_refl H3))
             (conj H4 (conj H5 (conj H6 H7)))))).
  - intros (H1 & H2 & (p & Hp & Hk) & H4 & H5 & H6 & H7).
    rewrite Hp. auto 10.
Qed.

Lemma id_ok_spec (s : Z) (store : Store) (sd : OrderSide) (k : Decimal) (id : string) :
  id_ok s store sd k id = true <->
  exists o, Dict.get String.eqb id store = Some o /\ resting_ok s sd k id o = true.
Proof.
  unfold id_ok. destruct (Dict.get String.eqb id store) as [o|].
  - split; [eauto|]. now intros (o' & [= <-] & H).
  - split; [discriminate|]. now intros (o' & [=] & _).
Qed.

Lemma level_ok_spec (s : Z) (store : Store) (sd : OrderSide) (k : Decimal)
  (l : PriceLevel) :
  level_ok s store sd (k, l) = true <->
  PriceLevel.orders l <> []
  /\ nodup_ids (PriceLevel.orders l) = true
  /\ (forall id, In id (PriceLevel.orders l) -> id_ok s store sd k id = true)
  /\ Dec.Ongrid s (PriceLevel.total_quantity l)
  /\ Dec.units s (PriceLevel.total_quantity l) = ids_units s store (PriceLevel.orders l)
  /\ Dec.Fits k.
Proof.
  unfold level_ok. rewrite !andb_true_iff, forallb_forall, gridb_spec, Z.eqb_eq,
    fitsb_spec.
  split.
  - intros (((((H1 & H2) & H3) & H4) & H5) & H6).
    refine (conj _ (conj H2 (conj H3 (conj H4 (conj H5 H6))))).
    intros E. rewrite E in H1. discriminate.
  - intros (H1 & H2 & H3 & H4 & H5 & H6).
    refine (conj (conj (conj (conj (conj _ H2) H3) H4) H5) H6).
    destruct (PriceLevel.orders l); [congruence|reflexivity].
Qed.

Lemma side_ok_spec (s : Z) (store : Store) (sd : OrderSide) (side : OrderBookSide) :
  side_ok s store sd side = true <->
  OrderBookSide.is_bid side = side_eqb sd BUY
  /\ nodup_keys (Dict.keys (OrderBookSide.price_levels side)) = true
  /\ (forall kl, In kl (OrderBookSide.price_levels side) -> level_ok s store sd kl = true)
  /\ (forall kl, In kl (OrderBookSide.price_levels side) ->
        in_heap (OrderBookSide.is_bid side) (OrderBookSide.price_heap side) (fst kl) = true)
  /\ sortedb (OrderBookSide.price_heap side) = true
  /\ (forall h, In h (OrderBookSide.price_heap side) -> Dec.Fits h)
  /\ (forall p, In p (OrderBookSide._price_set side) ->
        in_heap (OrderBookSide.is_bid side) (OrderBookSide.price_heap side) p = true).
Proof.
  unfold side_ok. rewrite !andb_true_iff, !forallb_forall, eqb_true_iff.
  split.
  - intros ((((((H1 & H2) & H3) & H4) & H5) & H6) & H7).
    refine (conj H1 (conj H2 (conj H3 (conj H4 (conj H5 (conj _ H7)))))).
    intros h Hh. now apply fitsb_spec, H6.
  - intros (H1 & H2 & H3 & H4 & H5 & H6 & H7).
    refine (conj (conj (conj (conj (conj (conj H1 H2) H3) H4) H5) _) H7).
    intros h Hh. now apply fitsb_spec, H6.
Qed.

Lemma book_ok_spec (s : Z) (b : OrderBook) :
  book_ok s b = true <->
  0 <= s
  /\ side_ok s (OrderBook.orders b) BUY (OrderBook.bid_side b) = true
  /\ side_ok s (OrderBook.orders b) SELL (OrderBook.ask_side b) = true.
Proof.
  unfold book_ok. rewrite !andb_true_iff, Z.leb_le. tauto.
Qed.

Lemma book_ok_side (s : Z) (b : OrderBook) (sd : OrderSide) :
  book_ok s b = true -> side_ok s (OrderBook.orders b) sd (OrderBook.side_of sd b) = true.
Proof.
  intros H. apply book_ok_spec in H as (_ & H1 & H2). now destruct sd.
Qed.


(* ================================================================= *)
(** * Price levels *)

Lemma nodup_ids_cons (x : string) (r : list string) :
  nodup_ids (x :: r) = true <-> ~ In x r /\ nodup_ids r = true.
Proof.
  simpl. rewrite andb_true_iff, negb_true_iff. split; intros [H1 H2]; split; auto.
  - intros Hin. assert (existsb (String.eqb x) r = true); [|congruence].
    apply existsb_exists. exists x. split; [assumption|apply String.eqb_refl].
  - destruct (existsb (String.eqb x) r) eqn:E; [|reflexivity].
    apply existsb_exists in E as (y & Hy & Exy). apply String.eqb_eq in Exy. now subst.
Qed.

(** What a level reads of the store is what [get] finds for its ids. *)
Lemma ids_units_ext (s : Z) (st st' : Store) (ids : list string) :
  (forall id, In id ids -> Dict.get String.eqb id st' = Dict.get String.eqb id st) ->
  ids_units s st' ids = ids_units s st ids.
Proof.
  induction ids as [|x r IH]; simpl; intros H; [reflexivity|].
  rewrite (H x (or_introl eq_refl)), IH; auto.
Qed.

Lemma ids_volume_ext (s : Z) (st st' : Store) (ids : list string) :
  (forall id, In id ids -> Dict.get String.eqb id st' = Dict.get String.eqb id st) ->
  ids_volume s st' ids = ids_volume s st ids.
Proof.
  induction ids as [|x r IH]; simpl; intros H; [reflexivity|].
  rewrite (H x (or_introl eq_refl)), IH; auto.
Qed.

Lemma objects_ext (st st' : Store) (l l' : PriceLevel) :
  PriceLevel.orders l' = PriceLevel.orders l ->
  (forall id, In id (PriceLevel.orders l) ->
     Dict.get String.eqb id st' = Dict.get String.eqb id st) ->
  PriceLevel.objects st' l' = PriceLevel.objects st l.
Proof.
  unfold PriceLevel.objects. intros -> H. apply flat_map_ext_in.
  intros id Hin. now rewrite H.
Qed.

Lemma id_ok_ext (s : Z) (st st' : Store) (sd : OrderSide) (k : Decimal) (id : string) :
  Dict.get String.eqb id st' = Dict.get String.eqb id st ->
  id_ok s st' sd k id = id_ok s st sd k id.
Proof. unfold id_ok. now intros ->. Qed.

Lemma level_ok_ext (s : Z) (st st' : Store) (sd : OrderSide) (kl : Decimal * PriceLevel) :
  (forall id, In id (PriceLevel.orders (snd kl)) ->
     Dict.get String.eqb id st' = Dict.get String.eqb id st) ->
  level_ok s st' sd kl = level_ok s st sd kl.
Proof.
  destruct kl as [k l]. simpl. intros H. unfold level_ok.
  rewrite (ids_units_ext s st st' _ H). do 3 f_equal. f_equal.
  apply forallb_ext_in. intros id Hin. apply id_ok_ext. auto.
Qed.

(** ** Arithmetic on a resting order *)

Lemma remaining_units (s : Z) (o : Order) :
  Dec.Ongrid s (Order.quantity o) -> Dec.Ongrid s (Order.filled_quantity o) ->
  0 <= Dec.units s (Order.filled_quantity o) <= Dec.units s (Order.quantity o) ->
  Dec.units s (Order.remaining_quantity o) = rem_units s o
  /\ - s <= Dec.exp (Order.remaining_quantity o).
Proof.
  intros [Hq1 Hq2] [Hf1 Hf2] Hle. unfold Order.remaining_quantity, rem_units.
  apply sub_units; try assumption. lia.
Qed.

Lemma resting_remaining (s : Z) (sd : OrderSide) (k : Decimal) (id : string) (o : Order) :
  resting_ok s sd k id o = true ->
  Dec.units s (Order.remaining_quantity o) = rem_units s o
  /\ - s <= Dec.exp (Order.remaining_quantity o)
  /\ 0 < rem_units s o <= Dec.units s (Order.quantity o)
  /\ Dec.units s (Order.quantity o) < Dec.bound.
Proof.
  intros H. apply resting_ok_spec in H as (_ & _ & _ & Hq & Hf & Hle).
  destruct (remaining_units s o Hq Hf) as [E1 E2]; [lia|].
  destruct Hq as [_ Hq]. unfold rem_units in *. repeat split; try assumption; lia.
Qed.

Lemma ids_units_bounds (s : Z) (st : Store) (sd : OrderSide) (k : Decimal)
  (ids : list string) :
  (forall id, In id ids -> id_ok s st sd k id = true) ->
  Z.of_nat (List.length ids) <= ids_units s st ids <= ids_volume s st ids.
Proof.
  induction ids as [|x r IH]; intros H; [simpl; lia|].
  specialize (IH (fun id Hin => H id (or_intror Hin))).
  pose proof (H x (or_introl eq_refl)) as Hx. apply id_ok_spec in Hx as (o & Hg & Ho).
  destruct (resting_remaining s sd k x o Ho) as (_ & _ & Hr & _).
  cbn [ids_units ids_volume fold_right List.length]. rewrite Hg.
  fold (ids_units s st r). fold (ids_volume s st r). lia.
Qed.

(** Python's [sum] of remainders on the grid. *)
Lemma sum_units_acc (s : Z) (xs : list Decimal) : forall acc,
  - s <= Dec.exp acc -> 0 <= Dec.units s acc ->
  (forall x, In x xs -> - s <= Dec.exp x /\ 0 <= Dec.units s x) ->
  Dec.units s acc + fold_right (fun x a => Dec.units s x + a) 0 xs < Dec.bound ->
  Dec.units s (fold_left Dec.add xs acc)
  = Dec.units s acc + fold_right (fun x a => Dec.units s x + a) 0 xs
  /\ - s <= Dec.exp (fold_left Dec.add xs acc).
Proof.
  induction xs as [|x xs IH]; intros acc Ha Hp Hx Hb; simpl in *.
  - split; [lia|assumption].
  - destruct (Hx x (or_introl eq_refl)) as [Hx1 Hx2].
    assert (0 <= fold_right (fun x a => Dec.units s x + a) 0 xs) as Hnn.
    { clear - Hx. induction xs as [|y ys IHy]; simpl; [lia|].
      destruct (Hx y (or_intror (or_introl eq_refl))).
      assert (0 <= fold_right (fun x a => Dec.units s x + a) 0 ys); [|lia].
      apply IHy. intros z [->|Hz]; apply Hx; simpl; auto. }
    destruct (add_units s acc x Ha Hx1) as [E1 E2]; [lia|].
    assert (forall y, In y xs -> - s <= Dec.exp y /\ 0 <= Dec.units s y) as Hx'.
    { intros y Hy. apply Hx. now right. }
    destruct (IH (Dec.add acc x) E2 ltac:(lia) Hx' ltac:(lia)) as [E3 E4].
    split; [lia|assumption].
Qed.

Lemma objects_sum (s : Z) (st : Store) (sd : OrderSide) (k : Decimal) (l : PriceLevel) :
  0 <= s ->
  (forall id, In id (PriceLevel.orders l) -> id_ok s st sd k id = true) ->
  ids_units s st (PriceLevel.orders l) < Dec.bound ->
  let agg := Dec.sum (map Order.remaining_quantity (PriceLevel.objects st l)) in
  Dec.units s agg = ids_units s st (PriceLevel.orders l) /\ - s <= Dec.exp agg.
Proof.
  intros Hs Hok Hb agg. subst agg. unfold Dec.sum, PriceLevel.objects.
  assert (fold_right (fun x a => Dec.units s x + a) 0
            (map Order.remaining_quantity
               (flat_map (fun id => match Dict.get String.eqb id st with
                                    | Some o => [o] | None => [] end)
                  (PriceLevel.orders l)))
          = ids_units s st (PriceLevel.orders l)) as E.
  { induction (PriceLevel.orders l) as [|x r IH]; [reflexivity|].
    pose proof (Hok x (or_introl eq_refl)) as Hx. apply id_ok_spec in Hx as (o & Hg & Ho).
    destruct (resting_remaining s sd k x o Ho) as (Hu & _).
    cbn [flat_map ids_units fold_right]. rewrite Hg. cbn [app map fold_right].
    fold (ids_units s st r). rewrite Hu, IH; [reflexivity| |].
    - intros id Hin. apply Hok. now right.
    - pose proof (ids_units_bounds s st sd k r (fun id Hin => Hok id (or_intror Hin))).
      cbn [ids_units fold_right] in Hb. rewrite Hg in Hb. fold (ids_units s st r) in Hb.
      destruct (resting_remaining s sd k x o Ho) as (_ & _ & ? & _). lia. }
  destruct (sum_units_acc s
              (map Order.remaining_quantity
                 (flat_map (fun id => match Dict.get String.eqb id st with
                                      | Some o => [o] | None => [] end)
                    (PriceLevel.orders l))) Dec.zero) as [E1 E2].
  - simpl. lia.
  - rewrite units_zero. lia.
  - intros x Hx. apply in_map_iff in Hx as (o & <- & Ho).
    apply in_flat_map in Ho as (id & Hid & Ho).
    pose proof (Hok id Hid) as Hi. apply id_ok_spec in Hi as (o' & Hg & Hr).
    rewrite Hg in Ho. destruct Ho as [<-|[]].
    destruct (resting_remaining s sd k id o' Hr) as (Hu & He & Hp & _).
    split; [assumption|lia].
  - rewrite units_zero, E. lia.
  - rewrite E1, units_zero, E. split; [lia|assumption].
Qed.

(** ** [PriceLevel.remove_order], [update_quantity], [empty] *)

Lemma ltb_zero_false (s : Z) (d : Decimal) :
  0 <= s -> - s <= Dec.exp d -> 0 <= Dec.units s d -> Dec.ltb d Dec.zero = false.
Proof.
  intros Hs He Hu. rewrite (ltb_units s) by (simpl; lia).
  rewrite units_zero. apply Z.ltb_ge. lia.
Qed.

Lemma leb_zero (s : Z) (d : Decimal) :
  0 <= s -> - s <= Dec.exp d -> Dec.leb d Dec.zero = (Dec.units s d <=? 0).
Proof.
  intros Hs He. rewrite (leb_units s) by (simpl; lia). now rewrite units_zero.
Qed.

Lemma pl_remove_order (s : Z) (st : Store) (id : string) (o : Order)
  (l : PriceLevel) (ids' : list string) :
  0 <= s ->
  remove_first id (PriceLevel.orders l) = Some ids' ->
  Dict.get String.eqb id st = Some o ->
  - s <= Dec.exp (Order.remaining_quantity o) ->
  0 <= Dec.units s (Order.remaining_quantity o)
    <= Dec.units s (PriceLevel.total_quantity l) ->
  Dec.Ongrid s (PriceLevel.total_quantity l) ->
  exists l1,
    PriceLevel.remove_order st id l = (true, l1)
    /\ PriceLevel.orders l1 = ids'
    /\ PriceLevel.price l1 = PriceLevel.price l
    /\ Dec.Ongrid s (PriceLevel.total_quantity l1)
    /\ Dec.units s (PriceLevel.total_quantity l1)
       = Dec.units s (PriceLevel.total_quantity l)
         - Dec.units s (Order.remaining_quantity o).
Proof.
  intros Hs Hrf Hg He Hu [Ht1 Ht2].
  unfold PriceLevel.remove_order. rewrite Hrf, Hg.
  destruct (sub_units s (PriceLevel.total_quantity l) (Order.remaining_quantity o))
    as [E1 E2]; try assumption; [lia|].
  unfold PriceLevel.clamp. rewrite (ltb_zero_false s) by (assumption || lia).
  eexists. split; [reflexivity|]. simpl. repeat split; try assumption; lia.
Qed.

Lemma pl_empty_spec (s : Z) (st : Store) (sd : OrderSide) (k : Decimal)
  (l : PriceLevel) :
  0 <= s ->
  (forall id, In id (PriceLevel.orders l) -> id_ok s st sd k id = true) ->
  Dec.Ongrid s (PriceLevel.total_quantity l) ->
  ids_units s st (PriceLevel.orders l) <= Dec.units s (PriceLevel.total_quantity l) ->
  exists e l2,
    PriceLevel.empty st l = (e, l2)
    /\ PriceLevel.orders l2 = PriceLevel.orders l
    /\ PriceLevel.price l2 = PriceLevel.price l
    /\ (e = true <-> PriceLevel.orders l = [])
    /\ (e = false ->
          Dec.Ongrid s (PriceLevel.total_quantity l2)
          /\ Dec.units s (PriceLevel.total_quantity l2)
             = ids_units s st (PriceLevel.orders l)).
Proof.
  intros Hs Hok [Ht1 Ht2] Hle.
  pose proof (ids_units_bounds s st sd k _ Hok) as [Hlen _].
  unfold PriceLevel.empty. rewrite (leb_zero s) by assumption.
  destruct (Z.leb_spec (Dec.units s (PriceLevel.total_quantity l)) 0) as [Hz|Hz].
  - exists true, l. repeat split; try reflexivity; try discriminate.
    intros _. destruct (PriceLevel.orders l); [reflexivity|cbn [List.length] in Hlen; lia].
  - destruct (objects_sum s st sd k l Hs Hok) as [E1 E2]; [lia|].
    set (agg := Dec.sum (map Order.remaining_quantity (PriceLevel.objects st l))) in *.
    rewrite (eqb_units s) by assumption. rewrite E1.
    assert (forall l2, PriceLevel.orders l2 = PriceLevel.orders l ->
              Dec.units s (PriceLevel.total_quantity l2)
              = ids_units s st (PriceLevel.orders l) ->
              - s <= Dec.exp (PriceLevel.total_quantity l2) ->
              (Dec.leb (PriceLevel.total_quantity l2) Dec.zero = true
               <-> PriceLevel.orders l = [])
              /\ (Dec.leb (PriceLevel.total_quantity l2) Dec.zero = false ->
                  Dec.Ongrid s (PriceLevel.total_quantity l2)
                  /\ Dec.units s (PriceLevel.total_quantity l2)
                     = ids_units s st (PriceLevel.orders l))) as Hfin.
    { intros l2 Ho Hu He. rewrite (leb_zero s) by assumption. rewrite Hu. split.
      - rewrite Z.leb_le. split.
        + intros Hz'. destruct (PriceLevel.orders l); [reflexivity|cbn [List.length] in Hlen; lia].
        + intros ->. simpl. lia.
      - intros _. split; [|lia]. split; [assumption|]. lia. }
    destruct (Z.eqb_spec (ids_units s st (PriceLevel.orders l))
                (Dec.units s (PriceLevel.total_quantity l))) as [Heq|Hne]; simpl.
    + exists (Dec.leb (PriceLevel.total_quantity l) Dec.zero), l.
      destruct (Hfin l eq_refl (eq_sym Heq) Ht1) as [F1 F2]. auto.
    + eexists _, _. split; [reflexivity|]. simpl.
      destruct (Hfin (PriceLevel.mk (PriceLevel.price l) (PriceLevel.orders l) agg)
                  eq_refl E1 E2) as [F1 F2]. auto.
Qed.

(** On a level that satisfies the standing conditions [empty] answers no
    and changes nothing. *)
Lemma pl_empty_ok (s : Z) (st : Store) (sd : OrderSide) (k : Decimal) (l : PriceLevel) :
  0 <= s -> level_ok s st sd (k, l) = true -> PriceLevel.empty st l = (false, l).
Proof.
  intros Hs H. apply level_ok_spec in H as (Hne & _ & Hok & [Ht1 Ht2] & Hu & _).
  pose proof (ids_units_bounds s st sd k _ Hok) as [Hlen _].
  assert (0 < ids_units s st (PriceLevel.orders l)).
  { destruct (PriceLevel.orders l); [congruence|cbn [List.length] in Hlen; lia]. }
  unfold PriceLevel.empty. rewrite (leb_zero s) by assumption.
  destruct (Z.leb_spec (Dec.units s (PriceLevel.total_quantity l)) 0) as [Hz|Hz]; [lia|].
  destruct (objects_sum s st sd k l Hs Hok) as [E1 E2]; [lia|].
  rewrite (eqb_units s) by assumption. rewrite E1, Hu, Z.eqb_refl. simpl.
  rewrite (leb_zero s) by assumption.
  destruct (Z.leb_spec (Dec.units s (PriceLevel.total_quantity l)) 0); [lia|reflexivity].
Qed.


(* ================================================================= *)
(** * One side of the book: the heap with lazy deletion *)

Lemma side_ok_heap_ok (s : Z) (st : Store) (sd : OrderSide) (S : OrderBookSide) :
  side_ok s st sd S = true ->
  heap_ok (OrderBookSide.is_bid S) (OrderBookSide.price_levels S)
    (OrderBookSide.price_heap S) (OrderBookSide._price_set S).
Proof.
  intros H. apply side_ok_spec in H as (_ & H2 & _ & H4 & H5 & H6 & H7).
  exact (conj H2 (conj H4 (conj H5 (conj H6 H7)))).
Qed.

Lemma in_heap_cons (is_bid : bool) (h : Decimal) (heap : list Decimal) (p : Decimal) :
  in_heap is_bid (h :: heap) p
  = Dec.eqb (OrderBookSide._heap_to_price is_bid h) p || in_heap is_bid heap p.
Proof. reflexivity. Qed.

Lemma in_heap_spec (is_bid : bool) (heap : list Decimal) (p : Decimal) :
  in_heap is_bid heap p = true <->
  exists h, In h heap /\ Dec.eqb (OrderBookSide._heap_to_price is_bid h) p = true.
Proof. unfold in_heap. apply existsb_exists. Qed.

Lemma clean_heap_loop_spec (st : Store) (is_bid : bool)
  (levels : list (Decimal * PriceLevel)) :
  (forall k l, In (k, l) levels -> PriceLevel.empty st l = (false, l)) ->
  forall heap pset,
  heap_ok is_bid levels heap pset ->
  exists heap' pset',
    OrderBookSide._clean_heap_loop st is_bid levels pset heap = (levels, heap', pset')
    /\ heap_ok is_bid levels heap' pset'
    /\ match heap' with
       | [] => levels = []
       | h :: _ =>
           exists l, Dict.get Dec.eqb (OrderBookSide._heap_to_price is_bid h) levels
                     = Some l
       end.
Proof.
  intros Hemp heap. induction heap as [|top rest IH]; intros pset Hok.
  - exists [], pset. split; [reflexivity|]. split; [assumption|].
    destruct Hok as (_ & Hin & _). destruct levels as [|kl levels]; [reflexivity|].
    specialize (Hin kl (or_introl eq_refl)). discriminate.
  - destruct Hok as (Hn & Hin & Hs & Hf & Hp).
    cbn [OrderBookSide._clean_heap_loop].
    set (price := OrderBookSide._heap_to_price is_bid top) in *.
    destruct (Dict.get Dec.eqb price levels) as [lvl|] eqn:Hg.
    + destruct (dget_some_in _ _ _ Hg) as (k' & Hk' & _).
      rewrite (Hemp k' lvl Hk').
      rewrite (dict_set_same_value Dec.eqb price lvl levels Hg).
      exists (top :: rest), pset. split; [reflexivity|].
      split; [exact (conj Hn (conj Hin (conj Hs (conj Hf Hp))))|].
      exists lvl. exact Hg.
    + apply IH. simpl in Hs. apply andb_prop in Hs as [_ Hs].
      refine (conj Hn (conj _ (conj Hs (conj _ _)))).
      * intros [k l] Hkl. specialize (Hin (k, l) Hkl). cbn [fst] in *.
        rewrite in_heap_cons in Hin. apply orb_prop in Hin as [E|E]; [|assumption].
        fold price in E. rewrite (dget_equiv price k levels E) in Hg.
        rewrite (dget_in k l levels Hn Hkl) in Hg. discriminate.
      * intros h Hh. apply Hf. now right.
      * intros p Hpin. unfold set_discard in Hpin. apply filter_In in Hpin as [Hpin Hne].
        specialize (Hp p Hpin). rewrite in_heap_cons in Hp.
        apply negb_true_iff in Hne. fold price in Hp. rewrite eqb_sym in Hne.
        rewrite Hne in Hp. exact Hp.
Qed.

Lemma sortedb_head (h : Decimal) (heap : list Decimal) :
  sortedb (h :: heap) = true -> forall h2, In h2 (h :: heap) -> Dec.leb h h2 = true.
Proof.
  simpl. intros H h2 [<-|Hin]; [apply leb_refl|].
  apply andb_prop in H as [H _]. rewrite forallb_forall in H. auto.
Qed.

(** The key found at the cleaned head of the heap is the best key. *)
Lemma heap_head_best (is_bid : bool) (levels : list (Decimal * PriceLevel))
  (h : Decimal) (heap pset : list Decimal) (kd : Decimal) :
  heap_ok is_bid levels (h :: heap) pset ->
  Dec.eqb kd (OrderBookSide._heap_to_price is_bid h) = true ->
  best_key is_bid levels kd.
Proof.
  intros (Hn & Hin & Hs & Hf & _) Hkd k Hk.
  apply in_map_iff in Hk as ([k0 l] & <- & Hkl). cbn [fst].
  specialize (Hin (k0, l) Hkl). cbn [fst] in Hin.
  apply in_heap_spec in Hin as (h2 & Hh2 & E2).
  pose proof (sortedb_head h heap Hs h2 Hh2) as Hle.
  destruct is_bid; cbn [OrderBookSide._heap_to_price sort_le] in *.
  - rewrite (neg_fits h (Hf h (or_introl eq_refl))) in Hkd.
    rewrite (neg_fits h2 (Hf h2 Hh2)) in E2.
    rewrite <- leb_copy_negate in Hle.
    rewrite <- (eqb_leb_l _ _ _ E2). rewrite eqb_sym in Hkd.
    now rewrite <- (eqb_leb_r _ _ _ Hkd).
  - rewrite eqb_sym in Hkd. rewrite <- (eqb_leb_l _ _ _ Hkd).
    now rewrite <- (eqb_leb_r _ _ _ E2).
Qed.

Lemma get_best_price_spec (s : Z) (st : Store) (sd : OrderSide) (S : OrderBookSide) :
  0 <= s ->
  side_ok s st sd S = true ->
  exists r S',
    OrderBookSide.get_best_price st S = (r, S')
    /\ OrderBookSide.price_levels S' = OrderBookSide.price_levels S
    /\ side_ok s st sd S' = true
    /\ match r with
       | None => OrderBookSide.price_levels S = []
       | Some bp =>
           exists kd l,
             In (kd, l) (OrderBookSide.price_levels S)
             /\ Dec.eqb kd bp = true
             /\ Dict.get Dec.eqb bp (OrderBookSide.price_levels S) = Some l
             /\ best_key (side_eqb sd BUY) (OrderBookSide.price_levels S) kd
       end.
Proof.
  intros Hs Hok. pose proof (side_ok_heap_ok s st sd S Hok) as Hh.
  pose proof Hok as Hok'. apply side_ok_spec in Hok' as (Hb & Hn & Hl & _).
  destruct (clean_heap_loop_spec st (OrderBookSide.is_bid S)
              (OrderBookSide.price_levels S)) with (heap := OrderBookSide.price_heap S)
    (pset := OrderBookSide._price_set S) as (heap' & pset' & E & Hh' & Hhd).
  { intros k l Hkl. apply (pl_empty_ok s st sd k l Hs). now apply Hl. }
  { exact Hh. }
  unfold OrderBookSide.get_best_price, OrderBookSide._clean_heap. rewrite E.
  assert (side_ok s st sd
            (OrderBookSide.mk (OrderBookSide.is_bid S) (OrderBookSide.price_levels S)
               heap' pset') = true) as Hok2.
  { apply side_ok_spec. simpl. destruct Hh' as (H2 & H4 & H5 & H6 & H7).
    exact (conj Hb (conj H2 (conj Hl (conj H4 (conj H5 (conj H6 H7)))))). }
  destruct heap' as [|h heap'].
  - eexists None, _. simpl. repeat split; try reflexivity; assumption.
  - destruct Hhd as (l & Hg). cbn [OrderBookSide.price_heap OrderBookSide.is_bid].
    eexists (Some _), _. split; [reflexivity|]. split; [reflexivity|].
    split; [exact Hok2|].
    destruct (dget_some_in _ _ _ Hg) as (kd & Hkd & Ekd).
    exists kd, l. repeat split; try assumption.
    rewrite <- Hb. eapply heap_head_best; eassumption.
Qed.


(* ================================================================= *)
(** * Replacing and dropping a level *)

Lemma in_keys {V : Type} (k : Decimal) (v : V) (d : list (Decimal * V)) :
  In (k, v) d -> In k (Dict.keys d).
Proof. intros H. apply in_map_iff. exists (k, v). auto. Qed.

Lemma keys_in {V : Type} (k : Decimal) (d : list (Decimal * V)) :
  In k (Dict.keys d) -> exists v, In (k, v) d.
Proof. intros H. apply in_map_iff in H as ([k' v] & <- & H). eauto. Qed.

Lemma nodup_keys_filter (f : Decimal -> bool) (l : list Decimal) :
  nodup_keys l = true -> nodup_keys (filter f l) = true.
Proof.
  induction l as [|x l IH]; simpl; [reflexivity|].
  intros H. apply andb_prop in H as [H1 H2]. apply negb_true_iff in H1.
  destruct (f x); simpl; [|auto].
  rewrite IH by assumption. rewrite andb_true_r. apply negb_true_iff.
  destruct (existsb (Dec.eqb x) (filter f l)) eqn:E; [|reflexivity].
  apply existsb_exists in E as (y & Hy & Exy). apply filter_In in Hy as [Hy _].
  rewrite (nodup_keys_notin x l H1 y Hy) in Exy. discriminate.
Qed.

(** With distinct keys, two entries with equivalent keys are one entry. *)
Lemma nodup_in_key {V : Type} (k k2 : Decimal) (v v2 : V) (d : list (Decimal * V)) :
  nodup_keys (Dict.keys d) = true ->
  In (k, v) d -> In (k2, v2) d -> Dec.eqb k k2 = true -> k2 = k.
Proof.
  intros Hn H1 H2 E. induction d as [|[k1 v1] d IH]; [destruct H1|].
  simpl in Hn. apply andb_prop in Hn as [Hn1 Hn2]. apply negb_true_iff in Hn1.
  destruct H1 as [E1|H1], H2 as [E2|H2].
  - congruence.
  - injection E1 as -> ->.
    rewrite (nodup_keys_notin k _ Hn1 k2 (in_keys _ _ _ H2)) in E. discriminate.
  - injection E2 as -> ->. rewrite eqb_sym in E.
    rewrite (nodup_keys_notin k2 _ Hn1 k (in_keys _ _ _ H1)) in E. discriminate.
  - now apply IH.
Qed.

Lemma nodup_in_unique {V : Type} (k k2 : Decimal) (v v2 : V) (d : list (Decimal * V)) :
  nodup_keys (Dict.keys d) = true ->
  In (k, v) d -> In (k2, v2) d -> Dec.eqb k k2 = true -> (k2, v2) = (k, v).
Proof.
  intros Hn H1 H2 E.
  pose proof (nodup_in_key k k2 v v2 d Hn H1 H2 E) as ->.
  pose proof (dget_in k v d Hn H1) as G1.
  pose proof (dget_in k v2 d Hn H2) as G2. congruence.
Qed.

Lemma in_dict_set {V : Type} (k : Decimal) (v v0 : V) (d : list (Decimal * V)) :
  nodup_keys (Dict.keys d) = true ->
  Dict.get Dec.eqb k d = Some v0 ->
  forall kl, In kl (Dict.set Dec.eqb k v d) ->
  (Dec.eqb (fst kl) k = true /\ snd kl = v /\ In (fst kl, v0) d)
  \/ (In kl d /\ Dec.eqb (fst kl) k = false).
Proof.
  induction d as [|[k1 v1] d IH]; simpl; [discriminate|].
  intros Hn Hg kl. apply andb_prop in Hn as [Hn1 Hn2]. apply negb_true_iff in Hn1.
  destruct (Dec.eqb k1 k) eqn:E.
  - injection Hg as ->. intros [<-|Hin]; [left; simpl; auto|].
    right. split; [auto|]. destruct kl as [k' v']. simpl.
    pose proof (nodup_keys_notin k1 _ Hn1 k' (in_keys _ _ _ Hin)) as Hne.
    destruct (Dec.eqb k' k) eqn:E'; [|reflexivity].
    rewrite eqb_sym in E'. rewrite (eqb_trans _ _ _ E E') in Hne. discriminate.
  - intros [<-|Hin]; [right; simpl; auto|].
    destruct (IH Hn2 Hg kl Hin) as [(H1 & H2 & H3)|[H1 H2]]; [left|right]; auto.
Qed.

Lemma in_dict_del {V : Type} (k : Decimal) (d : list (Decimal * V)) (kl : Decimal * V) :
  In kl (Dict.del Dec.eqb k d) <-> In kl d /\ Dec.eqb (fst kl) k = false.
Proof. unfold Dict.del. rewrite filter_In, negb_true_iff. reflexivity. Qed.

(** An order rests in one level only: the level of its side and price. *)
Lemma id_level_unique (s : Z) (st : Store) (sd sd2 : OrderSide) (k k2 : Decimal)
  (id : string) :
  id_ok s st sd k id = true -> id_ok s st sd2 k2 id = true ->
  sd = sd2 /\ Dec.eqb k k2 = true.
Proof.
  intros H1 H2. apply id_ok_spec in H1 as (o & G1 & R1).
  apply id_ok_spec in H2 as (o2 & G2 & R2). rewrite G1 in G2. injection G2 as <-.
  apply resting_ok_spec in R1 as (_ & S1 & (p & P1 & E1) & _).
  apply resting_ok_spec in R2 as (_ & S2 & (p2 & P2 & E2) & _).
  rewrite P1 in P2. injection P2 as <-. split; [congruence|].
  rewrite eqb_sym in E1. exact (eqb_trans _ _ _ E1 E2).
Qed.

(** Levels that do not hold [id] do not see a change of the store at [id]. *)
Lemma level_ok_other (s : Z) (st st' : Store) (sd sd2 : OrderSide) (kd k2 : Decimal)
  (l2 : PriceLevel) (id : string) :
  (forall id', id' <> id -> Dict.get String.eqb id' st' = Dict.get String.eqb id' st) ->
  id_ok s st sd kd id = true ->
  level_ok s st sd2 (k2, l2) = true ->
  sd <> sd2 \/ Dec.eqb kd k2 = false ->
  level_ok s st' sd2 (k2, l2) = true.
Proof.
  intros Hst Hid Hl Hne. rewrite (level_ok_ext s st st'); [assumption|].
  simpl. intros id' Hin. apply Hst. intros ->.
  apply level_ok_spec in Hl as (_ & _ & Hok & _).
  destruct (id_level_unique s st sd sd2 kd k2 id Hid (Hok id Hin)) as [E1 E2].
  destruct Hne; congruence.
Qed.

Lemma side_ok_other (s : Z) (st st' : Store) (sd sd2 : OrderSide) (kd : Decimal)
  (id : string) (S2 : OrderBookSide) :
  (forall id', id' <> id -> Dict.get String.eqb id' st' = Dict.get String.eqb id' st) ->
  id_ok s st sd kd id = true ->
  sd <> sd2 ->
  side_ok s st sd2 S2 = true -> side_ok s st' sd2 S2 = true.
Proof.
  intros Hst Hid Hne H. apply side_ok_spec in H as (H1 & H2 & H3 & H4).
  apply side_ok_spec. refine (conj H1 (conj H2 (conj _ H4))).
  intros [k2 l2] Hin. eapply level_ok_other; eauto.
Qed.

(** Replacing the level at [kd]. *)
Lemma side_ok_replace (s : Z) (st st' : Store) (sd : OrderSide) (S : OrderBookSide)
  (kd p : Decimal) (l l' : PriceLevel) (id : string) :
  (forall id', id' <> id -> Dict.get String.eqb id' st' = Dict.get String.eqb id' st) ->
  side_ok s st sd S = true ->
  In (kd, l) (OrderBookSide.price_levels S) ->
  Dec.eqb p kd = true ->
  id_ok s st sd kd id = true ->
  level_ok s st' sd (kd, l') = true ->
  side_ok s st' sd
    (OrderBookSide.mk (OrderBookSide.is_bid S)
       (Dict.set Dec.eqb p l' (OrderBookSide.price_levels S))
       (OrderBookSide.price_heap S) (OrderBookSide._price_set S)) = true.
Proof.
  intros Hst H Hin Ep Hid Hl'. apply side_ok_spec in H as (H1 & H2 & H3 & H4 & H5).
  pose proof (dget_in kd l _ H2 Hin) as Hg.
  rewrite <- (dget_equiv p kd _ Ep) in Hg.
  apply side_ok_spec. simpl.
  refine (conj H1 (conj _ (conj _ (conj _ H5)))).
  - now rewrite (dict_keys_set_existing Dec.eqb p l' l _ Hg).
  - intros kl Hkl. destruct (in_dict_set p l' l _ H2 Hg kl Hkl) as [(E & Ev & Hi)|[Hi E]].
    + assert ((fst kl, l) = (kd, l)) as Heq.
      { apply (nodup_in_unique kd (fst kl) l l _ H2 Hin Hi).
        rewrite eqb_sym. exact (eqb_trans _ _ _ E Ep). }
      destruct kl as [k' v']. simpl in *. injection Heq as ->. now subst.
    + destruct kl as [k2 l2]. simpl in E.
      eapply level_ok_other; eauto. right.
      destruct (Dec.eqb kd k2) eqn:E'; [|reflexivity].
      rewrite eqb_sym in E'. rewrite (eqb_trans _ _ _ E' (eq_trans (eqb_sym kd p) Ep)) in E.
      discriminate.
  - intros kl Hkl. destruct (in_dict_set p l' l _ H2 Hg kl Hkl) as [(E & Ev & Hi)|[Hi E]].
    + exact (H4 _ Hi).
    + exact (H4 _ Hi).
Qed.

Lemma ddel_equiv {V : Type} (p kd : Decimal) (d : list (Decimal * V)) :
  Dec.eqb p kd = true -> Dict.del Dec.eqb p d = Dict.del Dec.eqb kd d.
Proof.
  intros E. unfold Dict.del. apply filter_ext. intros [k v]. simpl.
  now rewrite (eqb_eqb_r k p kd E).
Qed.

Lemma dset_equiv {V : Type} (p kd : Decimal) (v v0 : V) (d : list (Decimal * V)) :
  Dec.eqb p kd = true -> Dict.get Dec.eqb kd d = Some v0 ->
  Dict.set Dec.eqb p v d = Dict.set Dec.eqb kd v d.
Proof.
  intros E. induction d as [|[k1 v1] d IH]; simpl; [discriminate|].
  rewrite (eqb_eqb_r k1 p kd E). destruct (Dec.eqb k1 kd); [reflexivity|].
  intros H. now rewrite IH.
Qed.

Lemma set_discard_equiv (p kd : Decimal) (ps : list Decimal) :
  Dec.eqb p kd = true -> set_discard p ps = set_discard kd ps.
Proof.
  intros E. unfold set_discard. apply filter_ext. intros y.
  now rewrite (eqb_eqb_r y p kd E).
Qed.

(** Dropping the level at [kd] and cleaning the heap. *)
Lemma side_ok_drop (s : Z) (st st1 st' : Store) (sd : OrderSide) (S : OrderBookSide)
  (kd : Decimal) (l : PriceLevel) (id : string) :
  0 <= s ->
  (forall id', id' <> id -> Dict.get String.eqb id' st1 = Dict.get String.eqb id' st) ->
  (forall id', id' <> id -> Dict.get String.eqb id' st' = Dict.get String.eqb id' st) ->
  side_ok s st sd S = true ->
  In (kd, l) (OrderBookSide.price_levels S) ->
  id_ok s st sd kd id = true ->
  let S2 := OrderBookSide._clean_heap st1
              (OrderBookSide.mk (OrderBookSide.is_bid S)
                 (Dict.del Dec.eqb kd (OrderBookSide.price_levels S))
                 (OrderBookSide.price_heap S)
                 (set_discard kd (OrderBookSide._price_set S))) in
  side_ok s st' sd S2 = true
  /\ OrderBookSide.price_levels S2 = Dict.del Dec.eqb kd (OrderBookSide.price_levels S).
Proof.
  intros Hs Hst1 Hst' H Hin Hid S2.
  apply side_ok_spec in H as (H1 & H2 & H3 & H4 & H5 & H6 & H7).
  set (levels := OrderBookSide.price_levels S) in *.
  assert (forall k2 l2 stx,
            (forall id', id' <> id ->
               Dict.get String.eqb id' stx = Dict.get String.eqb id' st) ->
            In (k2, l2) (Dict.del Dec.eqb kd levels) ->
            level_ok s stx sd (k2, l2) = true) as Hlv.
  { intros k2 l2 stx Hstx Hk. apply in_dict_del in Hk as [Hk E]. simpl in E.
    eapply level_ok_other; eauto. right. now rewrite eqb_sym. }
  destruct (clean_heap_loop_spec st1 (OrderBookSide.is_bid S)
              (Dict.del Dec.eqb kd levels)) with (heap := OrderBookSide.price_heap S)
    (pset := set_discard kd (OrderBookSide._price_set S))
    as (heap' & pset' & E & (G2 & G4 & G5 & G6 & G7) & _).
  { intros k2 l2 Hk. apply (pl_empty_ok s st1 sd k2 l2 Hs). now apply Hlv. }
  { refine (conj _ (conj _ (conj H5 (conj H6 _)))).
    - rewrite dict_keys_del. now apply nodup_keys_filter.
    - intros kl Hk. apply in_dict_del in Hk as [Hk _]. now apply H4.
    - intros p Hp. unfold set_discard in Hp. apply filter_In in Hp as [Hp _].
      now apply H7. }
  subst S2. unfold OrderBookSide._clean_heap. simpl. fold levels. rewrite E. simpl.
  split; [|reflexivity]. apply side_ok_spec. simpl.
  refine (conj H1 (conj G2 (conj _ (conj G4 (conj G5 (conj G6 G7)))))).
  intros [k2 l2] Hk. now apply Hlv.
Qed.

Lemma side_of_with_side (sd : OrderSide) (S : OrderBookSide) (b : OrderBook) :
  OrderBook.side_of sd (OrderBook.with_side sd S b) = S.
Proof. now destruct sd. Qed.

Lemma side_of_with_side_opp (sd : OrderSide) (S : OrderBookSide) (b : OrderBook) :
  OrderBook.side_of (opposite sd) (OrderBook.with_side sd S b)
  = OrderBook.side_of (opposite sd) b.
Proof. now destruct sd. Qed.

Lemma orders_with_side (sd : OrderSide) (S : OrderBookSide) (b : OrderBook) :
  OrderBook.orders (OrderBook.with_side sd S b) = OrderBook.orders b.
Proof. now destruct sd. Qed.

Lemma side_of_with_orders (sd : OrderSide) (st : Store) (b : OrderBook) :
  OrderBook.side_of sd (OrderBook.with_orders st b) = OrderBook.side_of sd b.
Proof. now destruct sd. Qed.

Lemma with_side_with_orders (sd : OrderSide) (S : OrderBookSide) (st : Store)
  (b : OrderBook) :
  OrderBook.with_side sd S (OrderBook.with_orders st b)
  = OrderBook.with_orders st (OrderBook.with_side sd S b).
Proof. now destruct sd. Qed.

Lemma opposite_neq (sd : OrderSide) : sd <> opposite sd.
Proof. now destruct sd. Qed.

Lemma opposite_involutive (sd : OrderSide) : opposite (opposite sd) = sd.
Proof. now destruct sd. Qed.

Lemma book_ok_intro (s : Z) (b : OrderBook) (sd : OrderSide) :
  0 <= s ->
  side_ok s (OrderBook.orders b) sd (OrderBook.side_of sd b) = true ->
  side_ok s (OrderBook.orders b) (opposite sd) (OrderBook.side_of (opposite sd) b) = true ->
  book_ok s b = true.
Proof.
  intros Hs H1 H2. apply book_ok_spec. destruct sd; simpl in *; auto.
Qed.

Lemma book_ok_scale (s : Z) (b : OrderBook) : book_ok s b = true -> 0 <= s.
Proof. intros H. now apply book_ok_spec in H. Qed.


(* ================================================================= *)
(** * Removing a filled maker, recording a partial fill *)

Lemma remove_first_head (id : string) (rest : list string) :
  remove_first id (id :: rest) = Some rest.
Proof. simpl. now rewrite String.eqb_refl. Qed.

Lemma store_set_other (id : string) (v : Order) (st : Store) :
  forall id', id' <> id ->
  Dict.get String.eqb id' (Dict.set String.eqb id v st) = Dict.get String.eqb id' st.
Proof. intros id' H. apply sget_set_other. congruence. Qed.

Lemma store_del_other (id : string) (st : Store) :
  forall id', id' <> id ->
  Dict.get String.eqb id' (Dict.del String.eqb id st) = Dict.get String.eqb id' st.
Proof. intros id' H. apply sget_del_other. congruence. Qed.

Lemma remove_filled_head (s : Z) (b : OrderBook) (sd : OrderSide) (kd p : Decimal)
  (l : PriceLevel) (id : string) (rest : list string) (m2 : Order) :
  book_ok s b = true ->
  In (kd, l) (OrderBookSide.price_levels (OrderBook.side_of sd b)) ->
  PriceLevel.orders l = id :: rest ->
  Order.order_id m2 = id -> Order.side m2 = sd ->
  Order.price m2 = Some p -> Dec.eqb p kd = true ->
  - s <= Dec.exp (Order.remaining_quantity m2) ->
  Dec.units s (Order.remaining_quantity m2) = 0 ->
  exists b2,
    OrderBook.remove_filled id
      (OrderBook.with_orders (Dict.set String.eqb id m2 (OrderBook.orders b)) b)
    = (Ok true, b2)
    /\ book_ok s b2 = true
    /\ OrderBook.orders b2 = Dict.del String.eqb id (OrderBook.orders b)
    /\ OrderBook.side_of (opposite sd) b2 = OrderBook.side_of (opposite sd) b
    /\ ((rest = []
         /\ OrderBookSide.price_levels (OrderBook.side_of sd b2)
            = Dict.del Dec.eqb kd (OrderBookSide.price_levels (OrderBook.side_of sd b)))
        \/ (rest <> []
            /\ exists l2,
                 OrderBookSide.price_levels (OrderBook.side_of sd b2)
                 = Dict.set Dec.eqb kd l2
                     (OrderBookSide.price_levels (OrderBook.side_of sd b))
                 /\ PriceLevel.orders l2 = rest)).
Proof.
  intros Hb Hin Ho Hid Hsd Hp Ep He Hu.
  pose proof (book_ok_scale s b Hb) as Hs.
  pose proof (book_ok_side s b sd Hb) as HS.
  pose proof (book_ok_side s b (opposite sd) Hb) as HSo.
  set (st := OrderBook.orders b) in *.
  set (S := OrderBook.side_of sd b) in *.
  set (st1 := Dict.set String.eqb id m2 st).
  pose proof HS as HS'. apply side_ok_spec in HS' as (_ & Hn & Hl & _).
  pose proof (Hl _ Hin) as Hlv.
  apply level_ok_spec in Hlv as (_ & Hnd & Hok & Hgt & Hut & Hfk).
  rewrite Ho in Hnd, Hok, Hut.
  apply nodup_ids_cons in Hnd as [Hnotin Hnd].
  pose proof (Hok id (or_introl eq_refl)) as Hidok.
  assert (forall id', In id' rest -> id' <> id) as Hrest_ne.
  { intros id' Hi ->. contradiction. }
  assert (Dict.get Dec.eqb p (OrderBookSide.price_levels S) = Some l) as Hg.
  { rewrite (dget_equiv p kd _ Ep). now apply dget_in. }
  (* the level without its head *)
  destruct (pl_remove_order s st1 id m2 l rest Hs) as (l1 & R1 & R2 & R3 & R4 & R5).
  { rewrite Ho. apply remove_first_head. }
  { apply sget_set_same. }
  { exact He. }
  { rewrite Hu, Hut.
    pose proof (ids_units_bounds s st sd kd (id :: rest) Hok). lia. }
  { exact Hgt. }
  assert (forall id', In id' rest -> id_ok s st1 sd kd id' = true) as Hok1.
  { intros id' Hi. rewrite (id_ok_ext s st st1).
    - apply Hok. now right.
    - apply store_set_other. auto. }
  assert (ids_units s st1 rest = ids_units s st rest) as Hu1.
  { apply ids_units_ext. intros id' Hi. apply store_set_other. auto. }
  destruct (pl_empty_spec s st1 sd kd l1 Hs) as (e & l2 & E1 & E2 & E3 & E4 & E5).
  { now rewrite R2. }
  { exact R4. }
  { rewrite R2, R5, Hu, Hu1, Hut. cbn [ids_units fold_right].
    apply id_ok_spec in Hidok as (m & Gm & Rm). rewrite Gm.
    destruct (resting_remaining s sd kd id m Rm) as (_ & _ & ? & _).
    fold (ids_units s st rest). lia. }
  rewrite R2 in E2, E4, E5.
  (* the call *)
  assert (Dict.get String.eqb id st1 = Some m2) as Gm2 by apply sget_set_same.
  unfold OrderBook.remove_filled. cbn [OrderBook.orders OrderBook.with_orders].
  fold st1. rewrite Gm2. rewrite Hsd, Hp, side_of_with_orders. fold S.
  unfold OrderBookSide.remove_order. rewrite Hg, R1, E1.
  set (st' := Dict.del String.eqb id st).
  assert (forall id', id' <> id ->
            Dict.get String.eqb id' st' = Dict.get String.eqb id' st) as Hst'
    by apply store_del_other.
  assert (forall id', id' <> id ->
            Dict.get String.eqb id' st1 = Dict.get String.eqb id' st) as Hst1
    by apply store_set_other.
  assert (side_ok s st' (opposite sd) (OrderBook.side_of (opposite sd) b) = true) as HSo'.
  { eapply side_ok_other; eauto. apply opposite_neq. }
  assert (Dict.del String.eqb id st1 = st') as Hdel
    by (unfold st1, st'; apply sdel_set).
  destruct e.
  - (* the level is dropped *)
    assert (rest = []) as -> by now apply E4.
    rewrite (ddel_equiv p kd _ Ep), (set_discard_equiv p kd _ Ep).
    destruct (side_ok_drop s st st1 st' sd S kd l id Hs Hst1 Hst' HS Hin Hidok)
      as [D1 D2].
    eexists. split; [reflexivity|].
    rewrite orders_with_side. cbn [OrderBook.orders OrderBook.with_orders].
    rewrite Hdel.
    split; [|split; [reflexivity|split]].
    + apply (book_ok_intro s _ sd Hs); cbn [OrderBook.orders OrderBook.with_orders];
        rewrite ?side_of_with_orders, ?side_of_with_side, ?side_of_with_side_opp;
        assumption.
    + now rewrite side_of_with_orders, side_of_with_side_opp.
    + left. split; [reflexivity|].
      now rewrite side_of_with_orders, side_of_with_side.
  - (* the level stays, without its head *)
    assert (rest <> []) as Hne.
    { intros ->. destruct E4 as [_ E4]. now specialize (E4 eq_refl). }
    destruct (E5 eq_refl) as [F1 F2].
    rewrite (dset_equiv p kd l2 l _ Ep) by now apply dget_in.
    assert (level_ok s st' sd (kd, l2) = true) as Hl2.
    { apply level_ok_spec. rewrite E2.
      refine (conj Hne (conj Hnd (conj _ (conj F1 (conj _ Hfk))))).
      - intros id' Hi. rewrite (id_ok_ext s st st').
        + apply Hok. now right.
        + apply Hst'. auto.
      - rewrite F2, Hu1. symmetry. apply ids_units_ext. intros id' Hi. apply Hst'. auto. }
    pose proof (side_ok_replace s st st' sd S kd kd l l2 id Hst' HS Hin
                  (eqb_refl kd) Hidok Hl2) as HS2.
    eexists. split; [reflexivity|].
    rewrite orders_with_side. cbn [OrderBook.orders OrderBook.with_orders].
    rewrite Hdel.
    split; [|split; [reflexivity|split]].
    + apply (book_ok_intro s _ sd Hs); cbn [OrderBook.orders OrderBook.with_orders];
        rewrite ?side_of_with_orders, ?side_of_with_side, ?side_of_with_side_opp;
        assumption.
    + now rewrite side_of_with_orders, side_of_with_side_opp.
    + right. split; [assumption|]. exists l2.
      rewrite side_of_with_orders, side_of_with_side. cbn [OrderBookSide.price_levels].
      split; [reflexivity|assumption].
Qed.

Lemma in_set_self {V : Type} (kd : Decimal) (v v' : V) (d : list (Decimal * V)) :
  nodup_keys (Dict.keys d) = true ->
  In (kd, v) d -> In (kd, v') (Dict.set Dec.eqb kd v' d).
Proof.
  induction d as [|[k1 v1] d IH]; simpl; [intros _ []|].
  intros Hn [E|Hin]; apply andb_prop in Hn as [Hn1 Hn2].
  - injection E as -> ->. rewrite eqb_refl. now left.
  - apply negb_true_iff in Hn1.
    rewrite (nodup_keys_notin k1 _ Hn1 kd (in_keys _ _ _ Hin)). right. auto.
Qed.

Lemma update_level_partial (s : Z) (b : OrderBook) (sd : OrderSide) (kd bp : Decimal)
  (l : PriceLevel) (id : string) (rest : list string) (m m2 : Order) (fq : Decimal) :
  book_ok s b = true ->
  In (kd, l) (OrderBookSide.price_levels (OrderBook.side_of sd b)) ->
  PriceLevel.orders l = id :: rest ->
  Dec.eqb kd bp = true ->
  Dict.get String.eqb id (OrderBook.orders b) = Some m ->
  resting_ok s sd kd id m2 = true ->
  - s <= Dec.exp fq -> 0 < Dec.units s fq ->
  rem_units s m2 = rem_units s m - Dec.units s fq ->
  exists l2,
    MatchingEngine.update_level sd bp id fq
      (OrderBook.with_orders (Dict.set String.eqb id m2 (OrderBook.orders b)) b)
    = OrderBook.with_side sd
        (OrderBookSide.mk (OrderBookSide.is_bid (OrderBook.side_of sd b))
           (Dict.set Dec.eqb kd l2 (OrderBookSide.price_levels (OrderBook.side_of sd b)))
           (OrderBookSide.price_heap (OrderBook.side_of sd b))
           (OrderBookSide._price_set (OrderBook.side_of sd b)))
        (OrderBook.with_orders (Dict.set String.eqb id m2 (OrderBook.orders b)) b)
    /\ PriceLevel.orders l2 = id :: rest
    /\ book_ok s
         (OrderBook.with_side sd
            (OrderBookSide.mk (OrderBookSide.is_bid (OrderBook.side_of sd b))
               (Dict.set Dec.eqb kd l2
                  (OrderBookSide.price_levels (OrderBook.side_of sd b)))
               (OrderBookSide.price_heap (OrderBook.side_of sd b))
               (OrderBookSide._price_set (OrderBook.side_of sd b)))
            (OrderBook.with_orders (Dict.set String.eqb id m2 (OrderBook.orders b)) b))
       = true.
Proof.
  intros Hb Hin Ho Ek Gm Rm2 Hfe Hfp Hrem.
  pose proof (book_ok_scale s b Hb) as Hs.
  pose proof (book_ok_side s b sd Hb) as HS.
  pose proof (book_ok_side s b (opposite sd) Hb) as HSo.
  set (st := OrderBook.orders b) in *.
  set (S := OrderBook.side_of sd b) in *.
  set (st1 := Dict.set String.eqb id m2 st).
  pose proof HS as HS'. apply side_ok_spec in HS' as (_ & Hn & Hl & _).
  pose proof (Hl _ Hin) as Hlv.
  apply level_ok_spec in Hlv as (Hne & Hnd & Hok & [Hg1 Hg2] & Hut & Hfk).
  rewrite Ho in Hnd, Hok, Hut.
  pose proof Hnd as Hnd'. apply nodup_ids_cons in Hnd' as [Hnotin _].
  pose proof (Hok id (or_introl eq_refl)) as Hidok.
  assert (forall id', id' <> id ->
            Dict.get String.eqb id' st1 = Dict.get String.eqb id' st) as Hst1
    by apply store_set_other.
  assert (Dict.get String.eqb id st1 = Some m2) as Gm2 by apply sget_set_same.
  assert (ids_units s st1 rest = ids_units s st rest) as Hu1.
  { apply ids_units_ext. intros id' Hi. apply Hst1. intros ->. contradiction. }
  assert (Dict.get Dec.eqb bp (OrderBookSide.price_levels S) = Some l) as Hg.
  { rewrite <- (dget_equiv kd bp _ Ek). now apply dget_in. }
  destruct (resting_remaining s sd kd id m2 Rm2) as (Ru & Re & Rp & _).
  pose proof Hidok as Hidok'. apply id_ok_spec in Hidok' as (m' & Gm' & Rm).
  rewrite Gm in Gm'. injection Gm' as <-.
  destruct (resting_remaining s sd kd id m Rm) as (_ & _ & Rmp & _).
  pose proof (ids_units_bounds s st sd kd rest (fun i Hi => Hok i (or_intror Hi)))
    as [Hr0 _].
  cbn [ids_units fold_right] in Hut. rewrite Gm in Hut. fold (ids_units s st rest) in Hut.
  destruct (sub_units s (PriceLevel.total_quantity l) fq Hg1 Hfe) as [E1 E2]; [lia|].
  set (l2 := PriceLevel.mk (PriceLevel.price l) (PriceLevel.orders l)
               (Dec.sub (PriceLevel.total_quantity l) fq)).
  exists l2.
  assert (MatchingEngine.update_level sd bp id fq (OrderBook.with_orders st1 b)
          = OrderBook.with_side sd
              (OrderBookSide.mk (OrderBookSide.is_bid S)
                 (Dict.set Dec.eqb kd l2 (OrderBookSide.price_levels S))
                 (OrderBookSide.price_heap S) (OrderBookSide._price_set S))
              (OrderBook.with_orders st1 b)) as Eupd.
  { unfold MatchingEngine.update_level. rewrite side_of_with_orders. fold S.
    rewrite Hg. cbn [OrderBook.orders OrderBook.with_orders].
    unfold PriceLevel.update_quantity.
    rewrite (leb_zero s) by assumption.
    destruct (Z.leb_spec (Dec.units s fq) 0) as [?|_]; [lia|].
    rewrite Ho, remove_first_head, Gm2.
    rewrite (leb_zero s) by assumption.
    destruct (Z.leb_spec (Dec.units s (Order.remaining_quantity m2)) 0) as [?|_]; [lia|].
    unfold PriceLevel.clamp. rewrite (ltb_zero_false s) by (assumption || lia).
    rewrite <- Ho. fold l2.
    rewrite (dset_equiv bp kd l2 l); [reflexivity| |now apply dget_in].
    now rewrite eqb_sym. }
  split; [exact Eupd|]. split; [exact Ho|].
  assert (level_ok s st1 sd (kd, l2) = true) as Hl2.
  { apply level_ok_spec. cbn [PriceLevel.orders PriceLevel.total_quantity l2].
    rewrite Ho.
    refine (conj _ (conj Hnd (conj _ (conj _ (conj _ Hfk))))).
    - discriminate.
    - intros id' [<-|Hi].
      + apply id_ok_spec. eauto.
      + rewrite (id_ok_ext s st st1); [apply Hok; now right|].
        apply Hst1. intros ->. contradiction.
    - split; [assumption|]. lia.
    - cbn [ids_units fold_right]. rewrite Gm2. fold (ids_units s st1 rest). lia. }
  apply (book_ok_intro s _ sd Hs).
  - rewrite orders_with_side, side_of_with_side. cbn [OrderBook.orders OrderBook.with_orders].
    fold st1. apply (side_ok_replace s st st1 sd S kd kd l l2 id Hst1 HS Hin
                       (eqb_refl kd) Hidok Hl2).
  - rewrite orders_with_side, side_of_with_side_opp, side_of_with_orders.
    cbn [OrderBook.orders OrderBook.with_orders]. fold st1.
    eapply side_ok_other; eauto. apply opposite_neq.
Qed.


(* ================================================================= *)
(** * The queue of makers before and after one fill *)

Lemma ids_objects_ext (st st' : Store) (ids : list string) :
  (forall id, In id ids -> Dict.get String.eqb id st' = Dict.get String.eqb id st) ->
  ids_objects st' ids = ids_objects st ids.
Proof.
  intros H. unfold ids_objects. apply flat_map_ext_in. intros id Hin. now rewrite H.
Qed.

Lemma in_levels_best_first (rev : bool) (levels : list (Decimal * PriceLevel))
  (kl : Decimal * PriceLevel) :
  nodup_keys (Dict.keys levels) = true ->
  In kl (levels_best_first rev levels) -> In kl levels.
Proof.
  intros Hn H. unfold levels_best_first in H. apply in_flat_map in H as (k & Hk & H).
  apply (proj1 (in_sort _ _ _)) in Hk. apply keys_in in Hk as (v & Hv).
  rewrite (dget_in k v levels Hn Hv) in H. destruct H as [<-|[]]. exact Hv.
Qed.

(** The levels behind the best one do not hold the ids of the best one. *)
Lemma queue_of_behind_ext (s : Z) (st st' : Store) (sd : OrderSide) (rev : bool)
  (S : OrderBookSide) (kd : Decimal) (id : string) :
  (forall id', id' <> id -> Dict.get String.eqb id' st' = Dict.get String.eqb id' st) ->
  side_ok s st sd S = true ->
  id_ok s st sd kd id = true ->
  queue_of st' (levels_best_first rev (Dict.del Dec.eqb kd (OrderBookSide.price_levels S)))
  = queue_of st (levels_best_first rev (Dict.del Dec.eqb kd (OrderBookSide.price_levels S))).
Proof.
  intros Hst HS Hid. apply side_ok_spec in HS as (_ & Hn & Hl & _).
  unfold queue_of. apply flat_map_ext_in. intros [k2 l2] Hin. cbn [fst snd].
  apply in_levels_best_first in Hin;
    [|rewrite dict_keys_del; now apply nodup_keys_filter].
  apply in_dict_del in Hin as [Hin E]. cbn [fst] in E.
  f_equal. apply objects_ext; [reflexivity|].
  intros id' Hi. apply Hst. intros ->.
  pose proof (Hl _ Hin) as Hlv. apply level_ok_spec in Hlv as (_ & _ & Hok & _).
  destruct (id_level_unique s st sd sd kd k2 id Hid (Hok id Hi)) as [_ E'].
  rewrite eqb_sym in E'. congruence.
Qed.

Lemma queue_of_cons (st : Store) (kl : Decimal * PriceLevel)
  (ls : list (Decimal * PriceLevel)) :
  queue_of st (kl :: ls)
  = map (fun o => (fst kl, o)) (ids_objects st (PriceLevel.orders (snd kl)))
    ++ queue_of st ls.
Proof. reflexivity. Qed.

Lemma side_queue_head (s : Z) (b : OrderBook) (sd : OrderSide) (kd : Decimal)
  (l : PriceLevel) (id : string) (rest : list string) (m : Order) :
  book_ok s b = true ->
  In (kd, l) (OrderBookSide.price_levels (OrderBook.side_of sd b)) ->
  best_key (side_eqb sd BUY) (OrderBookSide.price_levels (OrderBook.side_of sd b)) kd ->
  PriceLevel.orders l = id :: rest ->
  Dict.get String.eqb id (OrderBook.orders b) = Some m ->
  side_queue sd b
  = (kd, m) :: queue_behind (OrderBook.orders b) (side_eqb sd BUY) kd rest
                 (OrderBookSide.price_levels (OrderBook.side_of sd b)).
Proof.
  intros Hb Hin Hbest Ho Gm.
  pose proof (book_ok_side s b sd Hb) as HS.
  apply side_ok_spec in HS as (_ & Hn & _).
  unfold side_queue, best_first, queue_behind.
  rewrite (levels_best_first_head _ kd l _ Hn Hin Hbest).
  rewrite queue_of_cons. cbn [fst snd]. rewrite Ho.
  unfold ids_objects at 1. cbn [flat_map]. rewrite Gm. reflexivity.
Qed.

(** After a full fill of the head maker. *)
Lemma side_queue_after_full (s : Z) (b b2 : OrderBook) (sd : OrderSide) (kd : Decimal)
  (l : PriceLevel) (id : string) (rest : list string) :
  book_ok s b = true ->
  In (kd, l) (OrderBookSide.price_levels (OrderBook.side_of sd b)) ->
  best_key (side_eqb sd BUY) (OrderBookSide.price_levels (OrderBook.side_of sd b)) kd ->
  PriceLevel.orders l = id :: rest ->
  OrderBook.orders b2 = Dict.del String.eqb id (OrderBook.orders b) ->
  (rest = []
   /\ OrderBookSide.price_levels (OrderBook.side_of sd b2)
      = Dict.del Dec.eqb kd (OrderBookSide.price_levels (OrderBook.side_of sd b)))
  \/ (rest <> []
      /\ exists l2,
           OrderBookSide.price_levels (OrderBook.side_of sd b2)
           = Dict.set Dec.eqb kd l2 (OrderBookSide.price_levels (OrderBook.side_of sd b))
           /\ PriceLevel.orders l2 = rest) ->
  side_queue sd b2
  = queue_behind (OrderBook.orders b) (side_eqb sd BUY) kd rest
      (OrderBookSide.price_levels (OrderBook.side_of sd b)).
Proof.
  intros Hb Hin Hbest Ho Hst Hlev.
  pose proof (book_ok_side s b sd Hb) as HS.
  pose proof HS as HS'. apply side_ok_spec in HS' as (_ & Hn & Hl & _).
  pose proof (Hl _ Hin) as Hlv. apply level_ok_spec in Hlv as (_ & Hnd & Hok & _).
  rewrite Ho in Hnd, Hok. apply nodup_ids_cons in Hnd as [Hnotin _].
  pose proof (Hok id (or_introl eq_refl)) as Hidok.
  set (st := OrderBook.orders b) in *.
  assert (forall id', id' <> id ->
            Dict.get String.eqb id' (Dict.del String.eqb id st)
            = Dict.get String.eqb id' st) as Hst' by apply store_del_other.
  unfold side_queue, best_first, queue_behind. rewrite Hst.
  destruct Hlev as [[-> E]|[Hne (l2 & E & Ho2)]]; rewrite E.
  - cbn [ids_objects flat_map map app].
    apply (queue_of_behind_ext s st _ sd _ _ kd id Hst' HS Hidok).
  - rewrite (levels_best_first_head _ kd l2).
    + rewrite ddel_set, queue_of_cons. cbn [fst snd].
      rewrite (queue_of_behind_ext s st _ sd _ _ kd id Hst' HS Hidok).
      f_equal. f_equal. rewrite Ho2.
      apply ids_objects_ext. intros id' Hi. apply Hst'. intros ->. contradiction.
    + rewrite (dict_keys_set_existing Dec.eqb kd l2 l); [assumption|].
      now apply dget_in.
    + now apply (in_set_self kd l l2).
    + intros k Hk. apply Hbest.
      rewrite (dict_keys_set_existing Dec.eqb kd l2 l) in Hk; [assumption|].
      now apply dget_in.
Qed.

(** After a partial fill of the head maker. *)
Lemma side_queue_after_partial (s : Z) (b b2 : OrderBook) (sd : OrderSide) (kd : Decimal)
  (l l2 : PriceLevel) (id : string) (rest : list string) (m2 : Order) :
  book_ok s b = true ->
  In (kd, l) (OrderBookSide.price_levels (OrderBook.side_of sd b)) ->
  best_key (side_eqb sd BUY) (OrderBookSide.price_levels (OrderBook.side_of sd b)) kd ->
  PriceLevel.orders l = id :: rest ->
  OrderBook.orders b2 = Dict.set String.eqb id m2 (OrderBook.orders b) ->
  OrderBookSide.price_levels (OrderBook.side_of sd b2)
  = Dict.set Dec.eqb kd l2 (OrderBookSide.price_levels (OrderBook.side_of sd b)) ->
  PriceLevel.orders l2 = id :: rest ->
  side_queue sd b2
  = (kd, m2) :: queue_behind (OrderBook.orders b) (side_eqb sd BUY) kd rest
                  (OrderBookSide.price_levels (OrderBook.side_of sd b)).
Proof.
  intros Hb Hin Hbest Ho Hst E Ho2.
  pose proof (book_ok_side s b sd Hb) as HS.
  pose proof HS as HS'. apply side_ok_spec in HS' as (_ & Hn & Hl & _).
  pose proof (Hl _ Hin) as Hlv. apply level_ok_spec in Hlv as (_ & Hnd & Hok & _).
  rewrite Ho in Hnd, Hok. apply nodup_ids_cons in Hnd as [Hnotin _].
  pose proof (Hok id (or_introl eq_refl)) as Hidok.
  set (st := OrderBook.orders b) in *.
  assert (forall id', id' <> id ->
            Dict.get String.eqb id' (Dict.set String.eqb id m2 st)
            = Dict.get String.eqb id' st) as Hst' by apply store_set_other.
  unfold side_queue, best_first, queue_behind. rewrite Hst, E.
  rewrite (levels_best_first_head _ kd l2).
  - rewrite ddel_set, queue_of_cons. cbn [fst snd].
    rewrite (queue_of_behind_ext s st _ sd _ _ kd id Hst' HS Hidok).
    rewrite Ho2. unfold ids_objects at 1. cbn [flat_map].
    rewrite sget_set_same. cbn [app map]. f_equal. f_equal. f_equal.
    apply ids_objects_ext. intros id' Hi. apply Hst'. intros ->. contradiction.
  - rewrite (dict_keys_set_existing Dec.eqb kd l2 l); [assumption|].
    now apply dget_in.
  - now apply (in_set_self kd l l2).
  - intros k Hk. apply Hbest.
    rewrite (dict_keys_set_existing Dec.eqb kd l2 l) in Hk; [assumption|].
    now apply dget_in.
Qed.


(* ================================================================= *)
(** * The walk of one level *)

Lemma same_engine_refl (e : MatchingEngine) : same_engine e e.
Proof. repeat split. Qed.

Lemma same_engine_trans (e1 e2 e3 : MatchingEngine) :
  same_engine e1 e2 -> same_engine e2 e3 -> same_engine e1 e3.
Proof.
  unfold same_engine. intros (A1 & A2 & A3 & A4 & A5 & A6) (B1 & B2 & B3 & B4 & B5 & B6).
  repeat split; congruence.
Qed.

Lemma extends_refl (s : Z) (sd : OrderSide) (limit : option Decimal)
  (fr : MatchingEngine.frame) : extends s sd limit fr fr.
Proof.
  exists [], []. rewrite app_nil_r. simpl.
  repeat split; auto using same_engine_refl.
  - lia.
  - now destruct (MatchingEngine.order fr).
  - eauto.
Qed.

Lemma filled_units_app (s : Z) (f1 f2 : list fill) :
  filled_units s (f1 ++ f2) = filled_units s f1 + filled_units s f2.
Proof.
  induction f1 as [|f f1 IH]; simpl; [reflexivity|].
  unfold filled_units in *. simpl. rewrite IH. lia.
Qed.

Lemma reports_same (e e' : MatchingEngine) (o o' : Order) (t : Trade) (f : fill) :
  same_engine e e' ->
  o' = Order.set_filled_quantity (Order.filled_quantity o') o ->
  reports e' o' t f -> reports e o t f.
Proof.
  intros (He & Hm & Ht & _) Ho. unfold reports. destruct f as [[p q] m].
  rewrite He, Hm, Ht, Ho. simpl. tauto.
Qed.

Lemma extends_trans (s : Z) (sd : OrderSide) (limit : option Decimal)
  (fr1 fr2 fr3 : MatchingEngine.frame) :
  extends s sd limit fr1 fr2 -> extends s sd limit fr2 fr3 -> extends s sd limit fr1 fr3.
Proof.
  intros (f1 & t1 & A1 & A2 & A3 & A4 & A5 & A6 & A7 & A8 & A9 & A10)
         (f2 & t2 & B1 & B2 & B3 & B4 & B5 & B6 & B7 & B8 & B9 & B10).
  exists (f1 ++ f2), (t1 ++ t2).
  split; [rewrite B1, A1; now rewrite app_assoc|].
  split.
  { apply Forall2_app; [assumption|].
    eapply Forall2_impl; [|exact B2]. intros t f. now apply reports_same. }
  split; [rewrite A3, B3; now rewrite app_assoc|].
  split; [congruence|]. split; [congruence|].
  split; [rewrite B6, A6, filled_units_app; lia|].
  split.
  { rewrite B7 at 1. rewrite A7. now destruct (MatchingEngine.order fr1). }
  split; [eapply same_engine_trans; eassumption|].
  split; [|lia].
  intros id o' H. destruct (B9 id o' H) as (o2 & H2). eauto.
Qed.

Lemma sweep_done (taker : OrderSide) (limit : option Decimal) (r : Decimal)
  (q : list (Decimal * Order)) :
  Dec.leb r Dec.zero = true -> sweep taker limit r q = [].
Proof. intros H. destruct q as [|[p m] q]; simpl; [reflexivity|now rewrite H]. Qed.

Lemma residual_done (taker : OrderSide) (limit : option Decimal) (r : Decimal)
  (q : list (Decimal * Order)) :
  Dec.leb r Dec.zero = true -> residual taker limit r q = q.
Proof. intros H. destruct q as [|[p m] q]; simpl; [reflexivity|now rewrite H]. Qed.

Lemma admits_worse (taker : OrderSide) (limit : option Decimal) (kd : Decimal) :
  admits taker limit kd ->
  match limit with Some l => MatchingEngine.worse taker kd l | None => false end = false.
Proof. unfold admits. now destruct limit. Qed.

(** One turn of the [for] loop, with its local names. *)
Lemma fill_level_cons (enq : bool) (sd : OrderSide) (bp : Decimal) (id : string)
  (rest : list string) (fr : MatchingEngine.frame) (m : Order) :
  Dec.leb (MatchingEngine.remaining fr) Dec.zero = false ->
  Dict.get String.eqb id
    (OrderBook.orders (MatchingEngine.order_book (MatchingEngine.engine fr))) = Some m ->
  let e := MatchingEngine.engine fr in
  let o := MatchingEngine.order fr in
  let fq := Dec.min (MatchingEngine.remaining fr) (Order.remaining_quantity m) in
  let m1 := Order.set_filled_quantity (Dec.add (Order.filled_quantity m) fq) m in
  let full := Dec.eqb (Order.remaining_quantity m1) Dec.zero in
  let m2 := Order.set_status (if full then FILLED else PARTIALLY_FILLED) m1 in
  let t := fst (MatchingEngine._create_trade_fast bp fq m o e) in
  let e1 := snd (MatchingEngine._create_trade_fast bp fq m o e) in
  let b1 := OrderBook.with_orders
              (Dict.set String.eqb id m2 (OrderBook.orders (MatchingEngine.order_book e)))
              (MatchingEngine.order_book e) in
  let rb := if full then OrderBook.remove_filled (Order.order_id m2) b1
            else (Ok true, MatchingEngine.update_level sd bp (Order.order_id m2) fq b1) in
  let fr2 := MatchingEngine.mkFrame (MatchingEngine.with_book (snd rb) e1)
               (Order.set_filled_quantity (Dec.add (Order.filled_quantity o) fq) o)
               (Dec.sub (MatchingEngine.remaining fr) fq)
               (MatchingEngine.matched fr ++ [t]) in
  MatchingEngine._fill_level enq sd bp (id :: rest) fr
  = match fst rb with
    | Ok _ =>
        match fst (MatchingEngine.enqueue_maker enq m2 fr2) with
        | Ok _ => MatchingEngine._fill_level enq sd bp rest
                    (snd (MatchingEngine.enqueue_maker enq m2 fr2))
        | Raise x => (Raise x, snd (MatchingEngine.enqueue_maker enq m2 fr2))
        | Unfinished => (Unfinished, snd (MatchingEngine.enqueue_maker enq m2 fr2))
        end
    | Raise x => (Raise x, fr2)
    | Unfinished => (Unfinished, fr2)
    end.
Proof.
  intros H G. cbv zeta. cbn [MatchingEngine._fill_level]. rewrite H, G.
  unfold MatchingEngine._create_trade_fast. cbn [fst snd MatchingEngine.order_book
    MatchingEngine.with_trades].
  destruct (if Dec.eqb _ Dec.zero then _ else _) as [r b2]. cbn [fst snd].
  destruct r; try reflexivity.
  destruct (MatchingEngine.enqueue_maker _ _ _) as [r' fr3]. reflexivity.
Qed.

(** The arithmetic of one fill: nothing rounds. *)
Lemma fill_arith (s : Z) (sd : OrderSide) (kd : Decimal) (id : string) (m : Order)
  (fr : MatchingEngine.frame) :
  0 <= s -> frame_ok s fr -> resting_ok s sd kd id m = true ->
  0 < Dec.units s (MatchingEngine.remaining fr) ->
  let r := MatchingEngine.remaining fr in
  let o := MatchingEngine.order fr in
  let fq := Dec.min r (Order.remaining_quantity m) in
  let m1 := Order.set_filled_quantity (Dec.add (Order.filled_quantity m) fq) m in
  Dec.leb r Dec.zero = false
  /\ Dec.units s fq = Z.min (Dec.units s r) (rem_units s m) /\ - s <= Dec.exp fq
  /\ Dec.units s (Order.filled_quantity m1) = Dec.units s (Order.filled_quantity m) + Dec.units s fq
  /\ Dec.Ongrid s (Order.filled_quantity m1)
  /\ Dec.units s (Order.remaining_quantity m1) = rem_units s m - Dec.units s fq
  /\ - s <= Dec.exp (Order.remaining_quantity m1)
  /\ Dec.eqb (Order.remaining_quantity m1) Dec.zero = (rem_units s m <=? Dec.units s r)
  /\ frame_ok s (MatchingEngine.mkFrame (MatchingEngine.engine fr)
                   (Order.set_filled_quantity (Dec.add (Order.filled_quantity o) fq) o)
                   (Dec.sub r fq) (MatchingEngine.matched fr))
  /\ Dec.units s (Dec.sub r fq) = Dec.units s r - Dec.units s fq
  /\ Dec.units s (Dec.add (Order.filled_quantity o) fq)
     = Dec.units s (Order.filled_quantity o) + Dec.units s fq.
Proof.
  intros Hs (Fq & Ff & Fr & Fr0 & Ff0 & Fsum) Rm Hr r o fq m1.
  destruct (resting_remaining s sd kd id m Rm) as (Mu & Me & Mp & Mb).
  apply resting_ok_spec in Rm as (_ & _ & _ & Mq & Mf & Mle).
  destruct (min_units s r (Order.remaining_quantity m) Fr Me) as [Q1 Q2].
  fold fq in Q1, Q2. rewrite Mu in Q1.
  destruct Mq as [Mq1 Mq2]. destruct Mf as [Mf1 Mf2]. destruct Fq as [Fq1 Fq2].
  unfold rem_units in *. fold r o in Fr, Fr0, Ff0, Fsum, Ff, Fq1, Fq2.
  destruct (add_units s (Order.filled_quantity m) fq Mf1 Q2) as [A1 A2]; [lia|].
  assert (Dec.Ongrid s (Order.filled_quantity m1)) as G1.
  { split; [exact A2|]. cbn [m1 Order.set_filled_quantity Order.filled_quantity].
    rewrite A1. lia. }
  destruct (remaining_units s m1) as [R1 R2].
  { split; assumption. }
  { exact G1. }
  { cbn [m1 Order.set_filled_quantity Order.filled_quantity Order.quantity].
    rewrite A1. lia. }
  unfold rem_units in R1.
  cbn [m1 Order.set_filled_quantity Order.filled_quantity Order.quantity] in R1.
  rewrite A1 in R1.
  destruct (sub_units s r fq Fr Q2) as [S1 S2]; [lia|].
  destruct (add_units s (Order.filled_quantity o) fq Ff Q2) as [T1 T2]; [lia|].
  split. { rewrite (leb_zero s) by assumption. apply Z.leb_gt. exact Hr. }
  split; [exact Q1|]. split; [exact Q2|]. split; [exact A1|]. split; [exact G1|].
  split; [rewrite R1; lia|]. split; [exact R2|].
  split.
  { rewrite (eqb_units s) by (simpl; assumption || lia). rewrite R1, units_zero.
    destruct (Z.eqb_spec (Dec.units s (Order.quantity m)
                          - (Dec.units s (Order.filled_quantity m) + Dec.units s fq)) 0);
      destruct (Z.leb_spec (Dec.units s (Order.quantity m)
                            - Dec.units s (Order.filled_quantity m)) (Dec.units s r));
      lia. }
  split.
  { unfold frame_ok. cbn [MatchingEngine.order MatchingEngine.remaining
      Order.set_filled_quantity Order.quantity Order.filled_quantity].
    fold o. rewrite T1, S1.
    refine (conj (conj Fq1 Fq2) (conj T2 (conj S2 _))). lia. }
  split; [exact S1|exact T1].
Qed.

Lemma enqueue_maker_ok (enq : bool) (m2 : Order) (fr2 : MatchingEngine.frame) :
  (enq = true ->
   Z.of_nat (List.length (MatchingEngine._order_queue (MatchingEngine.engine fr2)))
   < MatchingEngine.maxsize) ->
  exists q',
    MatchingEngine.enqueue_maker enq m2 fr2
    = (Ok tt, MatchingEngine.mkFrame
                (MatchingEngine.with_order_queue q' (MatchingEngine.engine fr2))
                (MatchingEngine.order fr2) (MatchingEngine.remaining fr2)
                (MatchingEngine.matched fr2))
    /\ Z.of_nat (List.length q')
       <= Z.of_nat (List.length (MatchingEngine._order_queue (MatchingEngine.engine fr2))) + 1.
Proof.
  intros H. unfold MatchingEngine.enqueue_maker. destruct enq.
  - specialize (H eq_refl). unfold put_nowait.
    destruct (Z.leb_spec MatchingEngine.maxsize
                (Z.of_nat (List.length (MatchingEngine._order_queue
                                          (MatchingEngine.engine fr2))))); [lia|].
    eexists. split; [reflexivity|]. rewrite length_app. simpl. lia.
  - exists (MatchingEngine._order_queue (MatchingEngine.engine fr2)).
    split; [|lia]. destruct fr2 as [[] ? ? ?]. reflexivity.
Qed.

Lemma best_key_set (rev : bool) (levels : list (Decimal * PriceLevel)) (kd : Decimal)
  (l l2 : PriceLevel) :
  nodup_keys (Dict.keys levels) = true -> In (kd, l) levels ->
  best_key rev levels kd -> best_key rev (Dict.set Dec.eqb kd l2 levels) kd.
Proof.
  intros Hn Hin Hb k Hk. apply Hb.
  rewrite (dict_keys_set_existing Dec.eqb kd l2 l) in Hk; [assumption|].
  now apply dget_in.
Qed.

Lemma fill_level_step (s : Z) (enq : bool) (sd : OrderSide) (limit : option Decimal)
  (kd bp : Decimal) (id : string) (rest : list string) (fr : MatchingEngine.frame)
  (l : PriceLevel) :
  let b := MatchingEngine.order_book (MatchingEngine.engine fr) in
  book_ok s b = true -> frame_ok s fr ->
  0 < Dec.units s (MatchingEngine.remaining fr) ->
  admits (opposite sd) limit kd -> Dec.eqb kd bp = true ->
  In (kd, l) (OrderBookSide.price_levels (OrderBook.side_of sd b)) ->
  PriceLevel.orders l = id :: rest ->
  best_key (side_eqb sd BUY) (OrderBookSide.price_levels (OrderBook.side_of sd b)) kd ->
  (enq = true -> load fr < MatchingEngine.maxsize) ->
  exists fr3,
    let b3 := MatchingEngine.order_book (MatchingEngine.engine fr3) in
    MatchingEngine._fill_level enq sd bp (id :: rest) fr
    = MatchingEngine._fill_level enq sd bp rest fr3
    /\ book_ok s b3 = true /\ frame_ok s fr3 /\ extends s sd limit fr fr3
    /\ load fr3 <= load fr + 1
    /\ (0 < Dec.units s (MatchingEngine.remaining fr3) ->
        load fr3 <= load fr
        /\ (List.length (OrderBook.orders b3) < List.length (OrderBook.orders b))%nat
        /\ (rest <> [] ->
            exists l2,
              In (kd, l2) (OrderBookSide.price_levels (OrderBook.side_of sd b3))
              /\ PriceLevel.orders l2 = rest
              /\ best_key (side_eqb sd BUY)
                   (OrderBookSide.price_levels (OrderBook.side_of sd b3)) kd)).
Proof.
  intros b Hb Hf Hr Hadm Ek Hin Ho Hbest Hroom.
  pose proof (book_ok_scale s b Hb) as Hs.
  pose proof (book_ok_side s b sd Hb) as HS.
  pose proof HS as HS'. apply side_ok_spec in HS' as (_ & Hn & Hl & _).
  pose proof (Hl _ Hin) as Hlv. apply level_ok_spec in Hlv as (_ & _ & Hok & _).
  rewrite Ho in Hok. pose proof (Hok id (or_introl eq_refl)) as Hidok.
  apply id_ok_spec in Hidok as (m & Gm & Rm).
  destruct (fill_arith s sd kd id m fr Hs Hf Rm Hr)
    as (A0 & A1 & A2 & A3 & A4 & A5 & A6 & A7 & A8 & A9 & A10).
  pose proof (fill_level_cons enq sd bp id rest fr m A0 Gm) as Eq.
  cbv zeta in Eq. rewrite Eq. clear Eq.
  set (r := MatchingEngine.remaining fr) in *.
  set (o := MatchingEngine.order fr) in *.
  set (e := MatchingEngine.engine fr) in *.
  set (fq := Dec.min r (Order.remaining_quantity m)) in *.
  set (m1 := Order.set_filled_quantity (Dec.add (Order.filled_quantity m) fq) m) in *.
  set (t := fst (MatchingEngine._create_trade_fast bp fq m o e)).
  set (e1 := snd (MatchingEngine._create_trade_fast bp fq m o e)).
  pose proof Rm as Rm'.
  apply resting_ok_spec in Rm' as (Mid & Msd & (p & Mp & Mpk) & Mq & Mf & Mle).
  destruct (resting_remaining s sd kd id m Rm) as (_ & _ & Mpos & _).
  assert (reports e o t (kd, fq, m)) as Hrep.
  { unfold reports, t. cbn. rewrite eqb_sym. auto 10. }
  assert (same_engine e e1) as Hse1 by (repeat split).
  assert (MatchingEngine.order_book e1 = b) as Hb1 by reflexivity.
  assert (MatchingEngine._order_queue e1 = MatchingEngine._order_queue e) as Hq1
    by reflexivity.
  assert (side_queue sd b
          = (kd, m) :: queue_behind (OrderBook.orders b) (side_eqb sd BUY) kd rest
                         (OrderBookSide.price_levels (OrderBook.side_of sd b))) as Hqh.
  { now apply (side_queue_head s b sd kd l id rest m). }
  assert (sweep (opposite sd) limit r (side_queue sd b)
          = (kd, fq, m) :: sweep (opposite sd) limit (Dec.sub r fq)
                             (queue_behind (OrderBook.orders b) (side_eqb sd BUY) kd rest
                                (OrderBookSide.price_levels (OrderBook.side_of sd b))))
    as Hsw.
  { rewrite Hqh. cbn [sweep]. rewrite A0, (admits_worse _ _ _ Hadm). reflexivity. }
  pose proof (f_equal (residual (opposite sd) limit r) Hqh) as Hres.
  cbn [residual] in Hres. rewrite A0, (admits_worse _ _ _ Hadm) in Hres.
  fold fq in Hres. fold m1 in Hres. rewrite A7 in Hres.
  rewrite A7.
  assert (Z.of_nat (List.length (OrderBook.orders b)) >= 1) as Hlen1.
  { pose proof (dict_length_del String.eqb id m _ Gm). lia. }
  destruct (Z.leb_spec (rem_units s m) (Dec.units s r)) as [Hfull|Hpart].
  - (* the maker is filled *)
    set (m2 := Order.set_status FILLED m1) in *.
    assert (Dec.units s (Order.remaining_quantity m2) = 0) as Hu2.
    { change (Order.remaining_quantity m2) with (Order.remaining_quantity m1). lia. }
    destruct (remove_filled_head s b sd kd p l id rest m2 Hb Hin Ho Mid Msd Mp Mpk A6 Hu2)
      as (b2 & R1 & R2 & R3 & R4 & R5).
    assert (Order.order_id m2 = id) as Hid2 by exact Mid.
    change (MatchingEngine.order_book e) with b.
    rewrite Hid2, R1. cbn [fst snd].
    destruct (enqueue_maker_ok enq m2
                (MatchingEngine.mkFrame (MatchingEngine.with_book b2 e1)
                   (Order.set_filled_quantity (Dec.add (Order.filled_quantity o) fq) o)
                   (Dec.sub r fq) (MatchingEngine.matched fr ++ [t])))
      as (q' & Eq & Hq').
    { intros He. specialize (Hroom He). unfold load in Hroom. fold e b in Hroom.
      cbn. lia. }
    rewrite Eq. cbn [fst snd]. eexists. split; [reflexivity|].
    cbn [MatchingEngine.engine MatchingEngine.order MatchingEngine.remaining
         MatchingEngine.matched MatchingEngine.order_book MatchingEngine.with_book
         MatchingEngine.with_order_queue].
    pose proof (dict_length_del String.eqb id m _ Gm) as Hdel.
    split; [exact R2|]. split; [exact A8|]. split.
    { exists [(kd, fq, m)], [t].
      cbn [MatchingEngine.engine MatchingEngine.order MatchingEngine.remaining
           MatchingEngine.matched MatchingEngine.order_book MatchingEngine.with_book
           MatchingEngine.with_order_queue Order.filled_quantity
           Order.set_filled_quantity].
      fold e o r b.
      rewrite (side_queue_after_full s b b2 sd kd l id rest Hb Hin Hbest Ho R3 R5).
      split; [reflexivity|]. split; [constructor; [exact Hrep|constructor]|].
      split; [exact Hsw|]. split; [exact Hres|]. split; [exact R4|].
      split; [rewrite A10; unfold filled_units; simpl; lia|].
      split; [now destruct o|]. split; [exact Hse1|]. split.
      - intros id' o' G. rewrite R3 in G.
        destruct (String.eqb_spec id id') as [->|Hne].
        + now rewrite sget_del_same in G.
        + rewrite sget_del_other in G by assumption. eauto.
      - rewrite R3. lia. }
    assert (load (MatchingEngine.mkFrame
                    (MatchingEngine.with_order_queue q' (MatchingEngine.with_book b2 e1))
                    (Order.set_filled_quantity (Dec.add (Order.filled_quantity o) fq) o)
                    (Dec.sub r fq) (MatchingEngine.matched fr ++ [t]))
            <= load fr) as Hload.
    { unfold load. cbn. fold e b. rewrite R3. cbn in Hq'. lia. }
    split; [cbn in Hload |- *; lia|].
    intros Hr3. split; [exact Hload|]. split; [rewrite R3; exact Hdel|].
    intros Hne. destruct R5 as [[-> _]|[_ (l2 & E & Ho2)]]; [congruence|].
    exists l2. rewrite E. split; [now apply (in_set_self kd l l2)|].
    split; [exact Ho2|]. now apply (best_key_set _ _ kd l l2).
  - (* the maker is filled in part, and the taker is done *)
    set (m2 := Order.set_status PARTIALLY_FILLED m1) in *.
    assert (Dec.units s fq = Dec.units s r) as Hfq by lia.
    assert (resting_ok s sd kd id m2 = true) as Rm2.
    { apply resting_ok_spec. cbn. fold fq.
      refine (conj Mid (conj Msd (conj _ (conj Mq (conj A4 _))))).
      - exists p. auto.
      - cbn in A3. unfold rem_units in *. lia. }
    destruct (update_level_partial s b sd kd bp l id rest m m2 fq Hb Hin Ho Ek Gm Rm2)
      as (l2 & U1 & U2 & U3); try assumption; try lia.
    { unfold rem_units. cbn. fold fq. cbn in A3. unfold rem_units in A5. lia. }
    assert (Order.order_id m2 = id) as Hid2 by exact Mid.
    change (MatchingEngine.order_book e) with b.
    rewrite Hid2. cbn [fst snd]. rewrite U1.
    set (b2 := OrderBook.with_side sd _ _) in *.
    destruct (enqueue_maker_ok enq m2
                (MatchingEngine.mkFrame (MatchingEngine.with_book b2 e1)
                   (Order.set_filled_quantity (Dec.add (Order.filled_quantity o) fq) o)
                   (Dec.sub r fq) (MatchingEngine.matched fr ++ [t])))
      as (q' & Eq & Hq').
    { intros He. specialize (Hroom He). unfold load in Hroom. fold e b in Hroom.
      cbn. lia. }
    rewrite Eq. cbn [fst snd]. eexists. split; [reflexivity|].
    cbn [MatchingEngine.engine MatchingEngine.order MatchingEngine.remaining
         MatchingEngine.matched MatchingEngine.order_book MatchingEngine.with_book
         MatchingEngine.with_order_queue].
    assert (Dec.leb (Dec.sub r fq) Dec.zero = true) as Hdone.
    { destruct Hf as (_ & _ & Fr & _).
      rewrite (leb_zero s); [apply Z.leb_le; lia|assumption|].
      destruct A8 as (_ & _ & ? & _). assumption. }
    assert (OrderBook.orders b2 = Dict.set String.eqb id m2 (OrderBook.orders b)) as Hst2.
    { unfold b2. now rewrite orders_with_side. }
    assert (OrderBookSide.price_levels (OrderBook.side_of sd b2)
            = Dict.set Dec.eqb kd l2 (OrderBookSide.price_levels (OrderBook.side_of sd b)))
      as Hlv2.
    { unfold b2. now rewrite side_of_with_side. }
    split; [exact U3|]. split; [exact A8|]. split.
    { exists [(kd, fq, m)], [t].
      cbn [MatchingEngine.engine MatchingEngine.order MatchingEngine.remaining
           MatchingEngine.matched MatchingEngine.order_book MatchingEngine.with_book
           MatchingEngine.with_order_queue Order.filled_quantity
           Order.set_filled_quantity].
      fold e o r b.
      rewrite (side_queue_after_partial s b b2 sd kd l l2 id rest m2
                 Hb Hin Hbest Ho Hst2 Hlv2 U2).
      rewrite (sweep_done _ _ _ _ Hdone), (residual_done _ _ _ _ Hdone).
      split; [reflexivity|]. split; [constructor; [exact Hrep|constructor]|].
      split; [rewrite Hsw, (sweep_done _ _ _ _ Hdone); reflexivity|].
      split; [exact Hres|]. split.
      { unfold b2. now rewrite side_of_with_side_opp, side_of_with_orders. }
      split; [rewrite A10; unfold filled_units; simpl; lia|].
      split; [now destruct o|]. split; [exact Hse1|]. split.
      - intros id' o' G. rewrite Hst2 in G.
        destruct (String.eqb_spec id id') as [->|Hne]; [eauto|].
        rewrite sget_set_other in G by assumption. eauto.
      - rewrite Hst2. rewrite (dict_length_set String.eqb id m2 m _ Gm). lia. }
    split.
    { unfold load. cbn. fold e b. rewrite Hst2.
      rewrite (dict_length_set String.eqb id m2 m _ Gm). cbn in Hq'. lia. }
    intros Hr3. exfalso. lia.
Qed.


(* ================================================================= *)
(** * The matching loops *)

Lemma fill_level_spec (s : Z) (enq : bool) (sd : OrderSide) (limit : option Decimal)
  (kd bp : Decimal) :
  admits (opposite sd) limit kd -> Dec.eqb kd bp = true ->
  forall (rest : list string) (fr : MatchingEngine.frame),
  let b := MatchingEngine.order_book (MatchingEngine.engine fr) in
  book_ok s b = true -> frame_ok s fr ->
  (0 < Dec.units s (MatchingEngine.remaining fr) -> rest <> [] ->
   exists l, In (kd, l) (OrderBookSide.price_levels (OrderBook.side_of sd b))
             /\ PriceLevel.orders l = rest
             /\ best_key (side_eqb sd BUY)
                  (OrderBookSide.price_levels (OrderBook.side_of sd b)) kd) ->
  (enq = true -> 0 < Dec.units s (MatchingEngine.remaining fr) ->
   load fr < MatchingEngine.maxsize) ->
  exists fr',
    let b' := MatchingEngine.order_book (MatchingEngine.engine fr') in
    MatchingEngine._fill_level enq sd bp rest fr = (Ok tt, fr')
    /\ book_ok s b' = true /\ frame_ok s fr' /\ extends s sd limit fr fr'
    /\ load fr' <= load fr + 1
    /\ (Dec.units s (MatchingEngine.remaining fr) <= 0 -> fr' = fr)
    /\ (0 < Dec.units s (MatchingEngine.remaining fr') ->
        load fr' <= load fr
        /\ (rest <> [] ->
            (List.length (OrderBook.orders b') < List.length (OrderBook.orders b))%nat)).
Proof.
  intros Hadm Ek rest. induction rest as [|id rest IH]; intros fr b Hb Hf Hlev Hroom.
  - exists fr. cbn [MatchingEngine._fill_level].
    split; [reflexivity|]. split; [assumption|]. split; [assumption|].
    split; [apply extends_refl|]. split; [lia|]. split; [reflexivity|].
    intros _. split; [lia|]. congruence.
  - pose proof (book_ok_scale s b Hb) as Hs.
    destruct (Z.lt_ge_cases 0 (Dec.units s (MatchingEngine.remaining fr))) as [Hr|Hr].
    + destruct (Hlev Hr ltac:(discriminate)) as (l & Hin & Ho & Hbest).
      destruct (fill_level_step s enq sd limit kd bp id rest fr l Hb Hf Hr Hadm Ek
                  Hin Ho Hbest (fun He => Hroom He Hr))
        as (fr3 & E3 & Hb3 & Hf3 & Hx3 & Hl3 & Hn3).
      cbv zeta in *.
      destruct (IH fr3 Hb3 Hf3) as (fr' & E' & Hb' & Hf' & Hx' & Hl' & Hz' & Hn').
      { intros Hr3 Hne. destruct (Hn3 Hr3) as (_ & _ & H). now apply H. }
      { intros He Hr3. destruct (Hn3 Hr3) as (H & _). specialize (Hroom He Hr). lia. }
      exists fr'. split; [now rewrite E3|]. split; [assumption|]. split; [assumption|].
      split; [eapply extends_trans; eassumption|].
      assert (0 < Dec.units s (MatchingEngine.remaining fr') ->
              0 < Dec.units s (MatchingEngine.remaining fr3)) as Hmono.
      { intros Hr'.
        destruct (Z.lt_ge_cases 0 (Dec.units s (MatchingEngine.remaining fr3)));
          [assumption|]. rewrite Hz' in Hr' by lia. assumption. }
      split.
      { destruct (Z.lt_ge_cases 0 (Dec.units s (MatchingEngine.remaining fr3)))
          as [Hr3|Hr3].
        - destruct (Hn3 Hr3) as (H & _).
          destruct (Z.lt_ge_cases 0 (Dec.units s (MatchingEngine.remaining fr')))
            as [Hr'|Hr']; [destruct (Hn' Hr'); lia|lia].
        - rewrite Hz' by lia. lia. }
      split; [lia|].
      intros Hr'. pose proof (Hmono Hr') as Hr3.
      destruct (Hn3 Hr3) as (H1 & H2 & _). destruct (Hn' Hr') as (H3 & _).
      split; [lia|]. intros _.
      destruct Hx' as (? & ? & _ & _ & _ & _ & _ & _ & _ & _ & _ & Hlen).
      subst b. cbv zeta in *. lia.
    + assert (Dec.leb (MatchingEngine.remaining fr) Dec.zero = true) as Hle.
      { destruct Hf as (_ & _ & Fr & _).
        rewrite (leb_zero s) by assumption. apply Z.leb_le. lia. }
      exists fr. cbn [MatchingEngine._fill_level]. rewrite Hle.
      split; [reflexivity|]. split; [assumption|]. split; [assumption|].
      split; [apply extends_refl|]. split; [lia|]. split; [reflexivity|].
      intros Hr'. lia.
Qed.


Lemma worse_equiv (taker : OrderSide) (k bp p : Decimal) :
  Dec.eqb k bp = true -> MatchingEngine.worse taker k p = MatchingEngine.worse taker bp p.
Proof.
  intros E. destruct taker; unfold MatchingEngine.worse.
  - now apply eqb_ltb_r.
  - now apply eqb_ltb_l.
Qed.

(** Replacing a side by one with the same levels (a cleaned heap) changes
    nothing that matching observes. *)
Lemma with_engine_side_same (s : Z) (sd : OrderSide) (limit : option Decimal)
  (S1 : OrderBookSide) (fr : MatchingEngine.frame) :
  let b := MatchingEngine.order_book (MatchingEngine.engine fr) in
  let fr1 := MatchingEngine.with_engine_side sd S1 fr in
  let b1 := MatchingEngine.order_book (MatchingEngine.engine fr1) in
  book_ok s b = true -> frame_ok s fr ->
  OrderBookSide.price_levels S1 = OrderBookSide.price_levels (OrderBook.side_of sd b) ->
  side_ok s (OrderBook.orders b) sd S1 = true ->
  book_ok s b1 = true /\ frame_ok s fr1 /\ extends s sd limit fr fr1
  /\ load fr1 = load fr
  /\ OrderBookSide.price_levels (OrderBook.side_of sd b1)
     = OrderBookSide.price_levels (OrderBook.side_of sd b)
  /\ OrderBook.orders b1 = OrderBook.orders b
  /\ MatchingEngine.remaining fr1 = MatchingEngine.remaining fr
  /\ side_queue sd b1 = side_queue sd b.
Proof.
  intros b fr1 b1 Hb Hf HL HS.
  assert (b1 = OrderBook.with_side sd S1 b) as Eb by reflexivity.
  assert (OrderBook.orders b1 = OrderBook.orders b) as Eo
    by (rewrite Eb; apply orders_with_side).
  assert (OrderBook.side_of sd b1 = S1) as Es
    by (rewrite Eb; apply side_of_with_side).
  assert (OrderBook.side_of (opposite sd) b1 = OrderBook.side_of (opposite sd) b) as Ep
    by (rewrite Eb; apply side_of_with_side_opp).
  assert (side_queue sd b1 = side_queue sd b) as Eq.
  { unfold side_queue, best_first. now rewrite Eo, Es, HL. }
  pose proof (book_ok_scale s b Hb) as Hs.
  split.
  { apply (book_ok_intro s b1 sd Hs).
    - now rewrite Eo, Es.
    - rewrite Eo, Ep. now apply book_ok_side. }
  split; [exact Hf|].
  split.
  { exists [], []. fold b b1. rewrite Eq, Eo, Ep.
    change (MatchingEngine.matched fr1) with (MatchingEngine.matched fr).
    change (MatchingEngine.remaining fr1) with (MatchingEngine.remaining fr).
    change (MatchingEngine.order fr1) with (MatchingEngine.order fr).
    rewrite app_nil_r. cbn [app filled_units fold_right].
    refine (conj eq_refl (conj (Forall2_nil _) (conj eq_refl (conj eq_refl
             (conj eq_refl (conj _ (conj _ (conj _ (conj _ _))))))))).
    - lia.
    - now destruct (MatchingEngine.order fr).
    - unfold same_engine, fr1. destruct fr as [e o r m]; destruct e; cbn. repeat split.
    - eauto.
    - lia. }
  split; [unfold load; fold b b1; now rewrite Eo|].
  split; [now rewrite Es|].
  split; [assumption|]. split; [reflexivity|assumption].
Qed.

(** A level of a well-formed side starts with an indexed order. *)
Lemma level_head (s : Z) (st : Store) (sd : OrderSide) (S : OrderBookSide)
  (kd : Decimal) (l : PriceLevel) :
  side_ok s st sd S = true -> In (kd, l) (OrderBookSide.price_levels S) ->
  exists id rest m, PriceLevel.orders l = id :: rest
                    /\ Dict.get String.eqb id st = Some m.
Proof.
  intros HS Hin. apply side_ok_spec in HS as (_ & _ & Hl & _).
  specialize (Hl _ Hin). apply level_ok_spec in Hl as (Hne & _ & Hok & _).
  destruct (PriceLevel.orders l) as [|id rest]; [congruence|].
  specialize (Hok id (or_introl eq_refl)). apply id_ok_spec in Hok as (m & Gm & _).
  eauto.
Qed.

Lemma store_nonempty (id : string) (st : Store) (m : Order) :
  Dict.get String.eqb id st = Some m -> (0 < List.length st)%nat.
Proof. destruct st; [discriminate|]. simpl. lia. Qed.

Lemma side_queue_nil (sd : OrderSide) (b : OrderBook) :
  OrderBookSide.price_levels (OrderBook.side_of sd b) = [] -> side_queue sd b = [].
Proof. intros H. unfold side_queue, best_first. now rewrite H. Qed.

Lemma sweep_beyond (s : Z) (b : OrderBook) (sd : OrderSide) (p r : Decimal)
  (kd bp : Decimal) (l : PriceLevel) :
  book_ok s b = true ->
  In (kd, l) (OrderBookSide.price_levels (OrderBook.side_of sd b)) ->
  best_key (side_eqb sd BUY) (OrderBookSide.price_levels (OrderBook.side_of sd b)) kd ->
  Dec.eqb kd bp = true ->
  MatchingEngine.worse (opposite sd) bp p = true ->
  sweep (opposite sd) (Some p) r (side_queue sd b) = []
  /\ residual (opposite sd) (Some p) r (side_queue sd b) = side_queue sd b.
Proof.
  intros Hb Hin Hbest Ek Hw.
  destruct (level_head s _ sd _ kd l (book_ok_side s b sd Hb) Hin) as (id & rest & m & Ho & Gm).
  rewrite (side_queue_head s b sd kd l id rest m Hb Hin Hbest Ho Gm).
  cbn [sweep residual]. rewrite (worse_equiv _ kd bp p Ek), Hw.
  now destruct (Dec.leb r Dec.zero).
Qed.


Lemma ltb_zero_units (s : Z) (d : Decimal) :
  0 <= s -> - s <= Dec.exp d -> Dec.ltb Dec.zero d = (0 <? Dec.units s d).
Proof.
  intros Hs He. rewrite (ltb_units s) by (simpl; lia). now rewrite units_zero.
Qed.

(** The [while] loop of the MARKET and LIMIT paths ends normally within
    the bound, keeps the book well-formed, and leaves nothing of the walk
    undone. *)
Lemma sweep_loop_spec (s : Z) (sd : OrderSide) (limit : option Decimal) :
  forall (fuel : nat) (fr : MatchingEngine.frame),
  let b := MatchingEngine.order_book (MatchingEngine.engine fr) in
  book_ok s b = true -> frame_ok s fr ->
  (List.length (OrderBook.orders b) < fuel)%nat ->
  (0 < Dec.units s (MatchingEngine.remaining fr) -> load fr < MatchingEngine.maxsize) ->
  exists fr',
    let b' := MatchingEngine.order_book (MatchingEngine.engine fr') in
    MatchingEngine._sweep_loop fuel sd limit fr = (Ok tt, fr')
    /\ book_ok s b' = true /\ frame_ok s fr' /\ extends s sd limit fr fr'
    /\ sweep (opposite sd) limit (MatchingEngine.remaining fr') (side_queue sd b') = []
    /\ residual (opposite sd) limit (MatchingEngine.remaining fr') (side_queue sd b')
       = side_queue sd b'
    /\ load fr' <= load fr + 1.
Proof.
  induction fuel as [|fuel IH]; intros fr b Hb Hf Hfuel Hroom; [lia|].
  subst b.
  pose proof (book_ok_scale s (MatchingEngine.order_book (MatchingEngine.engine fr)) Hb) as Hs.
  pose proof Hf as (_ & _ & Fr & Fr0 & _).
  cbn [MatchingEngine._sweep_loop].
  destruct (Dec.ltb Dec.zero (MatchingEngine.remaining fr)
            && negb (Nat.eqb (List.length (OrderBookSide.price_levels
                                             (OrderBook.side_of sd (MatchingEngine.order_book (MatchingEngine.engine fr))))) 0)) eqn:C.
  - apply andb_prop in C as [C1 C2].
    rewrite (ltb_zero_units s) in C1 by assumption. apply Z.ltb_lt in C1.
    destruct (get_best_price_spec s (OrderBook.orders (MatchingEngine.order_book (MatchingEngine.engine fr))) sd (OrderBook.side_of sd (MatchingEngine.order_book (MatchingEngine.engine fr))) Hs
                (book_ok_side s (MatchingEngine.order_book (MatchingEngine.engine fr)) sd Hb)) as (best & S1 & E & HL & HS1 & Hbest).
    rewrite E.
    destruct (with_engine_side_same s sd limit S1 fr Hb Hf HL HS1)
      as (Hb1 & Hf1 & Hx1 & Hl1 & HL1 & Ho1 & Hr1 & Hq1).
    set (fr1 := MatchingEngine.with_engine_side sd S1 fr) in *.
    destruct best as [bp|].
    + destruct Hbest as (kd & l & Hin & Ek & Gl & Hbk).
      destruct (match limit with
                | Some p => MatchingEngine.worse (opposite sd) bp p
                | None => false
                end) eqn:W.
      * destruct limit as [p|]; [|discriminate].
        exists fr1. cbv zeta. rewrite <- HL1 in Hin, Hbk.
        destruct (sweep_beyond s _ sd p (MatchingEngine.remaining fr1) kd bp l
                    Hb1 Hin Hbk Ek W) as [Q1 Q2].
        refine (conj eq_refl (conj Hb1 (conj Hf1 (conj Hx1 (conj Q1 (conj Q2 _)))))).
        lia.
      * assert (admits (opposite sd) limit kd) as Hadm.
        { unfold admits. destruct limit as [p|]; [|exact I].
          now rewrite (worse_equiv _ kd bp p Ek). }
        rewrite HL, Gl.
        destruct (level_head s _ sd _ kd l (book_ok_side s (MatchingEngine.order_book (MatchingEngine.engine fr)) sd Hb) Hin)
          as (id & rest & m & Ho & Gm).
        pose proof (store_nonempty _ _ _ Gm) as Hne.
        destruct (fill_level_spec s true sd limit kd bp Hadm Ek (PriceLevel.orders l)
                    fr1 Hb1 Hf1) as (fr2 & E2 & Hb2 & Hf2 & Hx2 & Hl2 & _ & Hn2).
        { intros _ _. exists l. rewrite HL1. auto. }
        { intros _. rewrite Hr1. intros H. specialize (Hroom H). lia. }
        rewrite E2. cbv zeta in *.
        destruct (Z.lt_ge_cases 0 (Dec.units s (MatchingEngine.remaining fr2)))
          as [Hr2|Hr2].
        -- destruct (Hn2 Hr2) as (Hn3 & Hn4).
           specialize (Hn4 ltac:(rewrite Ho; discriminate)).
           destruct (IH fr2 Hb2 Hf2) as (fr' & E' & Hb' & Hf' & Hx' & Q1 & Q2 & Hl').
           { rewrite Ho1 in Hn4. lia. }
           { intros _. specialize (Hroom C1). lia. }
           exists fr'.
           refine (conj E' (conj Hb' (conj Hf' (conj _ (conj Q1 (conj Q2 _)))))).
           ++ eapply extends_trans; [exact Hx1|].
              eapply extends_trans; [exact Hx2|exact Hx'].
           ++ lia.
        -- destruct fuel as [|fuel]; [lia|].
           exists fr2. pose proof Hf2 as (_ & _ & Fr2 & _).
           pose proof (book_ok_scale s _ Hb2) as Hs2.
           cbn [MatchingEngine._sweep_loop].
           rewrite (ltb_zero_units s) by assumption.
           destruct (Z.ltb_spec 0 (Dec.units s (MatchingEngine.remaining fr2))); [lia|].
           cbn [andb].
           assert (Dec.leb (MatchingEngine.remaining fr2) Dec.zero = true) as Hle.
           { rewrite (leb_zero s) by assumption. apply Z.leb_le. lia. }
           refine (conj eq_refl (conj Hb2 (conj Hf2 (conj _
                    (conj (sweep_done _ _ _ _ Hle) (conj (residual_done _ _ _ _ Hle) _)))))).
           ++ eapply extends_trans; [exact Hx1|exact Hx2].
           ++ lia.
    + rewrite Hbest in C2. discriminate.
  - exists fr. cbv zeta.
    refine (conj eq_refl (conj Hb (conj Hf (conj (extends_refl _ _ _ _) _)))).
    apply andb_false_iff in C as [C|C].
    + assert (Dec.leb (MatchingEngine.remaining fr) Dec.zero = true) as Hle.
      { rewrite ltb_negb_leb in C. now apply negb_false_iff in C. }
      refine (conj (sweep_done _ _ _ _ Hle) (conj (residual_done _ _ _ _ Hle) _)). lia.
    + apply negb_false_iff, Nat.eqb_eq, length_zero_iff_nil in C.
      rewrite (side_queue_nil sd (MatchingEngine.order_book (MatchingEngine.engine fr)) C). cbn. repeat split. lia.
Qed.


Lemma clean_heap_spec (s : Z) (st : Store) (sd : OrderSide) (S : OrderBookSide) :
  0 <= s -> side_ok s st sd S = true ->
  OrderBookSide.price_levels (OrderBookSide._clean_heap st S) = OrderBookSide.price_levels S
  /\ side_ok s st sd (OrderBookSide._clean_heap st S) = true.
Proof.
  intros Hs HS.
  destruct (get_best_price_spec s st sd S Hs HS) as (r & S' & E & HL & HS' & _).
  unfold OrderBookSide.get_best_price in E.
  destruct (OrderBookSide.price_heap (OrderBookSide._clean_heap st S));
    injection E as _ <-; auto.
Qed.

Lemma empty_levels_none (st : Store) (levels : list (Decimal * PriceLevel)) :
  (forall k l, In (k, l) levels -> PriceLevel.empty st l = (false, l)) ->
  OrderBookSide.empty_levels st levels = ([], levels).
Proof.
  induction levels as [|[k l] levels IH]; intros H; [reflexivity|].
  cbn [OrderBookSide.empty_levels].
  rewrite (H k l (or_introl eq_refl)), IH; [reflexivity|].
  intros k' l' Hin. apply (H k' l'). now right.
Qed.

Lemma side_eta (S : OrderBookSide) :
  OrderBookSide.mk (OrderBookSide.is_bid S) (OrderBookSide.price_levels S)
    (OrderBookSide.price_heap S) (OrderBookSide._price_set S) = S.
Proof. now destruct S. Qed.

Lemma prune_empty_levels_spec (s : Z) (st : Store) (sd : OrderSide) (S : OrderBookSide) :
  0 <= s -> side_ok s st sd S = true ->
  OrderBookSide.price_levels (OrderBookSide.prune_empty_levels st S)
  = OrderBookSide.price_levels S
  /\ side_ok s st sd (OrderBookSide.prune_empty_levels st S) = true.
Proof.
  intros Hs HS. unfold OrderBookSide.prune_empty_levels.
  rewrite empty_levels_none.
  - cbn [fold_left]. rewrite side_eta. now apply clean_heap_spec.
  - intros k l Hin. apply (pl_empty_ok s st sd k l Hs).
    apply side_ok_spec in HS as (_ & _ & Hl & _). now apply Hl.
Qed.

Lemma prune_if_empty_spec (s : Z) (sd : OrderSide) (bp : Decimal)
  (fr : MatchingEngine.frame) :
  let b := MatchingEngine.order_book (MatchingEngine.engine fr) in
  book_ok s b = true ->
  exists S',
    MatchingEngine.prune_if_empty sd bp fr = MatchingEngine.with_engine_side sd S' fr
    /\ OrderBookSide.price_levels S' = OrderBookSide.price_levels (OrderBook.side_of sd b)
    /\ side_ok s (OrderBook.orders b) sd S' = true.
Proof.
  intros b Hb. subst b. pose proof (book_ok_scale s _ Hb) as Hs.
  pose proof (book_ok_side s _ sd Hb) as HS.
  unfold MatchingEngine.prune_if_empty.
  destruct (Dict.get Dec.eqb bp _) as [lvl|] eqn:G.
  - destruct (dget_some_in _ _ _ G) as (k' & Hin & Ek).
    pose proof HS as HS'. apply side_ok_spec in HS' as (_ & _ & Hl & _).
    rewrite (pl_empty_ok s _ sd k' lvl Hs (Hl _ Hin)).
    rewrite (dict_set_same_value _ _ _ _ G), side_eta.
    eexists. split; [reflexivity|]. auto.
  - eexists. split; [reflexivity|]. now apply prune_empty_levels_spec.
Qed.

(** The [while] loop of the price-constrained path. *)
Lemma constrained_loop_spec (s : Z) (sd : OrderSide) (p : Decimal) :
  forall (fuel : nat) (fr : MatchingEngine.frame),
  let b := MatchingEngine.order_book (MatchingEngine.engine fr) in
  book_ok s b = true -> frame_ok s fr ->
  (List.length (OrderBook.orders b) < fuel)%nat ->
  exists fr',
    let b' := MatchingEngine.order_book (MatchingEngine.engine fr') in
    MatchingEngine._constrained_loop fuel sd p fr = (Ok tt, fr')
    /\ book_ok s b' = true /\ frame_ok s fr' /\ extends s sd (Some p) fr fr'
    /\ sweep (opposite sd) (Some p) (MatchingEngine.remaining fr') (side_queue sd b') = []
    /\ residual (opposite sd) (Some p) (MatchingEngine.remaining fr') (side_queue sd b')
       = side_queue sd b'
    /\ load fr' <= load fr + 1.
Proof.
  induction fuel as [|fuel IH]; intros fr b Hb Hf Hfuel; [lia|].
  subst b.
  pose proof (book_ok_scale s _ Hb) as Hs.
  pose proof Hf as (_ & _ & Fr & Fr0 & _).
  cbn [MatchingEngine._constrained_loop].
  rewrite (ltb_zero_units s) by assumption.
  destruct (Z.ltb_spec 0 (Dec.units s (MatchingEngine.remaining fr))) as [C1|C1].
  - destruct (get_best_price_spec s _ sd _ Hs (book_ok_side s _ sd Hb))
      as (best & S1 & E & HL & HS1 & Hbest).
    rewrite E.
    destruct (with_engine_side_same s sd (Some p) S1 fr Hb Hf HL HS1)
      as (Hb1 & Hf1 & Hx1 & Hl1 & HL1 & Ho1 & Hr1 & Hq1).
    set (fr1 := MatchingEngine.with_engine_side sd S1 fr) in *.
    destruct best as [bp|].
    + destruct Hbest as (kd & l & Hin & Ek & Gl & Hbk).
      destruct (MatchingEngine.worse (opposite sd) bp p) eqn:W.
      * exists fr1. cbv zeta. rewrite <- HL1 in Hin, Hbk.
        destruct (sweep_beyond s _ sd p (MatchingEngine.remaining fr1) kd bp l
                    Hb1 Hin Hbk Ek W) as [Q1 Q2].
        refine (conj eq_refl (conj Hb1 (conj Hf1 (conj Hx1 (conj Q1 (conj Q2 _)))))).
        lia.
      * assert (admits (opposite sd) (Some p) kd) as Hadm.
        { unfold admits. now rewrite (worse_equiv _ kd bp p Ek). }
        rewrite HL, Gl.
        destruct (level_head s _ sd _ kd l (book_ok_side s _ sd Hb) Hin)
          as (id & rest & m & Ho & Gm).
        pose proof (store_nonempty _ _ _ Gm) as Hne.
        destruct (fill_level_spec s false sd (Some p) kd bp Hadm Ek (PriceLevel.orders l)
                    fr1 Hb1 Hf1) as (fr2 & E2 & Hb2 & Hf2 & Hx2 & Hl2 & _ & Hn2).
        { intros _ _. exists l. rewrite HL1. auto. }
        { discriminate. }
        rewrite E2. cbv zeta in *.
        destruct (prune_if_empty_spec s sd bp fr2 Hb2) as (S3 & E3 & HL3 & HS3).
        rewrite E3.
        destruct (with_engine_side_same s sd (Some p) S3 fr2 Hb2 Hf2 HL3 HS3)
          as (Hb3 & Hf3 & Hx3 & Hl3 & HL3' & Ho3 & Hr3 & Hq3).
        set (fr3 := MatchingEngine.with_engine_side sd S3 fr2) in *.
        destruct (Z.lt_ge_cases 0 (Dec.units s (MatchingEngine.remaining fr2)))
          as [Hr2|Hr2].
        -- destruct (Hn2 Hr2) as (Hn3 & Hn4).
           specialize (Hn4 ltac:(rewrite Ho; discriminate)).
           destruct (IH fr3 Hb3 Hf3) as (fr' & E' & Hb' & Hf' & Hx' & Q1 & Q2 & Hl').
           { rewrite Ho3. rewrite Ho1 in Hn4. lia. }
           exists fr'.
           refine (conj E' (conj Hb' (conj Hf' (conj _ (conj Q1 (conj Q2 _)))))).
           ++ eapply extends_trans; [exact Hx1|].
              eapply extends_trans; [exact Hx2|].
              eapply extends_trans; [exact Hx3|exact Hx'].
           ++ lia.
        -- destruct fuel as [|fuel]; [lia|].
           exists fr3. pose proof Hf3 as (_ & _ & Fr3 & _).
           cbn [MatchingEngine._constrained_loop].
           rewrite (ltb_zero_units s) by assumption.
           destruct (Z.ltb_spec 0 (Dec.units s (MatchingEngine.remaining fr3)));
             [rewrite Hr3 in *; lia|].
           assert (Dec.leb (MatchingEngine.remaining fr3) Dec.zero = true) as Hle.
           { rewrite (leb_zero s) by assumption. apply Z.leb_le. lia. }
           refine (conj eq_refl (conj Hb3 (conj Hf3 (conj _
                    (conj (sweep_done _ _ _ _ Hle) (conj (residual_done _ _ _ _ Hle) _)))))).
           ++ eapply extends_trans; [exact Hx1|].
              eapply extends_trans; [exact Hx2|exact Hx3].
           ++ lia.
    + exists fr1. cbv zeta.
      rewrite (side_queue_nil sd _ (eq_trans HL1 Hbest)).
      refine (conj eq_refl (conj Hb1 (conj Hf1 (conj Hx1 _)))).
      cbn. repeat split. lia.
  - exists fr. cbv zeta.
    refine (conj eq_refl (conj Hb (conj Hf (conj (extends_refl _ _ _ _) _)))).
    assert (Dec.leb (MatchingEngine.remaining fr) Dec.zero = true) as Hle.
    { rewrite (leb_zero s) by assumption. apply Z.leb_le. lia. }
    refine (conj (sweep_done _ _ _ _ Hle) (conj (residual_done _ _ _ _ Hle) _)). lia.
Qed.


(* ================================================================= *)
(** * The walk over the queue *)

Lemma in_ids_objects (st : Store) (ids : list string) (m : Order) :
  In m (ids_objects st ids) ->
  exists id, In id ids /\ Dict.get String.eqb id st = Some m.
Proof.
  unfold ids_objects. rewrite in_flat_map. intros (id & Hin & Hm).
  exists id. split; [assumption|].
  destruct (Dict.get String.eqb id st); simpl in Hm; [|contradiction].
  destruct Hm as [->|[]]. reflexivity.
Qed.

Lemma in_queue_of (st : Store) (ls : list (Decimal * PriceLevel)) (k : Decimal)
  (m : Order) :
  In (k, m) (queue_of st ls) ->
  exists l id, In (k, l) ls /\ In id (PriceLevel.orders l)
               /\ Dict.get String.eqb id st = Some m.
Proof.
  induction ls as [|[k1 l1] ls IH]; [intros []|].
  rewrite queue_of_cons, in_app_iff, in_map_iff. cbn [fst snd].
  intros [(m' & [= -> ->] & Hin)|Hin].
  - destruct (in_ids_objects _ _ _ Hin) as (id & H1 & H2).
    exists l1, id. auto with datatypes.
  - destruct (IH Hin) as (l & id & H1 & H2). exists l, id. auto with datatypes.
Qed.

Lemma side_queue_ok (s : Z) (sd : OrderSide) (b : OrderBook) :
  book_ok s b = true -> queue_ok s sd (side_queue sd b).
Proof.
  intros Hb k m Hin. pose proof (book_ok_side s b sd Hb) as HS.
  apply side_ok_spec in HS as (_ & Hn & Hl & _).
  destruct (in_queue_of _ _ _ _ Hin) as (l & id & H1 & H2 & H3).
  apply in_levels_best_first in H1; [|assumption].
  specialize (Hl _ H1). apply level_ok_spec in Hl as (_ & _ & Hok & _).
  specialize (Hok id H2). apply id_ok_spec in Hok as (m' & G & R).
  rewrite H3 in G. injection G as <-.
  pose proof R as R'. apply resting_ok_spec in R' as (-> & _). exact R.
Qed.

Lemma queue_ok_tail (s : Z) (sd : OrderSide) (km : Decimal * Order)
  (q : list (Decimal * Order)) :
  queue_ok s sd (km :: q) -> queue_ok s sd q.
Proof. intros H k m Hin. apply H. now right. Qed.

Lemma avail_nonneg (s : Z) (sd taker : OrderSide) (limit : option Decimal)
  (q : list (Decimal * Order)) :
  queue_ok s sd q -> 0 <= avail s taker limit q.
Proof.
  induction q as [|[p m] q IH]; intros Hq; cbn [avail]; [lia|].
  destruct (match limit with Some l => _ | None => false end); [lia|].
  specialize (IH (queue_ok_tail _ _ _ _ Hq)).
  pose proof (resting_remaining s sd p _ m (Hq p m (or_introl eq_refl))). lia.
Qed.

(** One step of the walk in quanta. *)
Lemma sweep_step (s : Z) (sd : OrderSide) (p : Decimal) (m : Order) (r : Decimal) :
  0 <= s -> resting_ok s sd p (Order.order_id m) m = true ->
  Dec.Ongrid s r -> 0 < Dec.units s r ->
  let f := Dec.min r (Order.remaining_quantity m) in
  Dec.leb r Dec.zero = false
  /\ Dec.units s f = Z.min (Dec.units s r) (rem_units s m)
  /\ 0 < Dec.units s f
  /\ Dec.Ongrid s (Dec.sub r f)
  /\ Dec.units s (Dec.sub r f) = Dec.units s r - Dec.units s f.
Proof.
  intros Hs Hm [Hr1 Hr2] Hpos f.
  destruct (resting_remaining s sd p _ m Hm) as (U1 & U2 & U3 & U4).
  destruct (min_units s r (Order.remaining_quantity m) Hr1 U2) as [M1 M2].
  fold f in M1, M2. rewrite U1 in M1.
  destruct (sub_units s r f Hr1 M2) as [S1 S2]; [lia|].
  split.
  { rewrite (leb_zero s) by assumption. apply Z.leb_gt. assumption. }
  split; [assumption|]. split; [lia|].
  split; [split; [assumption|lia]|assumption].
Qed.

Lemma sweep_filled (s : Z) (sd taker : OrderSide) (limit : option Decimal) :
  0 <= s ->
  forall (q : list (Decimal * Order)) (r : Decimal),
  queue_ok s sd q -> Dec.Ongrid s r -> 0 <= Dec.units s r ->
  filled_units s (sweep taker limit r q) = Z.min (Dec.units s r) (avail s taker limit q)
  /\ Forall (fun f => 0 < Dec.units s (snd (fst f))) (sweep taker limit r q).
Proof.
  intros Hs. induction q as [|[p m] q IH]; intros r Hq Hr Hpos.
  - cbn. split; [lia|constructor].
  - cbn [sweep avail].
    pose proof (avail_nonneg s sd taker limit q (queue_ok_tail _ _ _ _ Hq)) as Ha.
    pose proof (Hq p m (or_introl eq_refl)) as Hm.
    destruct (resting_remaining s sd p _ m Hm) as (U1 & U2 & U3 & U4).
    destruct (Z.eq_dec (Dec.units s r) 0) as [Hz|Hz].
    + assert (Dec.leb r Dec.zero = true) as ->.
      { rewrite (leb_zero s) by (assumption || apply Hr). apply Z.leb_le. lia. }
      cbn. split; [|constructor].
      destruct (match limit with Some l => _ | None => false end); lia.
    + destruct (sweep_step s sd p m r Hs Hm Hr ltac:(lia)) as (L & F1 & F2 & F3 & F4).
      rewrite L.
      destruct (match limit with Some l => _ | None => false end).
      * cbn. split; [lia|constructor].
      * destruct (IH (Dec.sub r (Dec.min r (Order.remaining_quantity m)))
                    (queue_ok_tail _ _ _ _ Hq) F3 ltac:(lia)) as [I1 I2].
        cbn [filled_units fold_right fst snd]. unfold filled_units in I1. rewrite I1.
        split; [lia|]. constructor; [exact F2|exact I2].
Qed.

(** The fills of a walk are the first makers of the queue, in order. *)
Lemma sweep_prefix (taker : OrderSide) (limit : option Decimal)
  (q : list (Decimal * Order)) :
  forall r, exists rest, q = map fill_maker (sweep taker limit r q) ++ rest.
Proof.
  induction q as [|[p m] q IH]; intros r; [now exists []|].
  cbn [sweep]. destruct (Dec.leb r Dec.zero); [now eexists|].
  destruct (match limit with Some l => _ | None => false end); [now eexists|].
  destruct (IH (Dec.sub r (Dec.min r (Order.remaining_quantity m)))) as (rest & E).
  exists rest. cbn [map app fill_maker fst snd]. now rewrite <- E.
Qed.

Lemma filled_zero_nil (s : Z) (fs : list fill) :
  Forall (fun f => 0 < Dec.units s (snd (fst f))) fs ->
  filled_units s fs = 0 -> fs = [].
Proof.
  intros H. assert (0 <= filled_units s fs) as H0.
  { induction H; cbn; [lia|]. unfold filled_units in IHForall. lia. }
  destruct H as [|f fs Hf Hfs]; [reflexivity|]. cbn.
  assert (0 <= filled_units s fs) as H1.
  { clear -Hfs. induction Hfs; cbn; [lia|]. unfold filled_units in IHHfs. lia. }
  unfold filled_units in H1. lia.
Qed.


(* ================================================================= *)
(** * The matching calls *)

Lemma taker_ok_spec (s : Z) (o : Order) :
  taker_ok s o = true <->
  Dec.Ongrid s (Order.quantity o)
  /\ - s <= Dec.exp (Order.filled_quantity o)
  /\ Dec.units s (Order.filled_quantity o) = 0
  /\ match Order.price o with Some p => Dec.Fits p | None => True end.
Proof.
  unfold taker_ok. rewrite !andb_true_iff, gridb_spec, Z.leb_le, Z.eqb_eq.
  destruct (Order.price o); [rewrite fitsb_spec|]; intuition.
Qed.

Lemma initial_frame_ok (s : Z) (o : Order) (e : MatchingEngine) :
  taker_ok s o = true -> 0 < Dec.units s (Order.quantity o) ->
  frame_ok s (MatchingEngine.mkFrame e o (Order.quantity o) []).
Proof.
  intros Ht Hq. apply taker_ok_spec in Ht as (H1 & H2 & H3 & _).
  unfold frame_ok. cbn. destruct H1 as [H1 H1'].
  refine (conj (conj H1 H1') (conj H2 (conj H1 _))). lia.
Qed.

(** A finished walk, read from its first frame. *)
Lemma walk_from_extends (s : Z) (limit : option Decimal) (o : Order)
  (e : MatchingEngine) (fr' : MatchingEngine.frame) :
  let fr0 := MatchingEngine.mkFrame e o (Order.quantity o) [] in
  let sd := opposite (Order.side o) in
  let b' := MatchingEngine.order_book (MatchingEngine.engine fr') in
  book_ok s (MatchingEngine.order_book e) = true ->
  taker_ok s o = true -> 0 < Dec.units s (Order.quantity o) ->
  extends s sd limit fr0 fr' ->
  book_ok s b' = true -> frame_ok s fr' ->
  sweep (opposite sd) limit (MatchingEngine.remaining fr') (side_queue sd b') = [] ->
  residual (opposite sd) limit (MatchingEngine.remaining fr') (side_queue sd b')
  = side_queue sd b' ->
  walked s limit o e (MatchingEngine.matched fr') (MatchingEngine.order fr')
    (MatchingEngine.engine fr')
  /\ Dec.units s (MatchingEngine.remaining fr')
     = Dec.units s (Order.quantity o)
       - Dec.units s (Order.filled_quantity (MatchingEngine.order fr'))
  /\ - s <= Dec.exp (MatchingEngine.remaining fr').
Proof.
  intros fr0 sd b' Hb Ht Hq Hx Hb' Hf' Q1 Q2.
  pose proof (book_ok_scale s _ Hb) as Hs.
  pose proof Ht as Ht'. apply taker_ok_spec in Ht' as (T1 & T2 & T3 & T4).
  destruct Hx as (fs & ts & X1 & X2 & X3 & X4 & X5 & X6 & X7 & X8 & X9 & X10).
  subst sd b' fr0. rewrite opposite_involutive in *.
  cbn [MatchingEngine.matched MatchingEngine.order MatchingEngine.remaining
       MatchingEngine.engine app] in X1, X2, X3, X4, X5, X6, X7, X8, X9.
  rewrite Q1, app_nil_r in X3. rewrite Q2 in X4.
  destruct (sweep_filled s (opposite (Order.side o)) (Order.side o) limit Hs
              (side_queue (opposite (Order.side o)) (MatchingEngine.order_book e))
              (Order.quantity o) (side_queue_ok s _ _ Hb) T1 ltac:(lia)) as [F1 F2].
  rewrite X3 in F1, F2. rewrite T3 in X6. simpl in X6.
  destruct Hf' as (G1 & G2 & G3 & G4 & G5 & G6).
  assert (Order.quantity (MatchingEngine.order fr') = Order.quantity o) as Eq.
  { rewrite X7. now destruct o. }
  rewrite Eq in G6.
  split; [|split; [lia|assumption]].
  unfold walked. cbv zeta.
  refine (conj _ (conj (eq_sym X4) (conj X5 (conj X9 (conj Hb' (conj _ (conj _
           (conj G2 (conj _ (conj X7 X8)))))))))).
  - rewrite X1, X3. exact X2.
  - rewrite X3. exact X6.
  - rewrite X6. exact F1.
  - rewrite X1, X6. cbn [app]. split.
    + intros ->. inversion X2. reflexivity.
    + intros H0. rewrite (filled_zero_nil s fs F2 H0) in X2. now inversion X2.
Qed.

Lemma room_load (e : MatchingEngine) (o : Order) :
  room e = true -> load (MatchingEngine.mkFrame e o (Order.quantity o) []) < MatchingEngine.maxsize.
Proof. unfold room, load. cbn. intros H. now apply Z.ltb_lt in H. Qed.

Lemma quantity_set_filled (q : Decimal) (o : Order) :
  Order.quantity (Order.set_filled_quantity q o) = Order.quantity o.
Proof. now destruct o. Qed.

Lemma market_sync_spec (s : Z) (o : Order) (e : MatchingEngine) :
  book_ok s (MatchingEngine.order_book e) = true ->
  taker_ok s o = true -> 0 < Dec.units s (Order.quantity o) ->
  room e = true ->
  exists ts o1 e1,
    MatchingEngine._match_market_order_sync o e
    = (Ok ts, Order.set_status (market_status s o1) o1, e1)
    /\ walked s None o e ts o1 e1.
Proof.
  intros Hb Ht Hq Hroom.
  pose proof (book_ok_scale s _ Hb) as Hs.
  pose proof (initial_frame_ok s o e Ht Hq) as Hf.
  destruct (sweep_loop_spec s (opposite (Order.side o)) None
              (MatchingEngine.loop_bound e)
              (MatchingEngine.mkFrame e o (Order.quantity o) []) Hb Hf)
    as (fr' & E & Hb' & Hf' & Hx & Q1 & Q2 & _).
  { unfold MatchingEngine.loop_bound. cbn. lia. }
  { intros _. now apply room_load. }
  destruct (walk_from_extends s None o e fr' Hb Ht Hq Hx Hb' Hf' Q1 Q2)
    as (W & _ & _).
  exists (MatchingEngine.matched fr'), (MatchingEngine.order fr'),
    (MatchingEngine.engine fr').
  split; [|exact W].
  unfold MatchingEngine._match_market_order_sync. rewrite E.
  cbn [MatchingEngine.finish]. f_equal. f_equal. f_equal.
  unfold market_status.
  destruct W as (_ & _ & _ & _ & _ & _ & _ & W8 & _ & W10 & _).
  apply taker_ok_spec in Ht as ((T1 & _) & _).
  assert (Order.quantity (MatchingEngine.order fr') = Order.quantity o) as Eq.
  { rewrite W10. apply quantity_set_filled. }
  rewrite (eqb_units s) by (rewrite ?Eq; assumption).
  rewrite (ltb_zero_units s) by assumption. reflexivity.
Qed.

Lemma set_status_same (o : Order) : Order.set_status (Order.status o) o = o.
Proof. now destruct o. Qed.

Lemma set_status_twice (a b : OrderStatus) (o : Order) :
  Order.set_status a (Order.set_status b o) = Order.set_status a o.
Proof. now destruct o. Qed.

Lemma remaining_set_status (a : OrderStatus) (o : Order) :
  Order.remaining_quantity (Order.set_status a o) = Order.remaining_quantity o.
Proof. now destruct o. Qed.

Lemma constrained_sync_spec (s : Z) (o : Order) (e : MatchingEngine) (p : Decimal) :
  book_ok s (MatchingEngine.order_book e) = true ->
  taker_ok s o = true -> 0 < Dec.units s (Order.quantity o) ->
  Order.price o = Some p ->
  exists ts o1 e1,
    MatchingEngine._match_limit_constrained_sync o e = (Ok ts, o1, e1)
    /\ walked s (Some p) o e ts o1 e1.
Proof.
  intros Hb Ht Hq Hp.
  pose proof (initial_frame_ok s o e Ht Hq) as Hf.
  destruct (constrained_loop_spec s (opposite (Order.side o)) p
              (MatchingEngine.loop_bound e)
              (MatchingEngine.mkFrame e o (Order.quantity o) []) Hb Hf)
    as (fr' & E & Hb' & Hf' & Hx & Q1 & Q2 & _).
  { unfold MatchingEngine.loop_bound. cbn. lia. }
  destruct (walk_from_extends s (Some p) o e fr' Hb Ht Hq Hx Hb' Hf' Q1 Q2)
    as (W & _ & _).
  exists (MatchingEngine.matched fr'), (MatchingEngine.order fr'),
    (MatchingEngine.engine fr').
  split; [|exact W].
  unfold MatchingEngine._match_limit_constrained_sync. rewrite Hp, E.
  cbn [MatchingEngine.finish]. now rewrite set_status_same.
Qed.

(** The remainder of a walked taker, in quanta. *)
Lemma walked_remaining (s : Z) (limit : option Decimal) (o : Order)
  (e : MatchingEngine) (ts : list Trade) (o1 : Order) (e1 : MatchingEngine) :
  0 <= s -> taker_ok s o = true -> 0 < Dec.units s (Order.quantity o) ->
  queue_ok s (opposite (Order.side o))
    (side_queue (opposite (Order.side o)) (MatchingEngine.order_book e)) ->
  walked s limit o e ts o1 e1 ->
  Order.quantity o1 = Order.quantity o
  /\ 0 <= Dec.units s (Order.filled_quantity o1) <= Dec.units s (Order.quantity o)
  /\ Dec.units s (Order.remaining_quantity o1)
     = Dec.units s (Order.quantity o) - Dec.units s (Order.filled_quantity o1)
  /\ - s <= Dec.exp (Order.remaining_quantity o1).
Proof.
  intros Hs Ht Hq Hqok (_ & _ & _ & _ & _ & _ & W7 & W8 & _ & W10 & _).
  apply taker_ok_spec in Ht as ((T1 & T1') & _).
  assert (Order.quantity o1 = Order.quantity o) as Eq.
  { rewrite W10. apply quantity_set_filled. }
  pose proof (avail_nonneg s _ (Order.side o) limit _ Hqok) as Ha.
  split; [assumption|]. split; [lia|].
  unfold Order.remaining_quantity. rewrite Eq.
  apply sub_units; try assumption. lia.
Qed.

Lemma ioc_sync_spec (s : Z) (o : Order) (e : MatchingEngine) :
  book_ok s (MatchingEngine.order_book e) = true ->
  taker_ok s o = true -> 0 < Dec.units s (Order.quantity o) ->
  (Order.price o = None -> room e = true) ->
  exists ts o1 e1,
    MatchingEngine._match_ioc_order_sync o e
    = (Ok ts, Order.set_status (ioc_status s o1 ts) o1, e1)
    /\ walked s (Order.price o) o e ts o1 e1.
Proof.
  intros Hb Ht Hq Hroom. pose proof (book_ok_scale s _ Hb) as Hs.
  pose proof (side_queue_ok s (opposite (Order.side o)) _ Hb) as Hqok.
  unfold MatchingEngine._match_ioc_order_sync.
  destruct (Order.price o) as [p|] eqn:Hp.
  - destruct (constrained_sync_spec s o e p Hb Ht Hq Hp) as (ts & o1 & e1 & E & W).
    exists ts, o1, e1. split; [|exact W]. rewrite E.
    destruct (walked_remaining s _ o e ts o1 e1 Hs Ht Hq Hqok W) as (Eq & R1 & R2 & R3).
    rewrite (eqb_units s), units_zero by (assumption || (simpl; lia)).
    unfold ioc_status. rewrite R2, Eq.
    replace (Dec.units s (Order.quantity o) - Dec.units s (Order.filled_quantity o1) =? 0)
      with (Dec.units s (Order.filled_quantity o1) =? Dec.units s (Order.quantity o));
      [reflexivity|].
    destruct (Z.eqb_spec (Dec.units s (Order.filled_quantity o1))
                (Dec.units s (Order.quantity o))); symmetry;
      [apply Z.eqb_eq|apply Z.eqb_neq]; lia.
  - destruct (market_sync_spec s o e Hb Ht Hq (Hroom eq_refl)) as (ts & o1 & e1 & E & W).
    exists ts, o1, e1. split; [|exact W]. rewrite E.
    destruct (walked_remaining s _ o e ts o1 e1 Hs Ht Hq Hqok W) as (Eq & R1 & R2 & R3).
    rewrite remaining_set_status, set_status_twice.
    rewrite (eqb_units s), units_zero by (assumption || (simpl; lia)).
    unfold ioc_status. rewrite R2, Eq.
    replace (Dec.units s (Order.quantity o) - Dec.units s (Order.filled_quantity o1) =? 0)
      with (Dec.units s (Order.filled_quantity o1) =? Dec.units s (Order.quantity o));
      [reflexivity|].
    destruct (Z.eqb_spec (Dec.units s (Order.filled_quantity o1))
                (Dec.units s (Order.quantity o))); symmetry;
      [apply Z.eqb_eq|apply Z.eqb_neq]; lia.
Qed.


(* ================================================================= *)
(** * The FOK pre-check *)

Lemma avail_level_open (s : Z) (taker : OrderSide) (limit : option Decimal)
  (k : Decimal) (objs : list Order) (rest : list (Decimal * Order)) :
  match limit with Some l => MatchingEngine.worse taker k l | None => false end = false ->
  avail s taker limit (map (fun o => (k, o)) objs ++ rest)
  = fold_right (fun m acc => rem_units s m + acc) 0 objs + avail s taker limit rest.
Proof.
  intros H. induction objs as [|m objs IH]; cbn [map app avail fold_right]; [lia|].
  rewrite H, IH. lia.
Qed.

Lemma avail_level_shut (s : Z) (taker : OrderSide) (limit : option Decimal)
  (k : Decimal) (m : Order) (objs : list Order) (rest : list (Decimal * Order)) :
  match limit with Some l => MatchingEngine.worse taker k l | None => false end = true ->
  avail s taker limit (map (fun o => (k, o)) (m :: objs) ++ rest) = 0.
Proof. intros H. cbn [map app avail]. now rewrite H. Qed.

Lemma ids_objects_units (s : Z) (st : Store) (ids : list string) :
  fold_right (fun m acc => rem_units s m + acc) 0 (ids_objects st ids)
  = ids_units s st ids.
Proof.
  induction ids as [|id ids IH]; [reflexivity|].
  unfold ids_objects, ids_units in *. cbn [flat_map fold_right].
  destruct (Dict.get String.eqb id st); cbn [app fold_right]; now rewrite IH.
Qed.

Lemma avail_queue_of (s : Z) (st : Store) (sd taker : OrderSide)
  (limit : option Decimal) (ls : list (Decimal * PriceLevel)) :
  (forall kl, In kl ls -> level_ok s st sd kl = true) ->
  avail s taker limit (queue_of st ls) = level_avail s taker limit ls.
Proof.
  induction ls as [|[k l] ls IH]; intros H; [reflexivity|].
  rewrite queue_of_cons. cbn [fst snd level_avail].
  pose proof (H _ (or_introl eq_refl)) as Hl.
  apply level_ok_spec in Hl as (Hne & _ & Hok & _ & Hu & _).
  destruct (match limit with Some p => _ | None => false end) eqn:W.
  - destruct (PriceLevel.orders l) as [|id ids] eqn:Ho; [congruence|].
    specialize (Hok id (or_introl eq_refl)). apply id_ok_spec in Hok as (m & G & _).
    unfold ids_objects. cbn [flat_map]. rewrite G. cbn [app].
    now apply avail_level_shut.
  - rewrite (avail_level_open s taker limit k _ _ W), ids_objects_units, Hu, IH;
      [reflexivity|].
    intros kl Hin. apply H. now right.
Qed.

Lemma levels_units_cons (s : Z) (kl : Decimal * PriceLevel)
  (ls : list (Decimal * PriceLevel)) :
  levels_units s (kl :: ls)
  = Dec.units s (PriceLevel.total_quantity (snd kl)) + levels_units s ls.
Proof. reflexivity. Qed.

Lemma can_fill_scan_spec (s : Z) (o : Order) (levels : list (Decimal * PriceLevel)) :
  Order.order_type o = FOK ->
  - s <= Dec.exp (Order.quantity o) ->
  forall (ks : list Decimal) (total : Decimal),
  (forall k, In k ks ->
     exists l, Dict.get Dec.eqb k levels = Some l
               /\ - s <= Dec.exp (PriceLevel.total_quantity l)
               /\ 0 <= Dec.units s (PriceLevel.total_quantity l)) ->
  - s <= Dec.exp total ->
  0 <= Dec.units s total < Dec.units s (Order.quantity o) ->
  let ls := flat_map (fun k => match Dict.get Dec.eqb k levels with
                               | Some l => [(k, l)]
                               | None => []
                               end) ks in
  Dec.units s total + levels_units s ls < Dec.bound ->
  MatchingEngine._can_fill_scan o levels ks total
  = (Dec.units s (Order.quantity o)
     <=? Dec.units s total + level_avail s (Order.side o) (Order.price o) ls).
Proof.
  intros Hty Hq. induction ks as [|k ks IH]; intros total Hk Ht Hr ls Hbound.
  - cbn. symmetry. apply Z.leb_gt. lia.
  - subst ls. destruct (Hk k (or_introl eq_refl)) as (l & G & L1 & L2).
    assert (forall k', In k' ks ->
              exists l', Dict.get Dec.eqb k' levels = Some l'
                         /\ - s <= Dec.exp (PriceLevel.total_quantity l')
                         /\ 0 <= Dec.units s (PriceLevel.total_quantity l')) as Hk'.
    { intros k' Hin. apply Hk. now right. }
    set (ls' := flat_map (fun k => match Dict.get Dec.eqb k levels with
                                   | Some l => [(k, l)]
                                   | None => []
                                   end) ks) in *.
    assert (0 <= levels_units s ls') as Hnn.
    { subst ls'. clear -Hk'. induction ks as [|k' ks IH]; [cbn; lia|].
      cbn [flat_map]. destruct (Hk' k' (or_introl eq_refl)) as (l' & -> & _ & H0).
      cbn [app]. rewrite levels_units_cons. cbn [snd].
      assert (0 <= levels_units s
                     (flat_map (fun k => match Dict.get Dec.eqb k levels with
                                         | Some l => [(k, l)]
                                         | None => []
                                         end) ks)); [|lia].
      apply IH. intros k2 Hin. apply Hk'. now right. }
    assert (0 <= level_avail s (Order.side o) (Order.price o) ls'
            <= levels_units s ls') as Hav.
    { subst ls'. clear -Hk'. induction ks as [|k' ks IH]; [cbn; lia|].
      cbn [flat_map]. destruct (Hk' k' (or_introl eq_refl)) as (l' & -> & _ & H0).
      cbn [app level_avail]. rewrite levels_units_cons. cbn [snd].
      assert (0 <= level_avail s (Order.side o) (Order.price o)
                     (flat_map (fun k => match Dict.get Dec.eqb k levels with
                                         | Some l => [(k, l)]
                                         | None => []
                                         end) ks)
              <= levels_units s
                   (flat_map (fun k => match Dict.get Dec.eqb k levels with
                                       | Some l => [(k, l)]
                                       | None => []
                                       end) ks)) as H1.
      { apply IH. intros k2 Hin. apply Hk'. now right. }
      destruct (match Order.price o with Some p => _ | None => false end); lia. }
    cbn [MatchingEngine._can_fill_scan flat_map]. rewrite G. cbn [app level_avail].
    fold ls'. cbn [flat_map app] in Hbound. rewrite G in Hbound. cbn [app] in Hbound.
    fold ls' in Hbound. rewrite levels_units_cons in Hbound. cbn [snd] in Hbound.
    rewrite Hty.
    destruct (Order.price o) as [p|] eqn:Hp.
    + destruct (MatchingEngine.worse (Order.side o) k p) eqn:W.
      * symmetry. apply Z.leb_gt. lia.
      * destruct (add_units s total (PriceLevel.total_quantity l) Ht L1) as [A1 A2];
          [lia|].
        rewrite (leb_units s) by assumption. rewrite A1.
        destruct (Z.leb_spec (Dec.units s (Order.quantity o))
                    (Dec.units s total + Dec.units s (PriceLevel.total_quantity l)))
          as [Hle|Hgt].
        -- symmetry. apply Z.leb_le. lia.
        -- rewrite (IH _ Hk' A2) by (fold ls'; lia). fold ls'. rewrite A1.
           f_equal. lia.
    + destruct (add_units s total (PriceLevel.total_quantity l) Ht L1) as [A1 A2];
        [lia|].
      rewrite (leb_units s) by assumption. rewrite A1.
      destruct (Z.leb_spec (Dec.units s (Order.quantity o))
                  (Dec.units s total + Dec.units s (PriceLevel.total_quantity l)))
        as [Hle|Hgt].
      * symmetry. apply Z.leb_le. lia.
      * rewrite (IH _ Hk' A2) by (fold ls'; lia). fold ls'. rewrite A1.
        f_equal. lia.
Qed.

Lemma check_can_fill_spec (s : Z) (o : Order) (e : MatchingEngine) :
  book_ok s (MatchingEngine.order_book e) = true ->
  taker_ok s o = true -> 0 < Dec.units s (Order.quantity o) ->
  Order.order_type o = FOK ->
  depth_ok s o (MatchingEngine.order_book e) = true ->
  MatchingEngine._check_can_fill_completely o e
  = attainable s o (MatchingEngine.order_book e).
Proof.
  intros Hb Ht Hq Hty Hd. pose proof (book_ok_scale s _ Hb) as Hs.
  apply taker_ok_spec in Ht as ((T1 & _) & _).
  pose proof (book_ok_side s _ (opposite (Order.side o)) Hb) as HS.
  apply side_ok_spec in HS as (_ & Hn & Hl & _).
  unfold MatchingEngine._check_can_fill_completely, attainable, depth_ok, best_first,
    levels_best_first in *.
  assert (side_eqb (opposite (Order.side o)) BUY
          = match Order.side o with BUY => false | SELL => true end) as Erev
    by now destruct (Order.side o).
  rewrite Erev in *. apply Z.ltb_lt in Hd.
  rewrite (can_fill_scan_spec s o _ Hty T1).
  - now rewrite units_zero.
  - intros k Hin. apply (proj1 (in_sort _ _ _)) in Hin.
    destruct (keys_in _ _ Hin) as (l & Hkl).
    exists l. split; [now apply dget_in|].
    specialize (Hl _ Hkl). apply level_ok_spec in Hl as (_ & _ & Hok & [L1 _] & Hu & _).
    split; [assumption|]. rewrite Hu.
    pose proof (ids_units_bounds s _ _ k _ Hok). lia.
  - simpl. lia.
  - rewrite units_zero. lia.
  - rewrite units_zero. lia.
Qed.

Lemma avail_side_queue (s : Z) (taker sd : OrderSide) (limit : option Decimal)
  (b : OrderBook) :
  book_ok s b = true ->
  avail s taker limit (side_queue sd b) = level_avail s taker limit (best_first sd b).
Proof.
  intros Hb. pose proof (book_ok_side s b sd Hb) as HS.
  apply side_ok_spec in HS as (_ & Hn & Hl & _).
  unfold side_queue. apply (avail_queue_of s _ sd).
  intros kl Hin. apply Hl. unfold best_first in Hin.
  now apply in_levels_best_first in Hin.
Qed.

Lemma fok_sync_spec (s : Z) (o : Order) (e : MatchingEngine) :
  book_ok s (MatchingEngine.order_book e) = true ->
  taker_ok s o = true -> 0 < Dec.units s (Order.quantity o) ->
  Order.order_type o = FOK ->
  depth_ok s o (MatchingEngine.order_book e) = true ->
  (Order.price o = None -> room e = true) ->
  if attainable s o (MatchingEngine.order_book e)
  then exists ts o1 e1,
         MatchingEngine._match_fok_order_sync o e = (Ok ts, Order.set_status FILLED o1, e1)
         /\ walked s (Order.price o) o e ts o1 e1
         /\ Dec.units s (Order.filled_quantity o1) = Dec.units s (Order.quantity o)
  else MatchingEngine._match_fok_order_sync o e = (Ok [], Order.set_status CANCELLED o, e).
Proof.
  intros Hb Ht Hq Hty Hd Hroom. pose proof (book_ok_scale s _ Hb) as Hs.
  pose proof (side_queue_ok s (opposite (Order.side o)) _ Hb) as Hqok.
  unfold MatchingEngine._match_fok_order_sync.
  rewrite (check_can_fill_spec s o e Hb Ht Hq Hty Hd).
  destruct (attainable s o (MatchingEngine.order_book e)) eqn:A; [|reflexivity].
  cbn [negb]. unfold attainable in A. apply Z.leb_le in A.
  rewrite <- (avail_side_queue s (Order.side o)) in A by assumption.
  assert (forall ts o1 e1, walked s (Order.price o) o e ts o1 e1 ->
            Dec.units s (Order.filled_quantity o1) = Dec.units s (Order.quantity o)
            /\ Dec.ltb Dec.zero (Order.remaining_quantity o1) = false) as Hfull.
  { intros ts o1 e1 W.
    destruct (walked_remaining s _ o e ts o1 e1 Hs Ht Hq Hqok W) as (Eq & R1 & R2 & R3).
    destruct W as (_ & _ & _ & _ & _ & _ & W7 & _).
    assert (Dec.units s (Order.filled_quantity o1) = Dec.units s (Order.quantity o))
      as Ef by lia.
    split; [assumption|].
    rewrite (ltb_zero_units s) by assumption. apply Z.ltb_ge. lia. }
  destruct (Order.price o) as [p|] eqn:Hp.
  - destruct (constrained_sync_spec s o e p Hb Ht Hq Hp) as (ts & o1 & e1 & E & W).
    destruct (Hfull ts o1 e1 W) as [F1 F2].
    exists ts, o1, e1. rewrite E, F2. auto.
  - destruct (market_sync_spec s o e Hb Ht Hq (Hroom eq_refl)) as (ts & o1 & e1 & E & W).
    destruct (Hfull ts o1 e1 W) as [F1 F2].
    exists ts, o1, e1. rewrite E, remaining_set_status, F2, set_status_twice. auto.
Qed.


(* ================================================================= *)
(** * Resting an order *)

Lemma heappush_in (h : list Decimal) (x y : Decimal) :
  In y (heappush h x) <-> y = x \/ In y h.
Proof.
  induction h as [|z h IH]; cbn [heappush].
  - simpl. intuition.
  - destruct (Dec.ltb x z); simpl; [intuition|]. rewrite IH. intuition.
Qed.

Lemma heappush_sorted (h : list Decimal) (x : Decimal) :
  sortedb h = true -> sortedb (heappush h x) = true.
Proof.
  induction h as [|z h IH]; cbn [heappush]; [reflexivity|].
  intros Hs. pose proof Hs as Hs'. cbn [sortedb] in Hs'.
  apply andb_prop in Hs' as [H1 H2]. rewrite forallb_forall in H1.
  destruct (Dec.ltb x z) eqn:L.
  - assert (Dec.leb x z = true) as Hxz.
    { unfold Dec.ltb in L. unfold Dec.leb.
      destruct (Dec.compare x z); congruence. }
    change (forallb (Dec.leb x) (z :: h) && sortedb (z :: h) = true).
    rewrite Hs, andb_true_r. apply forallb_forall. intros y [<-|Hy]; [assumption|].
    eapply leb_trans; [exact Hxz|now apply H1].
  - cbn [sortedb]. rewrite (IH H2), andb_true_r. apply forallb_forall.
    intros y Hy. apply heappush_in in Hy as [->|Hy]; [|now apply H1].
    rewrite ltb_negb_leb in L. now apply negb_false_iff in L.
Qed.

Lemma in_heap_heappush (is_bid : bool) (h : list Decimal) (x p : Decimal) :
  in_heap is_bid h p = true -> in_heap is_bid (heappush h x) p = true.
Proof.
  rewrite !in_heap_spec. intros (y & Hy & E). exists y. split; [|assumption].
  apply heappush_in. now right.
Qed.

Lemma heap_key_price (is_bid : bool) (p : Decimal) :
  Dec.Fits p ->
  OrderBookSide._heap_to_price is_bid (OrderBookSide._heap_key is_bid p) = p.
Proof.
  intros Hp. unfold OrderBookSide._heap_to_price, OrderBookSide._heap_key.
  destruct is_bid; [now apply neg_involutive|reflexivity].
Qed.

Lemma in_heap_heappush_new (is_bid : bool) (h : list Decimal) (p : Decimal) :
  Dec.Fits p ->
  in_heap is_bid (heappush h (OrderBookSide._heap_key is_bid p)) p = true.
Proof.
  intros Hp. apply in_heap_spec. exists (OrderBookSide._heap_key is_bid p).
  split; [apply heappush_in; now left|].
  rewrite heap_key_price by assumption. apply eqb_refl.
Qed.

Lemma heap_key_fits (is_bid : bool) (p : Decimal) :
  Dec.Fits p -> Dec.Fits (OrderBookSide._heap_key is_bid p).
Proof.
  intros Hp. unfold OrderBookSide._heap_key.
  destruct is_bid; [now apply neg_is_fits|assumption].
Qed.

Lemma in_heap_equiv (is_bid : bool) (h : list Decimal) (p q : Decimal) :
  Dec.eqb p q = true -> in_heap is_bid h p = true -> in_heap is_bid h q = true.
Proof.
  intros E. rewrite !in_heap_spec. intros (y & Hy & E1). exists y.
  split; [assumption|]. eapply eqb_trans; eassumption.
Qed.

Lemma dict_set_new {V : Type} (k : Decimal) (v : V) (d : list (Decimal * V)) :
  Dict.get Dec.eqb k d = None -> Dict.set Dec.eqb k v d = d ++ [(k, v)].
Proof.
  induction d as [|[k' v'] d IH]; simpl; [reflexivity|].
  destruct (Dec.eqb k' k); [discriminate|]. intros H. now rewrite IH.
Qed.

Lemma nodup_keys_app (l : list Decimal) (k : Decimal) :
  nodup_keys l = true -> (forall y, In y l -> Dec.eqb y k = false) ->
  nodup_keys (l ++ [k]) = true.
Proof.
  induction l as [|x l IH]; intros Hn Hk; [reflexivity|].
  cbn [app nodup_keys] in *. apply andb_prop in Hn as [H1 H2].
  rewrite IH; [|assumption|intros y Hy; apply Hk; now right].
  rewrite andb_true_r, existsb_app, negb_orb. apply negb_true_iff in H1.
  rewrite H1. cbn. now rewrite (Hk x (or_introl eq_refl)).
Qed.

Lemma nodup_ids_app (l : list string) (id : string) :
  nodup_ids l = true -> ~ In id l -> nodup_ids (l ++ [id]) = true.
Proof.
  induction l as [|x l IH]; intros Hn Hk; [reflexivity|].
  change ((x :: l) ++ [id]) with (x :: (l ++ [id])).
  apply nodup_ids_cons in Hn as [H1 H2]. apply nodup_ids_cons. split.
  - rewrite in_app_iff. intros [H|[<-|[]]]; [auto|]. apply Hk. now left.
  - apply IH; [assumption|]. intros H. apply Hk. now right.
Qed.

Lemma ids_units_app (s : Z) (st : Store) (l : list string) (id : string) :
  ids_units s st (l ++ [id])
  = ids_units s st l
    + match Dict.get String.eqb id st with Some o => rem_units s o | None => 0 end.
Proof.
  induction l as [|x l IH].
  - unfold ids_units. cbn. destruct (Dict.get String.eqb id st); lia.
  - unfold ids_units in *. cbn [app fold_right]. rewrite IH.
    destruct (Dict.get String.eqb x st); lia.
Qed.

(** Indexing a new identifier leaves the levels of a side well-formed. *)
Lemma level_ok_fresh (s : Z) (st st' : Store) (sd : OrderSide) (id : string)
  (kl : Decimal * PriceLevel) :
  Dict.get String.eqb id st = None ->
  (forall id', id' <> id -> Dict.get String.eqb id' st' = Dict.get String.eqb id' st) ->
  level_ok s st sd kl = true -> level_ok s st' sd kl = true.
Proof.
  intros Hnew Hst Hl. rewrite (level_ok_ext s st st'); [assumption|].
  intros id' Hin. apply Hst. intros ->. destruct kl as [k l].
  apply level_ok_spec in Hl as (_ & _ & Hok & _).
  specialize (Hok id Hin). apply id_ok_spec in Hok as (m & G & _). congruence.
Qed.

Lemma side_ok_fresh (s : Z) (st st' : Store) (sd : OrderSide) (id : string)
  (S : OrderBookSide) :
  Dict.get String.eqb id st = None ->
  (forall id', id' <> id -> Dict.get String.eqb id' st' = Dict.get String.eqb id' st) ->
  side_ok s st sd S = true -> side_ok s st' sd S = true.
Proof.
  intros Hnew Hst H. apply side_ok_spec in H as (H1 & H2 & H3 & H4).
  apply side_ok_spec. refine (conj H1 (conj H2 (conj _ H4))).
  intros kl Hin. eapply level_ok_fresh; eauto.
Qed.

(** Replacing the level at [kd] when every other level stays well-formed. *)
Lemma side_ok_set_existing (s : Z) (st st' : Store) (sd : OrderSide) (S : OrderBookSide)
  (kd p : Decimal) (l l' : PriceLevel) :
  side_ok s st sd S = true ->
  In (kd, l) (OrderBookSide.price_levels S) ->
  Dec.eqb p kd = true ->
  level_ok s st' sd (kd, l') = true ->
  (forall kl, In kl (OrderBookSide.price_levels S) -> level_ok s st' sd kl = true
                                                      \/ Dec.eqb (fst kl) p = true) ->
  side_ok s st' sd
    (OrderBookSide.mk (OrderBookSide.is_bid S)
       (Dict.set Dec.eqb p l' (OrderBookSide.price_levels S))
       (OrderBookSide.price_heap S) (OrderBookSide._price_set S)) = true.
Proof.
  intros H Hin Ep Hl' Hothers. apply side_ok_spec in H as (H1 & H2 & H3 & H4 & H5).
  pose proof (dget_in kd l _ H2 Hin) as Hg.
  rewrite <- (dget_equiv p kd _ Ep) in Hg.
  apply side_ok_spec. simpl.
  refine (conj H1 (conj _ (conj _ (conj _ H5)))).
  - now rewrite (dict_keys_set_existing Dec.eqb p l' l _ Hg).
  - intros kl Hkl. destruct (in_dict_set p l' l _ H2 Hg kl Hkl) as [(E & Ev & Hi)|[Hi E]].
    + assert ((fst kl, l) = (kd, l)) as Heq.
      { apply (nodup_in_unique kd (fst kl) l l _ H2 Hin Hi).
        rewrite eqb_sym. exact (eqb_trans _ _ _ E Ep). }
      destruct kl as [k' v']. simpl in *. injection Heq as ->. now subst.
    + destruct (Hothers kl Hi) as [Hk|Hk]; [assumption|congruence].
  - intros kl Hkl. destruct (in_dict_set p l' l _ H2 Hg kl Hkl) as [(E & Ev & Hi)|[Hi E]].
    + exact (H4 _ Hi).
    + exact (H4 _ Hi).
Qed.

Lemma resting_ok_equiv (s : Z) (sd : OrderSide) (p kd : Decimal) (id : string)
  (o : Order) :
  Dec.eqb p kd = true -> resting_ok s sd p id o = true -> resting_ok s sd kd id o = true.
Proof.
  intros E H. apply resting_ok_spec in H as (H1 & H2 & (p' & H3 & H4) & H5).
  apply resting_ok_spec. refine (conj H1 (conj H2 (conj _ H5))).
  exists p'. split; [assumption|]. eapply eqb_trans; eassumption.
Qed.

(** [OrderBookSide.add_order] of a newly indexed order. *)
Lemma side_add_order_spec (s : Z) (st st' : Store) (sd : OrderSide) (S : OrderBookSide)
  (o : Order) (p : Decimal) :
  let id := Order.order_id o in
  0 <= s -> side_ok s st sd S = true ->
  Dict.get String.eqb id st = None ->
  (forall id', id' <> id -> Dict.get String.eqb id' st' = Dict.get String.eqb id' st) ->
  Dict.get String.eqb id st' = Some o ->
  Order.price o = Some p -> Dec.Fits p ->
  resting_ok s sd p id o = true ->
  (forall l, Dict.get Dec.eqb p (OrderBookSide.price_levels S) = Some l ->
     Dec.units s (PriceLevel.total_quantity l) + rem_units s o < Dec.bound) ->
  exists S2,
    OrderBookSide.add_order o S = (Ok tt, S2)
    /\ side_ok s st' sd S2 = true
    /\ (exists l2,
          Dict.get Dec.eqb p (OrderBookSide.price_levels S2) = Some l2
          /\ PriceLevel.orders l2
             = match Dict.get Dec.eqb p (OrderBookSide.price_levels S) with
               | Some l => PriceLevel.orders l
               | None => []
               end ++ [id])
    /\ (forall k, Dec.eqb p k = false ->
          Dict.get Dec.eqb k (OrderBookSide.price_levels S2)
          = Dict.get Dec.eqb k (OrderBookSide.price_levels S)).
Proof.
  intros id0 Hs HS Hnew Hst Hget Hp Hfit Hrest Hroom. subst id0.
  destruct (resting_remaining s sd p (Order.order_id o) o Hrest) as (U1 & U2 & U3 & U4).
  pose proof HS as HS'. apply side_ok_spec in HS' as (H1 & H2 & H3 & H4 & H5 & H6 & H7).
  unfold OrderBookSide.add_order. rewrite Hp.
  destruct (Dict.get Dec.eqb p (OrderBookSide.price_levels S)) as [lvl|] eqn:G.
  - destruct (dget_some_in _ _ _ G) as (kd & Hin & Ek).
    rewrite eqb_sym in Ek.
    pose proof (H3 _ Hin) as Hl.
    apply level_ok_spec in Hl as (L1 & L2 & L3 & [L4 L4'] & L5 & L6).
    assert (~ In (Order.order_id o) (PriceLevel.orders lvl)) as Hnotin.
    { intros Hi. specialize (L3 (Order.order_id o) Hi). apply id_ok_spec in L3 as (m & Gm & _).
      congruence. }
    assert (ids_units s st' (PriceLevel.orders lvl) = ids_units s st (PriceLevel.orders lvl))
      as Eu.
    { apply ids_units_ext. intros id' Hi. apply Hst. intros ->. contradiction. }
    pose proof (ids_units_bounds s st sd kd _ L3) as [B1 _].
    destruct (add_units s (PriceLevel.total_quantity lvl) (Order.remaining_quantity o)
                L4 U2) as [A1 A2].
    { rewrite U1. specialize (Hroom lvl eq_refl). lia. }
    eexists. split; [reflexivity|]. split; [|split].
    + apply (side_ok_set_existing s st st' sd S kd p lvl); try assumption.
      * apply level_ok_spec. cbn [PriceLevel.add_order PriceLevel.orders
                                  PriceLevel.total_quantity].
        refine (conj _ (conj _ (conj _ (conj (conj A2 _) (conj _ L6))))).
        -- destruct (PriceLevel.orders lvl); discriminate.
        -- now apply nodup_ids_app.
        -- intros id' Hi. apply in_app_iff in Hi as [Hi|[<-|[]]].
           ++ rewrite (id_ok_ext s st st'); [now apply L3|].
              apply Hst. intros ->. contradiction.
           ++ apply id_ok_spec. exists o. split; [assumption|].
              now apply (resting_ok_equiv s sd p kd).
        -- rewrite A1, U1. specialize (Hroom lvl eq_refl). lia.
        -- rewrite A1, U1, ids_units_app, Hget, Eu. lia.
      * intros kl Hkl. left. eapply level_ok_fresh; eauto.
    + exists (PriceLevel.add_order o lvl). split; [apply dget_set_same|reflexivity].
    + intros k Hk. cbn. now apply dget_set_other.
  - pose proof (dict_get_none Dec.eqb p _ G) as Hnone.
    set (l2 := PriceLevel.add_order o (PriceLevel.init p)).
    assert (level_ok s st' sd (p, l2) = true) as Hl2.
    { destruct (add_units s Dec.zero (Order.remaining_quantity o)) as [A1 A2];
        [simpl; lia|assumption|rewrite units_zero, U1; lia|].
      rewrite units_zero in A1.
      apply level_ok_spec. subst l2.
      cbn [PriceLevel.add_order PriceLevel.init PriceLevel.orders
           PriceLevel.total_quantity app].
      refine (conj _ (conj eq_refl (conj _ (conj (conj A2 _) (conj _ Hfit)))));
        [discriminate|..].
      - intros id' [<-|[]]. apply id_ok_spec. exists o. auto.
      - rewrite A1, U1. lia.
      - rewrite A1, U1. unfold ids_units. cbn [fold_right]. rewrite Hget. lia. }
    assert (nodup_keys (Dict.keys (OrderBookSide.price_levels S ++ [(p, l2)])) = true)
      as Hn2.
    { unfold Dict.keys. rewrite map_app. apply nodup_keys_app; [assumption|].
      intros y Hy. apply in_map_iff in Hy as ([k v] & <- & Hkv).
      exact (Hnone k v Hkv). }
    assert (forall kl, In kl (OrderBookSide.price_levels S ++ [(p, l2)]) ->
              level_ok s st' sd kl = true) as Hlv.
    { intros kl Hkl. apply in_app_iff in Hkl as [Hkl|[<-|[]]]; [|assumption].
      eapply level_ok_fresh; eauto. }
    assert (forall k, Dec.eqb p k = false ->
              Dict.get Dec.eqb k (Dict.set Dec.eqb p l2 (OrderBookSide.price_levels S))
              = Dict.get Dec.eqb k (OrderBookSide.price_levels S)) as Hoth.
    { intros k Hk. now apply dget_set_other. }
    destruct (set_mem p (OrderBookSide._price_set S)) eqn:M.
    + eexists. split; [reflexivity|]. split; [|split].
      * apply side_ok_spec. cbn. rewrite (dict_set_new p l2 _ G).
        refine (conj H1 (conj Hn2 (conj Hlv (conj _ (conj H5 (conj H6 H7)))))).
        intros kl Hkl. apply in_app_iff in Hkl as [Hkl|[<-|[]]]; [now apply H4|].
        cbn [fst]. unfold set_mem in M. apply existsb_exists in M as (y & Hy & E).
        apply (in_heap_equiv _ _ y p); [now rewrite eqb_sym|now apply H7].
      * exists l2. cbn. split; [apply dget_set_same|reflexivity].
      * exact Hoth.
    + eexists. split; [reflexivity|]. split; [|split].
      * apply side_ok_spec. cbn. rewrite (dict_set_new p l2 _ G).
        refine (conj H1 (conj Hn2 (conj Hlv (conj _ (conj _ (conj _ _)))))).
        -- intros kl Hkl. apply in_app_iff in Hkl as [Hkl|[<-|[]]].
           ++ apply in_heap_heappush. now apply H4.
           ++ now apply in_heap_heappush_new.
        -- now apply heappush_sorted.
        -- intros h Hh. apply heappush_in in Hh as [->|Hh]; [|now apply H6].
           now apply heap_key_fits.
        -- intros q Hq. unfold set_add in Hq. rewrite M in Hq.
           apply in_app_iff in Hq as [Hq|[<-|[]]].
           ++ apply in_heap_heappush. now apply H7.
           ++ now apply in_heap_heappush_new.
      * exists l2. cbn. split; [apply dget_set_same|reflexivity].
      * exact Hoth.
Qed.

(** [OrderBook.add_order] of an order whose identifier is not indexed. *)
Lemma book_add_order_spec (s : Z) (o : Order) (p : Decimal) (skip : bool)
  (b : OrderBook) :
  book_ok s b = true ->
  Dict.get String.eqb (Order.order_id o) (OrderBook.orders b) = None ->
  Order.price o = Some p -> Dec.Fits p ->
  resting_ok s (Order.side o) p (Order.order_id o) o = true ->
  (forall l, Dict.get Dec.eqb p
               (OrderBookSide.price_levels (OrderBook.side_of (Order.side o) b)) = Some l ->
     Dec.units s (PriceLevel.total_quantity l) + rem_units s o < Dec.bound) ->
  exists b2,
    OrderBook.add_order o skip b = (Ok true, b2)
    /\ book_ok s b2 = true
    /\ Dict.get String.eqb (Order.order_id o) (OrderBook.orders b2) = Some o
    /\ (forall id', id' <> Order.order_id o ->
          Dict.get String.eqb id' (OrderBook.orders b2)
          = Dict.get String.eqb id' (OrderBook.orders b))
    /\ OrderBook.side_of (opposite (Order.side o)) b2
       = OrderBook.side_of (opposite (Order.side o)) b
    /\ (exists l2,
          Dict.get Dec.eqb p
            (OrderBookSide.price_levels (OrderBook.side_of (Order.side o) b2)) = Some l2
          /\ PriceLevel.orders l2
             = match Dict.get Dec.eqb p
                       (OrderBookSide.price_levels (OrderBook.side_of (Order.side o) b)) with
               | Some l => PriceLevel.orders l
               | None => []
               end ++ [Order.order_id o])
    /\ (forall k, Dec.eqb p k = false ->
          Dict.get Dec.eqb k
            (OrderBookSide.price_levels (OrderBook.side_of (Order.side o) b2))
          = Dict.get Dec.eqb k
              (OrderBookSide.price_levels (OrderBook.side_of (Order.side o) b))).
Proof.
  intros Hb Hnew Hp Hfit Hrest Hroom. pose proof (book_ok_scale s b Hb) as Hs.
  set (st' := Dict.set String.eqb (Order.order_id o) o (OrderBook.orders b)).
  assert (forall id', id' <> Order.order_id o ->
            Dict.get String.eqb id' st' = Dict.get String.eqb id' (OrderBook.orders b))
    as Hst.
  { intros id' Hne. apply sget_set_other. congruence. }
  assert (Dict.get String.eqb (Order.order_id o) st' = Some o) as Hget
    by apply sget_set_same.
  destruct (side_add_order_spec s (OrderBook.orders b) st' (Order.side o)
              (OrderBook.side_of (Order.side o) b) o p Hs
              (book_ok_side s b _ Hb) Hnew Hst Hget Hp Hfit Hrest Hroom)
    as (S2 & E & HS2 & Hlev & Hoth).
  unfold OrderBook.add_order, Dict.mem. rewrite Hnew. fold st'.
  rewrite side_of_with_orders, E.
  eexists. split; [reflexivity|].
  rewrite orders_with_side, side_of_with_side, side_of_with_side_opp,
    side_of_with_orders.
  assert (OrderBook.orders (OrderBook.with_orders st' b) = st') as Eo by now destruct b.
  rewrite Eo.
  refine (conj _ (conj Hget (conj Hst (conj eq_refl (conj Hlev Hoth))))).
  apply (book_ok_intro s _ (Order.side o) Hs).
  - now rewrite orders_with_side, side_of_with_side, Eo.
  - rewrite orders_with_side, side_of_with_side_opp, side_of_with_orders, Eo.
    apply (side_ok_fresh s (OrderBook.orders b) st' _ (Order.order_id o));
      try assumption.
    now apply book_ok_side.
Qed.


(* ================================================================= *)
(** * The LIMIT call *)

Lemma best_from_side_spec (s : Z) (sd : OrderSide) (b : OrderBook) :
  book_ok s b = true ->
  exists r S1,
    OrderBook._best_from_side sd b = (r, OrderBook.with_side sd S1 b)
    /\ OrderBookSide.price_levels S1 = OrderBookSide.price_levels (OrderBook.side_of sd b)
    /\ side_ok s (OrderBook.orders b) sd S1 = true
    /\ match r with
       | None => OrderBookSide.price_levels (OrderBook.side_of sd b) = []
       | Some (bp, tq) =>
           exists kd l,
             In (kd, l) (OrderBookSide.price_levels (OrderBook.side_of sd b))
             /\ Dec.eqb kd bp = true
             /\ best_key (side_eqb sd BUY)
                  (OrderBookSide.price_levels (OrderBook.side_of sd b)) kd
             /\ tq = PriceLevel.total_quantity l
       end.
Proof.
  intros Hb. pose proof (book_ok_scale s b Hb) as Hs.
  pose proof (book_ok_side s b sd Hb) as HS.
  destruct (get_best_price_spec s _ sd _ Hs HS) as (best & S1 & E & HL & HS1 & Hbest).
  unfold OrderBook._best_from_side. rewrite E.
  destruct best as [bp|].
  - destruct Hbest as (kd & l & Hin & Ek & Gl & Hbk).
    assert (Dict.get Dec.eqb bp (OrderBookSide.price_levels S1) = Some l) as Gl1
      by now rewrite HL.
    rewrite Gl1.
    apply side_ok_spec in HS as (_ & _ & Hl & _).
    rewrite (pl_empty_ok s _ sd kd l Hs (Hl _ Hin)).
    rewrite (dict_set_same_value _ _ _ _ Gl1), side_eta.
    exists (Some (bp, PriceLevel.total_quantity l)), S1.
    refine (conj eq_refl (conj HL (conj HS1 _))). exists kd, l. auto.
  - exists None, S1. auto.
Qed.

Lemma sweep_within (taker : OrderSide) (p : Decimal) (q : list (Decimal * Order)) :
  forall r, Forall (fun f => MatchingEngine.worse taker (fst (fst f)) p = false)
              (sweep taker (Some p) r q).
Proof.
  induction q as [|[k m] q IH]; intros r; cbn [sweep]; [constructor|].
  destruct (Dec.leb r Dec.zero); [constructor|].
  destruct (MatchingEngine.worse taker k p) eqn:W; [constructor|].
  constructor; [exact W|apply IH].
Qed.

Lemma order_set_filled_fields (q : Decimal) (o : Order) :
  let o1 := Order.set_filled_quantity q o in
  Order.order_id o1 = Order.order_id o /\ Order.side o1 = Order.side o
  /\ Order.price o1 = Order.price o /\ Order.quantity o1 = Order.quantity o
  /\ Order.filled_quantity o1 = q /\ Order.order_type o1 = Order.order_type o.
Proof. destruct o. cbn. repeat split. Qed.

Lemma order_set_status_fields (st : OrderStatus) (o : Order) :
  let o1 := Order.set_status st o in
  Order.order_id o1 = Order.order_id o /\ Order.side o1 = Order.side o
  /\ Order.price o1 = Order.price o /\ Order.quantity o1 = Order.quantity o
  /\ Order.filled_quantity o1 = Order.filled_quantity o
  /\ Order.status o1 = st /\ Order.order_type o1 = Order.order_type o.
Proof. destruct o. cbn. repeat split. Qed.

(** The end of a LIMIT call, with the call of [add_order] that brings the
    remainder to rest. *)
Lemma rest_or_fill_add (s : Z) (o : Order) (e : MatchingEngine) (p : Decimal)
  (fr' : MatchingEngine.frame) :
  let ts := MatchingEngine.matched fr' in
  let o1 := MatchingEngine.order fr' in
  let e1 := MatchingEngine.engine fr' in
  book_ok s (MatchingEngine.order_book e) = true ->
  taker_ok s o = true -> 0 < Dec.units s (Order.quantity o) ->
  Order.price o = Some p ->
  rest_room s o (MatchingEngine.order_book e) = true ->
  Dict.get String.eqb (Order.order_id o) (OrderBook.orders (MatchingEngine.order_book e))
  = None ->
  walked s (Some p) o e ts o1 e1 ->
  Dec.units s (MatchingEngine.remaining fr')
  = Dec.units s (Order.quantity o) - Dec.units s (Order.filled_quantity o1) ->
  - s <= Dec.exp (MatchingEngine.remaining fr') ->
  exists e2,
    MatchingEngine.rest_or_fill (Ok tt) fr'
    = (Ok ts, Order.set_status (limit_status s o1 ts) o1, e2)
    /\ if Dec.units s (Order.filled_quantity o1) <? Dec.units s (Order.quantity o)
       then rested s (Order.set_status (limit_status s o1 ts) o1) p
              (MatchingEngine.order_book e1) (MatchingEngine.order_book e2)
            /\ OrderBook.add_order (Order.set_status (limit_status s o1 ts) o1) false
                 (MatchingEngine.order_book e1)
               = (Ok true, MatchingEngine.order_book e2)
       else e2 = e1.
Proof.
  intros ts o1 e1 Hb Ht Hq Hp Hrr Hnew W Hrem Hexp.
  pose proof (book_ok_scale s _ Hb) as Hs.
  pose proof (side_queue_ok s (opposite (Order.side o)) _ Hb) as Hqok.
  destruct (walked_remaining s _ o e ts o1 e1 Hs Ht Hq Hqok W) as (Eq & R1 & R2 & R3).
  pose proof W as (_ & _ & W3 & W4 & W5 & _ & _ & W8 & _ & W10 & _).
  pose proof Ht as Ht'. apply taker_ok_spec in Ht' as ((T1 & T1') & _ & _ & T4).
  rewrite Hp in T4.
  unfold MatchingEngine.rest_or_fill. fold ts o1 e1.
  rewrite (ltb_zero_units s) by assumption. rewrite Hrem.
  unfold limit_status. rewrite Eq.
  destruct (Z.ltb_spec (Dec.units s (Order.filled_quantity o1))
              (Dec.units s (Order.quantity o))) as [Hlt|Hge].
  - destruct (Z.ltb_spec 0 (Dec.units s (Order.quantity o)
                            - Dec.units s (Order.filled_quantity o1))); [|lia].
    destruct (Z.eqb_spec (Dec.units s (Order.filled_quantity o1))
                (Dec.units s (Order.quantity o))); [lia|].
    set (o2 := Order.set_status (match ts with [] => PENDING | _ => PARTIALLY_FILLED end) o1).
    destruct (order_set_status_fields
                (match ts with [] => PENDING | _ => PARTIALLY_FILLED end) o1)
      as (S1 & S2 & S3 & S4 & S5 & _).
    fold o2 in S1, S2, S3, S4, S5.
    destruct (order_set_filled_fields (Order.filled_quantity o1) o)
      as (F1 & F2 & F3 & F4 & _).
    rewrite <- W10 in F1, F2, F3, F4.
    assert (Order.side o2 = Order.side o) as Eside by congruence.
    assert (Order.order_id o2 = Order.order_id o) as Eid by congruence.
    destruct (book_add_order_spec s o2 p false (MatchingEngine.order_book e1)) as
      (b2 & E & Hrested); try assumption.
    + rewrite Eid.
      destruct (Dict.get String.eqb (Order.order_id o)
                  (OrderBook.orders (MatchingEngine.order_book e1))) as [m|] eqn:G;
        [|reflexivity].
      destruct (W4 _ _ G) as (m0 & G0). congruence.
    + congruence.
    + apply resting_ok_spec. rewrite S4, S5, Eq.
      refine (conj eq_refl (conj eq_refl (conj _ (conj (conj T1 T1')
               (conj (conj W8 _) _))))).
      * exists p. split; [congruence|apply eqb_refl].
      * lia.
      * lia.
    + intros l G. rewrite Eside, W3 in G. unfold rest_room in Hrr.
      rewrite Hp, G in Hrr. apply Z.ltb_lt in Hrr.
      unfold rem_units. rewrite S4, S5, Eq. lia.
    + rewrite E. eexists. split; [reflexivity|]. split; [exact Hrested|reflexivity].
  - destruct (Z.ltb_spec 0 (Dec.units s (Order.quantity o)
                            - Dec.units s (Order.filled_quantity o1))); [lia|].
    destruct (Z.eqb_spec (Dec.units s (Order.filled_quantity o1))
                (Dec.units s (Order.quantity o))); [|lia].
    exists e1. split; reflexivity.
Qed.

Lemma rest_or_fill_spec (s : Z) (o : Order) (e : MatchingEngine) (p : Decimal)
  (fr' : MatchingEngine.frame) :
  let ts := MatchingEngine.matched fr' in
  let o1 := MatchingEngine.order fr' in
  let e1 := MatchingEngine.engine fr' in
  book_ok s (MatchingEngine.order_book e) = true ->
  taker_ok s o = true -> 0 < Dec.units s (Order.quantity o) ->
  Order.price o = Some p ->
  rest_room s o (MatchingEngine.order_book e) = true ->
  Dict.get String.eqb (Order.order_id o) (OrderBook.orders (MatchingEngine.order_book e))
  = None ->
  walked s (Some p) o e ts o1 e1 ->
  Dec.units s (MatchingEngine.remaining fr')
  = Dec.units s (Order.quantity o) - Dec.units s (Order.filled_quantity o1) ->
  - s <= Dec.exp (MatchingEngine.remaining fr') ->
  exists e2,
    MatchingEngine.rest_or_fill (Ok tt) fr'
    = (Ok ts, Order.set_status (limit_status s o1 ts) o1, e2)
    /\ if Dec.units s (Order.filled_quantity o1) <? Dec.units s (Order.quantity o)
       then rested s (Order.set_status (limit_status s o1 ts) o1) p
              (MatchingEngine.order_book e1) (MatchingEngine.order_book e2)
       else e2 = e1.
Proof.
  intros ts o1 e1 Hb Ht Hq Hp Hrr Hnew W Hrem Hexp.
  destruct (rest_or_fill_add s o e p fr' Hb Ht Hq Hp Hrr Hnew W Hrem Hexp)
    as (e2 & E & H).
  exists e2. split; [exact E|]. fold ts o1 e1 in H.
  destruct (Dec.units s (Order.filled_quantity o1) <? Dec.units s (Order.quantity o));
    [apply H|exact H].
Qed.

(** The LIMIT call, with the call of [add_order] that brings the remainder
    to rest. *)
Lemma limit_sync_add (s : Z) (o : Order) (e : MatchingEngine) (p : Decimal) :
  book_ok s (MatchingEngine.order_book e) = true ->
  taker_ok s o = true -> 0 < Dec.units s (Order.quantity o) ->
  Order.price o = Some p ->
  room e = true ->
  rest_room s o (MatchingEngine.order_book e) = true ->
  Dict.get String.eqb (Order.order_id o) (OrderBook.orders (MatchingEngine.order_book e))
  = None ->
  exists ts o1 e1 e2,
    MatchingEngine._match_limit_order_sync o e
    = (Ok ts, Order.set_status (limit_status s o1 ts) o1, e2)
    /\ walked s (Some p) o e ts o1 e1
    /\ if Dec.units s (Order.filled_quantity o1) <? Dec.units s (Order.quantity o)
       then rested s (Order.set_status (limit_status s o1 ts) o1) p
              (MatchingEngine.order_book e1) (MatchingEngine.order_book e2)
            /\ OrderBook.add_order (Order.set_status (limit_status s o1 ts) o1) false
                 (MatchingEngine.order_book e1)
               = (Ok true, MatchingEngine.order_book e2)
       else e2 = e1.
Proof.
  intros Hb Ht Hq Hp Hroom Hrr Hnew.
  pose proof (book_ok_scale s _ Hb) as Hs.
  set (sd := opposite (Order.side o)).
  set (fr00 := MatchingEngine.mkFrame e o (Order.quantity o) []).
  pose proof (initial_frame_ok s o e Ht Hq) as Hf. fold fr00 in Hf.
  destruct (best_from_side_spec s sd _ Hb) as (best & S1 & E & HL & HS1 & Hbest).
  destruct (with_engine_side_same s sd (Some p) S1 fr00 Hb Hf HL HS1)
    as (Hb1 & Hf1 & Hx1 & Hl1 & HL1 & Ho1 & Hr1 & Hq1).
  set (fr0 := MatchingEngine.with_engine_side sd S1 fr00) in *.
  change (MatchingEngine.engine fr00) with e in *.
  assert (exists fr',
            match MatchingEngine.crosses o best with
            | Ok true =>
                match Order.price o with
                | Some p => MatchingEngine._sweep_loop
                              (MatchingEngine.loop_bound (MatchingEngine.engine fr0))
                              sd (Some p) fr0
                | None => (Raise TypeError, fr0)
                end
            | Ok false => (Ok tt, fr0)
            | Raise x => (Raise x, fr0)
            | Unfinished => (Unfinished, fr0)
            end = (Ok tt, fr')
            /\ book_ok s (MatchingEngine.order_book (MatchingEngine.engine fr')) = true
            /\ frame_ok s fr'
            /\ extends s sd (Some p) fr00 fr'
            /\ sweep (opposite sd) (Some p) (MatchingEngine.remaining fr')
                 (side_queue sd (MatchingEngine.order_book (MatchingEngine.engine fr')))
               = []
            /\ residual (opposite sd) (Some p) (MatchingEngine.remaining fr')
                 (side_queue sd (MatchingEngine.order_book (MatchingEngine.engine fr')))
               = side_queue sd (MatchingEngine.order_book (MatchingEngine.engine fr')))
    as (fr' & Ewalk & Hb' & Hf' & Hx & Q1 & Q2).
  { unfold MatchingEngine.crosses. rewrite Hp.
    destruct best as [[bp tq]|].
    - destruct Hbest as (kd & l & Hin & Ek & Hbk & _).
      destruct (MatchingEngine.worse (Order.side o) bp p) eqn:W; cbn [negb].
      + exists fr0. rewrite <- HL1 in Hin, Hbk.
        assert (MatchingEngine.worse (opposite sd) bp p = true) as W'.
        { subst sd. now rewrite opposite_involutive. }
        destruct (sweep_beyond s _ sd p (MatchingEngine.remaining fr0) kd bp l
                    Hb1 Hin Hbk Ek W') as [Q1 Q2].
        auto 10.
      + destruct (sweep_loop_spec s sd (Some p)
                    (MatchingEngine.loop_bound (MatchingEngine.engine fr0)) fr0 Hb1 Hf1)
          as (fr' & E' & Hb' & Hf' & Hx' & Q1 & Q2 & _).
        { unfold MatchingEngine.loop_bound. lia. }
        { intros _. rewrite Hl1. now apply room_load. }
        exists fr'. refine (conj E' (conj Hb' (conj Hf' (conj _ (conj Q1 Q2))))).
        eapply extends_trans; eassumption.
    - exists fr0. rewrite (side_queue_nil sd _ (eq_trans HL1 Hbest)). cbn. auto 10. }
  destruct (walk_from_extends s (Some p) o e fr' Hb Ht Hq Hx Hb' Hf' Q1 Q2)
    as (W & Hrem & Hexp).
  destruct (rest_or_fill_add s o e p fr' Hb Ht Hq Hp Hrr Hnew W Hrem Hexp)
    as (e2 & E2 & Hrest).
  exists (MatchingEngine.matched fr'), (MatchingEngine.order fr'),
    (MatchingEngine.engine fr'), e2.
  split; [|split; assumption].
  unfold MatchingEngine._match_limit_order_sync. fold sd. rewrite E.
  change (MatchingEngine.mkFrame
            (MatchingEngine.with_book (OrderBook.with_side sd S1 (MatchingEngine.order_book e)) e)
            o (Order.quantity o) []) with fr0.
  rewrite Ewalk. exact E2.
Qed.

Lemma limit_sync_spec (s : Z) (o : Order) (e : MatchingEngine) (p : Decimal) :
  book_ok s (MatchingEngine.order_book e) = true ->
  taker_ok s o = true -> 0 < Dec.units s (Order.quantity o) ->
  Order.price o = Some p ->
  room e = true ->
  rest_room s o (MatchingEngine.order_book e) = true ->
  Dict.get String.eqb (Order.order_id o) (OrderBook.orders (MatchingEngine.order_book e))
  = None ->
  exists ts o1 e1 e2,
    MatchingEngine._match_limit_order_sync o e
    = (Ok ts, Order.set_status (limit_status s o1 ts) o1, e2)
    /\ walked s (Some p) o e ts o1 e1
    /\ if Dec.units s (Order.filled_quantity o1) <? Dec.units s (Order.quantity o)
       then rested s (Order.set_status (limit_status s o1 ts) o1) p
              (MatchingEngine.order_book e1) (MatchingEngine.order_book e2)
       else e2 = e1.
Proof.
  intros Hb Ht Hq Hp Hroom Hrr Hnew.
  destruct (limit_sync_add s o e p Hb Ht Hq Hp Hroom Hrr Hnew)
    as (ts & o1 & e1 & e2 & E & W & H).
  exists ts, o1, e1, e2. split; [exact E|]. split; [exact W|].
  destruct (Dec.units s (Order.filled_quantity o1) <? Dec.units s (Order.quantity o));
    [apply H|exact H].
Qed.


(* ================================================================= *)
(** * Submissions *)

(** An unlimited walk that the makers cannot fill leaves no maker. *)
Lemma residual_exhausted (s : Z) (sd taker : OrderSide) :
  0 <= s ->
  forall (q : list (Decimal * Order)) (r : Decimal),
  queue_ok s sd q -> Dec.Ongrid s r -> avail s taker None q < Dec.units s r ->
  residual taker None r q = [].
Proof.
  intros Hs. induction q as [|[p m] q IH]; intros r Hq Hr Hlt; [reflexivity|].
  cbn [residual avail] in *.
  pose proof (avail_nonneg s sd taker None q (queue_ok_tail _ _ _ _ Hq)) as Ha.
  pose proof (Hq p m (or_introl eq_refl)) as Hm.
  destruct (resting_remaining s sd p _ m Hm) as (U1 & U2 & U3 & U4).
  destruct (sweep_step s sd p m r Hs Hm Hr ltac:(lia)) as (L & F1 & F2 & F3 & F4).
  rewrite L. cbv zeta.
  set (f := Dec.min r (Order.remaining_quantity m)) in *.
  pose proof Hm as Hm'.
  apply resting_ok_spec in Hm' as (_ & _ & _ & [Q1 Q2] & [G1 G2] & G3).
  assert (- s <= Dec.exp f) as Hfe.
  { subst f. apply (min_units s r _ (proj1 Hr) U2). }
  unfold rem_units in *.
  destruct (add_units s (Order.filled_quantity m) f G1 Hfe) as [A1 A2]; [lia|].
  assert (Dec.eqb (Order.remaining_quantity
                     (Order.set_filled_quantity (Dec.add (Order.filled_quantity m) f) m))
            Dec.zero = true) as ->.
  { unfold Order.remaining_quantity.
    destruct (order_set_filled_fields (Dec.add (Order.filled_quantity m) f) m)
      as (_ & _ & _ & -> & -> & _).
    destruct (sub_units s (Order.quantity m) (Dec.add (Order.filled_quantity m) f) Q1 A2)
      as [S1 S2]; [lia|].
    rewrite (eqb_units s) by (assumption || (simpl; lia)).
    rewrite units_zero, S1, A1. apply Z.eqb_eq. lia. }
  apply IH; [now apply queue_ok_tail in Hq|assumption|lia].
Qed.

Lemma validate_quantity (s : Z) (o : Order) :
  0 <= s -> - s <= Dec.exp (Order.quantity o) ->
  fst (MatchingEngine._validate_order o) = true ->
  0 < Dec.units s (Order.quantity o).
Proof.
  intros Hs He. unfold MatchingEngine._validate_order.
  rewrite (leb_zero s) by assumption.
  destruct (Z.leb_spec (Dec.units s (Order.quantity o)) 0); [discriminate|trivial].
Qed.

Lemma validate_limit_price (o : Order) :
  fst (MatchingEngine._validate_order o) = true -> Order.order_type o = LIMIT ->
  exists p, Order.price o = Some p.
Proof.
  unfold MatchingEngine._validate_order. intros H Hty. rewrite Hty in H.
  destruct (Dec.leb (Order.quantity o) Dec.zero); [discriminate|].
  destruct (Order.price o) as [p|]; [eauto|discriminate].
Qed.

Lemma queue_trades_book (ts : list Trade) (e : MatchingEngine) :
  MatchingEngine.order_book (MatchingEngine.queue_trades ts e)
  = MatchingEngine.order_book e.
Proof.
  revert e. induction ts as [|t ts IH]; intros e; [reflexivity|].
  cbn [MatchingEngine.queue_trades].
  destruct (put_nowait _ _ _); [|reflexivity..]. now rewrite IH.
Qed.

Lemma post_process_book (o : Order) (ts : list Trade) (e : MatchingEngine) :
  MatchingEngine.order_book (MatchingEngine.post_process o ts e)
  = MatchingEngine.order_book e.
Proof.
  unfold MatchingEngine.post_process.
  destruct (put_nowait _ _ _); [|reflexivity..]. now rewrite queue_trades_book.
Qed.

(** A submission whose matching call returned is accepted. *)
Lemma submit_matched (o : Order) (e : MatchingEngine) (ts : list Trade) (o' : Order)
  (e1 : MatchingEngine) :
  fst (MatchingEngine._validate_order o) = true ->
  match Order.order_type o with
  | MARKET => Some (MatchingEngine._match_market_order_sync o e)
  | LIMIT => Some (MatchingEngine._match_limit_order_sync o e)
  | IOC => Some (MatchingEngine._match_ioc_order_sync o e)
  | FOK => Some (MatchingEngine._match_fok_order_sync o e)
  | _ => None
  end = Some (Ok ts, o', e1) ->
  exists e',
    MatchingEngine.submit_order o e
    = (Ok (true, "Order processed successfully"%string, ts), o', e')
    /\ MatchingEngine.order_book e' = MatchingEngine.order_book e1.
Proof.
  intros Hv Hm. unfold MatchingEngine.submit_order.
  destruct (MatchingEngine._validate_order o) as [ok msg]. cbn in Hv. subst ok.
  cbn [negb]. rewrite Hm. eexists. split; [reflexivity|].
  rewrite post_process_book. now destruct ts.
Qed.

Lemma reports_makers (e : MatchingEngine) (o : Order) (ts : list Trade)
  (fs : list fill) (rest : list (Decimal * Order)) :
  Forall2 (reports e o) ts fs ->
  map Trade.maker_order_id ts
  = firstn (List.length ts)
      (map (fun km => Order.order_id (snd km)) (map fill_maker fs ++ rest)).
Proof.
  induction 1 as [|t f ts fs Hr _ IH]; [reflexivity|].
  cbn [map app List.length firstn]. rewrite IH. f_equal.
  destruct f as [[p q] m]. now destruct Hr as (_ & _ & -> & _).
Qed.

Lemma walked_priority (s : Z) (limit : option Decimal) (o : Order) (e : MatchingEngine)
  (ts : list Trade) (o1 : Order) (e1 : MatchingEngine) :
  walked s limit o e ts o1 e1 ->
  exists fs rest,
    Forall2 (reports e o) ts fs
    /\ side_queue (opposite (Order.side o)) (MatchingEngine.order_book e)
       = map fill_maker fs ++ rest
    /\ map Trade.maker_order_id ts
       = firstn (List.length ts)
           (map (fun km => Order.order_id (snd km))
              (side_queue (opposite (Order.side o)) (MatchingEngine.order_book e))).
Proof.
  intros (W1 & _).
  destruct (sweep_prefix (Order.side o) limit
              (side_queue (opposite (Order.side o)) (MatchingEngine.order_book e))
              (Order.quantity o)) as (rest & E).
  cbv zeta in W1.
  set (fs := sweep (Order.side o) limit (Order.quantity o)
               (side_queue (opposite (Order.side o)) (MatchingEngine.order_book e))) in *.
  exists fs, rest. split; [exact W1|]. split; [exact E|].
  rewrite E. now apply (reports_makers e o).
Qed.

Lemma set_status_status (st : OrderStatus) (o : Order) :
  Order.set_status st o = Order.set_status (Order.status (Order.set_status st o)) o.
Proof. now destruct o. Qed.

Lemma admissible_spec (s : Z) (o : Order) (e : MatchingEngine) :
  admissible s o e = true ->
  taker_ok s o = true /\ fst (MatchingEngine._validate_order o) = true /\ room e = true
  /\ match Order.order_type o with
     | MARKET | IOC => True
     | LIMIT =>
         rest_room s o (MatchingEngine.order_book e) = true
         /\ Dict.get String.eqb (Order.order_id o)
              (OrderBook.orders (MatchingEngine.order_book e)) = None
     | FOK => depth_ok s o (MatchingEngine.order_book e) = true
     | _ => False
     end.
Proof.
  unfold admissible. intros Ha.
  apply andb_prop in Ha as [Ha Hty]. apply andb_prop in Ha as [Ha Hroom].
  apply andb_prop in Ha as [Ht Hv].
  refine (conj Ht (conj Hv (conj Hroom _))).
  destruct (Order.order_type o); try discriminate; auto.
  apply andb_prop in Hty as [Hrr Hnew]. split; [assumption|].
  apply negb_true_iff in Hnew. unfold Dict.mem in Hnew.
  now destruct (Dict.get String.eqb (Order.order_id o)
                  (OrderBook.orders (MatchingEngine.order_book e))).
Qed.

(** Every admissible submission to a well-formed book returns, accepted. *)
Lemma submit_admissible (s : Z) (o : Order) (e : MatchingEngine) :
  book_ok s (MatchingEngine.order_book e) = true ->
  admissible s o e = true ->
  exists ts o' e', submitted s o e ts o' e'.
Proof.
  intros Hb Ha. pose proof (book_ok_scale s _ Hb) as Hs.
  apply admissible_spec in Ha as (Ht & Hv & Hroom & Hty).
  pose proof Ht as Ht'. apply taker_ok_spec in Ht' as ((T1 & T1') & _).
  pose proof (validate_quantity s o Hs T1 Hv) as Hq.
  destruct (Order.order_type o) eqn:Ety; try contradiction.
  - destruct (market_sync_spec s o e Hb Ht Hq Hroom) as (ts & o1 & e1 & E & W).
    destruct (submit_matched o e ts (Order.set_status (market_status s o1) o1) e1 Hv)
      as (e' & E' & Hbook).
    { now rewrite Ety, E. }
    exists ts, (Order.set_status (market_status s o1) o1), e'.
    split; [exact E'|]. left. exists None, o1, e1.
    refine (conj W (conj (set_status_status _ _) (or_introl Hbook))).
  - destruct Hty as [Hrr Hnew].
    destruct (validate_limit_price o Hv Ety) as (p & Hp).
    destruct (limit_sync_spec s o e p Hb Ht Hq Hp Hroom Hrr Hnew)
      as (ts & o1 & e1 & e2 & E & W & Hrest).
    destruct (submit_matched o e ts (Order.set_status (limit_status s o1 ts) o1) e2 Hv)
      as (e' & E' & Hbook).
    { now rewrite Ety, E. }
    exists ts, (Order.set_status (limit_status s o1 ts) o1), e'.
    split; [exact E'|]. left. exists (Some p), o1, e1.
    refine (conj W (conj (set_status_status _ _) _)). rewrite Hbook.
    destruct (Dec.units s (Order.filled_quantity o1) <? Dec.units s (Order.quantity o)).
    + right. now exists p.
    + left. now subst e2.
  - destruct (ioc_sync_spec s o e Hb Ht Hq (fun _ => Hroom)) as (ts & o1 & e1 & E & W).
    destruct (submit_matched o e ts (Order.set_status (ioc_status s o1 ts) o1) e1 Hv)
      as (e' & E' & Hbook).
    { now rewrite Ety, E. }
    exists ts, (Order.set_status (ioc_status s o1 ts) o1), e'.
    split; [exact E'|]. left. exists (Order.price o), o1, e1.
    refine (conj W (conj (set_status_status _ _) (or_introl Hbook))).
  - pose proof (fok_sync_spec s o e Hb Ht Hq Ety Hty (fun _ => Hroom)) as H.
    destruct (attainable s o (MatchingEngine.order_book e)).
    + destruct H as (ts & o1 & e1 & E & W & Hfull).
      destruct (submit_matched o e ts (Order.set_status FILLED o1) e1 Hv)
        as (e' & E' & Hbook).
      { now rewrite Ety, E. }
      exists ts, (Order.set_status FILLED o1), e'.
      split; [exact E'|]. left. exists (Order.price o), o1, e1.
      refine (conj W (conj (set_status_status _ _) (or_introl Hbook))).
    + destruct (submit_matched o e [] (Order.set_status CANCELLED o) e Hv)
        as (e' & E' & Hbook).
      { now rewrite Ety, H. }
      exists [], (Order.set_status CANCELLED o), e'.
      split; [exact E'|]. right. auto.
Qed.


(* ================================================================= *)
(** * The claims on matching *)












(* ================================================================= *)
(** * Validation, the accepted flag, fees *)

Lemma validate_invalid (o : Order) :
  fst (MatchingEngine._validate_order o) = negb (invalid o).
Proof.
  unfold MatchingEngine._validate_order, invalid.
  destruct (Dec.leb (Order.quantity o) Dec.zero); [reflexivity|].
  destruct (Order.order_type o), (Order.price o) as [p|]; cbn;
    try reflexivity; now destruct (Dec.leb p Dec.zero).
Qed.

Lemma submit_invalid (o : Order) (e : MatchingEngine) :
  invalid o = true ->
  MatchingEngine.submit_order o e
  = (Ok (false, snd (MatchingEngine._validate_order o), []), o, e).
Proof.
  intros H. unfold MatchingEngine.submit_order.
  pose proof (validate_invalid o) as Hv. rewrite H in Hv.
  destruct (MatchingEngine._validate_order o) as [ok msg]. cbn in Hv. now subst ok.
Qed.

Lemma submit_unsupported (o : Order) (e : MatchingEngine) :
  invalid o = false -> supported (Order.order_type o) = false ->
  MatchingEngine.submit_order o e
  = (Ok (false,
         ("Unsupported order type: " ++ OrderType_str (Order.order_type o))%string, []),
     o, e).
Proof.
  intros H Hs. unfold MatchingEngine.submit_order.
  pose proof (validate_invalid o) as Hv. rewrite H in Hv.
  destruct (MatchingEngine._validate_order o) as [ok msg]. cbn in Hv. subst ok.
  cbn [negb]. now destruct (Order.order_type o).
Qed.

Lemma submit_supported (o : Order) (e : MatchingEngine)
  (r : bool * string * list Trade) (o' : Order) (e' : MatchingEngine) :
  invalid o = false -> supported (Order.order_type o) = true ->
  MatchingEngine.submit_order o e = (Ok r, o', e') ->
  fst (fst r) = true /\ snd (fst r) = "Order processed successfully"%string.
Proof.
  intros H Hs. unfold MatchingEngine.submit_order.
  pose proof (validate_invalid o) as Hv. rewrite H in Hv.
  destruct (MatchingEngine._validate_order o) as [ok msg]. cbn in Hv. subst ok.
  cbn [negb].
  destruct (match Order.order_type o with
            | MARKET => Some (MatchingEngine._match_market_order_sync o e)
            | LIMIT => Some (MatchingEngine._match_limit_order_sync o e)
            | IOC => Some (MatchingEngine._match_ioc_order_sync o e)
            | FOK => Some (MatchingEngine._match_fok_order_sync o e)
            | _ => None
            end) as [[[[ts|x|] o1] e1]|] eqn:M.
  - intros [= <- _ _]. auto.
  - discriminate.
  - discriminate.
  - destruct (Order.order_type o); discriminate.
Qed.

(** Claim C3 (validation and rejection), as the code has it.
    [submit_order] returns [(False, reason, [])] when the quantity is not
    positive, when a LIMIT order has no price, when a price is not
    positive, and also when the order type is not one of MARKET, LIMIT,
    IOC, FOK; in no other case does it return [False].  On rejection
    neither the engine nor the order changes: the status is left as it
    was, not set to REJECTED. *)
Theorem validation_rejection (o : Order) (e : MatchingEngine) :
  (invalid o = true ->
   MatchingEngine.submit_order o e
   = (Ok (false, snd (MatchingEngine._validate_order o), []), o, e))
  /\ (invalid o = false -> supported (Order.order_type o) = false ->
      MatchingEngine.submit_order o e
      = (Ok (false,
             ("Unsupported order type: " ++ OrderType_str (Order.order_type o))%string,
             []), o, e))
  /\ (invalid o = false -> supported (Order.order_type o) = true ->
      forall r o' e',
        MatchingEngine.submit_order o e = (Ok r, o', e') -> fst (fst r) = true).
Proof.
  split; [apply submit_invalid|]. split; [apply submit_unsupported|].
  intros H Hs r o' e' E. now destruct (submit_supported o e r o' e' H Hs E).
Qed.

(** An order for the quantity zero is turned down and left as it was. *)
Lemma validation_rejection_zero :
  MatchingEngine.submit_order zero_order engine0
  = (Ok (false, snd (MatchingEngine._validate_order zero_order), []), zero_order, engine0).
Proof.
  apply (proj1 (validation_rejection zero_order engine0)). vm_compute. reflexivity.
Defined.

(** Claim C3 as stated fails: a rejected order keeps its status (here
    PENDING, not REJECTED), and an order that meets none of the three
    conditions is rejected when its type is not dispatched. *)
Lemma rejection_leaves_status :
  MatchingEngine.submit_order zero_order engine0
  = (Ok (false, "Invalid quantity"%string, []), zero_order, engine0)
  /\ Order.status zero_order = PENDING
  /\ invalid stop_order = false
  /\ MatchingEngine.submit_order stop_order engine0
     = (Ok (false, "Unsupported order type: OrderType.STOP_LOSS"%string, []),
        stop_order, engine0).
Proof. repeat split. Qed.

Lemma mul_exact (a b : Decimal) :
  Dec.Fits (exact_mul a b) -> Dec.mul a b = exact_mul a b.
Proof. intros H. unfold Dec.mul. now apply fix_ctx_id. Qed.

Lemma reports_fees (e : MatchingEngine) (o : Order) (ts : list Trade) (fs : list fill) :
  Forall2 (reports e o) ts fs -> Forall (fees_ok e) ts.
Proof.
  induction 1 as [|t f ts fs Hr _ IH]; constructor; [|assumption].
  destruct f as [[p q] m]. destruct Hr as (_ & _ & _ & _ & _ & _ & Hm & Ht).
  unfold fees_ok. cbv zeta. refine (conj Hm (conj Ht _)).
  intros Hg. rewrite Hm, Ht, (mul_exact _ _ Hg).
  split; apply mul_exact.
Qed.

(** Claim C9 (fee computation), as the code has it.  Every trade of a
    submission carries [maker_fee = quantity * price * maker_rate] and
    [taker_fee = quantity * price * taker_rate], each product computed in
    the decimal context, that is, rounded to 28 significant digits; the
    fees are the products with every digit kept whenever these have at
    most 28 digits. *)
Theorem fee_computation (s : Z) (o : Order) (e : MatchingEngine) :
  book_ok s (MatchingEngine.order_book e) = true ->
  admissible s o e = true ->
  exists ts o' e', accepted o e ts o' e' /\ Forall (fees_ok e) ts.
Proof.
  intros Hb Ha.
  destruct (submit_admissible s o e Hb Ha) as (ts & o' & e' & E & [H|H]).
  - destruct H as (limit & o1 & e1 & (W1 & _) & _).
    exists ts, o', e'. split; [exact E|]. exact (reports_fees _ _ _ _ W1).
  - destruct H as (-> & _). exists [], o', e'. split; [exact E|constructor].
Qed.

(** Scenario S6: with the rates 0.001 and 0.002 a trade of 1.0 at 50000
    pays the fees 50 and 100. *)
Lemma fee_computation_S6 :
  (exists ts o' e',
     accepted (new_order "t1"%string BUY MARKET None (Dec.mkDecimal 10 (-1)))
       engine_S6 ts o' e'
     /\ Forall (fees_ok engine_S6) ts)
  /\ fees_are (Dec.mkDecimal 50 0) (Dec.mkDecimal 100 0)
       (returned_trades (new_order "t1"%string BUY MARKET None (Dec.mkDecimal 10 (-1)))
          engine_S6)
     = [(true, true)].
Proof.
  split; [apply (fee_computation 1); vm_compute; reflexivity|].
  vm_compute. reflexivity.
Defined.

(** Claim C9 as stated fails: the fee of a trade of 1.234567890123456789
    at 50000.12345678 is not the product with every digit kept. *)
Lemma fee_is_rounded :
  map (maker_fee_exact engine_fine)
    (returned_trades
       (new_order "t1"%string BUY MARKET None (Dec.mkDecimal 1234567890123456789 (-18)))
       engine_fine)
  = [false].
Proof. vm_compute. reflexivity. Qed.




(** Without room in the persistence queue a MARKET order that meets a
    maker is not answered at all: the [put_nowait] of the matching loop
    is not guarded, and [submit_order] raises [QueueFull] after the first
    fill. *)
Lemma full_queue_raises :
  fst (fst (MatchingEngine.submit_order
              (new_order "t1"%string BUY MARKET None (Dec.mkDecimal 12 (-1))) engine_full))
  = Raise QueueFull.
Proof. vm_compute. reflexivity. Qed.


(* ================================================================= *)
(** * Cancelling an order *)

Lemma remove_first_none (id : string) (ids : list string) :
  remove_first id ids = None -> ~ In id ids.
Proof.
  induction ids as [|x r IH]; cbn [remove_first]; [auto|].
  destruct (String.eqb_spec x id); [discriminate|].
  destruct (remove_first id r); [discriminate|].
  intros _ [H|H]; [contradiction|now apply IH].
Qed.

Lemma remove_first_spec (id : string) (ids ids' : list string) :
  remove_first id ids = Some ids' -> nodup_ids ids = true ->
  In id ids /\ nodup_ids ids' = true
  /\ (forall x, In x ids' <-> In x ids /\ x <> id).
Proof.
  revert ids'. induction ids as [|x r IH]; cbn [remove_first]; [discriminate|].
  intros ids' H Hn. apply nodup_ids_cons in Hn as [Hx Hn].
  destruct (String.eqb_spec x id) as [->|Hne].
  - injection H as <-. split; [now left|]. split; [assumption|].
    intros y. split.
    + intros Hy. split; [now right|]. intros ->. contradiction.
    + intros [[->|Hy] Hney]; [contradiction|assumption].
  - destruct (remove_first id r) as [r'|] eqn:E; [|discriminate].
    injection H as <-. destruct (IH r' eq_refl Hn) as (I1 & I2 & I3).
    split; [now right|]. split.
    + apply nodup_ids_cons. split; [|assumption]. intros Hi. apply I3 in Hi. tauto.
    + intros y. cbn [In]. rewrite I3. split.
      * intros [->|[Hy Hney]]; [split; [now left|assumption]|tauto].
      * intros [[->|Hy] Hney]; [now left|tauto].
Qed.

Lemma remove_first_units (s : Z) (st : Store) (id : string) (o : Order)
  (ids ids' : list string) :
  remove_first id ids = Some ids' ->
  Dict.get String.eqb id st = Some o ->
  ids_units s st ids = rem_units s o + ids_units s st ids'.
Proof.
  revert ids'. induction ids as [|x r IH]; cbn [remove_first]; [discriminate|].
  intros ids' H G. unfold ids_units in *. cbn [fold_right].
  destruct (String.eqb_spec x id) as [->|Hne].
  - injection H as <-. now rewrite G.
  - destruct (remove_first id r) as [r'|] eqn:E; [|discriminate].
    injection H as <-. cbn [fold_right]. rewrite (IH r' eq_refl G).
    destruct (Dict.get String.eqb x st); lia.
Qed.

Lemma with_side_same (sd : OrderSide) (b : OrderBook) :
  OrderBook.with_side sd (OrderBook.side_of sd b) b = b.
Proof. now destruct sd, b. Qed.

(** An identifier held by a level is found through the price and the side
    of its order. *)
Lemma level_of_order (s : Z) (b : OrderBook) (sd' : OrderSide) (k : Decimal)
  (l : PriceLevel) (id : string) (o : Order) (p : Decimal) :
  book_ok s b = true ->
  In (k, l) (OrderBookSide.price_levels (OrderBook.side_of sd' b)) ->
  In id (PriceLevel.orders l) ->
  Dict.get String.eqb id (OrderBook.orders b) = Some o ->
  Order.price o = Some p ->
  sd' = Order.side o
  /\ Dict.get Dec.eqb p (OrderBookSide.price_levels (OrderBook.side_of (Order.side o) b))
     = Some l.
Proof.
  intros Hb Hin Hid G Hp. pose proof (book_ok_side s b sd' Hb) as HS.
  apply side_ok_spec in HS as (_ & Hn & Hl & _).
  pose proof (Hl _ Hin) as Hlv. apply level_ok_spec in Hlv as (_ & _ & Hok & _).
  specialize (Hok id Hid). apply id_ok_spec in Hok as (m & Gm & Rm).
  rewrite G in Gm. injection Gm as <-.
  apply resting_ok_spec in Rm as (_ & Hsd & (p' & Hp' & Ep) & _).
  rewrite Hp in Hp'. injection Hp' as <-. subst sd'. split; [reflexivity|].
  rewrite (dget_equiv p k _ Ep). now apply dget_in.
Qed.

(** Dropping from the index an identifier that no level holds. *)
Lemma book_ok_del_orphan (s : Z) (b : OrderBook) (id : string) :
  book_ok s b = true ->
  (forall sd' k l, In (k, l) (OrderBookSide.price_levels (OrderBook.side_of sd' b)) ->
     ~ In id (PriceLevel.orders l)) ->
  book_ok s (OrderBook.with_orders (Dict.del String.eqb id (OrderBook.orders b)) b) = true.
Proof.
  intros Hb Hfree. pose proof (book_ok_scale s b Hb) as Hs.
  assert (forall sd', side_ok s (Dict.del String.eqb id (OrderBook.orders b)) sd'
                        (OrderBook.side_of sd' b) = true) as H.
  { intros sd'. pose proof (book_ok_side s b sd' Hb) as HS.
    apply side_ok_spec in HS as (H1 & H2 & H3 & H4).
    apply side_ok_spec. refine (conj H1 (conj H2 (conj _ H4))).
    intros [k l] Hin. rewrite (level_ok_ext s (OrderBook.orders b)); [now apply H3|].
    cbn [snd]. intros id' Hi. apply store_del_other. intros ->.
    exact (Hfree sd' k l Hin Hi). }
  apply (book_ok_intro s _ BUY Hs); cbn [OrderBook.orders OrderBook.with_orders];
    rewrite side_of_with_orders; apply H.
Qed.

(** [OrderBook.cancel_order] leaves the book well-formed, whatever its
    outcome. *)
Lemma cancel_book_ok (s : Z) (id : string) (b : OrderBook) :
  book_ok s b = true -> book_ok s (snd (OrderBook.cancel_order id b)) = true.
Proof.
  intros Hb. pose proof (book_ok_scale s b Hb) as Hs.
  unfold OrderBook.cancel_order.
  destruct (Dict.get String.eqb id (OrderBook.orders b)) as [o|] eqn:G; [|exact Hb].
  set (sd := Order.side o).
  pose proof (book_ok_side s b sd Hb) as HS.
  pose proof HS as HS'. apply side_ok_spec in HS' as (_ & Hn & Hl & _).
  unfold OrderBookSide.remove_order.
  destruct (Order.price o) as [p|] eqn:Hp; [|cbn; now rewrite with_side_same].
  assert (forall l, Dict.get Dec.eqb p (OrderBookSide.price_levels (OrderBook.side_of sd b))
                    = Some l -> ~ In id (PriceLevel.orders l) ->
            forall sd' k l', In (k, l') (OrderBookSide.price_levels (OrderBook.side_of sd' b)) ->
                             ~ In id (PriceLevel.orders l')) as Hfree_some.
  { intros l Gl Hni sd' k l' Hin Hi.
    destruct (level_of_order s b sd' k l' id o p Hb Hin Hi G Hp) as [-> Gl'].
    fold sd in Gl'. congruence. }
  destruct (Dict.get Dec.eqb p (OrderBookSide.price_levels (OrderBook.side_of sd b)))
    as [lvl|] eqn:Gl.
  - destruct (dget_some_in _ _ _ Gl) as (kd & Hin & Ek). rewrite eqb_sym in Ek.
    pose proof (Hl _ Hin) as Hlv.
    apply level_ok_spec in Hlv as (_ & Hnd & Hok & Hgt & Hut & Hfk).
    unfold PriceLevel.remove_order.
    destruct (remove_first id (PriceLevel.orders lvl)) as [ids'|] eqn:Rf.
    + destruct (remove_first_spec _ _ _ Rf Hnd) as (Hid & Hnd' & Hids').
      pose proof (Hok id Hid) as Hidok.
      pose proof Hidok as Hidok'. apply id_ok_spec in Hidok' as (m & Gm & Rm).
      rewrite G in Gm. injection Gm as <-.
      destruct (resting_remaining s sd kd id o Rm) as (U1 & U2 & U3 & U4).
      pose proof (remove_first_units s _ id o _ _ Rf G) as Hsum.
      assert (forall id', In id' ids' -> id_ok s (OrderBook.orders b) sd kd id' = true)
        as Hok'.
      { intros id' Hi. apply Hok. now apply Hids'. }
      pose proof (ids_units_bounds s _ sd kd ids' Hok') as [B1 _].
      destruct (pl_remove_order s (OrderBook.orders b) id o lvl ids' Hs Rf G U2)
        as (l1 & R1 & R2 & R3 & R4 & R5); [lia|assumption|].
      unfold PriceLevel.remove_order in R1. rewrite Rf, G in R1.
      rewrite G. injection R1 as R1. rewrite R1.
      destruct (pl_empty_spec s (OrderBook.orders b) sd kd l1 Hs)
        as (e & l2 & E1 & E2 & E3 & E4 & E5).
      { now rewrite R2. }
      { exact R4. }
      { rewrite R2, R5. lia. }
      rewrite E1. rewrite R2 in E2, E4, E5.
      set (st' := Dict.del String.eqb id (OrderBook.orders b)).
      assert (forall id', id' <> id ->
                Dict.get String.eqb id' st'
                = Dict.get String.eqb id' (OrderBook.orders b)) as Hst'
        by apply store_del_other.
      assert (side_ok s st' (opposite sd) (OrderBook.side_of (opposite sd) b) = true)
        as HSo'.
      { eapply side_ok_other; eauto; [apply opposite_neq|now apply book_ok_side]. }
      destruct e.
      * rewrite (ddel_equiv p kd _ Ek), (set_discard_equiv p kd _ Ek).
        destruct (side_ok_drop s (OrderBook.orders b) (OrderBook.orders b) st' sd
                    (OrderBook.side_of sd b) kd lvl id Hs (fun _ _ => eq_refl) Hst' HS
                    Hin Hidok) as [D1 D2].
        cbn [snd]. rewrite orders_with_side. fold st'.
        apply (book_ok_intro s _ sd Hs); cbn [OrderBook.orders OrderBook.with_orders];
          rewrite ?side_of_with_orders, ?side_of_with_side, ?side_of_with_side_opp;
          assumption.
      * destruct (E5 eq_refl) as [F1 F2].
        assert (ids' <> []) as Hne.
        { intros ->. destruct E4 as [_ E4]. now specialize (E4 eq_refl). }
        assert (level_ok s st' sd (kd, l2) = true) as Hl2.
        { apply level_ok_spec. rewrite E2.
          refine (conj Hne (conj Hnd' (conj _ (conj F1 (conj _ Hfk))))).
          - intros id' Hi. rewrite (id_ok_ext s (OrderBook.orders b) st').
            + now apply Hok'.
            + apply Hst'. now apply Hids'.
          - rewrite F2. symmetry. apply ids_units_ext. intros id' Hi.
            apply Hst'. now apply Hids'. }
        pose proof (side_ok_replace s (OrderBook.orders b) st' sd (OrderBook.side_of sd b)
                      kd p lvl l2 id Hst' HS Hin Ek Hidok Hl2) as HS2.
        cbn [snd]. rewrite orders_with_side. fold st'.
        apply (book_ok_intro s _ sd Hs); cbn [OrderBook.orders OrderBook.with_orders];
          rewrite ?side_of_with_orders, ?side_of_with_side, ?side_of_with_side_opp;
          assumption.
    + cbn [snd]. fold sd. rewrite with_side_same.
      apply book_ok_del_orphan; [assumption|].
      apply (Hfree_some lvl eq_refl). now apply remove_first_none.
  - cbn [snd]. fold sd. rewrite with_side_same.
    apply book_ok_del_orphan; [assumption|].
    intros sd' k l' Hin Hi.
    destruct (level_of_order s b sd' k l' id o p Hb Hin Hi G Hp) as [-> Gl'].
    fold sd in Gl'. congruence.
Qed.

Lemma book_ok_aggregates (s : Z) (b : OrderBook) :
  book_ok s b = true -> aggregates_ok b.
Proof.
  intros Hb sd k l Hin. pose proof (book_ok_scale s b Hb) as Hs.
  pose proof (book_ok_side s b sd Hb) as HS.
  apply side_ok_spec in HS as (_ & _ & Hl & _).
  specialize (Hl _ Hin). apply level_ok_spec in Hl as (_ & _ & Hok & [G1 G2] & Hu & _).
  pose proof (ids_units_bounds s _ sd k _ Hok) as [B1 _].
  destruct (objects_sum s _ sd k l Hs Hok) as [E1 E2]; [lia|].
  split.
  - rewrite (eqb_units s) by assumption. apply Z.eqb_eq. lia.
  - rewrite (leb_units s) by (assumption || (simpl; lia)).
    rewrite units_zero. apply Z.leb_le. lia.
Qed.

Lemma engine_cancel_book (id : string) (e : MatchingEngine) :
  MatchingEngine.order_book (snd (MatchingEngine.cancel_order id e))
  = snd (OrderBook.cancel_order id (MatchingEngine.order_book e)).
Proof.
  unfold MatchingEngine.cancel_order.
  destruct (OrderBook.cancel_order id (MatchingEngine.order_book e)) as [r b].
  destruct r as [[o|]|x|]; cbn [snd]; try reflexivity.
  destruct (put_nowait _ _ _); reflexivity.
Qed.

Lemma init_book_ok (s : Z) (symbol : string) :
  0 <= s -> book_ok s (MatchingEngine.order_book (MatchingEngine.init symbol)) = true.
Proof. intros Hs. unfold book_ok. cbn. now apply Z.leb_le in Hs as ->. Qed.

Lemma submitted_book_ok (s : Z) (o : Order) (e : MatchingEngine) (ts : list Trade)
  (o' : Order) (e' : MatchingEngine) :
  book_ok s (MatchingEngine.order_book e) = true ->
  submitted s o e ts o' e' ->
  after o e = e' /\ book_ok s (MatchingEngine.order_book e') = true.
Proof.
  intros Hb (E & H). split; [unfold after; now rewrite E|].
  destruct H as [(limit & o1 & e1 & W & _ & [Hbook|(p & Hr)])|(_ & Hbook & _)].
  - rewrite Hbook. now destruct W as (_ & _ & _ & _ & W5 & _).
  - now destruct Hr.
  - now rewrite Hbook.
Qed.

Lemma reachable_book_ok (s : Z) (e : MatchingEngine) :
  0 <= s -> reachable s e -> book_ok s (MatchingEngine.order_book e) = true.
Proof.
  intros Hs. induction 1 as [symbol|e o _ IH Ha|e id _ IH].
  - now apply init_book_ok.
  - destruct (submit_admissible s o e IH Ha) as (ts & o' & e' & Hsub).
    destruct (submitted_book_ok s o e ts o' e' IH Hsub) as [-> H]. exact H.
  - rewrite engine_cancel_book. now apply cancel_book_ok.
Qed.




(* ================================================================= *)
(** * Persistence *)

Lemma read2_digits_upto :
  forallb (fun n => match read2 (digit (n / 10)) (digit (n mod 10)) with
                    | Some k => k =? n
                    | None => false
                    end) (map Z.of_nat (seq 0 100)) = true.
Proof. vm_compute. reflexivity. Qed.

Lemma read2_digits (n : Z) :
  0 <= n < 100 -> read2 (digit (n / 10)) (digit (n mod 10)) = Some n.
Proof.
  intros Hn. pose proof read2_digits_upto as H. rewrite forallb_forall in H.
  specialize (H n). destruct (read2 (digit (n / 10)) (digit (n mod 10))) as [k|].
  - f_equal. apply Z.eqb_eq. apply H. apply in_map_iff. exists (Z.to_nat n).
    split; [lia|]. apply in_seq. lia.
  - assert (false = true); [|discriminate]. apply H. apply in_map_iff.
    exists (Z.to_nat n). split; [lia|]. apply in_seq. lia.
Qed.

Lemma valid_datetime_spec (t : datetime) :
  valid_datetime t = true ->
  1 <= year t <= 9999 /\ 1 <= month t <= 12 /\ 1 <= day t <= 31
  /\ 0 <= hour t <= 23 /\ 0 <= minute t <= 59 /\ 0 <= second t <= 59
  /\ 0 <= microsecond t <= 999999.
Proof.
  unfold valid_datetime. rewrite !andb_true_iff, !Z.leb_le. tauto.
Qed.

Lemma fromisoformat_isoformat (t : datetime) :
  valid_datetime t = true -> fromisoformat (isoformat t) = Some t.
Proof.
  intros H. apply valid_datetime_spec in H as (Hy & Hmo & Hd & Hh & Hmi & Hs & Hu).
  destruct t as [y mo d h mi s us]. cbn [year month day hour minute second microsecond] in *.
  unfold isoformat, pad4, pad6, pad2.
  cbn [year month day hour minute second microsecond append].
  destruct (Z.eqb_spec us 0) as [->|Hne]; cbn [append fromisoformat];
    rewrite (read2_digits (y / 100)), (read2_digits (y mod 100)), (read2_digits mo),
      (read2_digits d), (read2_digits h), (read2_digits mi), (read2_digits s)
      by (Z.div_mod_to_equations; lia).
  - f_equal. f_equal. Z.div_mod_to_equations. lia.
  - rewrite (read2_digits (us / 10000)), (read2_digits ((us / 100) mod 100)),
      (read2_digits (us mod 100)) by (Z.div_mod_to_equations; lia).
    f_equal. f_equal; Z.div_mod_to_equations; lia.
Qed.

Lemma OrderSide_of_value (sd : OrderSide) : OrderSide_of (OrderSide_value sd) = Some sd.
Proof. now destruct sd. Qed.

Lemma OrderType_of_value (ty : OrderType) : OrderType_of (OrderType_value ty) = Some ty.
Proof. now destruct ty. Qed.

Lemma OrderStatus_of_value (st : OrderStatus) :
  OrderStatus_of (OrderStatus_value st) = Some st.
Proof. now destruct st. Qed.

(** [OrderBook.add_order] indexes a priced order whose identifier is new. *)
Lemma add_order_indexed (o : Order) (p : Decimal) (skip : bool) (b : OrderBook) :
  Order.price o = Some p ->
  Dict.mem String.eqb (Order.order_id o) (OrderBook.orders b) = false ->
  exists b2,
    OrderBook.add_order o skip b = (Ok true, b2)
    /\ Dict.get String.eqb (Order.order_id o) (OrderBook.orders b2) = Some o.
Proof.
  intros Hp Hm. unfold OrderBook.add_order. rewrite Hm.
  unfold OrderBookSide.add_order. rewrite Hp.
  destruct (Dict.get Dec.eqb p _).
  - eexists. split; [reflexivity|]. rewrite orders_with_side.
    cbn [OrderBook.orders OrderBook.with_orders]. apply sget_set_same.
  - destruct (set_mem p _); (eexists; split; [reflexivity|]); rewrite orders_with_side;
      cbn [OrderBook.orders OrderBook.with_orders]; apply sget_set_same.
Qed.

Lemma restorable_spec (o : Order) :
  restorable o = true ->
  Order.order_type o = LIMIT
  /\ (Order.status o = PENDING \/ Order.status o = PARTIALLY_FILLED)
  /\ valid_datetime (Order.timestamp o) = true
  /\ exists p p' q f,
       Order.price o = Some p
       /\ Float.truthy (Float.of_decimal p) = true
       /\ through_real p = Some p'
       /\ through_real (Order.quantity o) = Some q
       /\ through_real (Order.filled_quantity o) = Some f
       /\ Dec.leb (Dec.sub q f) Dec.zero = false.
Proof.
  unfold restorable. rewrite !andb_true_iff. intros ((((Hty & Hst) & Hts) & Hp) & Hq).
  split; [now destruct (Order.order_type o)|].
  split; [destruct (Order.status o); try discriminate; auto|].
  split; [assumption|].
  destruct (Order.price o) as [p|]; [|discriminate].
  apply andb_prop in Hp as [Hp1 Hp2].
  destruct (through_real p) as [p'|] eqn:Ep; [|discriminate].
  destruct (through_real (Order.quantity o)) as [q|]; [|discriminate].
  destruct (through_real (Order.filled_quantity o)) as [f|]; [|discriminate].
  exists p, p', q, f. apply negb_true_iff in Hq. auto 10.
Qed.

(** A save followed by a replay brings a restorable order back. *)
Lemma reloaded_spec (o : Order) (b : OrderBook) :
  restorable o = true ->
  Dict.mem String.eqb (Order.order_id o) (OrderBook.orders b) = false ->
  exists o', reloaded o b = Some o' /\ same_order o o'.
Proof.
  intros Hr Hm.
  apply restorable_spec in Hr
    as (Hty & Hst & Hts & p & p' & q & f & Hp & Htr & Ep & Eq & Ef & Hrem).
  set (o' := Order.mk (Order.order_id o) (Order.symbol o) (Order.side o)
               (Order.order_type o) (Some p') None q f (Order.status o)
               (Order.timestamp o) (Order.user_id o)).
  assert (Persistence.rebuild (Persistence._serialize_order o) = Some o') as Hrb.
  { unfold Persistence.rebuild, Persistence._serialize_order.
    cbn [Persistence.r_side Persistence.r_order_type Persistence.r_status
         Persistence.r_timestamp Persistence.r_quantity Persistence.r_filled_quantity
         Persistence.r_price Persistence.r_order_id Persistence.r_symbol
         Persistence.r_user_id].
    rewrite OrderSide_of_value, OrderType_of_value, OrderStatus_of_value,
      (fromisoformat_isoformat _ Hts), Hp, Htr.
    unfold through_real in Ep, Eq, Ef. now rewrite Eq, Ef, Ep. }
  assert (Persistence.selected (Order.symbol o) None (Persistence._serialize_order o)
          = true) as Hsel.
  { unfold Persistence.selected, Persistence._serialize_order.
    cbn [Persistence.r_symbol Persistence.r_status Persistence.r_order_type
         Persistence.r_price].
    rewrite String.eqb_refl, Hty, Hp. now destruct Hst as [-> | ->]. }
  destruct (add_order_indexed o' p' false b eq_refl Hm) as (b2 & Ea & Hg).
  exists o'. split.
  - unfold reloaded, Persistence._replay_orders, Persistence.query,
      Persistence.save_orders_batch.
    cbn [fold_left Dict.set map snd filter]. rewrite Hsel.
    cbn [fold_right Persistence.insert_row fold_left fst snd].
    unfold Persistence.replay_row.
    change (Persistence.r_order_id (Persistence._serialize_order o))
      with (Order.order_id o).
    rewrite Hm, Hrb. cbn [Order.price o'].
    change (Order.remaining_quantity o') with (Dec.sub q f). rewrite Hrem, Ea.
    exact Hg.
  - unfold same_order. rewrite Hp. cbn. auto 12.
Qed.





(* ================================================================= *)
(** * Further properties of the order book *)

(** The queue of a side reads the price levels and the index only. *)
Lemma side_queue_with_side (sd sd' : OrderSide) (S1 : OrderBookSide) (b : OrderBook) :
  OrderBookSide.price_levels S1 = OrderBookSide.price_levels (OrderBook.side_of sd b) ->
  side_queue sd' (OrderBook.with_side sd S1 b) = side_queue sd' b.
Proof.
  intros HL. unfold side_queue, best_first. rewrite orders_with_side.
  destruct sd, sd'; cbn in *; now rewrite ?HL.
Qed.

(** X1 ([get_best_bid], [get_best_ask]): on a well-formed book the best
    price of a side is [None] exactly when the side has no level;
    otherwise it is a price of the side that no other price of the side
    beats (the highest bid, the lowest ask), together with the aggregate
    of that level, which is positive and is the sum of the remainders of
    the orders queued there.  The call leaves the book well formed and both
    queues as they were. *)
Theorem best_price_level (s : Z) (sd : OrderSide) (b : OrderBook) :
  book_ok s b = true ->
  exists r b',
    OrderBook._best_from_side sd b = (r, b')
    /\ OrderBook.get_best_bid b = OrderBook._best_from_side BUY b
    /\ OrderBook.get_best_ask b = OrderBook._best_from_side SELL b
    /\ book_ok s b' = true
    /\ side_queue BUY b' = side_queue BUY b
    /\ side_queue SELL b' = side_queue SELL b
    /\ match r with
       | None => OrderBookSide.price_levels (OrderBook.side_of sd b) = []
       | Some (bp, tq) =>
           exists kd l,
             In (kd, l) (OrderBookSide.price_levels (OrderBook.side_of sd b))
             /\ Dec.eqb kd bp = true
             /\ (forall k, In k (Dict.keys (OrderBookSide.price_levels
                                             (OrderBook.side_of sd b))) ->
                   sort_le (side_eqb sd BUY) kd k = true)
             /\ tq = PriceLevel.total_quantity l
             /\ Dec.units s tq = ids_units s (OrderBook.orders b) (PriceLevel.orders l)
             /\ 0 < Dec.units s tq
       end.
Proof.
  intros Hb. pose proof (book_ok_scale s _ Hb) as Hs.
  destruct (best_from_side_spec s sd b Hb) as (r & S1 & E & HL & HS1 & Hr).
  exists r, (OrderBook.with_side sd S1 b).
  split; [exact E|]. split; [reflexivity|]. split; [reflexivity|].
  split.
  { apply (book_ok_intro s _ sd Hs).
    - now rewrite side_of_with_side, orders_with_side.
    - rewrite side_of_with_side_opp, orders_with_side. now apply book_ok_side. }
  split; [now apply side_queue_with_side|].
  split; [now apply side_queue_with_side|].
  destruct r as [[bp tq]|]; [|exact Hr].
  destruct Hr as (kd & l & Hin & Ek & Hbest & Etq).
  exists kd, l. refine (conj Hin (conj Ek (conj Hbest (conj Etq _)))).
  pose proof (book_ok_side s b sd Hb) as HS.
  apply side_ok_spec in HS as (_ & _ & Hlv & _).
  specialize (Hlv _ Hin). apply level_ok_spec in Hlv as (Hne & _ & Hids & _ & Hu & _).
  subst tq. split; [exact Hu|]. rewrite Hu.
  pose proof (ids_units_bounds s _ sd kd _ Hids) as [Hlen _].
  destruct (PriceLevel.orders l); [congruence|]. cbn [List.length] in Hlen. lia.
Qed.

(** The book of scenario S1 has a best ask. *)
Lemma best_price_level_S1 :
  book_ok 1 (MatchingEngine.order_book engine_S1) = true
  /\ exists r b',
       OrderBook._best_from_side SELL (MatchingEngine.order_book engine_S1) = (r, b')
       /\ book_ok 1 b' = true.
Proof.
  assert (book_ok 1 (MatchingEngine.order_book engine_S1) = true) as H
    by (vm_compute; reflexivity).
  split; [exact H|].
  destruct (best_price_level 1 SELL _ H) as (r & b' & E & _ & _ & Hb' & _).
  exists r, b'. split; assumption.
Defined.

(* ================================================================= *)
(** * Edge behaviour of the engine *)

(** An order with nothing filled that passes validation is not FILLED and
    not PARTIALLY_FILLED before it is matched. *)
Lemma unfilled_status (o : Order) :
  fst (MatchingEngine._validate_order o) = true ->
  Dec.eqb (Order.filled_quantity o) Dec.zero = true ->
  Dec.eqb (Order.filled_quantity o) (Order.quantity o) = false
  /\ Dec.ltb Dec.zero (Order.filled_quantity o) = false
  /\ Dec.ltb Dec.zero (Order.quantity o) = true.
Proof.
  intros Hv Hz.
  assert (Dec.leb (Order.quantity o) Dec.zero = false) as Hq.
  { unfold MatchingEngine._validate_order in Hv.
    destruct (Dec.leb (Order.quantity o) Dec.zero); [discriminate|reflexivity]. }
  split; [|split].
  - rewrite (eqb_eqb_l _ _ (Order.quantity o) Hz).
    destruct (Dec.eqb Dec.zero (Order.quantity o)) eqn:E; [|reflexivity].
    rewrite eqb_sym in E. apply eqb_leb in E. congruence.
  - rewrite ltb_negb_leb. now rewrite (eqb_leb _ _ Hz).
  - rewrite ltb_negb_leb. now rewrite Hq.
Qed.

(** X2 ([submit_order], MARKET with no liquidity): a MARKET order that
    passes validation, submitted while the opposite side has no price
    level, is reported as processed with no trade; its status stays
    PENDING although it is not added to the book, the book and the trade
    history are left as they were, and the order is queued for
    persistence when that queue has room. *)
Theorem market_order_no_liquidity (o : Order) (e : MatchingEngine) :
  Order.order_type o = MARKET ->
  fst (MatchingEngine._validate_order o) = true ->
  Dec.eqb (Order.filled_quantity o) Dec.zero = true ->
  OrderBookSide.price_levels
    (OrderBook.side_of (opposite (Order.side o)) (MatchingEngine.order_book e)) = [] ->
  exists e',
    MatchingEngine.submit_order o e
    = (Ok (true, "Order processed successfully"%string, []),
       Order.set_status PENDING o, e')
    /\ MatchingEngine.order_book e' = MatchingEngine.order_book e
    /\ MatchingEngine.trades e' = MatchingEngine.trades e
    /\ MatchingEngine._order_queue e'
       = if MatchingEngine.maxsize
            <=? Z.of_nat (List.length (MatchingEngine._order_queue e))
         then MatchingEngine._order_queue e
         else MatchingEngine._order_queue e ++ [Order.set_status PENDING o].
Proof.
  intros Hty Hv Hz Hl.
  destruct (unfilled_status o Hv Hz) as (E1 & E2 & E3).
  unfold MatchingEngine.submit_order.
  destruct (MatchingEngine._validate_order o) as [ok msg]. cbn in Hv. subst ok.
  cbn [negb]. rewrite Hty.
  unfold MatchingEngine._match_market_order_sync, MatchingEngine.loop_bound.
  cbn [MatchingEngine._sweep_loop MatchingEngine.engine MatchingEngine.remaining].
  rewrite Hl, E3. cbn [List.length Nat.eqb negb andb MatchingEngine.finish
                        MatchingEngine.order MatchingEngine.matched
                        MatchingEngine.engine].
  rewrite E1, E2.
  eexists. split; [reflexivity|].
  unfold MatchingEngine.post_process, put_nowait.
  destruct (MatchingEngine.maxsize
            <=? Z.of_nat (List.length (MatchingEngine._order_queue e)));
    cbn; auto.
Qed.

(** A MARKET BUY on the new engine. *)
Lemma market_order_no_liquidity_new :
  exists e',
    MatchingEngine.submit_order
      (new_order "t1"%string BUY MARKET None (Dec.mkDecimal 1 0)) engine0
    = (Ok (true, "Order processed successfully"%string, []),
       Order.set_status PENDING
         (new_order "t1"%string BUY MARKET None (Dec.mkDecimal 1 0)), e')
    /\ MatchingEngine.order_book e' = MatchingEngine.order_book engine0.
Proof.
  destruct (market_order_no_liquidity
              (new_order "t1"%string BUY MARKET None (Dec.mkDecimal 1 0)) engine0)
    as (e' & E & Hb & _); try (vm_compute; reflexivity).
  exists e'. split; assumption.
Defined.

(** X3 ([cancel_order] with a full persistence queue): the cancellation
    of an indexed order with a price removes the order from the index
    before the order is queued for persistence; when that queue is full
    the call raises [QueueFull], and the order is gone all the same. *)
Theorem cancel_full_queue (id : string) (o : Order) (p : Decimal) (e : MatchingEngine) :
  Dict.get String.eqb id (OrderBook.orders (MatchingEngine.order_book e)) = Some o ->
  Order.price o = Some p ->
  MatchingEngine.maxsize <= Z.of_nat (List.length (MatchingEngine._order_queue e)) ->
  exists e',
    MatchingEngine.cancel_order id e = (Raise QueueFull, e')
    /\ Dict.get String.eqb id (OrderBook.orders (MatchingEngine.order_book e')) = None
    /\ MatchingEngine._order_queue e' = MatchingEngine._order_queue e.
Proof.
  intros G Hp Hfull.
  unfold MatchingEngine.cancel_order, OrderBook.cancel_order. rewrite G, Hp.
  unfold OrderBookSide.remove_order.
  set (S := OrderBook.side_of (Order.side o) (MatchingEngine.order_book e)).
  assert (forall S' : OrderBookSide,
    exists e',
      (let (r, b) :=
         (Ok (Some (Order.set_status CANCELLED o)),
          OrderBook.with_orders
            (Dict.del String.eqb id
               (OrderBook.orders
                  (OrderBook.with_side (Order.side o) S' (MatchingEngine.order_book e))))
            (OrderBook.with_side (Order.side o) S' (MatchingEngine.order_book e))) in
       match r with
       | Ok (Some o0) =>
           match put_nowait MatchingEngine.maxsize
                   (MatchingEngine._order_queue
                      (MatchingEngine.with_bbo_dirty true (MatchingEngine.with_book b e)))
                   (Order.set_status CANCELLED o0) with
           | Ok q =>
               (Ok (true, Some (Order.set_status CANCELLED o0)),
                MatchingEngine.with_order_queue q
                  (MatchingEngine.with_bbo_dirty true (MatchingEngine.with_book b e)))
           | Raise x =>
               (Raise x, MatchingEngine.with_bbo_dirty true (MatchingEngine.with_book b e))
           | Unfinished =>
               (Unfinished,
                MatchingEngine.with_bbo_dirty true (MatchingEngine.with_book b e))
           end
       | Ok None => (Ok (false, None), MatchingEngine.with_book b e)
       | Raise x => (Raise x, MatchingEngine.with_book b e)
       | Unfinished => (Unfinished, MatchingEngine.with_book b e)
       end) = (Raise QueueFull, e')
      /\ Dict.get String.eqb id (OrderBook.orders (MatchingEngine.order_book e')) = None
      /\ MatchingEngine._order_queue e' = MatchingEngine._order_queue e) as Hall.
  { intros S'. cbv beta iota zeta. unfold put_nowait.
    cbn [MatchingEngine._order_queue MatchingEngine.with_bbo_dirty
         MatchingEngine.with_book].
    destruct (Z.leb_spec MatchingEngine.maxsize
                (Z.of_nat (List.length (MatchingEngine._order_queue e)))); [|lia].
    eexists. split; [reflexivity|]. split; [|reflexivity].
    cbn. apply sget_del_same. }
  destruct (Dict.get Dec.eqb p (OrderBookSide.price_levels S)) as [lvl|].
  - destruct (PriceLevel.remove_order (OrderBook.orders (MatchingEngine.order_book e))
                id lvl) as [removed lvl1].
    destruct removed.
    + destruct (PriceLevel.empty (OrderBook.orders (MatchingEngine.order_book e)) lvl1)
        as [em lvl2].
      destruct em; apply Hall.
    + apply Hall.
  - apply Hall.
Qed.

(** The first ask of scenario S1, cancelled while the queue is full. *)
Lemma cancel_full_queue_S1 :
  exists e',
    MatchingEngine.cancel_order "a1"%string engine_full = (Raise QueueFull, e')
    /\ Dict.get String.eqb "a1"%string
         (OrderBook.orders (MatchingEngine.order_book e')) = None.
Proof.
  destruct (cancel_full_queue "a1"%string
              (new_order "a1"%string SELL LIMIT (Some (Dec.mkDecimal 50000 0))
                 (Dec.mkDecimal 10 (-1)))
              (Dec.mkDecimal 50000 0) engine_full)
    as (e' & E & G & _); try (vm_compute; reflexivity).
  - apply Z.leb_le. vm_compute. reflexivity.
  - exists e'. split; assumption.
Defined.

(* ================================================================= *)
(** * Submissions in detail *)

(** An admissible submission is settled. *)
Lemma submit_settled (s : Z) (o : Order) (e : MatchingEngine) :
  book_ok s (MatchingEngine.order_book e) = true ->
  admissible s o e = true ->
  exists ts o' e', settled s o e ts o' e'.
Proof.
  intros Hb Ha. pose proof (book_ok_scale s _ Hb) as Hs.
  apply admissible_spec in Ha as (Ht & Hv & Hroom & Hty).
  pose proof Ht as Ht'. apply taker_ok_spec in Ht' as ((T1 & T1') & _).
  pose proof (validate_quantity s o Hs T1 Hv) as Hq.
  unfold settled, limit_of, rests.
  destruct (Order.order_type o) eqn:Ety; try contradiction.
  - destruct (market_sync_spec s o e Hb Ht Hq Hroom) as (ts & o1 & e1 & E & W).
    destruct (submit_matched o e ts (Order.set_status (market_status s o1) o1) e1 Hv)
      as (e' & E' & Hbook).
    { now rewrite Ety, E. }
    exists ts, (Order.set_status (market_status s o1) o1), e'.
    split; [exact E'|]. left. exists o1, e1.
    refine (conj W (conj (set_status_status _ _) Hbook)).
  - destruct Hty as [Hrr Hnew].
    destruct (validate_limit_price o Hv Ety) as (p & Hp).
    destruct (limit_sync_add s o e p Hb Ht Hq Hp Hroom Hrr Hnew)
      as (ts & o1 & e1 & e2 & E & W & Hrest).
    destruct (submit_matched o e ts (Order.set_status (limit_status s o1 ts) o1) e2 Hv)
      as (e' & E' & Hbook).
    { now rewrite Ety, E. }
    exists ts, (Order.set_status (limit_status s o1 ts) o1), e'.
    split; [exact E'|]. left. exists o1, e1. rewrite Hp.
    refine (conj W (conj (set_status_status _ _) _)). rewrite Hbook.
    destruct (Z.ltb_spec (Dec.units s (Order.filled_quantity o1))
                (Dec.units s (Order.quantity o))) as [Hlt|Hge].
    + exists p. destruct Hrest as [Hr Ha]. refine (conj eq_refl (conj _ (conj Ha Hr))).
      unfold limit_status.
      pose proof (side_queue_ok s (opposite (Order.side o)) _ Hb) as Hqok.
      destruct (walked_remaining s _ o e ts o1 e1 Hs Ht Hq Hqok W) as (Eq & _).
      rewrite Eq.
      destruct (Z.eqb_spec (Dec.units s (Order.filled_quantity o1))
                  (Dec.units s (Order.quantity o))); [lia|].
      now destruct o1, ts.
    + now subst e2.
  - destruct (ioc_sync_spec s o e Hb Ht Hq (fun _ => Hroom)) as (ts & o1 & e1 & E & W).
    destruct (submit_matched o e ts (Order.set_status (ioc_status s o1 ts) o1) e1 Hv)
      as (e' & E' & Hbook).
    { now rewrite Ety, E. }
    exists ts, (Order.set_status (ioc_status s o1 ts) o1), e'.
    split; [exact E'|]. left. exists o1, e1.
    refine (conj W (conj (set_status_status _ _) Hbook)).
  - pose proof (fok_sync_spec s o e Hb Ht Hq Ety Hty (fun _ => Hroom)) as H.
    destruct (attainable s o (MatchingEngine.order_book e)) eqn:Eat.
    + destruct H as (ts & o1 & e1 & E & W & Hfull).
      destruct (submit_matched o e ts (Order.set_status FILLED o1) e1 Hv)
        as (e' & E' & Hbook).
      { now rewrite Ety, E. }
      exists ts, (Order.set_status FILLED o1), e'.
      split; [exact E'|]. left. exists o1, e1.
      refine (conj W (conj (set_status_status _ _) Hbook)).
    + destruct (submit_matched o e [] (Order.set_status CANCELLED o) e Hv)
        as (e' & E' & Hbook).
      { now rewrite Ety, H. }
      exists [], (Order.set_status CANCELLED o), e'.
      split; [exact E'|]. right. auto.
Qed.

(** The outcome of a submission is the one that [submit_order] computes. *)
Lemma settled_after (s : Z) (o : Order) (e : MatchingEngine) (ts : list Trade)
  (o' : Order) (e' : MatchingEngine) :
  settled s o e ts o' e' ->
  after o e = e' /\ returned_trades o e = ts.
Proof.
  intros (E & _). unfold accepted in E. unfold after, returned_trades.
  now rewrite E.
Qed.


(* ================================================================= *)
(** * The fills of a walk *)

(** One fill, seen from the maker [m] when [r] is left to the taker. *)
Lemma maker_fill (s : Z) (sd : OrderSide) (k : Decimal) (m : Order) (r : Decimal) :
  0 <= s -> resting_ok s sd k (Order.order_id m) m = true ->
  Dec.Ongrid s r -> 0 < Dec.units s r ->
  let f := Dec.min r (Order.remaining_quantity m) in
  let m1 := Order.set_filled_quantity (Dec.add (Order.filled_quantity m) f) m in
  Dec.leb r Dec.zero = false
  /\ Dec.units s f = Z.min (Dec.units s r) (rem_units s m)
  /\ Dec.eqb (Order.remaining_quantity m1) Dec.zero = (rem_units s m <=? Dec.units s r)
  /\ rem_units s m1 = rem_units s m - Dec.units s f
  /\ Dec.Ongrid s (Order.filled_quantity m1)
  /\ Dec.units s (Order.filled_quantity m1)
     = Dec.units s (Order.filled_quantity m) + Dec.units s f
  /\ Dec.Ongrid s (Dec.sub r f)
  /\ Dec.units s (Dec.sub r f) = Dec.units s r - Dec.units s f.
Proof.
  intros Hs Hm Hr Hpos f m1.
  set (o := Order.mk EmptyString EmptyString BUY MARKET None None r Dec.zero PENDING
              stamp None).
  set (fr := MatchingEngine.mkFrame engine0 o r []).
  assert (frame_ok s fr) as Hf.
  { unfold frame_ok. cbn. destruct Hr as [R1 R2].
    repeat split; try assumption; try lia. }
  destruct (fill_arith s sd k _ m fr Hs Hf Hm Hpos)
    as (L & Q1 & Q2 & A1 & G1 & R1 & R2 & E & _ & S1 & _).
  cbn [fr MatchingEngine.remaining] in L, Q1, Q2, A1, G1, R1, R2, E, S1.
  fold f in Q1, Q2, A1, G1, R1, R2, E, S1. fold m1 in A1, G1, R1, R2, E.
  destruct (sweep_step s sd k m r Hs Hm Hr Hpos) as (_ & _ & _ & F3 & _).
  fold f in F3.
  refine (conj L (conj Q1 (conj E (conj _ (conj G1 (conj A1 (conj F3 S1))))))).
  unfold rem_units at 1. rewrite A1. unfold rem_units. subst m1. cbn. lia.
Qed.

(** Every fill of a walk takes a positive quantity, at most the remainder
    of its maker, from a maker of the queue at a price within the limit. *)
Lemma sweep_fills (s : Z) (sd taker : OrderSide) (limit : option Decimal) :
  0 <= s ->
  forall (q : list (Decimal * Order)) (r : Decimal),
  queue_ok s sd q -> Dec.Ongrid s r -> 0 <= Dec.units s r ->
  Forall (fun f => In (fill_maker f) q
                   /\ 0 < Dec.units s (snd (fst f)) <= rem_units s (snd f)
                   /\ admits taker limit (fst (fst f)))
    (sweep taker limit r q).
Proof.
  intros Hs. induction q as [|[p m] q IH]; intros r Hq Hr Hpos; [constructor|].
  cbn [sweep].
  destruct (Dec.leb r Dec.zero) eqn:L; [constructor|].
  destruct (match limit with Some l => _ | None => false end) eqn:Elim; [constructor|].
  pose proof (Hq p m (or_introl eq_refl)) as Hm.
  assert (0 < Dec.units s r) as Hpos'.
  { rewrite (leb_zero s) in L by (assumption || apply Hr). apply Z.leb_gt in L. lia. }
  destruct (maker_fill s sd p m r Hs Hm Hr Hpos') as (_ & F1 & _ & _ & _ & _ & F3 & F4).
  destruct (resting_remaining s sd p _ m Hm) as (_ & _ & U3 & _).
  constructor.
  - cbn [fill_maker fst snd]. split; [now left|]. split; [lia|].
    unfold admits. destruct limit; [exact Elim|exact I].
  - specialize (IH (Dec.sub r (Dec.min r (Order.remaining_quantity m)))
                  (queue_ok_tail _ _ _ _ Hq) F3 ltac:(lia)).
    eapply Forall_impl; [|exact IH].
    intros f (H1 & H2 & H3). split; [now right|]. split; assumption.
Qed.

(** The quanta that the makers of a queue still offer. *)
Lemma avail_none_cons (s : Z) (taker : OrderSide) (p : Decimal) (m : Order)
  (q : list (Decimal * Order)) :
  avail s taker None ((p, m) :: q) = rem_units s m + avail s taker None q.
Proof. reflexivity. Qed.

(** What the walk leaves on offer is what was on offer less what was
    filled. *)
Lemma residual_avail (s : Z) (sd taker : OrderSide) (limit : option Decimal) :
  0 <= s ->
  forall (q : list (Decimal * Order)) (r : Decimal),
  queue_ok s sd q -> Dec.Ongrid s r -> 0 <= Dec.units s r ->
  avail s taker None (residual taker limit r q)
  = avail s taker None q - filled_units s (sweep taker limit r q).
Proof.
  intros Hs. induction q as [|[p m] q IH]; intros r Hq Hr Hpos; [reflexivity|].
  cbn [sweep residual].
  destruct (Dec.leb r Dec.zero) eqn:L; [cbn [filled_units fold_right]; lia|].
  destruct (match limit with Some l => _ | None => false end) eqn:Elim;
    [cbn [filled_units fold_right]; lia|].
  pose proof (Hq p m (or_introl eq_refl)) as Hm.
  assert (0 < Dec.units s r) as Hpos'.
  { rewrite (leb_zero s) in L by (assumption || apply Hr). apply Z.leb_gt in L. lia. }
  destruct (maker_fill s sd p m r Hs Hm Hr Hpos')
    as (_ & F1 & E & R1 & _ & _ & F3 & F4).
  cbv zeta. rewrite E.
  cbn [filled_units fold_right fst snd]. fold (filled_units s).
  destruct (Z.leb_spec (rem_units s m) (Dec.units s r)) as [Hle|Hgt].
  - rewrite (IH _ (queue_ok_tail _ _ _ _ Hq) F3 ltac:(lia)).
    rewrite avail_none_cons. unfold filled_units. lia.
  - rewrite !avail_none_cons.
    rewrite sweep_done.
    + cbn [filled_units fold_right].
      assert (rem_units s (Order.set_status PARTIALLY_FILLED
                (Order.set_filled_quantity
                   (Dec.add (Order.filled_quantity m)
                      (Dec.min r (Order.remaining_quantity m))) m))
              = rem_units s m - Dec.units s (Dec.min r (Order.remaining_quantity m)))
        as ->.
      { rewrite <- R1. unfold rem_units. destruct m; reflexivity. }
      lia.
    + rewrite (leb_zero s) by (assumption || apply F3). apply Z.leb_le. lia.
Qed.

(** Every maker left by the walk is a maker of the queue, untouched or
    with a part of its remainder filled. *)
Lemma residual_in (s : Z) (sd taker : OrderSide) (limit : option Decimal) :
  0 <= s ->
  forall (q : list (Decimal * Order)) (r : Decimal),
  queue_ok s sd q -> Dec.Ongrid s r -> 0 <= Dec.units s r ->
  forall (k : Decimal) (m' : Order),
  In (k, m') (residual taker limit r q) ->
  In (k, m') q
  \/ exists m f,
       In (k, m) q
       /\ m' = Order.set_status PARTIALLY_FILLED
                 (Order.set_filled_quantity (Dec.add (Order.filled_quantity m) f) m)
       /\ 0 < Dec.units s f < rem_units s m
       /\ Dec.units s (Order.filled_quantity m')
          = Dec.units s (Order.filled_quantity m) + Dec.units s f.
Proof.
  intros Hs. induction q as [|[p m] q IH]; intros r Hq Hr Hpos k m' Hin;
    [destruct Hin|].
  cbn [residual] in Hin.
  destruct (Dec.leb r Dec.zero) eqn:L; [now left|].
  destruct (match limit with Some l => _ | None => false end); [now left|].
  pose proof (Hq p m (or_introl eq_refl)) as Hm.
  assert (0 < Dec.units s r) as Hpos'.
  { rewrite (leb_zero s) in L by (assumption || apply Hr). apply Z.leb_gt in L. lia. }
  destruct (maker_fill s sd p m r Hs Hm Hr Hpos')
    as (_ & F1 & E & R1 & _ & A1 & F3 & F4).
  cbv zeta in Hin. rewrite E in Hin.
  destruct (Z.leb_spec (rem_units s m) (Dec.units s r)) as [Hle|Hgt].
  - destruct (IH _ (queue_ok_tail _ _ _ _ Hq) F3 ltac:(lia) _ _ Hin)
      as [H|(m0 & f & H1 & H2)].
    + left. now right.
    + right. exists m0, f. split; [now right|exact H2].
  - destruct Hin as [Hin|Hin]; [|left; now right].
    injection Hin as <- <-. right.
    exists m, (Dec.min r (Order.remaining_quantity m)).
    split; [now left|]. split; [reflexivity|]. split; [lia|].
    rewrite <- A1. destruct m; reflexivity.
Qed.

(** A walk that leaves a part of the taker unfilled has consumed every
    maker within the limit: the makers left are beyond it, given that the
    queue lists the prices best first. *)
Lemma residual_beyond (s : Z) (sd taker : OrderSide) (p : Decimal) :
  0 <= s ->
  forall (q : list (Decimal * Order)) (r : Decimal),
  queue_ok s sd q -> Dec.Ongrid s r -> 0 <= Dec.units s r ->
  filled_units s (sweep taker (Some p) r q) < Dec.units s r ->
  (forall q1 k1 m1 q2 k2 m2, q = q1 ++ (k1, m1) :: q2 -> In (k2, m2) q2 ->
     MatchingEngine.worse taker k1 p = true -> MatchingEngine.worse taker k2 p = true) ->
  Forall (fun km => MatchingEngine.worse taker (fst km) p = true)
    (residual taker (Some p) r q).
Proof.
  intros Hs. induction q as [|[k m] q IH]; intros r Hq Hr Hpos Hlt Hmono;
    [constructor|].
  cbn [sweep residual] in *.
  destruct (Dec.leb r Dec.zero) eqn:L.
  { cbn in Hlt. rewrite (leb_zero s) in L by (assumption || apply Hr).
    apply Z.leb_le in L. lia. }
  destruct (MatchingEngine.worse taker k p) eqn:W.
  { constructor; [exact W|]. apply Forall_forall. intros [k2 m2] Hin.
    exact (Hmono [] k m q k2 m2 eq_refl Hin W). }
  pose proof (Hq k m (or_introl eq_refl)) as Hm.
  assert (0 < Dec.units s r) as Hpos'.
  { rewrite (leb_zero s) in L by (assumption || apply Hr). apply Z.leb_gt in L. lia. }
  destruct (maker_fill s sd k m r Hs Hm Hr Hpos')
    as (_ & F1 & E & R1 & _ & A1 & F3 & F4).
  cbv zeta in *. rewrite E.
  cbn [filled_units fold_right fst snd] in Hlt. fold (filled_units s) in Hlt.
  destruct (Z.leb_spec (rem_units s m) (Dec.units s r)) as [Hle|Hgt].
  - apply (IH _ (queue_ok_tail _ _ _ _ Hq) F3); [lia|unfold filled_units; lia|].
    intros q1 k1 m1 q2 k2 m2 -> Hin. now apply (Hmono ((k, m) :: q1) k1 m1 q2 k2 m2).
  - exfalso.
    pose proof (sweep_filled s sd taker (Some p) Hs q _ (queue_ok_tail _ _ _ _ Hq) F3
                  ltac:(lia)) as [Hf _].
    pose proof (avail_nonneg s sd taker (Some p) q (queue_ok_tail _ _ _ _ Hq)).
    unfold filled_units in *. lia.
Qed.

Lemma Forall2_in_l {A B : Type} (R : A -> B -> Prop) (l : list A) (l' : list B) :
  Forall2 R l l' -> forall a, In a l -> exists b, In b l' /\ R a b.
Proof.
  induction 1 as [|x y l l' Hxy _ IH]; intros a Hin; [destruct Hin|].
  destruct Hin as [<-|Hin].
  - exists y. split; [now left|assumption].
  - destruct (IH a Hin) as (b & Hb & Hr). exists b. split; [now right|assumption].
Qed.

(** X4 (trade prices): every trade of an admissible submission is made
    with an order that was resting on the opposite side, at the price at
    which that order rests (the maker's price, not the taker's), for a
    positive quantity that does not exceed the maker's remainder; for an
    order that is limited by a price (LIMIT, and IOC or FOK with a price)
    the trade price is never beyond that limit. *)
Theorem trades_at_resting_prices (s : Z) (o : Order) (e : MatchingEngine) :
  book_ok s (MatchingEngine.order_book e) = true ->
  admissible s o e = true ->
  Forall (fun t =>
    exists k m pm,
      In (k, m) (side_queue (opposite (Order.side o)) (MatchingEngine.order_book e))
      /\ Trade.maker_order_id t = Order.order_id m
      /\ Order.side m = opposite (Order.side o)
      /\ Order.price m = Some pm
      /\ Dec.eqb (Trade.price t) pm = true
      /\ 0 < Dec.units s (Trade.quantity t) <= rem_units s m
      /\ match limit_of o with
         | Some p => MatchingEngine.worse (Order.side o) (Trade.price t) p = false
         | None => True
         end)
    (returned_trades o e).
Proof.
  intros Hb Ha. pose proof (book_ok_scale s _ Hb) as Hs.
  destruct (submit_settled s o e Hb Ha) as (ts & o' & e' & Hset).
  destruct (settled_after s o e ts o' e' Hset) as [_ ->].
  apply admissible_spec in Ha as (Ht & Hv & _).
  pose proof Ht as Ht'. apply taker_ok_spec in Ht' as (T1 & _).
  pose proof (validate_quantity s o Hs (proj1 T1) Hv) as Hq.
  destruct Hset as (_ & [(o1 & e1 & W & _)|(_ & _ & -> & _)]); [|constructor].
  destruct W as (W1 & _).
  pose proof (side_queue_ok s (opposite (Order.side o)) _ Hb) as Hqok.
  pose proof (sweep_fills s (opposite (Order.side o)) (Order.side o) (limit_of o) Hs
                _ (Order.quantity o) Hqok T1 ltac:(lia)) as Hfs.
  apply Forall_forall. intros t Hin.
  destruct (Forall2_in_l _ _ _ W1 t Hin) as ([[p q] m] & Hf & Hrep).
  rewrite Forall_forall in Hfs. destruct (Hfs _ Hf) as (F1 & F2 & F3).
  cbn [fill_maker fst snd] in F1, F2, F3.
  destruct Hrep as (R1 & R2 & R3 & _).
  pose proof (Hqok p m F1) as Hm.
  apply resting_ok_spec in Hm as (_ & Hside & (pm & Hpm & Epm) & _).
  exists p, m, pm.
  refine (conj F1 (conj R3 (conj Hside (conj Hpm (conj _ (conj _ _)))))).
  - rewrite eqb_sym in Epm. exact (eqb_trans _ _ _ R1 Epm).
  - now rewrite R2.
  - unfold admits in F3. destruct (limit_of o) as [l|]; [|exact I].
    now rewrite (worse_equiv _ _ _ _ R1).
Qed.

(** A LIMIT BUY at 50050 for 1.5 against the asks of scenario S1. *)
Lemma trades_at_resting_prices_S1 :
  Forall (fun t =>
    exists k m pm,
      In (k, m) (side_queue SELL (MatchingEngine.order_book engine_S1))
      /\ Trade.maker_order_id t = Order.order_id m
      /\ Order.side m = SELL
      /\ Order.price m = Some pm
      /\ Dec.eqb (Trade.price t) pm = true
      /\ 0 < Dec.units 1 (Trade.quantity t) <= rem_units 1 m
      /\ MatchingEngine.worse BUY (Trade.price t) (Dec.mkDecimal 50050 0) = false)
    (returned_trades
       (new_order "b1"%string BUY LIMIT (Some (Dec.mkDecimal 50050 0))
          (Dec.mkDecimal 15 (-1))) engine_S1).
Proof.
  apply (trades_at_resting_prices 1
           (new_order "b1"%string BUY LIMIT (Some (Dec.mkDecimal 50050 0))
              (Dec.mkDecimal 15 (-1))) engine_S1); vm_compute; reflexivity.
Defined.

(* ================================================================= *)
(** * Depth *)

Lemma sum_over_insert (le : Decimal -> Decimal -> bool) (g : Decimal -> Z)
  (x : Decimal) (l : list Decimal) :
  sum_over g (insert_sorted le x l) = g x + sum_over g l.
Proof.
  induction l as [|y l IH]; [reflexivity|].
  cbn [insert_sorted]. destruct (le x y); [reflexivity|].
  unfold sum_over in *. cbn [fold_right]. rewrite IH. lia.
Qed.

Lemma sum_over_sorted (rev : bool) (g : Decimal -> Z) (l : list Decimal) :
  sum_over g (sorted rev l) = sum_over g l.
Proof.
  induction l as [|x l IH]; [reflexivity|].
  unfold sorted in *. cbn [fold_right]. rewrite sum_over_insert.
  unfold sum_over in *. cbn [fold_right]. now rewrite IH.
Qed.

Lemma sum_over_ext (g h : Decimal -> Z) (l : list Decimal) :
  (forall k, In k l -> g k = h k) -> sum_over g l = sum_over h l.
Proof.
  induction l as [|x l IH]; intros H; [reflexivity|].
  cbn [sum_over fold_right]. rewrite (H x (or_introl eq_refl)).
  unfold sum_over in IH. rewrite IH; [reflexivity|].
  intros k Hk. apply H. now right.
Qed.

(** The sum of the aggregates does not depend on the order of the levels. *)
Lemma levels_units_best_first (s : Z) (rev : bool) (levels : list (Decimal * PriceLevel)) :
  nodup_keys (Dict.keys levels) = true ->
  levels_units s (levels_best_first rev levels) = levels_units s levels.
Proof.
  intros Hn.
  set (g := fun (d : list (Decimal * PriceLevel)) k =>
              match Dict.get Dec.eqb k d with
              | Some l => Dec.units s (PriceLevel.total_quantity l)
              | None => 0
              end).
  assert (forall ks, levels_units s
            (flat_map (fun k => match Dict.get Dec.eqb k levels with
                                | Some l => [(k, l)]
                                | None => []
                                end) ks) = sum_over (g levels) ks) as H1.
  { induction ks as [|k ks IH]; [reflexivity|].
    cbn [flat_map sum_over fold_right]. unfold g at 1.
    destruct (Dict.get Dec.eqb k levels) as [l|].
    - cbn [app]. rewrite levels_units_cons. cbn [snd]. unfold sum_over in IH.
      now rewrite IH.
    - cbn [app]. unfold sum_over in IH. now rewrite IH. }
  unfold levels_best_first. rewrite H1, sum_over_sorted. clear H1.
  induction levels as [|[k l] d IH]; [reflexivity|].
  cbn [Dict.keys map fst] in *. cbn [nodup_keys] in Hn.
  apply andb_prop in Hn as [Hk Hn]. apply negb_true_iff in Hk.
  cbn [sum_over fold_right]. rewrite levels_units_cons. cbn [snd].
  unfold g at 1. cbn [Dict.get]. rewrite eqb_refl.
  fold (sum_over (g ((k, l) :: d)) (map fst d)).
  rewrite (sum_over_ext _ (g d)).
  - fold (Dict.keys d). now rewrite (IH Hn).
  - intros k' Hk'. unfold g. cbn [Dict.get].
    now rewrite (nodup_keys_notin _ _ Hk k' Hk').
Qed.

Lemma level_avail_none (s : Z) (taker : OrderSide) (ls : list (Decimal * PriceLevel)) :
  level_avail s taker None ls = levels_units s ls.
Proof.
  induction ls as [|[k l] ls IH]; [reflexivity|].
  cbn [level_avail]. rewrite levels_units_cons. cbn [snd]. now rewrite IH.
Qed.

(** The depth of a side is what its queue offers. *)
Lemma side_depth_avail (s : Z) (taker sd : OrderSide) (b : OrderBook) :
  book_ok s b = true ->
  side_depth s sd b = avail s taker None (side_queue sd b).
Proof.
  intros Hb. rewrite (avail_side_queue s taker sd None b Hb), level_avail_none.
  unfold side_depth, best_first. symmetry. apply levels_units_best_first.
  pose proof (book_ok_side s b sd Hb) as HS.
  now apply side_ok_spec in HS as (_ & Hn & _).
Qed.

Lemma levels_units_set (s : Z) (p : Decimal) (l' : PriceLevel)
  (d : list (Decimal * PriceLevel)) :
  levels_units s (Dict.set Dec.eqb p l' d)
  = levels_units s d
    - match Dict.get Dec.eqb p d with
      | Some l => Dec.units s (PriceLevel.total_quantity l)
      | None => 0
      end
    + Dec.units s (PriceLevel.total_quantity l').
Proof.
  induction d as [|[k l] d IH]; [cbn; lia|].
  cbn [Dict.set Dict.get]. destruct (Dec.eqb k p).
  - rewrite !levels_units_cons. cbn [snd]. lia.
  - rewrite !levels_units_cons. cbn [snd]. rewrite IH. lia.
Qed.

(** What a successful [add_order] does to the dictionaries of the book. *)
Lemma add_order_levels (o : Order) (p : Decimal) (skip : bool) (b b2 : OrderBook) :
  OrderBook.add_order o skip b = (Ok true, b2) ->
  Order.price o = Some p ->
  let levels := OrderBookSide.price_levels (OrderBook.side_of (Order.side o) b) in
  OrderBookSide.price_levels (OrderBook.side_of (Order.side o) b2)
  = Dict.set Dec.eqb p
      (PriceLevel.add_order o
         (match Dict.get Dec.eqb p levels with
          | Some l => l
          | None => PriceLevel.init p
          end)) levels
  /\ OrderBook.orders b2 = Dict.set String.eqb (Order.order_id o) o (OrderBook.orders b)
  /\ OrderBook.side_of (opposite (Order.side o)) b2
     = OrderBook.side_of (opposite (Order.side o)) b
  /\ Dict.get String.eqb (Order.order_id o) (OrderBook.orders b) = None.
Proof.
  intros E Hp levels. unfold OrderBook.add_order in E.
  unfold Dict.mem in E.
  destruct (Dict.get String.eqb (Order.order_id o) (OrderBook.orders b)) eqn:G;
    [discriminate|].
  unfold OrderBookSide.add_order in E. rewrite Hp in E.
  rewrite side_of_with_orders in E. fold levels in E.
  destruct (Dict.get Dec.eqb p levels) as [l|] eqn:Gl.
  - injection E as <-.
    rewrite side_of_with_side, side_of_with_side_opp, orders_with_side,
      side_of_with_orders.
    cbn. auto.
  - destruct (set_mem p _); injection E as <-;
      rewrite side_of_with_side, side_of_with_side_opp, orders_with_side,
        side_of_with_orders; cbn; auto.
Qed.

(** An order that comes to rest adds its remainder to the depth of its
    side. *)
Lemma rested_depth (s : Z) (o : Order) (p : Decimal) (b b2 : OrderBook) :
  book_ok s b = true ->
  rested s o p b b2 ->
  OrderBook.add_order o false b = (Ok true, b2) ->
  Order.price o = Some p ->
  side_depth s (Order.side o) b2 = side_depth s (Order.side o) b + rem_units s o.
Proof.
  intros Hb (R1 & R2 & R3 & R4 & (l2 & G2 & O2) & R6) E Hp.
  destruct (add_order_levels o p false b b2 E Hp) as (L & _ & _ & Gnew).
  cbv zeta in L. unfold side_depth. rewrite L, levels_units_set.
  rewrite L, dget_set_same in G2. injection G2 as G2.
  pose proof (book_ok_side s b2 (Order.side o) R1) as HS2.
  apply side_ok_spec in HS2 as (_ & _ & Hl2 & _).
  assert (Dict.get Dec.eqb p
            (OrderBookSide.price_levels (OrderBook.side_of (Order.side o) b2)) = Some l2)
    as G2'.
  { rewrite L, <- G2. apply dget_set_same. }
  destruct (dget_some_in _ _ _ G2') as (k2 & Hin2 & _).
  specialize (Hl2 _ Hin2). apply level_ok_spec in Hl2 as (_ & Hnd2 & _ & _ & Hu2 & _).
  rewrite G2, Hu2, O2, ids_units_app, R2.
  assert (forall ids, ~ In (Order.order_id o) ids ->
            ids_units s (OrderBook.orders b2) ids = ids_units s (OrderBook.orders b) ids)
    as Hext.
  { intros ids Hni. apply ids_units_ext. intros id Hi. apply R3.
    intros ->. contradiction. }
  destruct (Dict.get Dec.eqb p
              (OrderBookSide.price_levels (OrderBook.side_of (Order.side o) b)))
    as [l|] eqn:Gl.
  - rewrite Hext.
    + destruct (dget_some_in _ _ _ Gl) as (k & Hin & _).
      pose proof (book_ok_side s b (Order.side o) Hb) as HS.
      apply side_ok_spec in HS as (_ & _ & Hl & _).
      specialize (Hl _ Hin). apply level_ok_spec in Hl as (_ & _ & _ & _ & Hu & _).
      lia.
    + intros Hi. rewrite O2 in Hnd2.
      clear - Hnd2 Hi. induction (PriceLevel.orders l) as [|x r IH]; [destruct Hi|].
      cbn [app nodup_ids] in Hnd2. apply andb_prop in Hnd2 as [H1 H2].
      destruct Hi as [->|Hi]; [|now apply IH].
      apply negb_true_iff in H1. rewrite existsb_app in H1. cbn in H1.
      rewrite String.eqb_refl in H1. now rewrite orb_true_r in H1.
  - cbn [ids_units fold_right]. lia.
Qed.

Lemma traded_filled (s : Z) (e : MatchingEngine) (o : Order) (ts : list Trade)
  (fs : list fill) :
  Forall2 (reports e o) ts fs -> traded_units s ts = filled_units s fs.
Proof.
  induction 1 as [|t [[p q] m] ts fs (_ & R2 & _) _ IH]; [reflexivity|].
  unfold traded_units, filled_units in *. cbn [fold_right fst snd].
  now rewrite IH, R2.
Qed.

(** X5 (conservation of volume): an admissible submission fills the order
    by exactly the quantity of the trades it returns, which is at most the
    quantity of the order; the displayed depth of the opposite side goes
    down by exactly that quantity, and the depth of the order's own side
    goes up by the unfilled remainder of a LIMIT order and is unchanged for
    every other type. *)
Theorem volume_conserved (s : Z) (o : Order) (e : MatchingEngine) :
  book_ok s (MatchingEngine.order_book e) = true ->
  admissible s o e = true ->
  exists o',
    accepted o e (returned_trades o e) o' (after o e)
    /\ Dec.units s (Order.filled_quantity o') = traded_units s (returned_trades o e)
    /\ traded_units s (returned_trades o e) <= Dec.units s (Order.quantity o)
    /\ side_depth s (opposite (Order.side o)) (MatchingEngine.order_book (after o e))
       = side_depth s (opposite (Order.side o)) (MatchingEngine.order_book e)
         - traded_units s (returned_trades o e)
    /\ side_depth s (Order.side o) (MatchingEngine.order_book (after o e))
       = side_depth s (Order.side o) (MatchingEngine.order_book e)
         + match Order.order_type o with
           | LIMIT => Dec.units s (Order.quantity o)
                      - traded_units s (returned_trades o e)
           | _ => 0
           end.
Proof.
  intros Hb Ha. pose proof (book_ok_scale s _ Hb) as Hs.
  destruct (submit_settled s o e Hb Ha) as (ts & o' & e' & Hset).
  destruct (settled_after s o e ts o' e' Hset) as [-> ->].
  apply admissible_spec in Ha as (Ht & Hv & _).
  pose proof Ht as Ht'. apply taker_ok_spec in Ht' as (T1 & T2 & T3 & _).
  pose proof (validate_quantity s o Hs (proj1 T1) Hv) as Hq.
  exists o'. destruct Hset as (Hacc & Hcases). split; [exact Hacc|].
  destruct Hcases as [(o1 & e1 & W & Eo' & Hrest)|(Ety & _ & -> & Ebook & ->)].
  - pose proof (side_queue_ok s (opposite (Order.side o)) _ Hb) as Hqok.
    destruct (walked_remaining s _ o e ts o1 e1 Hs Ht Hq Hqok W) as (Eq & Hle & _).
    destruct W as (W1 & W2 & W3 & _ & W5 & W6 & _ & _ & _ & W10 & _).
    pose proof (traded_filled s _ _ _ _ W1) as Etr.
    assert (Dec.units s (Order.filled_quantity o') = traded_units s ts) as Efill.
    { rewrite Eo', Etr, <- W6. now destruct o1. }
    assert (side_depth s (opposite (Order.side o)) (MatchingEngine.order_book e1)
            = side_depth s (opposite (Order.side o)) (MatchingEngine.order_book e)
              - traded_units s ts) as Eopp.
    { rewrite (side_depth_avail s (Order.side o) _ _ W5),
        (side_depth_avail s (Order.side o) _ _ Hb), W2, Etr.
      apply (residual_avail s (opposite (Order.side o))); try assumption. lia. }
    assert (side_depth s (Order.side o) (MatchingEngine.order_book e1)
            = side_depth s (Order.side o) (MatchingEngine.order_book e)) as Eown.
    { unfold side_depth. now rewrite W3. }
    assert (Dec.units s (Order.filled_quantity o1) = traded_units s ts) as Efill1.
    { now rewrite Etr, W6. }
    split; [exact Efill|]. split; [lia|].
    unfold rests in Hrest.
    assert (Order.side o' = Order.side o) as Eside.
    { rewrite Eo', W10. now destruct o. }
    destruct (Order.order_type o) eqn:Ety;
      try (rewrite Hrest, Eopp, Eown; split; lia).
    destruct (Z.ltb_spec (Dec.units s (Order.filled_quantity o1))
                (Dec.units s (Order.quantity o))) as [Hlt|Hge].
    + destruct Hrest as (p & Hp & _ & Eadd & Hr).
      assert (Order.price o' = Some p) as Hp'.
      { rewrite Eo', W10, <- Hp. now destruct o. }
      pose proof (rested_depth s o' p _ _ W5 Hr Eadd Hp') as Hd.
      destruct Hr as (_ & _ & _ & R4 & _).
      rewrite Eside in Hd, R4. split.
      * unfold side_depth at 1. rewrite R4. fold (side_depth s (opposite (Order.side o))
                                                   (MatchingEngine.order_book e1)).
        exact Eopp.
      * rewrite Hd, Eown. unfold rem_units. rewrite Efill.
        assert (Order.quantity o' = Order.quantity o) as ->.
        { rewrite Eo'. rewrite <- Eq. now destruct o1. }
        lia.
    + rewrite Hrest, Eopp, Eown. split; lia.
  - assert (Dec.units s (Order.filled_quantity (Order.set_status CANCELLED o)) = 0) as E0.
    { rewrite <- T3. now destruct o. }
    cbn [traded_units fold_right]. rewrite Ebook, Ety.
    split; [exact E0|]. split; [lia|]. split; lia.
Qed.

(** A LIMIT BUY at 50050 for 1.5 against the asks of scenario S1: 1.0 is
    traded and 0.5 comes to rest. *)
Lemma volume_conserved_S1 :
  exists o',
    accepted
      (new_order "b1"%string BUY LIMIT (Some (Dec.mkDecimal 50050 0))
         (Dec.mkDecimal 15 (-1))) engine_S1
      (returned_trades
         (new_order "b1"%string BUY LIMIT (Some (Dec.mkDecimal 50050 0))
            (Dec.mkDecimal 15 (-1))) engine_S1)
      o'
      (after
         (new_order "b1"%string BUY LIMIT (Some (Dec.mkDecimal 50050 0))
            (Dec.mkDecimal 15 (-1))) engine_S1)
    /\ Dec.units 1 (Order.filled_quantity o') = 10.
Proof.
  destruct (volume_conserved 1
              (new_order "b1"%string BUY LIMIT (Some (Dec.mkDecimal 50050 0))
                 (Dec.mkDecimal 15 (-1))) engine_S1)
    as (o' & Hacc & Hfill & _); try (vm_compute; reflexivity).
  exists o'. split; [exact Hacc|]. rewrite Hfill. vm_compute. reflexivity.
Defined.


(* ================================================================= *)
(** * The order of the queue *)

Lemma sort_le_trans (rev : bool) (a b c : Decimal) :
  sort_le rev a b = true -> sort_le rev b c = true -> sort_le rev a c = true.
Proof.
  destruct rev; cbn; intros H1 H2; eapply leb_trans; eassumption.
Qed.

Lemma sort_le_total (rev : bool) (a b : Decimal) :
  sort_le rev a b = false -> sort_le rev b a = true.
Proof. destruct rev; cbn; apply leb_total. Qed.

Section Ordered.
Context {A : Type} (R : A -> A -> Prop).

Lemma fop_app (l1 l2 : list A) :
  ForallOrdPairs R l1 -> ForallOrdPairs R l2 ->
  (forall a b, In a l1 -> In b l2 -> R a b) ->
  ForallOrdPairs R (l1 ++ l2).
Proof.
  induction 1 as [|a l1 Ha _ IH]; intros H2 H12; [exact H2|].
  cbn [app]. constructor.
  - apply Forall_app. split; [exact Ha|].
    apply Forall_forall. intros b Hb. apply H12; [now left|exact Hb].
  - apply IH; [exact H2|]. intros x y Hx Hy. apply H12; [now right|exact Hy].
Qed.

Lemma fop_split (l1 l2 : list A) (x : A) :
  ForallOrdPairs R (l1 ++ x :: l2) -> forall y, In y l2 -> R x y.
Proof.
  induction l1 as [|a l1 IH]; cbn [app]; intros H y Hy.
  - inversion H as [|? ? Hx _]; subst. rewrite Forall_forall in Hx. now apply Hx.
  - inversion H; subst. now apply IH.
Qed.

Lemma fop_split_l (l1 l2 : list A) :
  ForallOrdPairs R (l1 ++ l2) -> forall x y, In x l1 -> In y l2 -> R x y.
Proof.
  induction l1 as [|a l1 IH]; cbn [app]; intros H x y Hx Hy; [destruct Hx|].
  inversion H as [|? ? Ha Hl]; subst. destruct Hx as [<-|Hx].
  - rewrite Forall_forall in Ha. apply Ha. apply in_or_app. now right.
  - now apply IH.
Qed.

Lemma fop_app_inv (l1 l2 : list A) :
  ForallOrdPairs R (l1 ++ l2) -> ForallOrdPairs R l1 /\ ForallOrdPairs R l2.
Proof.
  induction l1 as [|a l1 IH]; cbn [app]; intros H; [split; [constructor|exact H]|].
  inversion H as [|? ? Ha Hl]; subst. destruct (IH Hl) as [H1 H2].
  split; [|exact H2]. constructor; [|exact H1].
  apply Forall_app in Ha. apply Ha.
Qed.
End Ordered.

Lemma fop_flat_map {A B : Type} (R : A -> A -> Prop) (R' : B -> B -> Prop)
  (f : A -> list B) (l : list A) :
  ForallOrdPairs R l ->
  (forall x, In x l -> ForallOrdPairs R' (f x)) ->
  (forall x y a b, R x y -> In a (f x) -> In b (f y) -> R' a b) ->
  ForallOrdPairs R' (flat_map f l).
Proof.
  intros H Hin Hcross. induction H as [|x l Hx _ IH]; [constructor|].
  cbn [flat_map]. apply fop_app.
  - apply Hin. now left.
  - apply IH. intros y Hy. apply Hin. now right.
  - intros a b Ha Hb. apply in_flat_map in Hb as (y & Hy & Hb).
    rewrite Forall_forall in Hx. exact (Hcross x y a b (Hx y Hy) Ha Hb).
Qed.

(** [sorted] sorts. *)
Lemma insert_ordered (rev : bool) (x : Decimal) (l : list Decimal) :
  ForallOrdPairs (fun a b => sort_le rev a b = true) l ->
  ForallOrdPairs (fun a b => sort_le rev a b = true) (insert_sorted (sort_le rev) x l).
Proof.
  induction 1 as [|y l Hy Hl IH]; cbn [insert_sorted].
  - constructor; constructor.
  - destruct (sort_le rev x y) eqn:E.
    + constructor; [|now constructor].
      constructor; [exact E|]. rewrite Forall_forall in *. intros z Hz.
      eapply sort_le_trans; [exact E|now apply Hy].
    + constructor; [|exact IH].
      apply Forall_forall. intros z Hz. apply in_insert_sorted in Hz as [->|Hz].
      * now apply sort_le_total.
      * rewrite Forall_forall in Hy. now apply Hy.
Qed.

Lemma sorted_ordered (rev : bool) (l : list Decimal) :
  ForallOrdPairs (fun a b => sort_le rev a b = true) (sorted rev l).
Proof.
  induction l as [|x l IH]; [constructor|].
  unfold sorted in *. cbn [fold_right]. now apply insert_ordered.
Qed.

(** The queue of a side as the entries of its levels, by sorted key. *)
Lemma queue_of_entries (st : Store) (rev : bool) (levels : list (Decimal * PriceLevel)) :
  queue_of st (levels_best_first rev levels)
  = flat_map (entries st levels) (sorted rev (Dict.keys levels)).
Proof.
  unfold levels_best_first, queue_of, entries.
  induction (sorted rev (Dict.keys levels)) as [|k ks IH]; [reflexivity|].
  cbn [flat_map]. rewrite flat_map_app, IH. f_equal.
  destruct (Dict.get Dec.eqb k levels); cbn; [now rewrite app_nil_r|reflexivity].
Qed.

Lemma side_queue_entries (sd : OrderSide) (b : OrderBook) :
  side_queue sd b
  = flat_map (entries (OrderBook.orders b)
                (OrderBookSide.price_levels (OrderBook.side_of sd b)))
      (sorted (side_eqb sd BUY)
         (Dict.keys (OrderBookSide.price_levels (OrderBook.side_of sd b)))).
Proof. apply queue_of_entries. Qed.

Lemma in_entries (st : Store) (levels : list (Decimal * PriceLevel)) (k : Decimal)
  (km : Decimal * Order) :
  In km (entries st levels k) -> fst km = k.
Proof.
  unfold entries. destruct (Dict.get Dec.eqb k levels); [|intros []].
  intros H. apply in_map_iff in H as (o & <- & _). reflexivity.
Qed.

(** The queue lists the prices best first. *)
Lemma side_queue_ordered (sd : OrderSide) (b : OrderBook) :
  best_first_order (side_eqb sd BUY) (side_queue sd b).
Proof.
  unfold best_first_order. rewrite side_queue_entries.
  apply (fop_flat_map (fun a b => sort_le (side_eqb sd BUY) a b = true)).
  - apply sorted_ordered.
  - intros k _.
    assert (forall l, (forall km, In km l -> fst km = k) ->
              ForallOrdPairs (fun a b0 : Decimal * Order =>
                                sort_le (side_eqb sd BUY) (fst a) (fst b0) = true) l) as H.
    { induction l as [|a l IH]; intros Hl; [constructor|].
      constructor.
      - apply Forall_forall. intros c Hc.
        rewrite (Hl a (or_introl eq_refl)), (Hl c (or_intror Hc)). apply sort_le_refl.
      - apply IH. intros km Hkm. apply Hl. now right. }
    apply H. intros km. apply in_entries.
  - intros x y a c Hxy Ha Hc.
    now rewrite (in_entries _ _ _ _ Ha), (in_entries _ _ _ _ Hc).
Qed.

(** A price that is beyond a limit stays beyond it further down the queue
    of the makers. *)
Lemma worse_further (taker : OrderSide) (k1 k2 p : Decimal) :
  MatchingEngine.worse taker k1 p = true ->
  sort_le (side_eqb (opposite taker) BUY) k1 k2 = true ->
  MatchingEngine.worse taker k2 p = true.
Proof.
  destruct taker; cbn; rewrite !ltb_negb_leb; intros H1 H2;
    apply negb_true_iff; apply negb_true_iff in H1;
    destruct (Dec.leb _ _) eqn:E in |- *; try reflexivity;
    rewrite <- H1; symmetry; eapply leb_trans; eassumption.
Qed.

(* ================================================================= *)
(** * Cancellation in detail *)

(** The cancellation of an indexed order with a price: the order leaves
    the index, and the level at its price loses it (and leaves the side
    when nothing else is queued there); an order that no level holds only
    leaves the index. *)
Lemma cancel_order_levels (s : Z) (id : string) (b : OrderBook) (o : Order)
  (p : Decimal) :
  book_ok s b = true ->
  Dict.get String.eqb id (OrderBook.orders b) = Some o ->
  Order.price o = Some p ->
  exists b',
    OrderBook.cancel_order id b = (Ok (Some (Order.set_status CANCELLED o)), b')
    /\ OrderBook.orders b' = Dict.del String.eqb id (OrderBook.orders b)
    /\ OrderBook.side_of (opposite (Order.side o)) b'
       = OrderBook.side_of (opposite (Order.side o)) b
    /\ ((OrderBookSide.price_levels (OrderBook.side_of (Order.side o) b')
         = OrderBookSide.price_levels (OrderBook.side_of (Order.side o) b)
         /\ forall sd' k l,
              In (k, l) (OrderBookSide.price_levels (OrderBook.side_of sd' b)) ->
              ~ In id (PriceLevel.orders l))
        \/ exists kd lvl ids',
             In (kd, lvl) (OrderBookSide.price_levels (OrderBook.side_of (Order.side o) b))
             /\ Dec.eqb kd p = true
             /\ remove_first id (PriceLevel.orders lvl) = Some ids'
             /\ ((ids' = []
                  /\ OrderBookSide.price_levels (OrderBook.side_of (Order.side o) b')
                     = Dict.del Dec.eqb kd
                         (OrderBookSide.price_levels (OrderBook.side_of (Order.side o) b)))
                 \/ (ids' <> []
                     /\ exists l2,
                          OrderBookSide.price_levels (OrderBook.side_of (Order.side o) b')
                          = Dict.set Dec.eqb kd l2
                              (OrderBookSide.price_levels
                                 (OrderBook.side_of (Order.side o) b))
                          /\ PriceLevel.orders l2 = ids'))).
Proof.
  intros Hb G Hp. pose proof (book_ok_scale s b Hb) as Hs.
  unfold OrderBook.cancel_order. rewrite G.
  set (sd := Order.side o).
  pose proof (book_ok_side s b sd Hb) as HS.
  pose proof HS as HS'. apply side_ok_spec in HS' as (_ & Hn & Hl & _).
  unfold OrderBookSide.remove_order. rewrite Hp.
  assert (forall l, Dict.get Dec.eqb p (OrderBookSide.price_levels (OrderBook.side_of sd b))
                    = l ->
            (forall l0, l = Some l0 -> ~ In id (PriceLevel.orders l0)) ->
            forall sd' k l', In (k, l') (OrderBookSide.price_levels (OrderBook.side_of sd' b)) ->
                             ~ In id (PriceLevel.orders l')) as Hfree.
  { intros l Gl Hni sd' k l' Hin Hi.
    destruct (level_of_order s b sd' k l' id o p Hb Hin Hi G Hp) as [-> Gl'].
    fold sd in Gl'. rewrite Gl' in Gl. now apply (Hni l'). }
  destruct (Dict.get Dec.eqb p (OrderBookSide.price_levels (OrderBook.side_of sd b)))
    as [lvl|] eqn:Gl.
  - destruct (dget_some_in _ _ _ Gl) as (kd & Hin & Ek).
    pose proof (Hl _ Hin) as Hlv.
    apply level_ok_spec in Hlv as (_ & Hnd & Hok & Hgt & Hut & Hfk).
    unfold PriceLevel.remove_order.
    destruct (remove_first id (PriceLevel.orders lvl)) as [ids'|] eqn:Rf.
    + destruct (remove_first_spec _ _ _ Rf Hnd) as (Hid & Hnd' & Hids').
      pose proof (Hok id Hid) as Hidok.
      pose proof Hidok as Hidok'. apply id_ok_spec in Hidok' as (m & Gm & Rm).
      rewrite G in Gm. injection Gm as <-.
      destruct (resting_remaining s sd kd id o Rm) as (U1 & U2 & U3 & U4).
      pose proof (remove_first_units s _ id o _ _ Rf G) as Hsum.
      assert (forall id', In id' ids' -> id_ok s (OrderBook.orders b) sd kd id' = true)
        as Hok'.
      { intros id' Hi. apply Hok. now apply Hids'. }
      pose proof (ids_units_bounds s _ sd kd ids' Hok') as [B1 _].
      destruct (pl_remove_order s (OrderBook.orders b) id o lvl ids' Hs Rf G U2)
        as (l1 & R1 & R2 & R3 & R4 & R5); [lia|assumption|].
      unfold PriceLevel.remove_order in R1. rewrite Rf, G in R1.
      rewrite G. injection R1 as R1. rewrite R1.
      destruct (pl_empty_spec s (OrderBook.orders b) sd kd l1 Hs)
        as (e & l2 & E1 & E2 & E3 & E4 & E5).
      { now rewrite R2. }
      { exact R4. }
      { rewrite R2, R5. lia. }
      rewrite E1. rewrite R2 in E2, E4, E5.
      set (st' := Dict.del String.eqb id (OrderBook.orders b)).
      assert (forall id', id' <> id ->
                Dict.get String.eqb id' st'
                = Dict.get String.eqb id' (OrderBook.orders b)) as Hst'
        by apply store_del_other.
      assert (Dec.eqb p kd = true) as Ek' by now rewrite eqb_sym.
      destruct e.
      * rewrite (ddel_equiv p kd _ Ek'), (set_discard_equiv p kd _ Ek').
        destruct (side_ok_drop s (OrderBook.orders b) (OrderBook.orders b) st' sd
                    (OrderBook.side_of sd b) kd lvl id Hs (fun _ _ => eq_refl) Hst' HS
                    Hin Hidok) as [D1 D2].
        eexists. split; [reflexivity|].
        rewrite orders_with_side, !side_of_with_orders, side_of_with_side,
          side_of_with_side_opp.
        split; [reflexivity|]. split; [reflexivity|]. right.
        exists kd, lvl, ids'. refine (conj Hin (conj Ek (conj Rf _))).
        left. split; [now apply E4|exact D2].
      * eexists. split; [reflexivity|].
        rewrite orders_with_side, !side_of_with_orders, side_of_with_side,
          side_of_with_side_opp.
        split; [reflexivity|]. split; [reflexivity|]. right.
        exists kd, lvl, ids'. refine (conj Hin (conj Ek (conj Rf _))).
        right. split.
        { intros ->. destruct E4 as [_ E4]. now specialize (E4 eq_refl). }
        exists l2. split; [|exact E2].
        cbn [OrderBookSide.price_levels].
        apply (dset_equiv p kd l2 lvl _ Ek').
        now apply dget_in.
    + eexists. split; [reflexivity|]. fold sd. rewrite with_side_same.
      rewrite !side_of_with_orders.
      split; [reflexivity|]. split; [reflexivity|]. left. split; [reflexivity|].
      apply (Hfree (Some lvl) eq_refl). intros l0 [= <-]. now apply remove_first_none.
  - eexists. split; [reflexivity|]. fold sd. rewrite with_side_same.
    rewrite !side_of_with_orders.
    split; [reflexivity|]. split; [reflexivity|]. left. split; [reflexivity|].
    apply (Hfree None eq_refl). intros l0 [=].
Qed.

(* ================================================================= *)
(** * The book is never crossed *)

Lemma uncrossed_spec (sd : OrderSide) (b : OrderBook) :
  uncrossed b = true <->
  forall k k',
    In k (Dict.keys (OrderBookSide.price_levels (OrderBook.side_of sd b))) ->
    In k' (Dict.keys (OrderBookSide.price_levels (OrderBook.side_of (opposite sd) b))) ->
    MatchingEngine.worse sd k' k = true.
Proof.
  unfold uncrossed. rewrite forallb_forall. split.
  - intros H k k' Hk Hk'. destruct sd; cbn in *.
    + specialize (H k Hk). rewrite forallb_forall in H. now apply H.
    + specialize (H k' Hk'). rewrite forallb_forall in H. now apply H.
  - intros H kb Hkb. apply forallb_forall. intros ka Hka.
    destruct sd; cbn in *; now apply H.
Qed.

(** Every level of a well-formed book shows in the queue, and conversely. *)
Lemma level_in_queue (s : Z) (sd : OrderSide) (b : OrderBook) (k : Decimal) :
  book_ok s b = true ->
  In k (Dict.keys (OrderBookSide.price_levels (OrderBook.side_of sd b))) ->
  exists m, In (k, m) (side_queue sd b).
Proof.
  intros Hb Hk. pose proof (book_ok_side s b sd Hb) as HS.
  pose proof HS as HS'. apply side_ok_spec in HS' as (_ & Hn & _).
  destruct (keys_in _ _ Hk) as (l & Hin).
  destruct (level_head s _ sd _ k l HS Hin) as (id & rest & m & Eo & Gm).
  exists m. rewrite side_queue_entries. apply in_flat_map. exists k. split.
  - apply in_sort. exact Hk.
  - unfold entries. rewrite (dget_in _ _ _ Hn Hin). apply in_map.
    unfold PriceLevel.objects. rewrite Eo. cbn [flat_map]. rewrite Gm. now left.
Qed.

Lemma queue_in_level (s : Z) (sd : OrderSide) (b : OrderBook) (k : Decimal)
  (m : Order) :
  book_ok s b = true ->
  In (k, m) (side_queue sd b) ->
  In k (Dict.keys (OrderBookSide.price_levels (OrderBook.side_of sd b))).
Proof.
  intros Hb Hin. pose proof (book_ok_side s b sd Hb) as HS.
  apply side_ok_spec in HS as (_ & Hn & _).
  apply in_queue_of in Hin as (l & id & Hl & _).
  apply in_levels_best_first in Hl; [|exact Hn]. now apply in_keys in Hl.
Qed.

(** A walk opens no new price on the side of the makers. *)
Lemma walked_keys (s : Z) (limit : option Decimal) (o : Order) (e : MatchingEngine)
  (ts : list Trade) (o1 : Order) (e1 : MatchingEngine) (k : Decimal) :
  book_ok s (MatchingEngine.order_book e) = true ->
  taker_ok s o = true -> 0 < Dec.units s (Order.quantity o) ->
  walked s limit o e ts o1 e1 ->
  In k (Dict.keys (OrderBookSide.price_levels
                     (OrderBook.side_of (opposite (Order.side o))
                        (MatchingEngine.order_book e1)))) ->
  In k (Dict.keys (OrderBookSide.price_levels
                     (OrderBook.side_of (opposite (Order.side o))
                        (MatchingEngine.order_book e)))).
Proof.
  intros Hb Ht Hq W Hk. pose proof (book_ok_scale s _ Hb) as Hs.
  apply taker_ok_spec in Ht as (T1 & _).
  pose proof W as (_ & W2 & _ & _ & W5 & _).
  destruct (level_in_queue s _ _ k W5 Hk) as (m & Hm). rewrite W2 in Hm.
  pose proof (side_queue_ok s (opposite (Order.side o)) _ Hb) as Hqok.
  assert (0 <= Dec.units s (Order.quantity o)) as Hq0 by lia.
  destruct (residual_in s _ (Order.side o) limit Hs _ _ Hqok T1 Hq0 _ _ Hm)
    as [H|(m0 & f & H & _)]; eapply queue_in_level; eassumption.
Qed.

Lemma keys_set_in {V : Type} (p : Decimal) (v : V) (d : list (Decimal * V))
  (k : Decimal) :
  In k (Dict.keys (Dict.set Dec.eqb p v d)) -> In k (Dict.keys d) \/ k = p.
Proof.
  destruct (Dict.get Dec.eqb p d) as [v0|] eqn:G.
  - rewrite (dict_keys_set_existing _ _ _ _ _ G). now left.
  - rewrite (dict_keys_set_new _ _ _ _ G). intros H. apply in_app_or in H as [H|[H|[]]].
    + now left.
    + now right.
Qed.

(** A cancellation opens no new price. *)
Lemma cancel_keys (s : Z) (id : string) (b : OrderBook) (sd : OrderSide) (k : Decimal) :
  book_ok s b = true ->
  In k (Dict.keys (OrderBookSide.price_levels
                     (OrderBook.side_of sd (snd (OrderBook.cancel_order id b))))) ->
  In k (Dict.keys (OrderBookSide.price_levels (OrderBook.side_of sd b))).
Proof.
  intros Hb.
  destruct (Dict.get String.eqb id (OrderBook.orders b)) as [o|] eqn:G.
  - destruct (Order.price o) as [p|] eqn:Hp.
    + destruct (cancel_order_levels s id b o p Hb G Hp)
        as (b' & E & _ & Hopp & Hown).
      rewrite E. cbn [snd].
      assert (sd = Order.side o \/ sd = opposite (Order.side o)) as [->| ->]
        by (destruct sd, (Order.side o); auto).
      * destruct Hown as [[-> _]|(kd & lvl & ids' & Hin & _ & _ & [[_ ->]|(_ & l2 & -> & _)])].
        -- auto.
        -- rewrite dict_keys_del. intros H. now apply filter_In in H.
        -- intros H. apply keys_set_in in H as [H| ->]; [exact H|].
           now apply in_keys in Hin.
      * now rewrite Hopp.
    + unfold OrderBook.cancel_order, OrderBookSide.remove_order. rewrite G, Hp.
      cbn [snd]. now rewrite with_side_same.
  - unfold OrderBook.cancel_order. rewrite G. auto.
Qed.

(** An admissible submission leaves the book uncrossed. *)
Lemma settled_uncrossed (s : Z) (o : Order) (e : MatchingEngine) (ts : list Trade)
  (o' : Order) (e' : MatchingEngine) :
  book_ok s (MatchingEngine.order_book e) = true ->
  admissible s o e = true ->
  uncrossed (MatchingEngine.order_book e) = true ->
  settled s o e ts o' e' ->
  uncrossed (MatchingEngine.order_book e') = true.
Proof.
  intros Hb Ha Hu Hset. pose proof (book_ok_scale s _ Hb) as Hs.
  apply admissible_spec in Ha as (Ht & Hv & _).
  pose proof Ht as Ht'. apply taker_ok_spec in Ht' as (T1 & _).
  pose proof (validate_quantity s o Hs (proj1 T1) Hv) as Hq.
  rewrite (uncrossed_spec (Order.side o)) in Hu.
  destruct Hset as (_ & [(o1 & e1 & W & Eo' & Hrest)|(_ & _ & _ & -> & _)]);
    [|now apply (uncrossed_spec (Order.side o))].
  pose proof (fun k => walked_keys s _ o e ts o1 e1 k Hb Ht Hq W) as Hkeys.
  pose proof W as (_ & W2 & W3 & _ & W5 & W6 & _ & _ & _ & W10 & _).
  assert (forall k k',
            In k (Dict.keys (OrderBookSide.price_levels
                               (OrderBook.side_of (Order.side o)
                                  (MatchingEngine.order_book e1)))) ->
            In k' (Dict.keys (OrderBookSide.price_levels
                                (OrderBook.side_of (opposite (Order.side o))
                                   (MatchingEngine.order_book e1)))) ->
            MatchingEngine.worse (Order.side o) k' k = true) as Hu1.
  { intros k k' Hk Hk'. rewrite W3 in Hk. apply Hu; [exact Hk|].
    now apply (Hkeys k'). }
  unfold rests in Hrest.
  destruct (match Order.order_type o with
            | LIMIT => Dec.units s (Order.filled_quantity o1)
                       <? Dec.units s (Order.quantity o)
            | _ => false
            end) eqn:Er.
  2:{ rewrite Hrest. now apply (uncrossed_spec (Order.side o)). }
  destruct (Order.order_type o) eqn:Ety; try discriminate.
  apply Z.ltb_lt in Er.
  destruct Hrest as (p & Hp & _ & Eadd & _).
  assert (Order.side o' = Order.side o) as Eside.
  { rewrite Eo', W10. now destruct o. }
  assert (Order.price o' = Some p) as Hp'.
  { rewrite Eo', W10, <- Hp. now destruct o. }
  destruct (add_order_levels o' p false _ _ Eadd Hp') as (L & _ & Lopp & _).
  cbv zeta in L. rewrite Eside in L, Lopp.
  apply (uncrossed_spec (Order.side o)). intros k k' Hk Hk'.
  rewrite L in Hk. rewrite Lopp in Hk'.
  apply keys_set_in in Hk as [Hk| ->]; [now apply Hu1|].
  destruct (level_in_queue s _ _ k' W5 Hk') as (m & Hm). rewrite W2 in Hm.
  unfold limit_of in Hm. rewrite Ety, Hp in Hm.
  pose proof (side_queue_ok s (opposite (Order.side o)) _ Hb) as Hqok.
  pose proof (residual_beyond s (opposite (Order.side o)) (Order.side o) p Hs
                _ (Order.quantity o) Hqok T1 ltac:(lia)) as Hbey.
  rewrite Forall_forall in Hbey.
  apply (Hbey ltac:(unfold limit_of in W6; rewrite Ety, Hp in W6; rewrite <- W6; exact Er)
           ltac:(intros q1 k1 m1 q2 k2 m2 Eq Hin Hw;
                 pose proof (side_queue_ordered (opposite (Order.side o))
                               (MatchingEngine.order_book e)) as Hord;
                 unfold best_first_order in Hord; rewrite Eq in Hord;
                 exact (worse_further _ _ _ _ Hw
                          (fop_split _ _ _ _ Hord (k2, m2) Hin)))
           (k', m) Hm).
Qed.

(** X6 (the book is never crossed): in every state that the engine
    reaches from the new engine by admissible submissions and by
    cancellations, every bid price is strictly below every ask price; in
    particular the best bid that [get_best_bid] reports is below the best
    ask that [get_best_ask] reports, so the spread of [get_bbo] is
    positive. *)
Theorem book_never_crossed (s : Z) (e : MatchingEngine) :
  0 <= s -> reachable s e ->
  uncrossed (MatchingEngine.order_book e) = true
  /\ forall pb qb pa qa,
       fst (OrderBook.get_best_bid (MatchingEngine.order_book e)) = Some (pb, qb) ->
       fst (OrderBook.get_best_ask (MatchingEngine.order_book e)) = Some (pa, qa) ->
       Dec.ltb pb pa = true.
Proof.
  intros Hs Hr.
  assert (uncrossed (MatchingEngine.order_book e) = true) as Hu.
  { induction Hr as [symbol|e o Hr IH Ha|e id Hr IH].
    - reflexivity.
    - pose proof (reachable_book_ok s e Hs Hr) as Hb.
      destruct (submit_settled s o e Hb Ha) as (ts & o' & e' & Hset).
      destruct (settled_after s o e ts o' e' Hset) as [-> _].
      exact (settled_uncrossed s o e ts o' e' Hb Ha IH Hset).
    - pose proof (reachable_book_ok s e Hs Hr) as Hb.
      rewrite engine_cancel_book.
      apply (uncrossed_spec BUY). intros k k' Hk Hk'.
      apply (cancel_keys s) in Hk, Hk'; try assumption.
      rewrite (uncrossed_spec BUY) in IH. now apply IH. }
  split; [exact Hu|].
  intros pb qb pa qa Eb Ea.
  pose proof (reachable_book_ok s e Hs Hr) as Hb.
  destruct (best_from_side_spec s BUY _ Hb) as (rb & Sb & Eb' & _ & _ & Hrb).
  destruct (best_from_side_spec s SELL _ Hb) as (ra & Sa & Ea' & _ & _ & Hra).
  unfold OrderBook.get_best_bid in Eb. unfold OrderBook.get_best_ask in Ea.
  rewrite Eb' in Eb. rewrite Ea' in Ea. cbn [fst] in Eb, Ea. subst rb ra.
  destruct Hrb as (kb & lb & Hinb & Ekb & _). destruct Hra as (ka & la & Hina & Eka & _).
  rewrite (uncrossed_spec BUY) in Hu.
  specialize (Hu kb ka (in_keys _ _ _ Hinb) (in_keys _ _ _ Hina)). cbn in Hu.
  now rewrite <- (eqb_ltb_l _ _ _ Ekb), <- (eqb_ltb_r _ _ _ Eka).
Qed.

(** Scenario S1 after a bid at 49000 has come to rest. *)
Lemma book_never_crossed_S1 :
  uncrossed (MatchingEngine.order_book (after order_S2 engine_S1)) = true.
Proof.
  refine (proj1 (book_never_crossed 1 (after order_S2 engine_S1) _ _)); [lia|].
  apply reach_submit; [|vm_compute; reflexivity].
  apply reach_submit; [|vm_compute; reflexivity].
  apply reach_submit; [|vm_compute; reflexivity].
  apply reach_init.
Defined.


(* ================================================================= *)
(** * Sorting, filtering and inserting keys *)

Lemma sort_le_eqb_l (rev : bool) (a a' b : Decimal) :
  Dec.eqb a a' = true -> sort_le rev a b = sort_le rev a' b.
Proof. destruct rev; cbn; [apply eqb_leb_r|apply eqb_leb_l]. Qed.

Lemma sort_le_eqb_r (rev : bool) (a b b' : Decimal) :
  Dec.eqb b b' = true -> sort_le rev a b = sort_le rev a b'.
Proof. destruct rev; cbn; [apply eqb_leb_l|apply eqb_leb_r]. Qed.

Lemma filter_insert (rev : bool) (P : Decimal -> bool) (x : Decimal) (l : list Decimal) :
  ForallOrdPairs (fun a b => sort_le rev a b = true) l ->
  filter P (insert_sorted (sort_le rev) x l)
  = if P x then insert_sorted (sort_le rev) x (filter P l) else filter P l.
Proof.
  induction 1 as [|y l Hy Hl IH]; cbn [insert_sorted filter].
  - now destruct (P x).
  - destruct (sort_le rev x y) eqn:E.
    + cbn [filter]. destruct (P x) eqn:Px; [|reflexivity].
      symmetry. apply insert_sorted_head. intros z Hz.
      assert (In z (y :: l)) as Hz'.
      { destruct (P y); [destruct Hz as [<-|Hz]; [now left|]|];
          right; now apply filter_In in Hz. }
      destruct Hz' as [<-|Hz']; [exact E|].
      rewrite Forall_forall in Hy. eapply sort_le_trans; [exact E|now apply Hy].
    + cbn [filter]. rewrite IH.
      destruct (P y), (P x); cbn [insert_sorted]; rewrite ?E; reflexivity.
Qed.

(** Sorting commutes with filtering. *)
Lemma sorted_filter (rev : bool) (P : Decimal -> bool) (l : list Decimal) :
  sorted rev (filter P l) = filter P (sorted rev l).
Proof.
  induction l as [|x l IH]; [reflexivity|].
  unfold sorted in *. cbn [filter fold_right].
  rewrite (filter_insert rev P x (fold_right (insert_sorted (sort_le rev)) [] l)
             (sorted_ordered rev l)).
  destruct (P x); cbn [fold_right]; now rewrite IH.
Qed.

Lemma insert_comm (rev : bool) (x p : Decimal) (l : list Decimal) :
  Dec.eqb x p = false ->
  insert_sorted (sort_le rev) x (insert_sorted (sort_le rev) p l)
  = insert_sorted (sort_le rev) p (insert_sorted (sort_le rev) x l).
Proof.
  intros Hxp.
  assert (sort_le rev x p = true -> sort_le rev p x = false) as Hasym.
  { intros H. destruct (sort_le rev p x) eqn:E; [|reflexivity].
    rewrite (sort_le_antisym rev x p H E) in Hxp. discriminate. }
  induction l as [|y l IH]; cbn [insert_sorted].
  - destruct (sort_le rev x p) eqn:E1.
    + now rewrite (Hasym eq_refl).
    + now rewrite (sort_le_total _ _ _ E1).
  - destruct (sort_le rev p y) eqn:Epy, (sort_le rev x y) eqn:Exy; cbn [insert_sorted].
    + destruct (sort_le rev x p) eqn:E1.
      * now rewrite (Hasym eq_refl), Epy.
      * now rewrite (sort_le_total _ _ _ E1), Exy.
    + assert (sort_le rev x p = false) as E1.
      { destruct (sort_le rev x p) eqn:E1; [|reflexivity].
        now rewrite (sort_le_trans _ _ _ _ E1 Epy) in Exy. }
      now rewrite ?E1, ?Exy, ?Epy.
    + assert (sort_le rev p x = false) as E1.
      { destruct (sort_le rev p x) eqn:E1; [|reflexivity].
        now rewrite (sort_le_trans _ _ _ _ E1 Exy) in Epy. }
      now rewrite ?E1, ?Epy, ?Exy.
    + now rewrite Exy, Epy, IH.
Qed.

(** Sorting a list with a new key at its end inserts the key. *)
Lemma sorted_app_new (rev : bool) (p : Decimal) (l : list Decimal) :
  (forall y, In y l -> Dec.eqb y p = false) ->
  sorted rev (l ++ [p]) = insert_sorted (sort_le rev) p (sorted rev l).
Proof.
  induction l as [|x l IH]; intros H; [reflexivity|].
  unfold sorted in *. cbn [app fold_right].
  rewrite IH by (intros y Hy; apply H; now right).
  apply insert_comm. apply H. now left.
Qed.

(** Where [insert_sorted] puts a key. *)
Lemma insert_position (rev : bool) (p : Decimal) (l : list Decimal) :
  ForallOrdPairs (fun a b => sort_le rev a b = true) l ->
  exists l1 l2,
    l = l1 ++ l2
    /\ insert_sorted (sort_le rev) p l = l1 ++ p :: l2
    /\ Forall (fun y => sort_le rev p y = false) l1
    /\ Forall (fun y => sort_le rev p y = true) l2.
Proof.
  induction 1 as [|y l Hy Hl IH]; cbn [insert_sorted].
  - exists [], []. repeat split; constructor.
  - destruct (sort_le rev p y) eqn:E.
    + exists [], (y :: l). repeat split; [constructor|].
      constructor; [exact E|]. rewrite Forall_forall in *. intros z Hz.
      eapply sort_le_trans; [exact E|now apply Hy].
    + destruct IH as (l1 & l2 & -> & -> & H1 & H2).
      exists (y :: l1), l2. repeat split; [|exact H2]. now constructor.
Qed.

Lemma existsb_insert (rev : bool) (f : Decimal -> bool) (x : Decimal) (l : list Decimal) :
  existsb f (insert_sorted (sort_le rev) x l) = f x || existsb f l.
Proof.
  induction l as [|y l IH]; [reflexivity|].
  cbn [insert_sorted]. destruct (sort_le rev x y); [reflexivity|].
  cbn [existsb]. rewrite IH. now destruct (f x), (f y).
Qed.

Lemma nodup_keys_insert (rev : bool) (x : Decimal) (l : list Decimal) :
  existsb (Dec.eqb x) l = false -> nodup_keys l = true ->
  nodup_keys (insert_sorted (sort_le rev) x l) = true.
Proof.
  induction l as [|y l IH]; intros Hx Hn; [reflexivity|].
  cbn [insert_sorted]. destruct (sort_le rev x y).
  - change (negb (existsb (Dec.eqb x) (y :: l)) && nodup_keys (y :: l) = true).
    now rewrite Hx, Hn.
  - cbn [nodup_keys existsb] in *. apply orb_false_elim in Hx as [Hxy Hx].
    apply andb_prop in Hn as [Hy Hn]. rewrite (IH Hx Hn), existsb_insert.
    rewrite (eqb_sym y x), Hxy. cbn [orb]. now rewrite Hy.
Qed.

Lemma nodup_keys_sorted (rev : bool) (l : list Decimal) :
  nodup_keys l = true -> nodup_keys (sorted rev l) = true.
Proof.
  induction l as [|x l IH]; intros Hn; [reflexivity|].
  cbn [nodup_keys] in Hn. apply andb_prop in Hn as [Hx Hn].
  unfold sorted in *. cbn [fold_right]. apply nodup_keys_insert; [|now apply IH].
  apply negb_true_iff in Hx.
  destruct (existsb (Dec.eqb x) (fold_right (insert_sorted (sort_le rev)) [] l)) eqn:E;
    [|reflexivity].
  apply existsb_exists in E as (y & Hy & Ey). apply in_sort in Hy.
  now rewrite (nodup_keys_notin _ _ Hx y Hy) in Ey.
Qed.

Lemma nodup_keys_split (l1 l2 : list Decimal) (k : Decimal) :
  nodup_keys (l1 ++ k :: l2) = true ->
  forall y, In y l1 \/ In y l2 -> Dec.eqb y k = false.
Proof.
  induction l1 as [|x l1 IH]; cbn [app nodup_keys]; intros H y Hy.
  - apply andb_prop in H as [H _]. apply negb_true_iff in H.
    destruct Hy as [[]|Hy]. rewrite eqb_sym. exact (nodup_keys_notin _ _ H y Hy).
  - apply andb_prop in H as [Hx H]. apply negb_true_iff in Hx.
    destruct Hy as [[<-|Hy]|Hy].
    + apply (nodup_keys_notin _ _ Hx). apply in_or_app. right. now left.
    + apply (IH H). now left.
    + apply (IH H). now right.
Qed.

Lemma flat_map_filter {A B : Type} (f : A -> list B) (P : A -> bool) (l : list A) :
  flat_map f (filter P l) = flat_map (fun x => if P x then f x else []) l.
Proof.
  induction l as [|x l IH]; [reflexivity|].
  cbn [filter flat_map]. destruct (P x); cbn [flat_map app]; now rewrite IH.
Qed.

Lemma filter_flat_map {A B : Type} (f : A -> list B) (P : B -> bool) (l : list A) :
  filter P (flat_map f l) = flat_map (fun x => filter P (f x)) l.
Proof.
  induction l as [|x l IH]; [reflexivity|].
  cbn [flat_map]. now rewrite filter_app, IH.
Qed.

Lemma filter_all {A : Type} (P : A -> bool) (l : list A) :
  (forall x, In x l -> P x = true) -> filter P l = l.
Proof.
  induction l as [|x l IH]; intros H; [reflexivity|].
  cbn [filter]. rewrite (H x (or_introl eq_refl)). f_equal. apply IH.
  intros y Hy. apply H. now right.
Qed.

(* ================================================================= *)
(** * The queue after a cancellation *)

Lemma remove_first_filter (id : string) (ids ids' : list string) :
  remove_first id ids = Some ids' -> nodup_ids ids = true ->
  ids' = filter (fun x => negb (String.eqb x id)) ids.
Proof.
  revert ids'. induction ids as [|x r IH]; intros ids' H Hn; [discriminate|].
  apply nodup_ids_cons in Hn as [Hx Hn].
  cbn [remove_first filter] in *. destruct (String.eqb_spec x id) as [->|Hne].
  - injection H as <-. cbn [negb]. symmetry. apply filter_all.
    intros y Hy. apply negb_true_iff. apply String.eqb_neq. intros ->. contradiction.
  - destruct (remove_first id r) as [r'|]; [|discriminate]. injection H as <-.
    cbn [negb]. f_equal. now apply IH.
Qed.

Lemma filter_ids_notin (id : string) (ids : list string) :
  ~ In id ids -> filter (fun x => negb (String.eqb x id)) ids = ids.
Proof.
  intros H. apply filter_all. intros y Hy. apply negb_true_iff, String.eqb_neq.
  intros ->. contradiction.
Qed.

Lemma objects_filter (st : Store) (id : string) (ids : list string) :
  (forall id', In id' ids ->
     exists m, Dict.get String.eqb id' st = Some m /\ Order.order_id m = id') ->
  filter (fun m => negb (String.eqb (Order.order_id m) id)) (ids_objects st ids)
  = ids_objects (Dict.del String.eqb id st)
      (filter (fun x => negb (String.eqb x id)) ids).
Proof.
  induction ids as [|x r IH]; intros H; [reflexivity|].
  destruct (H x (or_introl eq_refl)) as (m & Gm & Em).
  unfold ids_objects in *. cbn [flat_map filter]. rewrite Gm. cbn [app filter].
  rewrite Em, IH by (intros y Hy; apply H; now right).
  destruct (String.eqb_spec x id) as [->|Hne]; cbn [negb]; [reflexivity|].
  cbn [flat_map]. rewrite (store_del_other id st x Hne), Gm. reflexivity.
Qed.

Lemma filter_map_pair (k : Decimal) (id : string) (l : list Order) :
  without id (map (fun o => (k, o)) l)
  = map (fun o => (k, o)) (filter (fun m => negb (String.eqb (Order.order_id m) id)) l).
Proof.
  unfold without. induction l as [|m l IH]; [reflexivity|].
  cbn [map filter snd]. destruct (negb _); cbn [map]; now rewrite IH.
Qed.

(** The entries of a level after the order [id] has left the index and
    the level. *)
Lemma entries_cancelled (s : Z) (st : Store) (sd : OrderSide) (k' k : Decimal)
  (id : string) (l l' : PriceLevel) :
  (forall id', In id' (PriceLevel.orders l) -> id_ok s st sd k' id' = true) ->
  PriceLevel.orders l' = filter (fun x => negb (String.eqb x id)) (PriceLevel.orders l) ->
  map (fun o => (k, o)) (PriceLevel.objects (Dict.del String.eqb id st) l')
  = without id (map (fun o => (k, o)) (PriceLevel.objects st l)).
Proof.
  intros Hok El. rewrite filter_map_pair. f_equal.
  change (PriceLevel.objects st l) with (ids_objects st (PriceLevel.orders l)).
  change (PriceLevel.objects (Dict.del String.eqb id st) l')
    with (ids_objects (Dict.del String.eqb id st) (PriceLevel.orders l')).
  rewrite El. symmetry. apply objects_filter.
  intros id' Hi. specialize (Hok id' Hi). apply id_ok_spec in Hok as (m & Gm & Rm).
  apply resting_ok_spec in Rm as (Em & _). now exists m.
Qed.

(** Where an indexed order can be queued: on its side, at its price. *)
Lemma queued_where (s : Z) (b : OrderBook) (sd : OrderSide) (k : Decimal)
  (l : PriceLevel) (id : string) (o : Order) :
  book_ok s b = true ->
  In (k, l) (OrderBookSide.price_levels (OrderBook.side_of sd b)) ->
  In id (PriceLevel.orders l) ->
  Dict.get String.eqb id (OrderBook.orders b) = Some o ->
  Order.side o = sd /\ exists p, Order.price o = Some p /\ Dec.eqb p k = true.
Proof.
  intros Hb Hin Hi G. pose proof (book_ok_side s b sd Hb) as HS.
  apply side_ok_spec in HS as (_ & _ & Hl & _). specialize (Hl _ Hin).
  apply level_ok_spec in Hl as (_ & _ & Hok & _). specialize (Hok id Hi).
  apply id_ok_spec in Hok as (m & Gm & Rm). rewrite G in Gm. injection Gm as <-.
  apply resting_ok_spec in Rm as (_ & Hs & Hp & _). auto.
Qed.

(** A queue does not change when the levels keep their orders and the
    index keeps the orders of the levels. *)
Lemma side_queue_same (sd : OrderSide) (b b' : OrderBook) :
  OrderBookSide.price_levels (OrderBook.side_of sd b')
  = OrderBookSide.price_levels (OrderBook.side_of sd b) ->
  (forall k l id, In (k, l) (OrderBookSide.price_levels (OrderBook.side_of sd b)) ->
     In id (PriceLevel.orders l) ->
     Dict.get String.eqb id (OrderBook.orders b')
     = Dict.get String.eqb id (OrderBook.orders b)) ->
  side_queue sd b' = side_queue sd b.
Proof.
  intros HL Hst. rewrite !side_queue_entries, HL. apply flat_map_ext_in.
  intros k _. unfold entries.
  destruct (Dict.get Dec.eqb k (OrderBookSide.price_levels (OrderBook.side_of sd b)))
    as [l|] eqn:G; [|reflexivity].
  destruct (dget_some_in _ _ _ G) as (k' & Hin & _).
  f_equal. apply objects_ext; [reflexivity|]. intros id Hi. exact (Hst k' l id Hin Hi).
Qed.

Lemma without_flat_map {A : Type} (id : string) (f : A -> list (Decimal * Order))
  (l : list A) :
  without id (flat_map f l) = flat_map (fun x => without id (f x)) l.
Proof. apply filter_flat_map. Qed.

(** A key of the dictionary that equals another key numerically is that
    key. *)
Lemma key_unique {V : Type} (k k2 : Decimal) (d : list (Decimal * V)) :
  nodup_keys (Dict.keys d) = true ->
  In k (Dict.keys d) -> In k2 (Dict.keys d) -> Dec.eqb k k2 = true -> k2 = k.
Proof.
  intros Hn Hk Hk2 E. destruct (keys_in _ _ Hk) as (v & Hv).
  destruct (keys_in _ _ Hk2) as (v2 & Hv2). exact (nodup_in_key _ _ _ _ _ Hn Hv Hv2 E).
Qed.

(** The queue of the side of a cancelled order is the queue without that
    order. *)
Lemma cancel_queue_own (s : Z) (id : string) (b b' : OrderBook) (o : Order)
  (p : Decimal) :
  book_ok s b = true ->
  Dict.get String.eqb id (OrderBook.orders b) = Some o ->
  Order.price o = Some p ->
  OrderBook.cancel_order id b = (Ok (Some (Order.set_status CANCELLED o)), b') ->
  side_queue (Order.side o) b' = without id (side_queue (Order.side o) b).
Proof.
  intros Hb G Hp E.
  destruct (cancel_order_levels s id b o p Hb G Hp) as (b2 & E2 & Hst & _ & Hown).
  rewrite E in E2. injection E2 as <-.
  set (sd := Order.side o) in *.
  set (levels := OrderBookSide.price_levels (OrderBook.side_of sd b)) in *.
  pose proof (book_ok_side s b sd Hb) as HS.
  apply side_ok_spec in HS as (_ & Hn & Hl & _). fold levels in Hn, Hl.
  assert (forall k l, In (k, l) levels ->
            forall id', In id' (PriceLevel.orders l) ->
              id_ok s (OrderBook.orders b) sd k id' = true) as Hok.
  { intros k l Hin. specialize (Hl _ Hin). now apply level_ok_spec in Hl. }
  assert (forall k k' l, In (k', l) levels -> ~ In id (PriceLevel.orders l) ->
            map (fun o => (k, o))
              (PriceLevel.objects (Dict.del String.eqb id (OrderBook.orders b)) l)
            = without id (map (fun o => (k, o)) (PriceLevel.objects (OrderBook.orders b) l)))
    as Hother.
  { intros k k' l Hin Hni. apply (entries_cancelled s _ sd k'); [now apply (Hok k' l)|].
    symmetry. now apply filter_ids_notin. }
  rewrite !side_queue_entries, without_flat_map, Hst.
  fold sd levels.
  destruct Hown as [[HL Hfree]|(kd & lvl & ids' & Hin & Ek & Rf & Hcase)].
  - rewrite HL. apply flat_map_ext_in. intros k _. unfold entries.
    destruct (Dict.get Dec.eqb k levels) as [l|] eqn:Gk; [|reflexivity].
    destruct (dget_some_in _ _ _ Gk) as (k' & Hink & _).
    apply (Hother k k' l Hink). exact (Hfree sd k' l Hink).
  - pose proof (Hl _ Hin) as Hlv. apply level_ok_spec in Hlv as (_ & Hnd & _).
    pose proof (remove_first_filter _ _ _ Rf Hnd) as Eids.
    assert (forall k' l, In (k', l) levels -> Dec.eqb kd k' = false ->
              ~ In id (PriceLevel.orders l)) as Hnot.
    { intros k' l Hink Ene Hi.
      destruct (queued_where s b sd k' l id o Hb Hink Hi G) as (_ & p' & Hp' & Ep').
      rewrite Hp in Hp'. injection Hp' as <-.
      rewrite (eqb_trans _ _ _ Ek Ep') in Ene. discriminate. }
    pose proof (dget_in _ _ _ Hn Hin) as Gkd.
    destruct Hcase as [[-> HL]|(Hne & l2 & HL & El2)].
    + rewrite HL, dict_keys_del.
      rewrite sorted_filter, flat_map_filter.
      apply flat_map_ext_in. intros k Hk. apply in_sort in Hk.
      destruct (Dec.eqb k kd) eqn:Ekk; cbn [negb].
      * rewrite eqb_sym in Ekk.
        rewrite (key_unique kd k levels Hn (in_keys _ _ _ Hin) Hk Ekk).
        unfold entries. rewrite Gkd.
        rewrite <- (entries_cancelled s _ sd kd kd id lvl
                      (PriceLevel.mk (PriceLevel.price lvl) [] (PriceLevel.total_quantity lvl)));
          [reflexivity|now apply (Hok kd lvl)|exact Eids].
      * unfold entries. rewrite dget_del_other by (now rewrite eqb_sym).
        destruct (Dict.get Dec.eqb k levels) as [l|] eqn:Gk; [|reflexivity].
        destruct (dget_some_in _ _ _ Gk) as (k' & Hink & Ek').
        apply (Hother k k' l Hink). apply (Hnot k' l Hink).
        rewrite (eqb_eqb_r _ _ _ Ek'). now rewrite eqb_sym.
    + rewrite HL, (dict_keys_set_existing _ _ _ _ _ Gkd).
      apply flat_map_ext_in. intros k Hk. apply in_sort in Hk.
      unfold entries. destruct (Dec.eqb kd k) eqn:Ekk.
      * rewrite (key_unique kd k levels Hn (in_keys _ _ _ Hin) Hk Ekk).
        rewrite dget_set_same, Gkd.
        apply (entries_cancelled s _ sd kd); [now apply (Hok kd lvl)|].
        now rewrite El2.
      * rewrite dget_set_other by exact Ekk.
        destruct (Dict.get Dec.eqb k levels) as [l|] eqn:Gk; [|reflexivity].
        destruct (dget_some_in _ _ _ Gk) as (k' & Hink & Ek').
        apply (Hother k k' l Hink). apply (Hnot k' l Hink).
        now rewrite (eqb_eqb_r _ _ _ Ek').
Qed.

Lemma cancel_queue_opposite (s : Z) (id : string) (b b' : OrderBook) (o : Order)
  (p : Decimal) :
  book_ok s b = true ->
  Dict.get String.eqb id (OrderBook.orders b) = Some o ->
  Order.price o = Some p ->
  OrderBook.cancel_order id b = (Ok (Some (Order.set_status CANCELLED o)), b') ->
  side_queue (opposite (Order.side o)) b' = side_queue (opposite (Order.side o)) b.
Proof.
  intros Hb G Hp E.
  destruct (cancel_order_levels s id b o p Hb G Hp) as (b2 & E2 & Hst & Hopp & _).
  rewrite E in E2. injection E2 as <-.
  apply side_queue_same; [now rewrite Hopp|].
  intros k l id' Hin Hi. rewrite Hst. apply store_del_other. intros ->.
  destruct (queued_where s b _ k l id o Hb Hin Hi G) as (Hside & _).
  exact (opposite_neq _ Hside).
Qed.

Lemma with_book_same (e : MatchingEngine) :
  MatchingEngine.with_book (MatchingEngine.order_book e) e = e.
Proof. now destruct e. Qed.

(** X7 ([cancel_order]): the cancellation of an indexed order with a
    price, on a well-formed book and with room in the persistence queue,
    returns the order with status CANCELLED and queues it for persistence;
    the order leaves the index, every other order stays indexed as it was,
    the queue of its side is the queue as it was without that order (the
    other orders keep their priority), the opposite queue and the trade
    history are untouched, and the book stays well formed.  A second
    cancellation of the same identifier returns [(False, None)] and
    changes nothing. *)
Theorem cancel_removes_order (s : Z) (id : string) (e : MatchingEngine) (o : Order)
  (p : Decimal) :
  book_ok s (MatchingEngine.order_book e) = true ->
  Dict.get String.eqb id (OrderBook.orders (MatchingEngine.order_book e)) = Some o ->
  Order.price o = Some p ->
  Z.of_nat (List.length (MatchingEngine._order_queue e)) < MatchingEngine.maxsize ->
  exists e',
    MatchingEngine.cancel_order id e
    = (Ok (true, Some (Order.set_status CANCELLED o)), e')
    /\ book_ok s (MatchingEngine.order_book e') = true
    /\ Dict.get String.eqb id (OrderBook.orders (MatchingEngine.order_book e')) = None
    /\ (forall id', id' <> id ->
          Dict.get String.eqb id' (OrderBook.orders (MatchingEngine.order_book e'))
          = Dict.get String.eqb id' (OrderBook.orders (MatchingEngine.order_book e)))
    /\ side_queue (Order.side o) (MatchingEngine.order_book e')
       = without id (side_queue (Order.side o) (MatchingEngine.order_book e))
    /\ side_queue (opposite (Order.side o)) (MatchingEngine.order_book e')
       = side_queue (opposite (Order.side o)) (MatchingEngine.order_book e)
    /\ MatchingEngine.trades e' = MatchingEngine.trades e
    /\ MatchingEngine._order_queue e'
       = MatchingEngine._order_queue e ++ [Order.set_status CANCELLED o]
    /\ MatchingEngine.cancel_order id e' = (Ok (false, None), e').
Proof.
  intros Hb G Hp Hroom.
  destruct (cancel_order_levels s id _ o p Hb G Hp) as (b' & E & Hst & _).
  pose proof (cancel_book_ok s id _ Hb) as Hb'. rewrite E in Hb'. cbn [snd] in Hb'.
  pose proof (cancel_queue_own s id _ b' o p Hb G Hp E) as Hown.
  pose proof (cancel_queue_opposite s id _ b' o p Hb G Hp E) as Hopp.
  unfold MatchingEngine.cancel_order at 1. rewrite E. unfold put_nowait.
  cbn [MatchingEngine._order_queue MatchingEngine.with_bbo_dirty MatchingEngine.with_book].
  destruct (Z.leb_spec MatchingEngine.maxsize
              (Z.of_nat (List.length (MatchingEngine._order_queue e)))); [lia|].
  rewrite set_status_twice.
  eexists. split; [reflexivity|].
  cbn [MatchingEngine.order_book MatchingEngine.with_order_queue
       MatchingEngine.with_bbo_dirty MatchingEngine.with_book MatchingEngine.trades
       MatchingEngine._order_queue].
  assert (Dict.get String.eqb id (OrderBook.orders b') = None) as Gnone.
  { rewrite Hst. apply sget_del_same. }
  refine (conj Hb' (conj Gnone (conj _ (conj Hown (conj Hopp
            (conj eq_refl (conj eq_refl _))))))).
  - intros id' Hne. rewrite Hst. now apply store_del_other.
  - unfold MatchingEngine.cancel_order, OrderBook.cancel_order.
    cbn [MatchingEngine.order_book MatchingEngine.with_order_queue
         MatchingEngine.with_bbo_dirty MatchingEngine.with_book].
    rewrite Gnone. reflexivity.
Qed.

(** The second ask of scenario S1 is cancelled. *)
Lemma cancel_removes_order_S1 :
  exists e',
    MatchingEngine.cancel_order "a2"%string engine_S1
    = (Ok (true,
           Some (Order.set_status CANCELLED
                   (new_order "a2"%string SELL LIMIT (Some (Dec.mkDecimal 50100 0))
                      (Dec.mkDecimal 5 (-1))))), e')
    /\ book_ok 1 (MatchingEngine.order_book e') = true.
Proof.
  destruct (cancel_removes_order 1 "a2"%string engine_S1
              (new_order "a2"%string SELL LIMIT (Some (Dec.mkDecimal 50100 0))
                 (Dec.mkDecimal 5 (-1)))
              (Dec.mkDecimal 50100 0))
    as (e' & E & Hb & _);
    [vm_compute; reflexivity|vm_compute; reflexivity|vm_compute; reflexivity
    |vm_compute; reflexivity|].
  exists e'. split; assumption.
Defined.

(* ================================================================= *)
(** * The queue after an order has come to rest *)

Lemma forall_entries (st : Store) (levels : list (Decimal * PriceLevel))
  (P : Decimal -> Prop) (ks : list Decimal) :
  (forall k, In k ks -> P k) ->
  Forall (fun km => P (fst km)) (flat_map (entries st levels) ks).
Proof.
  intros H. apply Forall_forall. intros km Hin.
  apply in_flat_map in Hin as (k & Hk & Hin).
  rewrite (in_entries _ _ _ _ Hin). now apply H.
Qed.

Lemma ids_objects_app (st : Store) (l1 l2 : list string) :
  ids_objects st (l1 ++ l2) = ids_objects st l1 ++ ids_objects st l2.
Proof. apply flat_map_app. Qed.

(** The levels that were there keep their entries when a new order is
    indexed. *)
Lemma entries_fresh (s : Z) (st : Store) (sd : OrderSide) (id : string) (o : Order)
  (levels levels' : list (Decimal * PriceLevel)) (k : Decimal) :
  Dict.get String.eqb id st = None ->
  (forall kl, In kl levels -> level_ok s st sd kl = true) ->
  Dict.get Dec.eqb k levels' = Dict.get Dec.eqb k levels ->
  entries (Dict.set String.eqb id o st) levels' k = entries st levels k.
Proof.
  intros Gid Hl Gk. unfold entries. rewrite Gk.
  destruct (Dict.get Dec.eqb k levels) as [l|] eqn:G; [|reflexivity].
  destruct (dget_some_in _ _ _ G) as (k' & Hin & _).
  specialize (Hl _ Hin). apply level_ok_spec in Hl as (_ & _ & Hok & _).
  f_equal. apply objects_ext; [reflexivity|]. intros id' Hi.
  apply sget_set_other. intros <-.
  specialize (Hok id Hi). apply id_ok_spec in Hok as (m & Gm & _). congruence.
Qed.

(** Where a fresh order enters the queue of its side. *)
Lemma add_order_queue (s : Z) (o : Order) (p : Decimal) (skip : bool)
  (b b2 : OrderBook) :
  book_ok s b = true ->
  OrderBook.add_order o skip b = (Ok true, b2) ->
  Order.price o = Some p ->
  exists q1 q2 k,
    side_queue (Order.side o) b = q1 ++ q2
    /\ side_queue (Order.side o) b2 = q1 ++ (k, o) :: q2
    /\ Dec.eqb k p = true
    /\ Forall (fun km => sort_le (side_eqb (Order.side o) BUY) (fst km) p = true) q1
    /\ Forall (fun km => sort_le (side_eqb (Order.side o) BUY) p (fst km) = true
                         /\ Dec.eqb (fst km) p = false) q2.
Proof.
  intros Hb E Hp.
  destruct (add_order_levels o p skip b b2 E Hp) as (L & Est & _ & Gid).
  cbv zeta in L.
  set (sd := Order.side o) in *. set (rev := side_eqb sd BUY).
  set (levels := OrderBookSide.price_levels (OrderBook.side_of sd b)) in *.
  set (st := OrderBook.orders b) in *.
  pose proof (book_ok_side s b sd Hb) as HS.
  apply side_ok_spec in HS as (_ & Hn & Hl & _). fold levels st in Hn, Hl.
  rewrite !side_queue_entries. fold sd rev levels st. rewrite L, Est.
  pose proof (sorted_ordered rev (Dict.keys levels)) as Hord.
  assert (forall k, Dec.eqb p k = false ->
            entries (Dict.set String.eqb (Order.order_id o) o st)
              (Dict.set Dec.eqb p
                 (PriceLevel.add_order o
                    match Dict.get Dec.eqb p levels with
                    | Some l => l
                    | None => PriceLevel.init p
                    end) levels) k
            = entries st levels k) as Hsame.
  { intros k Ek. apply (entries_fresh s st sd); try assumption.
    now apply dget_set_other. }
  destruct (Dict.get Dec.eqb p levels) as [l|] eqn:Gp.
  - destruct (dget_some_in _ _ _ Gp) as (kd & Hin & Ek).
    pose proof (dget_in _ _ _ Hn Hin) as Gkd.
    rewrite (dict_keys_set_existing _ _ _ _ _ Gp).
    assert (In kd (sorted rev (Dict.keys levels))) as Hkd.
    { apply in_sort. now apply in_keys in Hin. }
    destruct (in_split _ _ Hkd) as (S1 & S2 & ES). rewrite ES in Hord |- *.
    pose proof (nodup_keys_sorted rev _ Hn) as HnS. rewrite ES in HnS.
    pose proof (nodup_keys_split _ _ _ HnS) as Hne.
    rewrite !flat_map_app. cbn [flat_map].
    assert (Dec.eqb p kd = true) as Ek' by now rewrite eqb_sym.
    assert (forall k, In k S1 \/ In k S2 -> Dec.eqb p k = false) as Hpk.
    { intros k Hk. rewrite (eqb_eqb_l _ _ k Ek'), eqb_sym. now apply Hne. }
    assert (entries (Dict.set String.eqb (Order.order_id o) o st)
              (Dict.set Dec.eqb p (PriceLevel.add_order o l) levels) kd
            = entries st levels kd ++ [(kd, o)]) as Ekd.
    { unfold entries. rewrite (dset_equiv p kd _ l levels Ek' Gkd), dget_set_same, Gkd.
      change (PriceLevel.objects (Dict.set String.eqb (Order.order_id o) o st)
                (PriceLevel.add_order o l))
        with (ids_objects (Dict.set String.eqb (Order.order_id o) o st)
                (PriceLevel.orders l ++ [Order.order_id o])).
      rewrite ids_objects_app, map_app. f_equal.
      - f_equal. apply ids_objects_ext. intros id' Hi. apply sget_set_other. intros <-.
        specialize (Hl _ Hin). apply level_ok_spec in Hl as (_ & _ & Hok & _).
        specialize (Hok _ Hi). apply id_ok_spec in Hok as (m & Gm & _). congruence.
      - unfold ids_objects. cbn [flat_map]. now rewrite sget_set_same. }
    exists (flat_map (entries st levels) S1 ++ entries st levels kd),
      (flat_map (entries st levels) S2), kd.
    split; [now rewrite <- app_assoc|]. split.
    { rewrite Ekd, <- !app_assoc. cbn [app]. f_equal.
      - apply flat_map_ext_in. intros k Hk. apply Hsame, Hpk. now left.
      - do 2 f_equal. apply flat_map_ext_in. intros k Hk. apply Hsame, Hpk. now right. }
    split; [exact Ek|]. split.
    + apply Forall_app. split.
      * apply (forall_entries st levels (fun k => sort_le rev k p = true)).
        intros k Hk. rewrite <- (sort_le_eqb_r rev k kd p Ek).
        apply (fop_split_l _ _ _ Hord k kd Hk). now left.
      * apply Forall_forall. intros km Hkm. rewrite (in_entries _ _ _ _ Hkm).
        rewrite (sort_le_eqb_l rev kd p p Ek). apply sort_le_refl.
    + apply (forall_entries st levels
               (fun k => sort_le rev p k = true /\ Dec.eqb k p = false)).
      intros k Hk. split.
      * rewrite <- (sort_le_eqb_l rev kd p k Ek). exact (fop_split _ _ _ _ Hord k Hk).
      * rewrite <- (eqb_eqb_r k kd p Ek). apply Hne. now right.
  - assert (forall y, In y (Dict.keys levels) -> Dec.eqb y p = false) as Hnew.
    { intros y Hy. destruct (keys_in _ _ Hy) as (v & Hv).
      exact (dict_get_none _ _ _ Gp y v Hv). }
    rewrite (dict_keys_set_new _ _ _ _ Gp). fold (sorted rev (Dict.keys levels ++ [p])).
    rewrite (sorted_app_new rev p _ Hnew).
    destruct (insert_position rev p _ Hord) as (S1 & S2 & ES & -> & H1 & H2).
    rewrite ES in *.
    assert (forall k, In k S1 \/ In k S2 -> Dec.eqb p k = false) as Hpk.
    { intros k Hk. rewrite eqb_sym. apply Hnew. apply (in_sort (sort_le rev)).
      fold (sorted rev (Dict.keys levels)). rewrite ES. now apply in_or_app. }
    assert (entries (Dict.set String.eqb (Order.order_id o) o st)
              (Dict.set Dec.eqb p (PriceLevel.add_order o (PriceLevel.init p)) levels) p
            = [(p, o)]) as Ep.
    { unfold entries. rewrite dget_set_same.
      unfold PriceLevel.objects, PriceLevel.add_order, PriceLevel.init.
      cbn [PriceLevel.orders app flat_map]. now rewrite sget_set_same. }
    exists (flat_map (entries st levels) S1), (flat_map (entries st levels) S2), p.
    split; [now rewrite flat_map_app|]. split.
    { rewrite flat_map_app. cbn [flat_map]. rewrite Ep. cbn [app]. f_equal.
      - apply flat_map_ext_in. intros k Hk. apply Hsame, Hpk. now left.
      - f_equal. apply flat_map_ext_in. intros k Hk. apply Hsame, Hpk. now right. }
    split; [apply eqb_refl|]. split.
    + apply (forall_entries st levels (fun k => sort_le rev k p = true)).
      intros k Hk. rewrite Forall_forall in H1. apply sort_le_total. now apply H1.
    + apply (forall_entries st levels
               (fun k => sort_le rev p k = true /\ Dec.eqb k p = false)).
      intros k Hk. rewrite Forall_forall in H2. split; [now apply H2|].
      rewrite eqb_sym. apply Hpk. now right.
Qed.

(** The conditions of [book_add_order_spec] from their boolean forms. *)
Lemma add_order_conditions (s : Z) (o : Order) (p : Decimal) (b : OrderBook) :
  Dict.mem String.eqb (Order.order_id o) (OrderBook.orders b) = false ->
  Order.price o = Some p ->
  resting_ok s (Order.side o) p (Order.order_id o) o = true ->
  rest_room s o b = true ->
  Dict.get String.eqb (Order.order_id o) (OrderBook.orders b) = None
  /\ forall l, Dict.get Dec.eqb p
                 (OrderBookSide.price_levels (OrderBook.side_of (Order.side o) b)) = Some l ->
       Dec.units s (PriceLevel.total_quantity l) + rem_units s o < Dec.bound.
Proof.
  intros Hm Hp Hr Hrr. split.
  - unfold Dict.mem in Hm.
    now destruct (Dict.get String.eqb (Order.order_id o) (OrderBook.orders b)).
  - intros l G. unfold rest_room in Hrr. rewrite Hp, G in Hrr. apply Z.ltb_lt in Hrr.
    apply resting_ok_spec in Hr as (_ & _ & _ & _ & _ & Hf). unfold rem_units. lia.
Qed.

(** No entry of the queue belongs to an identifier that is not indexed. *)
Lemma queue_ids_indexed (s : Z) (sd : OrderSide) (b : OrderBook) (id : string) :
  book_ok s b = true ->
  Dict.get String.eqb id (OrderBook.orders b) = None ->
  without id (side_queue sd b) = side_queue sd b.
Proof.
  intros Hb Gid. apply filter_all. intros [k m] Hin. cbn [snd].
  apply negb_true_iff, String.eqb_neq. intros Eid.
  apply in_queue_of in Hin as (l & id' & Hl & Hi & Gm).
  pose proof (book_ok_side s b sd Hb) as HS.
  apply side_ok_spec in HS as (_ & Hn & Hlv & _).
  apply in_levels_best_first in Hl; [|exact Hn].
  specialize (Hlv _ Hl). apply level_ok_spec in Hlv as (_ & _ & Hok & _).
  specialize (Hok _ Hi). apply id_ok_spec in Hok as (m' & Gm' & Rm).
  rewrite Gm in Gm'. injection Gm' as <-.
  apply resting_ok_spec in Rm as (Em & _). congruence.
Qed.

(** X8 ([add_order], price-time priority of resting orders): a
    well-formed order with a new identifier that is added to a well-formed
    book is indexed and enters the queue of its side behind every order
    whose price is at least as good as its own (in particular behind the
    orders already resting at its price) and ahead of every order with a
    strictly worse price; the orders already in the queue keep their
    relative order, the opposite queue is untouched and the book stays
    well formed. *)
Theorem resting_order_priority (s : Z) (o : Order) (p : Decimal) (skip : bool)
  (b : OrderBook) :
  book_ok s b = true ->
  Dict.mem String.eqb (Order.order_id o) (OrderBook.orders b) = false ->
  Order.price o = Some p -> fitsb p = true ->
  resting_ok s (Order.side o) p (Order.order_id o) o = true ->
  rest_room s o b = true ->
  exists b2 q1 q2 k,
    OrderBook.add_order o skip b = (Ok true, b2)
    /\ book_ok s b2 = true
    /\ Dict.get String.eqb (Order.order_id o) (OrderBook.orders b2) = Some o
    /\ side_queue (Order.side o) b = q1 ++ q2
    /\ side_queue (Order.side o) b2 = q1 ++ (k, o) :: q2
    /\ Dec.eqb k p = true
    /\ Forall (fun km => sort_le (side_eqb (Order.side o) BUY) (fst km) p = true) q1
    /\ Forall (fun km => sort_le (side_eqb (Order.side o) BUY) p (fst km) = true
                         /\ Dec.eqb (fst km) p = false) q2
    /\ side_queue (opposite (Order.side o)) b2 = side_queue (opposite (Order.side o)) b.
Proof.
  intros Hb Hm Hp Hfp Hr Hrr. apply fitsb_spec in Hfp.
  destruct (add_order_conditions s o p b Hm Hp Hr Hrr) as [Gid Hroom].
  destruct (book_add_order_spec s o p skip b Hb Gid Hp Hfp Hr Hroom)
    as (b2 & E & Hb2 & G2 & Hst & Hopp & _).
  destruct (add_order_queue s o p skip b b2 Hb E Hp) as (q1 & q2 & k & Q1 & Q2 & Q3 & Q4 & Q5).
  exists b2, q1, q2, k.
  refine (conj E (conj Hb2 (conj G2 (conj Q1 (conj Q2 (conj Q3 (conj Q4 (conj Q5 _)))))))).
  apply side_queue_same; [now rewrite Hopp|].
  intros k' l id' Hin Hi. apply Hst. intros ->.
  pose proof (book_ok_side s b (opposite (Order.side o)) Hb) as HS'.
  apply side_ok_spec in HS' as (_ & _ & Hlv & _).
  specialize (Hlv _ Hin). apply level_ok_spec in Hlv as (_ & _ & Hok & _).
  specialize (Hok _ Hi). apply id_ok_spec in Hok as (m & Gm & _). congruence.
Qed.

(** A third ask at the price of A and B queues behind them. *)
Lemma resting_order_priority_AB :
  exists b2 q1 q2 k,
    OrderBook.add_order order_C false (MatchingEngine.order_book engine_AB) = (Ok true, b2)
    /\ side_queue SELL (MatchingEngine.order_book engine_AB) = q1 ++ q2
    /\ side_queue SELL b2 = q1 ++ (k, order_C) :: q2
    /\ Forall (fun km => Dec.leb (fst km) (Dec.mkDecimal 50000 0) = true) q1.
Proof.
  destruct (resting_order_priority 1 order_C (Dec.mkDecimal 50000 0) false
              (MatchingEngine.order_book engine_AB))
    as (b2 & q1 & q2 & k & E & _ & _ & Q1 & Q2 & _ & Q4 & _);
    [vm_compute; reflexivity|vm_compute; reflexivity|vm_compute; reflexivity
    |vm_compute; reflexivity|vm_compute; reflexivity|vm_compute; reflexivity|].
  exists b2, q1, q2, k. repeat split; assumption.
Defined.

(** X9 (cancel undoes add): adding a well-formed order with a new
    identifier and cancelling it again gives back both queues and the
    index as they were (the order is returned with status CANCELLED), and
    the book is well formed at each step. *)
Theorem cancel_undoes_add (s : Z) (o : Order) (p : Decimal) (skip : bool)
  (b : OrderBook) :
  book_ok s b = true ->
  Dict.mem String.eqb (Order.order_id o) (OrderBook.orders b) = false ->
  Order.price o = Some p -> fitsb p = true ->
  resting_ok s (Order.side o) p (Order.order_id o) o = true ->
  rest_room s o b = true ->
  exists b2 b3,
    OrderBook.add_order o skip b = (Ok true, b2)
    /\ OrderBook.cancel_order (Order.order_id o) b2
       = (Ok (Some (Order.set_status CANCELLED o)), b3)
    /\ book_ok s b2 = true /\ book_ok s b3 = true
    /\ side_queue BUY b3 = side_queue BUY b
    /\ side_queue SELL b3 = side_queue SELL b
    /\ forall id, Dict.get String.eqb id (OrderBook.orders b3)
                  = Dict.get String.eqb id (OrderBook.orders b).
Proof.
  intros Hb Hm Hp Hfp Hr Hrr. apply fitsb_spec in Hfp.
  destruct (add_order_conditions s o p b Hm Hp Hr Hrr) as [Gid Hroom].
  destruct (book_add_order_spec s o p skip b Hb Gid Hp Hfp Hr Hroom)
    as (b2 & E & Hb2 & G2 & Hst & Hopp & _).
  destruct (add_order_queue s o p skip b b2 Hb E Hp) as (q1 & q2 & k & Q1 & Q2 & _).
  destruct (cancel_order_levels s _ b2 o p Hb2 G2 Hp) as (b3 & E3 & Hst3 & _).
  pose proof (cancel_book_ok s (Order.order_id o) _ Hb2) as Hb3.
  rewrite E3 in Hb3. cbn [snd] in Hb3.
  pose proof (cancel_queue_own s _ b2 b3 o p Hb2 G2 Hp E3) as Hown.
  pose proof (cancel_queue_opposite s _ b2 b3 o p Hb2 G2 Hp E3) as Hopp3.
  assert (side_queue (Order.side o) b3 = side_queue (Order.side o) b) as Eown.
  { rewrite Hown, Q2.
    pose proof (queue_ids_indexed s (Order.side o) b _ Hb Gid) as Hq.
    rewrite Q1 in Hq |- *. unfold without in *.
    rewrite filter_app in Hq |- *. cbn [filter snd].
    rewrite String.eqb_refl. cbn [negb]. exact Hq. }
  assert (side_queue (opposite (Order.side o)) b3
          = side_queue (opposite (Order.side o)) b) as Eopp.
  { rewrite Hopp3. apply side_queue_same; [now rewrite Hopp|].
    intros k' l id' Hin Hi. apply Hst. intros ->.
    pose proof (book_ok_side s b (opposite (Order.side o)) Hb) as HS'.
    apply side_ok_spec in HS' as (_ & _ & Hlv & _).
    specialize (Hlv _ Hin). apply level_ok_spec in Hlv as (_ & _ & Hok & _).
    specialize (Hok _ Hi). apply id_ok_spec in Hok as (m & Gm & _). congruence. }
  exists b2, b3. refine (conj E (conj E3 (conj Hb2 (conj Hb3 _)))).
  split; [|split].
  - destruct (Order.side o); cbn [opposite] in Eopp; assumption.
  - destruct (Order.side o); cbn [opposite] in Eopp; assumption.
  - intros id. rewrite Hst3.
    destruct (String.eqb_spec id (Order.order_id o)) as [->|Hne].
    + now rewrite sget_del_same, Gid.
    + rewrite (store_del_other _ _ _ Hne). now apply Hst.
Qed.

(** A third ask is added to the two asks at 50000 and cancelled again. *)
Lemma cancel_undoes_add_AB :
  exists b2 b3,
    OrderBook.add_order order_C false (MatchingEngine.order_book engine_AB) = (Ok true, b2)
    /\ OrderBook.cancel_order "C"%string b2
       = (Ok (Some (Order.set_status CANCELLED order_C)), b3)
    /\ side_queue SELL b3 = side_queue SELL (MatchingEngine.order_book engine_AB).
Proof.
  destruct (cancel_undoes_add 1 order_C (Dec.mkDecimal 50000 0) false
              (MatchingEngine.order_book engine_AB))
    as (b2 & b3 & E & E3 & _ & _ & _ & Q & _);
    [vm_compute; reflexivity|vm_compute; reflexivity|vm_compute; reflexivity
    |vm_compute; reflexivity|vm_compute; reflexivity|vm_compute; reflexivity|].
  exists b2, b3. repeat split; assumption.
Defined.


(* ================================================================= *)
(** * The history and the queues stay within their capacities *)

Lemma bounded_spec (e : MatchingEngine) :
  bounded e = true <->
  Z.of_nat (List.length (MatchingEngine.trades e)) <= MatchingEngine.maxlen
  /\ Z.of_nat (List.length (MatchingEngine._order_queue e)) <= MatchingEngine.maxsize
  /\ Z.of_nat (List.length (MatchingEngine._trade_queue e)) <= MatchingEngine.maxsize.
Proof.
  unfold bounded. rewrite !andb_true_iff, !Z.leb_le. tauto.
Qed.

Lemma deque_append_length {A : Type} (n : Z) (l : list A) (x : A) :
  Z.of_nat (List.length l) <= n ->
  Z.of_nat (List.length (deque_append n l x)) <= n.
Proof.
  intros H. unfold deque_append.
  destruct (Z.ltb_spec n (Z.of_nat (List.length (l ++ [x])))) as [Hlt|Hge]; [|exact Hge].
  rewrite length_app in Hlt. cbn [List.length] in Hlt.
  destruct l as [|y l]; cbn [app tl List.length] in *; [lia|].
  rewrite length_app. cbn [List.length]. lia.
Qed.

Lemma put_nowait_length {A : Type} (n : Z) (q q' : list A) (x : A) :
  put_nowait n q x = Ok q' -> Z.of_nat (List.length q') <= n.
Proof.
  unfold put_nowait. destruct (Z.leb_spec n (Z.of_nat (List.length q))); [discriminate|].
  intros [= <-]. rewrite length_app. cbn [List.length]. lia.
Qed.

(** The book can be replaced without touching the history or the queues. *)
Lemma bounded_with_book (b : OrderBook) (e : MatchingEngine) :
  bounded (MatchingEngine.with_book b e) = bounded e.
Proof. reflexivity. Qed.

Lemma bounded_with_bbo_dirty (d : bool) (e : MatchingEngine) :
  bounded (MatchingEngine.with_bbo_dirty d e) = bounded e.
Proof. reflexivity. Qed.

Lemma bounded_enqueue_maker (enq : bool) (m : Order) (fr : MatchingEngine.frame) :
  bounded (MatchingEngine.engine fr) = true ->
  bounded (MatchingEngine.engine (snd (MatchingEngine.enqueue_maker enq m fr))) = true.
Proof.
  intros H. unfold MatchingEngine.enqueue_maker. destruct enq; [|exact H].
  destruct (put_nowait _ _ m) as [q| |] eqn:E; cbn [snd]; try exact H.
  apply bounded_spec in H as (H1 & H2 & H3). apply bounded_spec.
  cbn. split; [exact H1|]. split; [|exact H3].
  exact (put_nowait_length _ _ _ _ E).
Qed.

Lemma bounded_fill_level (enq : bool) (sd : OrderSide) (bp : Decimal) :
  forall (snapshot : list string) (fr : MatchingEngine.frame),
  bounded (MatchingEngine.engine fr) = true ->
  bounded (MatchingEngine.engine
             (snd (MatchingEngine._fill_level enq sd bp snapshot fr))) = true.
Proof.
  induction snapshot as [|id rest IH]; intros fr H; [exact H|].
  cbn [MatchingEngine._fill_level].
  destruct (Dec.leb (MatchingEngine.remaining fr) Dec.zero); [exact H|].
  destruct (Dict.get String.eqb id _) as [resting|]; [|now apply IH].
  unfold MatchingEngine._create_trade_fast.
  set (trade := Trade.mk _ _ _ _ _ _ _ _).
  set (e1 := MatchingEngine.with_trades _ _).
  assert (bounded e1 = true) as H1.
  { apply bounded_spec in H as (B1 & B2 & B3). apply bounded_spec. subst e1. cbn.
    split; [|split; assumption]. now apply deque_append_length. }
  cbv zeta.
  match goal with
  | |- context [let (r, b2) := ?X in _] => destruct X as [r b2]
  end.
  set (fr2 := MatchingEngine.mkFrame (MatchingEngine.with_book b2 e1) _ _ _).
  assert (bounded (MatchingEngine.engine fr2) = true) as H2 by exact H1.
  destruct r as [ok|x|]; cbn [snd]; try exact H2.
  pose proof (bounded_enqueue_maker enq
                (Order.set_status
                   (if Dec.eqb
                         (Order.remaining_quantity
                            (Order.set_filled_quantity
                               (Dec.add (Order.filled_quantity resting)
                                  (Dec.min (MatchingEngine.remaining fr)
                                     (Order.remaining_quantity resting))) resting))
                         Dec.zero
                    then FILLED else PARTIALLY_FILLED)
                   (Order.set_filled_quantity
                      (Dec.add (Order.filled_quantity resting)
                         (Dec.min (MatchingEngine.remaining fr)
                            (Order.remaining_quantity resting))) resting))
                fr2 H2) as H3.
  destruct (MatchingEngine.enqueue_maker enq _ fr2) as [r' fr3].
  cbn [snd] in H3. destruct r'; cbn [snd]; try exact H3. now apply IH.
Qed.

Lemma bounded_with_engine_side (sd : OrderSide) (S : OrderBookSide)
  (fr : MatchingEngine.frame) :
  bounded (MatchingEngine.engine (MatchingEngine.with_engine_side sd S fr))
  = bounded (MatchingEngine.engine fr).
Proof. reflexivity. Qed.

Lemma bounded_prune_if_empty (sd : OrderSide) (bp : Decimal) (fr : MatchingEngine.frame) :
  bounded (MatchingEngine.engine (MatchingEngine.prune_if_empty sd bp fr))
  = bounded (MatchingEngine.engine fr).
Proof.
  unfold MatchingEngine.prune_if_empty.
  destruct (Dict.get Dec.eqb bp _) as [lvl|]; [|reflexivity].
  destruct (PriceLevel.empty _ lvl) as [em lvl']. reflexivity.
Qed.

Lemma bounded_sweep_loop (sd : OrderSide) (limit : option Decimal) :
  forall (fuel : nat) (fr : MatchingEngine.frame),
  bounded (MatchingEngine.engine fr) = true ->
  bounded (MatchingEngine.engine
             (snd (MatchingEngine._sweep_loop fuel sd limit fr))) = true.
Proof.
  induction fuel as [|fuel IH]; intros fr H; [exact H|].
  cbn [MatchingEngine._sweep_loop].
  destruct (_ && _); [|exact H].
  destruct (OrderBookSide.get_best_price _ _) as [best s1].
  destruct best as [bp|]; [|exact H].
  destruct (match limit with Some p => _ | None => false end); [exact H|].
  destruct (Dict.get Dec.eqb bp _) as [level|]; [|exact H].
  pose proof (bounded_fill_level true sd bp (PriceLevel.orders level)
                (MatchingEngine.with_engine_side sd s1 fr) H) as H2.
  destruct (MatchingEngine._fill_level true sd bp _ _) as [r fr2].
  cbn [snd] in H2. destruct r; cbn [snd]; try exact H2. now apply IH.
Qed.

Lemma bounded_constrained_loop (sd : OrderSide) (limit : Decimal) :
  forall (fuel : nat) (fr : MatchingEngine.frame),
  bounded (MatchingEngine.engine fr) = true ->
  bounded (MatchingEngine.engine
             (snd (MatchingEngine._constrained_loop fuel sd limit fr))) = true.
Proof.
  induction fuel as [|fuel IH]; intros fr H; [exact H|].
  cbn [MatchingEngine._constrained_loop].
  destruct (Dec.ltb Dec.zero _); [|exact H].
  destruct (OrderBookSide.get_best_price _ _) as [best s1].
  destruct best as [bp|]; [|exact H].
  destruct (MatchingEngine.worse _ bp limit); [exact H|].
  destruct (Dict.get Dec.eqb bp _) as [level|]; [|exact H].
  pose proof (bounded_fill_level false sd bp (PriceLevel.orders level)
                (MatchingEngine.with_engine_side sd s1 fr) H) as H2.
  destruct (MatchingEngine._fill_level false sd bp _ _) as [r fr2].
  cbn [snd] in H2. destruct r; cbn [snd]; try exact H2.
  apply IH. now rewrite bounded_prune_if_empty.
Qed.

Lemma bounded_finish (r : outcome unit) (fr : MatchingEngine.frame) (st : OrderStatus) :
  snd (MatchingEngine.finish r fr st) = MatchingEngine.engine fr.
Proof. now destruct r. Qed.

Lemma bounded_market (o : Order) (e : MatchingEngine) :
  bounded e = true ->
  bounded (snd (MatchingEngine._match_market_order_sync o e)) = true.
Proof.
  intros H. unfold MatchingEngine._match_market_order_sync.
  pose proof (bounded_sweep_loop (opposite (Order.side o)) None
                (MatchingEngine.loop_bound e)
                (MatchingEngine.mkFrame e o (Order.quantity o) []) H) as H2.
  destruct (MatchingEngine._sweep_loop _ _ None _) as [r fr].
  now rewrite bounded_finish.
Qed.

Lemma bounded_constrained (o : Order) (e : MatchingEngine) :
  bounded e = true ->
  bounded (snd (MatchingEngine._match_limit_constrained_sync o e)) = true.
Proof.
  intros H. unfold MatchingEngine._match_limit_constrained_sync.
  destruct (Order.price o) as [p|].
  - pose proof (bounded_constrained_loop (opposite (Order.side o)) p
                  (MatchingEngine.loop_bound e)
                  (MatchingEngine.mkFrame e o (Order.quantity o) []) H) as H2.
    destruct (MatchingEngine._constrained_loop _ _ p _) as [r fr].
    now rewrite bounded_finish.
  - exact H.
Qed.

Lemma bounded_rest_or_fill (r : outcome unit) (fr : MatchingEngine.frame) :
  bounded (MatchingEngine.engine fr) = true ->
  bounded (snd (MatchingEngine.rest_or_fill r fr)) = true.
Proof.
  intros H. unfold MatchingEngine.rest_or_fill. destruct r; try exact H.
  destruct (Dec.ltb Dec.zero _); [|exact H].
  destruct (OrderBook.add_order _ false _) as [ra b2]. now destruct ra.
Qed.

Lemma bounded_limit (o : Order) (e : MatchingEngine) :
  bounded e = true ->
  bounded (snd (MatchingEngine._match_limit_order_sync o e)) = true.
Proof.
  intros H. unfold MatchingEngine._match_limit_order_sync.
  destruct (OrderBook._best_from_side _ _) as [best b1].
  set (fr0 := MatchingEngine.mkFrame (MatchingEngine.with_book b1 e) o _ []).
  assert (bounded (MatchingEngine.engine fr0) = true) as H0 by exact H.
  destruct (MatchingEngine.crosses o best) as [[|]| |]; try now apply bounded_rest_or_fill.
  destruct (Order.price o) as [p|]; [|now apply bounded_rest_or_fill].
  pose proof (bounded_sweep_loop (opposite (Order.side o)) (Some p)
                (MatchingEngine.loop_bound (MatchingEngine.engine fr0)) fr0 H0) as H2.
  destruct (MatchingEngine._sweep_loop _ _ (Some p) fr0) as [r fr].
  now apply bounded_rest_or_fill.
Qed.

Lemma bounded_ioc (o : Order) (e : MatchingEngine) :
  bounded e = true ->
  bounded (snd (MatchingEngine._match_ioc_order_sync o e)) = true.
Proof.
  intros H. unfold MatchingEngine._match_ioc_order_sync.
  pose proof (bounded_market o e H) as Hm.
  pose proof (bounded_constrained o e H) as Hc.
  destruct (Order.price o).
  - destruct (MatchingEngine._match_limit_constrained_sync o e) as [[r o1] e1].
    now destruct r.
  - destruct (MatchingEngine._match_market_order_sync o e) as [[r o1] e1].
    now destruct r.
Qed.

Lemma bounded_fok (o : Order) (e : MatchingEngine) :
  bounded e = true ->
  bounded (snd (MatchingEngine._match_fok_order_sync o e)) = true.
Proof.
  intros H. unfold MatchingEngine._match_fok_order_sync.
  destruct (negb _); [exact H|].
  pose proof (bounded_market o e H) as Hm.
  pose proof (bounded_constrained o e H) as Hc.
  destruct (Order.price o).
  - destruct (MatchingEngine._match_limit_constrained_sync o e) as [[r o1] e1].
    destruct r; try assumption. now destruct (Dec.ltb _ _).
  - destruct (MatchingEngine._match_market_order_sync o e) as [[r o1] e1].
    destruct r; try assumption. now destruct (Dec.ltb _ _).
Qed.

Lemma bounded_queue_trades (ts : list Trade) :
  forall e, bounded e = true -> bounded (MatchingEngine.queue_trades ts e) = true.
Proof.
  induction ts as [|t ts IH]; intros e H; [exact H|].
  cbn [MatchingEngine.queue_trades].
  destruct (put_nowait _ _ t) as [q| |] eqn:E; try exact H.
  apply IH. apply bounded_spec in H as (H1 & H2 & H3). apply bounded_spec. cbn.
  split; [exact H1|]. split; [exact H2|]. exact (put_nowait_length _ _ _ _ E).
Qed.

Lemma bounded_post_process (o : Order) (ts : list Trade) (e : MatchingEngine) :
  bounded e = true -> bounded (MatchingEngine.post_process o ts e) = true.
Proof.
  intros H. unfold MatchingEngine.post_process.
  destruct (put_nowait _ _ o) as [q| |] eqn:E; try exact H.
  apply bounded_queue_trades. apply bounded_spec in H as (H1 & H2 & H3).
  apply bounded_spec. cbn. split; [exact H1|]. split; [|exact H3].
  exact (put_nowait_length _ _ _ _ E).
Qed.

(** X10 (bounded memory): whatever order is submitted and whatever
    identifier is cancelled, in whatever state of the book and whether the
    call returns or raises, the trade history never holds more than its
    10000 entries and neither persistence queue ever holds more than its
    10000 entries; the new engine starts within these bounds. *)
Theorem capacities_respected (o : Order) (id : string) (e : MatchingEngine) :
  bounded e = true ->
  bounded (snd (MatchingEngine.submit_order o e)) = true
  /\ bounded (snd (MatchingEngine.cancel_order id e)) = true
  /\ bounded (MatchingEngine.init (MatchingEngine.symbol e)) = true.
Proof.
  intros H. split; [|split; [|reflexivity]].
  - unfold MatchingEngine.submit_order.
    destruct (MatchingEngine._validate_order o) as [ok msg].
    destruct ok; cbn [negb]; [|exact H].
    pose proof (bounded_market o e H) as Hm.
    pose proof (bounded_limit o e H) as Hl.
    pose proof (bounded_ioc o e H) as Hi.
    pose proof (bounded_fok o e H) as Hf.
    assert (forall ts o1 e1, bounded e1 = true ->
              bounded (snd (Ok (true, "Order processed successfully"%string, ts), o1,
                            MatchingEngine.post_process o1 ts
                              match ts with
                              | [] => e1
                              | _ :: _ => MatchingEngine.with_bbo_dirty true e1
                              end)) = true) as Hpost.
    { intros ts o1 e1 H1. cbn [snd]. apply bounded_post_process. now destruct ts. }
    destruct (Order.order_type o); try exact H.
    + destruct (MatchingEngine._match_market_order_sync o e) as [[r o1] e1].
      destruct r; try exact Hm. now apply Hpost.
    + destruct (MatchingEngine._match_limit_order_sync o e) as [[r o1] e1].
      destruct r; try exact Hl. now apply Hpost.
    + destruct (MatchingEngine._match_ioc_order_sync o e) as [[r o1] e1].
      destruct r; try exact Hi. now apply Hpost.
    + destruct (MatchingEngine._match_fok_order_sync o e) as [[r o1] e1].
      destruct r; try exact Hf. now apply Hpost.
  - unfold MatchingEngine.cancel_order.
    destruct (OrderBook.cancel_order id _) as [r b].
    destruct r as [[o0|]| |]; try exact H.
    destruct (put_nowait _ _ _) as [q| |] eqn:E; try exact H.
    cbn [snd]. apply bounded_spec in H as (H1 & H2 & H3). apply bounded_spec. cbn.
    split; [exact H1|]. split; [|exact H3]. exact (put_nowait_length _ _ _ _ E).
Qed.

(** A MARKET order against scenario S1 with a full persistence queue. *)
Lemma capacities_respected_full :
  bounded (snd (MatchingEngine.submit_order
                  (new_order "t1"%string BUY MARKET None (Dec.mkDecimal 12 (-1)))
                  engine_full)) = true.
Proof.
  refine (proj1 (capacities_respected _ EmptyString engine_full _)).
  vm_compute. reflexivity.
Defined.


(* ================================================================= *)
(** * Recovery *)

(** [add_order] never removes an identifier from the index, and indexes
    the order it is given. *)
Lemma add_order_index (o : Order) (skip : bool) (b : OrderBook) :
  (forall id, Dict.mem String.eqb id (OrderBook.orders b) = true ->
     Dict.mem String.eqb id (OrderBook.orders (snd (OrderBook.add_order o skip b))) = true)
  /\ Dict.mem String.eqb (Order.order_id o)
       (OrderBook.orders (snd (OrderBook.add_order o skip b))) = true.
Proof.
  unfold OrderBook.add_order.
  destruct (Dict.mem String.eqb (Order.order_id o) (OrderBook.orders b)) eqn:M.
  - cbn [snd]. auto.
  - destruct (OrderBookSide.add_order o _) as [r s] eqn:E.
    assert (OrderBook.orders
              (snd (match r with
                    | Ok _ => (Ok true, OrderBook.with_side (Order.side o) s
                                 (OrderBook.with_orders
                                    (Dict.set String.eqb (Order.order_id o) o
                                       (OrderBook.orders b)) b))
                    | Raise e => (Raise e, OrderBook.with_side (Order.side o) s
                                    (OrderBook.with_orders
                                       (Dict.set String.eqb (Order.order_id o) o
                                          (OrderBook.orders b)) b))
                    | Unfinished => (Unfinished, OrderBook.with_side (Order.side o) s
                                       (OrderBook.with_orders
                                          (Dict.set String.eqb (Order.order_id o) o
                                             (OrderBook.orders b)) b))
                    end))
            = Dict.set String.eqb (Order.order_id o) o (OrderBook.orders b)) as ->.
    { destruct r; cbn [snd]; now rewrite orders_with_side. }
    unfold Dict.mem. split.
    + intros id H. destruct (String.eqb_spec (Order.order_id o) id) as [<-|Hne].
      * now rewrite sget_set_same.
      * now rewrite (sget_set_other _ _ _ _ Hne).
    + now rewrite sget_set_same.
Qed.

Lemma rebuild_id (r : Persistence.row) (o : Order) :
  Persistence.rebuild r = Some o -> Order.order_id o = Persistence.r_order_id r.
Proof.
  unfold Persistence.rebuild.
  destruct (OrderSide_of (Persistence.r_side r)),
    (OrderType_of (Persistence.r_order_type r)),
    (OrderStatus_of (Persistence.r_status r)),
    (fromisoformat (Persistence.r_timestamp r)),
    (Float.to_decimal (Persistence.r_quantity r)),
    (Float.to_decimal (Persistence.r_filled_quantity r)); try discriminate.
  destruct (Persistence.r_price r) as [f|].
  - destruct (Float.truthy f).
    + destruct (Float.to_decimal f); [|discriminate]. now intros [= <-].
    + now intros [= <-].
  - now intros [= <-].
Qed.

(** One turn of the replay keeps what is indexed, and after it the row is
    settled: replayed into any book that indexes what the turn left
    indexed, it restores nothing. *)
Lemma replay_row_settled (r : Persistence.row) (b : OrderBook) :
  (forall id, Dict.mem String.eqb id (OrderBook.orders b) = true ->
     Dict.mem String.eqb id (OrderBook.orders (fst (Persistence.replay_row r b))) = true)
  /\ forall b',
       (forall id,
          Dict.mem String.eqb id (OrderBook.orders (fst (Persistence.replay_row r b))) = true ->
          Dict.mem String.eqb id (OrderBook.orders b') = true) ->
       Persistence.replay_row r b' = (b', false).
Proof.
  unfold Persistence.replay_row at 1 2.
  destruct (Dict.mem String.eqb (Persistence.r_order_id r) (OrderBook.orders b)) eqn:M.
  { cbn [fst]. split; [auto|]. intros b' H. unfold Persistence.replay_row.
    now rewrite (H _ M). }
  assert (forall b', Persistence.rebuild r = None \/
            (exists o, Persistence.rebuild r = Some o
                       /\ (Order.price o = None
                           \/ Dec.leb (Order.remaining_quantity o) Dec.zero = true)) ->
            Persistence.replay_row r b' = (b', false)) as Hskip.
  { intros b' H. unfold Persistence.replay_row.
    destruct (Dict.mem String.eqb _ (OrderBook.orders b')); [reflexivity|].
    destruct H as [->|(o & -> & [->| H])]; try reflexivity.
    destruct (Order.price o); [|reflexivity]. now rewrite H. }
  destruct (Persistence.rebuild r) as [o|] eqn:R.
  2:{ cbn [fst]. split; [auto|]. intros b' _. apply Hskip. now left. }
  destruct (Order.price o) as [p|] eqn:Hp.
  2:{ cbn [fst]. split; [auto|]. intros b' _. apply Hskip. right. exists o. auto. }
  destruct (Dec.leb (Order.remaining_quantity o) Dec.zero) eqn:L.
  { cbn [fst]. split; [auto|]. intros b' _. apply Hskip. right. exists o. auto. }
  destruct (add_order_index o false b) as [Hkeep Hnew].
  rewrite (rebuild_id r o R) in Hnew.
  assert (fst (match OrderBook.add_order o false b with
               | (Ok true, b') => (b', true)
               | (_, b') => (b', false)
               end) = snd (OrderBook.add_order o false b)) as ->.
  { destruct (OrderBook.add_order o false b) as [[[|]| |] b2]; reflexivity. }
  split; [exact Hkeep|].
  intros b' H. unfold Persistence.replay_row. now rewrite (H _ Hnew).
Qed.

(** X11 (recovery is idempotent): replaying the stored orders a second
    time into the book that the first replay produced restores nothing
    and leaves that book as it is, whatever the table holds and whatever
    the book held before. *)
Theorem replay_idempotent (symbol : string) (snap_ts : option string)
  (table : list (string * Persistence.row)) (b : OrderBook) :
  Persistence._replay_orders symbol snap_ts table
    (fst (Persistence._replay_orders symbol snap_ts table b))
  = (fst (Persistence._replay_orders symbol snap_ts table b), 0).
Proof.
  unfold Persistence._replay_orders.
  set (step := fun (acc : OrderBook * Z) r =>
                 let (b', restored) := Persistence.replay_row r (fst acc) in
                 (b', if restored then snd acc + 1 else snd acc)).
  assert (forall rows b0 n,
            (forall id, Dict.mem String.eqb id (OrderBook.orders b0) = true ->
               Dict.mem String.eqb id
                 (OrderBook.orders (fst (fold_left step rows (b0, n)))) = true)
            /\ forall b', (forall id,
                   Dict.mem String.eqb id
                     (OrderBook.orders (fst (fold_left step rows (b0, n)))) = true ->
                   Dict.mem String.eqb id (OrderBook.orders b') = true) ->
                 forall r, In r rows -> Persistence.replay_row r b' = (b', false)) as H.
  { induction rows as [|r rows IH]; intros b0 n.
    - cbn. split; [auto|]. intros b' _ r [].
    - cbn [fold_left]. unfold step at 2 4. cbn [fst snd].
      destruct (replay_row_settled r b0) as [Hkeep Hsettled].
      destruct (Persistence.replay_row r b0) as [b1 restored]. cbn [fst] in *.
      destruct (IH b1 (if restored then n + 1 else n)) as [IH1 IH2].
      split.
      + intros id Hid. apply IH1. now apply Hkeep.
      + intros b' Hb' r' [<-|Hin].
        * apply Hsettled. intros id Hid. apply Hb'. now apply IH1.
        * now apply (IH2 b' Hb'). }
  destruct (H (Persistence.query symbol snap_ts table) b 0) as [_ H2].
  set (b1 := fst (fold_left step (Persistence.query symbol snap_ts table) (b, 0))) in *.
  specialize (H2 b1 (fun _ Hid => Hid)).
  clearbody b1. clear H. revert H2.
  generalize (Persistence.query symbol snap_ts table) as rows.
  induction rows as [|r rows IH]; intros H2; [reflexivity|].
  cbn [fold_left]. unfold step at 2. cbn [fst snd].
  rewrite (H2 r (or_introl eq_refl)). apply IH.
  intros r' Hin. apply H2. now right.
Qed.

(* ================================================================= *)
(** * Stored timestamps compare as the times they denote *)

Lemma digit_compare (a b : Z) :
  0 <= a <= 9 -> 0 <= b <= 9 -> Ascii.compare (digit a) (digit b) = (a ?= b).
Proof.
  intros Ha Hb.
  assert (a = 0 \/ a = 1 \/ a = 2 \/ a = 3 \/ a = 4 \/ a = 5 \/ a = 6 \/ a = 7
          \/ a = 8 \/ a = 9) as Ca by lia.
  assert (b = 0 \/ b = 1 \/ b = 2 \/ b = 3 \/ b = 4 \/ b = 5 \/ b = 6 \/ b = 7
          \/ b = 8 \/ b = 9) as Cb by lia.
  repeat (destruct Ca as [->|Ca]); try subst a;
    repeat (destruct Cb as [->|Cb]); try subst b; reflexivity.
Qed.

Lemma ascii_compare_refl (c : ascii) : Ascii.compare c c = Eq.
Proof. unfold Ascii.compare. apply N.compare_refl. Qed.

Lemma compare_same_head (c : ascii) (s t : string) :
  String.compare (String c s) (String c t) = String.compare s t.
Proof. cbn [String.compare]. now rewrite ascii_compare_refl. Qed.

Lemma pad2_compare (x y : Z) (s t : string) :
  0 <= x < 100 -> 0 <= y < 100 ->
  String.compare (pad2 x ++ s) (pad2 y ++ t) = lex (x ?= y) (String.compare s t).
Proof.
  intros Hx Hy. unfold pad2. cbn [String.append String.compare].
  rewrite !digit_compare by (Z.div_mod_to_equations; lia).
  destruct (Z.compare_spec (x / 10) (y / 10)) as [E1|E1|E1];
    destruct (Z.compare_spec (x mod 10) (y mod 10)) as [E2|E2|E2];
    destruct (Z.compare_spec x y) as [E|E|E]; cbn [lex]; try reflexivity;
    exfalso; Z.div_mod_to_equations; lia.
Qed.

Lemma lex_split (base x y : Z) (c : comparison) :
  0 < base -> 0 <= x -> 0 <= y ->
  lex (x / base ?= y / base) (lex (x mod base ?= y mod base) c) = lex (x ?= y) c.
Proof.
  intros Hb Hx Hy.
  destruct (Z.compare_spec (x / base) (y / base)) as [E1|E1|E1];
    destruct (Z.compare_spec (x mod base) (y mod base)) as [E2|E2|E2];
    destruct (Z.compare_spec x y) as [E|E|E]; cbn [lex]; try reflexivity;
    exfalso; Z.div_mod_to_equations; nia.
Qed.

Lemma pad4_compare (x y : Z) (s t : string) :
  0 <= x < 10000 -> 0 <= y < 10000 ->
  String.compare (pad4 x ++ s) (pad4 y ++ t) = lex (x ?= y) (String.compare s t).
Proof.
  intros Hx Hy.
  change (pad4 x ++ s)%string with (pad2 (x / 100) ++ (pad2 (x mod 100) ++ s))%string.
  change (pad4 y ++ t)%string with (pad2 (y / 100) ++ (pad2 (y mod 100) ++ t))%string.
  rewrite !pad2_compare by (Z.div_mod_to_equations; lia).
  apply lex_split; lia.
Qed.

Lemma pad6_compare (x y : Z) :
  0 <= x < 1000000 -> 0 <= y < 1000000 ->
  String.compare (pad6 x) (pad6 y) = (x ?= y).
Proof.
  intros Hx Hy.
  change (pad6 x) with (pad2 (x / 10000)
                        ++ (pad2 ((x / 100) mod 100) ++ (pad2 (x mod 100) ++ "")))%string.
  change (pad6 y) with (pad2 (y / 10000)
                        ++ (pad2 ((y / 100) mod 100) ++ (pad2 (y mod 100) ++ "")))%string.
  rewrite !pad2_compare by (Z.div_mod_to_equations; lia).
  cbn [String.compare].
  destruct (Z.compare_spec (x / 10000) (y / 10000)) as [E1|E1|E1];
    destruct (Z.compare_spec ((x / 100) mod 100) ((y / 100) mod 100)) as [E2|E2|E2];
    destruct (Z.compare_spec (x mod 100) (y mod 100)) as [E3|E3|E3];
    destruct (Z.compare_spec x y) as [E|E|E]; cbn [lex]; try reflexivity;
    exfalso; Z.div_mod_to_equations; lia.
Qed.

(** X12 (timestamps are stored in an order-preserving form): for the
    datetimes that [datetime] constructs, the text that [isoformat] writes
    into the database compares, byte by byte as SQLite compares TEXT, exactly as the
    datetimes compare in time; hence [ORDER BY timestamp ASC] of the replay
    is the order in time and [timestamp > ?] selects the later rows. *)
Theorem isoformat_chronological (a b : datetime) :
  valid_datetime a = true -> valid_datetime b = true ->
  String.compare (isoformat a) (isoformat b) = chronological a b
  /\ String.ltb (isoformat a) (isoformat b)
     = match chronological a b with Lt => true | _ => false end.
Proof.
  intros Ha Hb.
  apply valid_datetime_spec in Ha as (A1 & A2 & A3 & A4 & A5 & A6 & A7).
  apply valid_datetime_spec in Hb as (B1 & B2 & B3 & B4 & B5 & B6 & B7).
  assert (String.compare (isoformat a) (isoformat b) = chronological a b) as H.
  { unfold isoformat, chronological.
    rewrite pad4_compare by lia.
    change ("-" ++ ?s)%string with (String "-" s).
    rewrite compare_same_head, pad2_compare by lia.
    change ("-" ++ ?s)%string with (String "-" s).
    rewrite compare_same_head, pad2_compare by lia.
    change ("T" ++ ?s)%string with (String "T" s).
    rewrite compare_same_head, pad2_compare by lia.
    change (":" ++ ?s)%string with (String ":" s).
    rewrite compare_same_head, pad2_compare by lia.
    change (":" ++ ?s)%string with (String ":" s).
    rewrite compare_same_head, pad2_compare by lia.
    do 6 f_equal.
    destruct (Z.eqb_spec (microsecond a) 0) as [Ea|Ea];
      destruct (Z.eqb_spec (microsecond b) 0) as [Eb|Eb].
    - now rewrite Ea, Eb.
    - rewrite Ea. cbn [String.append String.compare]. symmetry. apply Z.compare_lt_iff. lia.
    - rewrite Eb. cbn [String.append String.compare]. symmetry. apply Z.compare_gt_iff. lia.
    - change ("." ++ ?s)%string with (String "." s).
      rewrite compare_same_head. apply pad6_compare; lia. }
  split; [exact H|]. unfold String.ltb. now rewrite H.
Qed.

(** Midnight and one microsecond later. *)
Lemma isoformat_chronological_stamp :
  String.ltb (isoformat stamp) (isoformat (mkDatetime 2024 1 1 0 0 0 1)) = true.
Proof.
  refine (eq_trans (proj2 (isoformat_chronological stamp (mkDatetime 2024 1 1 0 0 0 1) _ _)) _);
    vm_compute; reflexivity.
Defined.

